(** * LinkLoom: bookmark synchronisation core

    A shallow embedding of the synchronisation subsystem of LinkLoom
    (app/services/sync.py, app/api/routes.py, app/services/dead_link_jobs.py,
    app/models.py, app/services/common.py) and the properties stated for it.

    The relational store is a record of tables, each table a list of rows in
    row-id order.  Handlers are functions from a store to a result and a new
    store.  Python exceptions that the modelled code can raise are results of
    their own.  Library primitives the code calls (dateutil, urllib,
    itsdangerous, the content fetcher) are fields of the [External] class. *)

From Stdlib Require Import ZArith Lia Bool Ascii.
From stdpp Require Import base option strings list gmap sorting pretty.

Open Scope Z_scope.

(** ** Python primitives

    Strings are byte strings; white space and letter case are those of
    ASCII. *)

Module Py.

(** [str.isspace] on the ASCII range. *)
Definition isspace (c : ascii) : bool :=
  let n := Ascii.nat_of_ascii c in
  ((9 <=? n)%nat && (n <=? 13)%nat) || ((28 <=? n)%nat && (n <=? 32)%nat).

Fixpoint lstrip (s : string) : string :=
  match s with
  | EmptyString => EmptyString
  | String c s' => if isspace c then lstrip s' else s
  end.

(** [rstrip] keeps a character when it is not white space or when something
    that is kept follows it. *)
Fixpoint rstrip (s : string) : string :=
  match s with
  | EmptyString => EmptyString
  | String c s' =>
      match rstrip s' with
      | EmptyString => if isspace c then EmptyString else String c EmptyString
      | r => String c r
      end
  end.

Definition strip (s : string) : string := rstrip (lstrip s).

Definition lower_char (c : ascii) : ascii :=
  let n := Ascii.nat_of_ascii c in
  if ((65 <=? n)%nat && (n <=? 90)%nat)%bool
  then Ascii.ascii_of_nat (n + 32) else c.

Fixpoint lower (s : string) : string :=
  match s with
  | EmptyString => EmptyString
  | String c s' => String (lower_char c) (lower s')
  end.

(** Truth value of a string: [not s] is [negb (truthy s)]. *)
Definition truthy (s : string) : bool :=
  match s with EmptyString => false | _ => true end.

(** [s or d] for strings. *)
Definition str_or (s d : string) : string := if truthy s then s else d.

(** [(v or "")] where [v] is a string or [None]. *)
Definition or_empty (v : option string) : string := default EmptyString v.

(** [a or b] where both are optional and a present value is judged by
    [t]. *)
Definition opt_or {A} (t : A -> bool) (a b : option A) : option A :=
  match a with
  | Some x => if t x then a else b
  | None => b
  end.

(** [s.replace(a, b)] for single characters. *)
Fixpoint replace_char (a b : ascii) (s : string) : string :=
  match s with
  | EmptyString => EmptyString
  | String c s' =>
      String (if Ascii.eqb c a then b else c) (replace_char a b s')
  end.

(** [s.split(sep)] for a single-character separator: never empty. *)
Fixpoint split (sep : ascii) (s : string) : list string :=
  match s with
  | EmptyString => [EmptyString]
  | String c s' =>
      if Ascii.eqb c sep then EmptyString :: split sep s'
      else match split sep s' with
           | [] => [String c EmptyString]
           | w :: ws => String c w :: ws
           end
  end.

(** [sep.join(parts)]. *)
Definition join (sep : string) (parts : list string) : string :=
  String.concat sep parts.

(** Insertion of a string in a sorted list without duplicates:
    [sorted(set(...))] is a fold of it. *)
Fixpoint insert_sorted (x : string) (l : list string) : list string :=
  match l with
  | [] => [x]
  | y :: l' =>
      match String.compare x y with
      | Lt => x :: l
      | Eq => l
      | Gt => y :: insert_sorted x l'
      end
  end.

Definition sorted_set (l : list string) : list string :=
  foldr insert_sorted [] l.

(** JSON scalars as they arrive in a request body. *)
Inductive value :=
| VNone
| VBool (b : bool)
| VInt (z : Z)
| VStr (s : string)
| VStrs (l : list string).

(** A JSON object. *)
Abbreviation dict := (gmap string value).

Definition get (d : dict) (k : string) : value := default VNone (d !! k).

(** [k in d]. *)
Definition contains (d : dict) (k : string) : bool :=
  match d !! k with Some _ => true | None => false end.

Definition value_truthy (v : value) : bool :=
  match v with
  | VNone => false
  | VBool b => b
  | VInt z => negb (z =? 0)
  | VStr s => truthy s
  | VStrs l => match l with [] => false | _ => true end
  end.

(** [a or b] on JSON values. *)
Definition or_ (a b : value) : value := if value_truthy a then a else b.

(** Typed views of a JSON value.  A text field holds a string or null, an
    id field an integer or null, a tag field a list of strings or null;
    another JSON type in such a field reads as null. *)
Definition as_str (v : value) : option string :=
  match v with VStr s => Some s | _ => None end.

Definition as_int (v : value) : option Z :=
  match v with VInt z => Some z | _ => None end.

Definition as_strs (v : value) : list string :=
  match v with VStrs l => l | _ => [] end.

End Py.

(** ** Exceptions and results *)

(** [Diverged] is not a Python exception: a loop of the model that is given
    a number of steps returns it when the steps run out. *)
Inductive exn := TypeError | RecursionError | KeyError | Diverged.

Inductive result (A : Type) :=
| Ok (a : A)
| Raise (e : exn).

Arguments Ok {A} a.
Arguments Raise {A} e.

#[global] Instance result_bind : MBind result := fun A B k m =>
  match m with
  | Ok a => k a
  | Raise e => Raise e
  end.

(** A loop body folded over a list, stopping at the first exception. *)
Fixpoint rfold {A S} (f : S -> A -> result S) (s : S) (l : list A) : result S :=
  match l with
  | [] => Ok s
  | x :: l' => s' ← f s x; rfold f s' l'
  end.

(** ** app/models.py *)

(** A [datetime]: the wall-clock reading in microseconds since the epoch and
    the UTC offset of its [tzinfo] in microseconds, [None] for a naive
    value. *)
Record datetime := { wall : Z; tzinfo : option Z }.

#[global] Instance datetime_eq_dec : EqDecision datetime.
Proof. solve_decision. Defined.

#[global] Instance value_eq_dec : EqDecision Py.value.
Proof. solve_decision. Defined.

(** [d.replace(tzinfo=timezone.utc)]. *)
Definition replace_tzinfo_utc (d : datetime) : datetime :=
  {| wall := wall d; tzinfo := Some 0 |}.

(** [a >= b] on datetimes.  Two aware values compare by instant, two naive
    values by wall clock, and Python raises [TypeError] for a naive value
    against an aware one. *)
Definition datetime_ge (a b : datetime) : result bool :=
  match tzinfo a, tzinfo b with
  | Some oa, Some ob => Ok (wall b - ob <=? wall a - oa)
  | None, None => Ok (wall b <=? wall a)
  | _, _ => Raise TypeError
  end.

(** The instant a datetime denotes, a naive one read as UTC.  The store
    orders a timestamp column by it. *)
Definition instant (d : datetime) : Z := wall d - default 0 (tzinfo d).

(** [utcnow()] at clock reading [t]. *)
Definition utcnow (t : Z) : datetime := {| wall := t; tzinfo := Some 0 |}.

Module Folder.
Record t := mk {
  id : Z;
  user_id : Z;
  name : string;
  parent_id : option Z;
  created_at : datetime;
  updated_at : datetime }.
Definition set_name (v : string) (f : t) : t :=
  mk (id f) (user_id f) v (parent_id f) (created_at f) (updated_at f).
Definition set_parent_id (v : option Z) (f : t) : t :=
  mk (id f) (user_id f) (name f) v (created_at f) (updated_at f).
Definition set_updated_at (v : datetime) (f : t) : t :=
  mk (id f) (user_id f) (name f) (parent_id f) (created_at f) v.
End Folder.

Module Bookmark.
Record t := mk {
  id : Z;
  user_id : Z;
  folder_id : option Z;
  deleted_by : option Z;
  url : string;
  normalized_url : string;
  title : option string;
  notes : option string;
  link_status : option string;
  last_checked_at : option datetime;
  created_at : datetime;
  updated_at : datetime;
  deleted_at : option datetime;
  tags : list string }.
Definition set_folder_id (v : option Z) (b : t) : t :=
  mk (id b) (user_id b) v (deleted_by b) (url b) (normalized_url b) (title b)
     (notes b) (link_status b) (last_checked_at b) (created_at b)
     (updated_at b) (deleted_at b) (tags b).
Definition set_deleted (at_ : option datetime) (by_ : option Z) (b : t) : t :=
  mk (id b) (user_id b) (folder_id b) by_ (url b) (normalized_url b) (title b)
     (notes b) (link_status b) (last_checked_at b) (created_at b)
     (updated_at b) at_ (tags b).
Definition set_url (u n : string) (b : t) : t :=
  mk (id b) (user_id b) (folder_id b) (deleted_by b) u n (title b)
     (notes b) (link_status b) (last_checked_at b) (created_at b)
     (updated_at b) (deleted_at b) (tags b).
Definition set_title (v : option string) (b : t) : t :=
  mk (id b) (user_id b) (folder_id b) (deleted_by b) (url b)
     (normalized_url b) v (notes b) (link_status b) (last_checked_at b)
     (created_at b) (updated_at b) (deleted_at b) (tags b).
Definition set_notes (v : option string) (b : t) : t :=
  mk (id b) (user_id b) (folder_id b) (deleted_by b) (url b)
     (normalized_url b) (title b) v (link_status b) (last_checked_at b)
     (created_at b) (updated_at b) (deleted_at b) (tags b).
Definition set_link_status (s : option string) (c : option datetime) (b : t)
  : t :=
  mk (id b) (user_id b) (folder_id b) (deleted_by b) (url b)
     (normalized_url b) (title b) (notes b) s c
     (created_at b) (updated_at b) (deleted_at b) (tags b).
Definition set_updated_at (v : datetime) (b : t) : t :=
  mk (id b) (user_id b) (folder_id b) (deleted_by b) (url b)
     (normalized_url b) (title b) (notes b) (link_status b)
     (last_checked_at b) (created_at b) v (deleted_at b) (tags b).
Definition set_tags (v : list string) (b : t) : t :=
  mk (id b) (user_id b) (folder_id b) (deleted_by b) (url b)
     (normalized_url b) (title b) (notes b) (link_status b)
     (last_checked_at b) (created_at b) (updated_at b) (deleted_at b) v.
End Bookmark.

Module BookmarkContent.
Record t := mk {
  bookmark_id : Z;
  extracted_text : option string;
  extracted_at : option datetime;
  content_hash : option string;
  fetch_status : option string;
  fetch_error : option string }.
End BookmarkContent.

Module Tag.
Record t := mk { id : Z; user_id : Z; name : string }.
End Tag.

Module SyncClient.
Record t := mk {
  id : Z;
  user_id : Z;
  client_id : string;
  platform : option string;
  last_cursor : Z }.
Definition set_platform (v : option string) (c : t) : t :=
  mk (id c) (user_id c) (client_id c) v (last_cursor c).
Definition set_last_cursor (v : Z) (c : t) : t :=
  mk (id c) (user_id c) (client_id c) (platform c) v.
End SyncClient.

(** What [serialize_bookmark_for_sync] and [serialize_folder_for_sync] put in
    an event. *)
Inductive payload :=
| BookmarkPayload (id : Z) (url : string) (title notes : option string)
    (folder_id : option Z) (tags : list string) (updated_at : datetime)
    (deleted_at : option datetime)
| FolderPayload (id : Z) (name : string) (parent_id : option Z)
    (updated_at : datetime).

Module SyncEvent.
Record t := mk {
  id : Z;
  user_id : Z;
  entity_type : string;
  entity_id : option Z;
  action : string;
  payload_ : payload;
  created_at : datetime }.
End SyncEvent.

Module DeadLinkJob.
Record t := mk {
  id : Z;
  user_id : Z;
  status : string;
  progress : Z;
  total_targets : Z;
  total_checked : Z;
  total_alive : Z;
  total_problematic : Z;
  total_errors : Z;
  error_message : option string }.
End DeadLinkJob.

Module ApiToken.
Record t := mk {
  id : Z;
  user_id : Z;
  name : string;
  token_hash : string;
  last_used_at : option datetime;
  revoked_at : option datetime }.
Definition set_last_used_at (v : option datetime) (r : t) : t :=
  mk (id r) (user_id r) (name r) (token_hash r) v (revoked_at r).
End ApiToken.

#[global] Instance Folder_eq_dec : EqDecision Folder.t.
Proof. solve_decision. Defined.

#[global] Instance Bookmark_eq_dec : EqDecision Bookmark.t.
Proof. solve_decision. Defined.

(** The store: one list of rows per table, in row-id order. *)
Record db := mkdb {
  folders : list Folder.t;
  bookmarks : list Bookmark.t;
  bookmark_content : list BookmarkContent.t;
  tags : list Tag.t;
  sync_clients : list SyncClient.t;
  sync_events : list SyncEvent.t;
  api_tokens : list ApiToken.t }.

Definition with_folders (v : list Folder.t) (d : db) : db :=
  mkdb v (bookmarks d) (bookmark_content d) (tags d) (sync_clients d)
       (sync_events d) (api_tokens d).
Definition with_bookmarks (v : list Bookmark.t) (d : db) : db :=
  mkdb (folders d) v (bookmark_content d) (tags d) (sync_clients d)
       (sync_events d) (api_tokens d).
Definition with_bookmark_content (v : list BookmarkContent.t) (d : db) : db :=
  mkdb (folders d) (bookmarks d) v (tags d) (sync_clients d) (sync_events d)
       (api_tokens d).
Definition with_tags (v : list Tag.t) (d : db) : db :=
  mkdb (folders d) (bookmarks d) (bookmark_content d) v (sync_clients d)
       (sync_events d) (api_tokens d).
Definition with_sync_clients (v : list SyncClient.t) (d : db) : db :=
  mkdb (folders d) (bookmarks d) (bookmark_content d) (tags d) v
       (sync_events d) (api_tokens d).
Definition with_sync_events (v : list SyncEvent.t) (d : db) : db :=
  mkdb (folders d) (bookmarks d) (bookmark_content d) (tags d)
       (sync_clients d) v (api_tokens d).
Definition with_api_tokens (v : list ApiToken.t) (d : db) : db :=
  mkdb (folders d) (bookmarks d) (bookmark_content d) (tags d)
       (sync_clients d) (sync_events d) v.

(** An integer primary key takes the next value above every id in the
    table. *)
Definition next_id (ids : list Z) : Z := 1 + foldr Z.max 0 ids.

(** [Query.first()]. *)
Definition first {A} (p : A -> bool) (rows : list A) : option A :=
  List.find p rows.

Definition opt_eqb (a b : option Z) : bool := bool_decide (a = b).

(** ** Library primitives *)

(** [urllib.parse.ParseResult]. *)
Record ParseResult := {
  scheme : string;
  netloc : string;
  path : string;
  params : string;
  query : string;
  fragment : string }.

(** [app.services.content.ExtractedContent], the result of one fetch. *)
Record ExtractedContent := {
  extracted_title : option string;
  extracted_text_ : string;
  extracted_status : string;
  extracted_error : option string }.

(** What the code takes from outside the repository.  [isoparse] and
    [serializer_loads] return [None] where the library raises; the signed
    token is checked against the clock, so [serializer_loads] reads it;
    [repr_list] is the text of a list of strings; [recursion_limit] is the
    depth of the interpreter's stack. *)
Class External := {
  isoparse : string -> option datetime;
  urlparse : string -> ParseResult;
  parse_qsl : string -> list (string * string);
  urlencode : list (string * string) -> string;
  urlunparse : ParseResult -> string;
  serializer_loads :
    string (* secret_key *) -> string (* salt *) -> string (* token *) ->
    Z (* max_age *) -> Z (* clock *) -> option Py.dict;
  fetch_and_extract : string -> ExtractedContent;
  sha256_hexdigest : string -> string;
  repr_list : list string -> string;
  recursion_limit : nat }.

(** ** app/services/common.py *)

Section Common.
Context `{External}.

Definition pair_leb (a b : string * string) : bool :=
  match String.compare (fst a) (fst b) with
  | Lt => true
  | Gt => false
  | Eq => String.leb (snd a) (snd b)
  end.

(** [sorted] on a list of pairs of strings (stable insertion). *)
Fixpoint insert_pair (x : string * string) (l : list (string * string))
  : list (string * string) :=
  match l with
  | [] => [x]
  | y :: l' => if pair_leb x y then x :: l else y :: insert_pair x l'
  end.

Definition sorted_pairs (l : list (string * string))
  : list (string * string) :=
  foldr insert_pair [] l.

Definition normalize_url (url : string) : string :=
  if negb (Py.truthy url) then EmptyString
  else
    let parsed := urlparse (Py.strip url) in
    let scheme' := Py.lower (Py.str_or (scheme parsed) "https") in
    let netloc' := Py.lower (netloc parsed) in
    let path' := Py.str_or (path parsed) "/" in
    let query_items := sorted_pairs (parse_qsl (query parsed)) in
    let normalized_query := urlencode query_items in
    urlunparse {| scheme := scheme'; netloc := netloc'; path := path';
                  params := EmptyString; query := normalized_query;
                  fragment := EmptyString |}.

Definition parse_tags (raw : string) : list string :=
  if negb (Py.truthy raw) then []
  else
    let tokens :=
      map (fun t => Py.lower (Py.strip t))
          (Py.split "," (Py.replace_char ";" "," raw)) in
    Py.sorted_set (List.filter Py.truthy tokens).

End Common.

(** ** app/services/sync.py *)

Definition SYNC_MODE_REPLACE_LOCAL : string := "replace_local_with_server".
Definition SYNC_MODE_REPLACE_SERVER : string := "replace_server_with_local".
Definition SYNC_MODE_TWO_WAY : string := "two_way_merge".

Definition SYNC_FIRST_MODES : list string :=
  [SYNC_MODE_REPLACE_LOCAL; SYNC_MODE_REPLACE_SERVER; SYNC_MODE_TWO_WAY].

(** [SYNC_CONFIRM_PHRASES.get(mode)]. *)
Definition SYNC_CONFIRM_PHRASES (mode : string) : option string :=
  if String.eqb mode SYNC_MODE_REPLACE_LOCAL
  then Some "DELETE ALL LOCAL BOOKMARKS"%string
  else if String.eqb mode SYNC_MODE_REPLACE_SERVER
  then Some "DELETE ALL SERVER BOOKMARKS"%string
  else if String.eqb mode SYNC_MODE_TWO_WAY
  then Some "SYNC BOOKMARKS BOTH WAYS"%string
  else None.

Definition CONFIRM_PHRASE : string := "DELETE ALL LOCAL BOOKMARKS".

(** One pushed operation: the keys of [op] the code reads.  A missing
    ["bookmark"] or ["folder"] object is the empty one ([op.get(..) or {}]). *)
Record push_op := {
  op_entity_type : option string;
  op_op : option string;
  op_id : Py.value;
  op_updated_at : Py.value;
  op_bookmark : Py.dict;
  op_folder : Py.dict }.

(** The dictionary an operation returns: a status with the id of the entity,
    or ["skipped"] with a reason. *)
Inductive push_result :=
| BookmarkStatus (status : string) (bookmark_id : Z)
| FolderStatus (status : string) (folder_id : Z)
| Skipped (reason : string).

Section Sync.
Context `{External}.

Definition verify_confirmation_token (secret_key token : string)
    (max_age : Z) (expected_user_id : Z) (expected_client_id : string)
    (expected_mode : option string) (clock : Z) : option Py.dict :=
  match serializer_loads secret_key "sync-first-overwrite" token max_age clock
  with
  | None => None
  | Some payload =>
      if negb (bool_decide (Py.get payload "user_id" = Py.VInt expected_user_id))
         || negb (bool_decide
                    (Py.get payload "client_id" = Py.VStr expected_client_id))
      then None
      else
        match expected_mode with
        | Some m =>
            if Py.truthy m
               && negb (bool_decide (Py.get payload "mode" = Py.VStr m))
            then None else Some payload
        | None => Some payload
        end
  end.

Definition serialize_bookmark_for_sync (b : Bookmark.t) : payload :=
  BookmarkPayload (Bookmark.id b) (Bookmark.url b) (Bookmark.title b)
    (Bookmark.notes b) (Bookmark.folder_id b) (Bookmark.tags b)
    (Bookmark.updated_at b) (Bookmark.deleted_at b).

Definition serialize_folder_for_sync (f : Folder.t) : payload :=
  FolderPayload (Folder.id f) (Folder.name f) (Folder.parent_id f)
    (Folder.updated_at f).

Definition ensure_sync_client (user_id : Z) (client_id : string)
    (platform : option string) (d : db) : SyncClient.t * db :=
  match first (fun c => (SyncClient.user_id c =? user_id)
                        && String.eqb (SyncClient.client_id c) client_id)
              (sync_clients d) with
  | None =>
      let c := SyncClient.mk (next_id (map SyncClient.id (sync_clients d)))
                 user_id client_id platform 0 in
      (c, with_sync_clients (sync_clients d ++ [c]) d)
  | Some c =>
      match platform with
      | Some p =>
          if Py.truthy p
             && negb (bool_decide (SyncClient.platform c = Some p))
          then
            let c' := SyncClient.set_platform (Some p) c in
            (c', with_sync_clients
                   (map (fun r => if SyncClient.id r =? SyncClient.id c
                                  then c' else r) (sync_clients d)) d)
          else (c, d)
      | None => (c, d)
      end
  end.

Definition log_sync_event (clock : Z) (user_id : Z) (entity_type : string)
    (entity_id : option Z) (action : string) (p : payload) (d : db) : db :=
  let e := SyncEvent.mk (next_id (map SyncEvent.id (sync_events d)))
             user_id entity_type entity_id action p (utcnow clock) in
  with_sync_events (sync_events d ++ [e]) d.

Definition _parse_client_time (value : Py.value) : option datetime :=
  if negb (Py.value_truthy value) then None
  else match value with
       | Py.VStr s => isoparse s
       | _ => None
       end.

Definition _normalize_notes_value (value : option string) : option string :=
  let text := Py.strip (Py.or_empty value) in
  if negb (Py.truthy text) then None
  else if String.eqb (Py.lower text) "none" then None
  else Some text.

Definition _server_time_is_newer_or_equal
    (server_time client_time : option datetime) : result bool :=
  match server_time, client_time with
  | Some server_time, Some client_time =>
      let server_value :=
        match tzinfo server_time with
        | None => replace_tzinfo_utc server_time
        | Some _ => server_time
        end in
      datetime_ge server_value client_time
  | _, _ => Ok false
  end.

(** The row of an object of the session written back.  [onupdate=utcnow]:
    a row that differs from the stored one takes the clock as its
    [updated_at]. *)
Definition flush_bookmark (clock : Z) (b : Bookmark.t) (d : db) : db :=
  with_bookmarks
    (map (fun r => if Bookmark.id r =? Bookmark.id b
                   then if bool_decide (r = b) then r
                        else Bookmark.set_updated_at (utcnow clock) b
                   else r) (bookmarks d)) d.

Definition flush_folder (clock : Z) (f : Folder.t) (d : db) : db :=
  with_folders
    (map (fun r => if Folder.id r =? Folder.id f
                   then if bool_decide (r = f) then r
                        else Folder.set_updated_at (utcnow clock) f
                   else r) (folders d)) d.

(** [db.session.add(Folder(...)); db.session.flush()]. *)
Definition add_folder (clock : Z) (user_id : Z) (name : string)
    (parent_id : option Z) (d : db) : Folder.t * db :=
  let f := Folder.mk (next_id (map Folder.id (folders d))) user_id name
             parent_id (utcnow clock) (utcnow clock) in
  (f, with_folders (folders d ++ [f]) d).

Definition _apply_tags (user_id : Z) (tag_names : list string) (d : db)
  : list string * db :=
  let clean := parse_tags (Py.join "," tag_names) in
  let d' :=
    foldl (fun d name =>
             match first (fun t => (Tag.user_id t =? user_id)
                                   && String.eqb (Tag.name t) name) (tags d)
             with
             | Some _ => d
             | None =>
                 with_tags
                   (tags d ++ [Tag.mk (next_id (map Tag.id (tags d)))
                                 user_id name]) d
             end) d clean in
  (clean, d').

Definition children (folder : Folder.t) (d : db) : list Folder.t :=
  List.filter (fun c => opt_eqb (Folder.parent_id c) (Some (Folder.id folder)))
              (folders d).

Definition delete_folder (folder : Folder.t) (d : db) : db :=
  with_folders
    (List.filter (fun f => negb (Folder.id f =? Folder.id folder)) (folders d))
    d.

(** The recursion of the source, one level of [depth] per Python frame. *)
Fixpoint _delete_folder_tree_for_sync (depth : nat) (clock : Z) (user_id : Z)
    (folder : Folder.t) (d : db) : result db :=
  match depth with
  | O => Raise RecursionError
  | S depth' =>
      d1 ← rfold (fun d child =>
                    _delete_folder_tree_for_sync depth' clock user_id child d)
                 d (children folder d);
      let d2 :=
        foldl (fun d bookmark =>
                 let bookmark := Bookmark.set_folder_id None bookmark in
                 log_sync_event clock user_id "bookmark"
                   (Some (Bookmark.id bookmark)) "update"
                   (serialize_bookmark_for_sync bookmark)
                   (flush_bookmark clock bookmark d))
              d1
              (List.filter
                 (fun b => opt_eqb (Bookmark.folder_id b)
                                   (Some (Folder.id folder)))
                 (bookmarks d1)) in
      Ok (delete_folder folder
            (log_sync_event clock user_id "folder" (Some (Folder.id folder))
               "delete" (serialize_folder_for_sync folder) d2))
  end.

Definition folder_name_of (folder_data : Py.dict) : string :=
  Py.str_or (Py.strip (Py.or_empty (Py.as_str (Py.get folder_data "name"))))
            "Untitled Folder".

Definition find_folder (user_id : Z) (folder_id : Z) (d : db)
  : option Folder.t :=
  first (fun f => (Folder.id f =? folder_id) && (Folder.user_id f =? user_id))
        (folders d).

Definition find_folder_by_name (user_id : Z) (name : string)
    (parent_id : option Z) (d : db) : option Folder.t :=
  first (fun f => (Folder.user_id f =? user_id)
                  && String.eqb (Folder.name f) name
                  && opt_eqb (Folder.parent_id f) parent_id)
        (folders d).

Definition _apply_folder_push_operation (clock : Z) (user_id : Z)
    (op : push_op) (d : db) : result (push_result * db) :=
  let action := Py.lower (Py.or_empty (op_op op)) in
  let folder_data := op_folder op in
  let folder_id := Py.as_int (Py.or_ (Py.get folder_data "id") (op_id op)) in
  let client_updated_at :=
    _parse_client_time
      (Py.or_ (Py.get folder_data "updated_at") (op_updated_at op)) in
  let folder := folder_id ≫= fun i => find_folder user_id i d in
  if String.eqb action "create" then
    let name := folder_name_of folder_data in
    let parent_id :=
      Py.as_int (Py.get folder_data "parent_id") ≫= fun p =>
      match find_folder user_id p d with
      | Some _ => Some p
      | None => None
      end in
    match find_folder_by_name user_id name parent_id d with
    | Some existing => Ok (FolderStatus "exists" (Folder.id existing), d)
    | None =>
        let '(folder, d1) := add_folder clock user_id name parent_id d in
        Ok (FolderStatus "created" (Folder.id folder),
            log_sync_event clock user_id "folder" (Some (Folder.id folder))
              "create" (serialize_folder_for_sync folder) d1)
    end
  else
    match folder with
    | None => Ok (Skipped "folder_not_found", d)
    | Some folder =>
        newer ← _server_time_is_newer_or_equal
                  (Some (Folder.updated_at folder)) client_updated_at;
        if (newer : bool) then Ok (Skipped "server_newer_or_equal", d)
        else if String.eqb action "update" || String.eqb action "move" then
          let '(folder1, changed1) :=
            if Py.contains folder_data "name" then
              let name := folder_name_of folder_data in
              if negb (String.eqb (Folder.name folder) name)
              then (Folder.set_name name folder, true)
              else (folder, false)
            else (folder, false) in
          let '(folder2, changed) :=
            if Py.contains folder_data "parent_id" then
              let new_parent_id := Py.as_int (Py.get folder_data "parent_id") in
              let new_parent_id :=
                if opt_eqb new_parent_id (Some (Folder.id folder))
                then None else new_parent_id in
              let new_parent_id :=
                new_parent_id ≫= fun p =>
                match find_folder user_id p d with
                | Some _ => Some p
                | None => None
                end in
              if negb (opt_eqb (Folder.parent_id folder1) new_parent_id)
              then (Folder.set_parent_id new_parent_id folder1, true)
              else (folder1, changed1)
            else (folder1, changed1) in
          if (changed : bool) then
            Ok (FolderStatus "updated" (Folder.id folder),
                log_sync_event clock user_id "folder" (Some (Folder.id folder))
                  "update" (serialize_folder_for_sync folder2)
                  (flush_folder clock folder2 d))
          else Ok (Skipped "no_changes", d)
        else if String.eqb action "delete" then
          d' ← _delete_folder_tree_for_sync recursion_limit clock user_id
                 folder d;
          Ok (FolderStatus "deleted" (Folder.id folder), d')
        else Ok (Skipped "unsupported_operation", d)
    end.

Definition find_bookmark (user_id : Z) (bookmark_id : Z) (d : db)
  : option Bookmark.t :=
  first (fun b => (Bookmark.id b =? bookmark_id)
                  && (Bookmark.user_id b =? user_id))
        (bookmarks d).

Definition is_none {A} (o : option A) : bool :=
  match o with None => true | Some _ => false end.

(** The row [rows.order_by(key.desc()).first()] selects: the first row of
    the greatest key. *)
Fixpoint first_by_desc {A} (key : A -> Z) (rows : list A) : option A :=
  match rows with
  | [] => None
  | r :: rows' =>
      match first_by_desc key rows' with
      | Some r' => if key r <? key r' then Some r' else Some r
      | None => Some r
      end
  end.

Definition _apply_bookmark_push_operation (clock : Z) (user_id : Z)
    (op : push_op) (d : db) : result (push_result * db) :=
  let action := Py.lower (Py.or_empty (op_op op)) in
  let bookmark_data := op_bookmark op in
  let bookmark_id := Py.or_ (Py.get bookmark_data "id") (op_id op) in
  let client_updated_at :=
    _parse_client_time
      (Py.or_ (Py.get bookmark_data "updated_at") (op_updated_at op)) in
  let bookmark :=
    if Py.value_truthy bookmark_id
    then Py.as_int bookmark_id ≫= fun i => find_bookmark user_id i d
    else None in
  if String.eqb action "create" then
    let raw_url :=
      Py.strip (Py.or_empty (Py.as_str (Py.get bookmark_data "url"))) in
    let normalized_url := normalize_url raw_url in
    if negb (Py.truthy normalized_url) then Ok (Skipped "invalid_url", d)
    else
      let same_url b :=
        (Bookmark.user_id b =? user_id)
        && String.eqb (Bookmark.normalized_url b) normalized_url in
      match first (fun b => same_url b && is_none (Bookmark.deleted_at b))
                  (bookmarks d) with
      | Some existing_active =>
          Ok (BookmarkStatus "exists" (Bookmark.id existing_active), d)
      | None =>
          match first_by_desc (fun b => instant (Bookmark.updated_at b))
                  (List.filter
                     (fun b => same_url b
                               && negb (is_none (Bookmark.deleted_at b)))
                     (bookmarks d)) with
          | Some existing_deleted =>
              let b := Bookmark.set_deleted None None existing_deleted in
              let b := Bookmark.set_url raw_url normalized_url b in
              let b :=
                match Py.as_str (Py.get bookmark_data "title") with
                | Some t => if Py.truthy t then Bookmark.set_title (Some t) b
                            else b
                | None => b
                end in
              let incoming_notes :=
                _normalize_notes_value
                  (Py.as_str (Py.get bookmark_data "notes")) in
              let b :=
                match incoming_notes with
                | Some n => Bookmark.set_notes (Some n) b
                | None => b
                end in
              let b :=
                if Py.contains bookmark_data "folder_id"
                then Bookmark.set_folder_id
                       (Py.as_int (Py.get bookmark_data "folder_id")) b
                else b in
              let '(b, d1) :=
                if Py.contains bookmark_data "tags" then
                  let '(clean, d1) :=
                    _apply_tags user_id
                      (Py.as_strs (Py.get bookmark_data "tags")) d in
                  (Bookmark.set_tags clean b, d1)
                else (b, d) in
              Ok (BookmarkStatus "restored" (Bookmark.id existing_deleted),
                  log_sync_event clock user_id "bookmark"
                    (Some (Bookmark.id existing_deleted)) "restore"
                    (serialize_bookmark_for_sync b)
                    (flush_bookmark clock b d1))
          | None =>
              let b0 :=
                Bookmark.mk (next_id (map Bookmark.id (bookmarks d))) user_id
                  (Py.as_int (Py.get bookmark_data "folder_id")) None
                  raw_url normalized_url
                  (Py.as_str (Py.get bookmark_data "title"))
                  (_normalize_notes_value
                     (Py.as_str (Py.get bookmark_data "notes")))
                  None None (utcnow clock) (utcnow clock) None [] in
              let '(clean, d1) :=
                _apply_tags user_id
                  (Py.as_strs (Py.get bookmark_data "tags")) d in
              let b := Bookmark.set_tags clean b0 in
              Ok (BookmarkStatus "created" (Bookmark.id b),
                  log_sync_event clock user_id "bookmark"
                    (Some (Bookmark.id b)) "create"
                    (serialize_bookmark_for_sync b)
                    (with_bookmarks (bookmarks d1 ++ [b]) d1))
          end
      end
  else
    match bookmark with
    | None => Ok (Skipped "bookmark_not_found", d)
    | Some bookmark =>
        newer ← _server_time_is_newer_or_equal
                  (Some (Bookmark.updated_at bookmark)) client_updated_at;
        if (newer : bool) then Ok (Skipped "server_newer_or_equal", d)
        else if String.eqb action "update" then
          let b :=
            if Py.contains bookmark_data "url" then
              let url :=
                Py.str_or (Py.or_empty (Py.as_str (Py.get bookmark_data "url")))
                          (Bookmark.url bookmark) in
              Bookmark.set_url url (normalize_url url) bookmark
            else bookmark in
          let b :=
            if Py.contains bookmark_data "title"
            then Bookmark.set_title (Py.as_str (Py.get bookmark_data "title")) b
            else b in
          let b :=
            if Py.contains bookmark_data "folder_id"
            then Bookmark.set_folder_id
                   (Py.as_int (Py.get bookmark_data "folder_id")) b
            else b in
          let b :=
            if Py.contains bookmark_data "notes" then
              match _normalize_notes_value
                      (Py.as_str (Py.get bookmark_data "notes")) with
              | Some n => Bookmark.set_notes (Some n) b
              | None => b
              end
            else b in
          let '(b, d1) :=
            if Py.contains bookmark_data "tags" then
              let '(clean, d1) :=
                _apply_tags user_id
                  (Py.as_strs (Py.get bookmark_data "tags")) d in
              (Bookmark.set_tags clean b, d1)
            else (b, d) in
          let b := Bookmark.set_deleted None None b in
          Ok (BookmarkStatus "updated" (Bookmark.id bookmark),
              log_sync_event clock user_id "bookmark"
                (Some (Bookmark.id bookmark)) "update"
                (serialize_bookmark_for_sync b) (flush_bookmark clock b d1))
        else if String.eqb action "delete" then
          let b :=
            Bookmark.set_deleted (Some (utcnow clock)) (Some user_id)
                                 bookmark in
          Ok (BookmarkStatus "deleted" (Bookmark.id bookmark),
              log_sync_event clock user_id "bookmark"
                (Some (Bookmark.id bookmark)) "delete"
                (serialize_bookmark_for_sync b) (flush_bookmark clock b d))
        else if String.eqb action "restore" then
          let b := Bookmark.set_deleted None None bookmark in
          Ok (BookmarkStatus "restored" (Bookmark.id bookmark),
              log_sync_event clock user_id "bookmark"
                (Some (Bookmark.id bookmark)) "restore"
                (serialize_bookmark_for_sync b) (flush_bookmark clock b d))
        else Ok (Skipped "unsupported_operation", d)
    end.

Definition apply_push_operation (clock : Z) (user_id : Z) (op : push_op)
    (d : db) : result (push_result * db) :=
  let entity_type :=
    Py.lower (Py.strip (Py.str_or (Py.or_empty (op_entity_type op))
                                  "bookmark")) in
  if String.eqb entity_type "folder"
  then _apply_folder_push_operation clock user_id op d
  else _apply_bookmark_push_operation clock user_id op d.

End Sync.

(** ** app/services/security.py *)

(** [s.removeprefix(prefix)]. *)
Definition removeprefix (prefix s : string) : string :=
  if String.prefix prefix s
  then String.substring (String.length prefix)
         (String.length s - String.length prefix) s
  else s.

Section Security.
Context `{External}.

(** The bearer token of the [Authorization] header: the user it belongs to,
    and the store with the token stamped. *)
Definition _user_from_bearer_token (clock : Z) (auth_header : string) (d : db)
  : option Z * db :=
  if negb (String.prefix "Bearer " auth_header) then (None, d)
  else
    let token := Py.strip (removeprefix "Bearer " auth_header) in
    if negb (Py.truthy token) then (None, d)
    else
      let token_hash := sha256_hexdigest token in
      match first (fun r => String.eqb (ApiToken.token_hash r) token_hash)
                  (api_tokens d) with
      | None => (None, d)
      | Some token_row =>
          if negb (is_none (ApiToken.revoked_at token_row)) then (None, d)
          else
            (Some (ApiToken.user_id token_row),
             with_api_tokens
               (map (fun r => if ApiToken.id r =? ApiToken.id token_row
                              then ApiToken.set_last_used_at
                                     (Some (utcnow clock)) r
                              else r) (api_tokens d)) d)
      end.

End Security.

(** ** app/api/routes.py *)

(** Stable insertion sort: [Query.order_by] with [leb] the order of the
    key. *)
Fixpoint insert_by {A} (leb : A -> A -> bool) (x : A) (l : list A) : list A :=
  match l with
  | [] => [x]
  | y :: l' => if leb x y then x :: l else y :: insert_by leb x l'
  end.

Definition order_by {A} (leb : A -> A -> bool) (rows : list A) : list A :=
  foldr (insert_by leb) [] rows.

(** [Query.limit(n)]; the store of the configuration (SQLite) reads a
    negative limit as no limit. *)
Definition sql_limit {A} (n : Z) (rows : list A) : list A :=
  if n <? 0 then rows else take (Z.to_nat n) rows.

(** A local folder and a local bookmark as [_parse_local_folders] and
    [_parse_local_bookmarks] produce them. *)
Module LocalFolder.
Record t := mk { id : string; parent_id : option string; title : string }.
End LocalFolder.

Module LocalBookmark.
Record t := mk {
  id : option string;
  url : string;
  normalized_url : string;
  title : option string;
  notes : option string;
  tags : list string;
  folder_local_id : option string;
  folder_path : list string;
  updated_at : Py.value }.
End LocalBookmark.

Definition _to_bool (value : Py.value) (default_ : bool) : bool :=
  match value with
  | Py.VNone => default_
  | Py.VBool b => b
  | Py.VStr s =>
      let v := Py.lower (Py.strip s) in
      String.eqb v "1" || String.eqb v "true" || String.eqb v "yes"
      || String.eqb v "on"
  | Py.VInt z => z =? 1
  | Py.VStrs _ => false
  end.

Definition _normalize_sync_mode (raw_mode : option string) : string :=
  let mode :=
    Py.str_or (Py.lower (Py.strip (Py.or_empty raw_mode)))
              SYNC_MODE_REPLACE_LOCAL in
  if negb (bool_decide (mode ∈ SYNC_FIRST_MODES)) then EmptyString else mode.

Definition _active_server_bookmarks (user_id : Z) (d : db)
  : list Bookmark.t :=
  order_by (fun a b => instant (Bookmark.updated_at b)
                       <=? instant (Bookmark.updated_at a))
    (List.filter (fun b => (Bookmark.user_id b =? user_id)
                           && is_none (Bookmark.deleted_at b))
                 (bookmarks d)).

Definition _sync_snapshot_server_bookmarks (user_id : Z) (d : db)
  : list Bookmark.t :=
  order_by (fun a b =>
              (instant (Bookmark.created_at a)
               <? instant (Bookmark.created_at b))
              || ((instant (Bookmark.created_at a)
                   =? instant (Bookmark.created_at b))
                  && (Bookmark.id a <=? Bookmark.id b)))
    (List.filter (fun b => (Bookmark.user_id b =? user_id)
                           && is_none (Bookmark.deleted_at b))
                 (bookmarks d)).

Definition _active_server_folders (user_id : Z) (d : db) : list Folder.t :=
  order_by (fun a b => String.leb (Folder.name a) (Folder.name b))
    (List.filter (fun f => Folder.user_id f =? user_id) (folders d)).

(** [counts[k] = counts.get(k, 0) + 1]. *)
Definition bump (k : string) (counts : gmap string Z) : gmap string Z :=
  <[k := default 0 (counts !! k) + 1]> counts.

Record merge_counts := {
  local_add_to_server : Z;
  server_add_to_local : Z;
  matched_ : Z }.

Definition _estimate_two_way_merge_counts
    (local_bookmarks : list LocalBookmark.t)
    (server_bookmarks : list Bookmark.t) : merge_counts :=
  let local_counts :=
    foldl (fun c item => bump (LocalBookmark.normalized_url item) c)
          (∅ : gmap string Z) local_bookmarks in
  let server_counts :=
    foldl (fun c bookmark =>
             let normalized := Bookmark.normalized_url bookmark in
             if negb (Py.truthy normalized) then c else bump normalized c)
          (∅ : gmap string Z) server_bookmarks in
  foldl (fun acc normalized =>
           let local_count := default 0 (local_counts !! normalized) in
           let server_count := default 0 (server_counts !! normalized) in
           let overlap := Z.min local_count server_count in
           {| local_add_to_server :=
                local_add_to_server acc + (local_count - overlap);
              server_add_to_local :=
                server_add_to_local acc + (server_count - overlap);
              matched_ := matched_ acc + overlap |})
        {| local_add_to_server := 0; server_add_to_local := 0;
           matched_ := 0 |}
        (elements (dom local_counts ∪ dom server_counts)).

Definition _preflight_warning (mode : string) : string :=
  if String.eqb mode SYNC_MODE_REPLACE_LOCAL then
    "This operation can replace your entire browser bookmark tree with LinkLoom server bookmarks."
  else if String.eqb mode SYNC_MODE_REPLACE_SERVER then
    "This operation can replace all LinkLoom server bookmarks with your current browser bookmark tree."
  else
    "This operation merges missing bookmarks in both directions without mass deletion.".

Record impact := {
  local_deletions : Z;
  local_additions : Z;
  server_deletions : Z;
  server_additions : Z;
  impact_matched : option Z }.

Record preflight := {
  pf_mode : string;
  warning : string;
  required_phrase : string;
  local_bookmark_count : Z;
  server_bookmark_count : Z;
  pf_impact : impact;
  would_noop : bool;
  no_op_reason : option string }.

Definition _build_sync_preflight_payload (mode : string)
    (local_bookmarks : list LocalBookmark.t) (user_id : Z) (d : db)
  : result preflight :=
  let server_bookmarks := _active_server_bookmarks user_id d in
  let local_count := Z.of_nat (length local_bookmarks) in
  let server_count := Z.of_nat (length server_bookmarks) in
  let '(would_noop, no_op_reason, impact) :=
    if String.eqb mode SYNC_MODE_REPLACE_LOCAL then
      let would_noop := server_count =? 0 in
      (would_noop,
       if would_noop then Some "server_empty"%string else None,
       {| local_deletions := if would_noop then 0 else local_count;
          local_additions := if would_noop then 0 else server_count;
          server_deletions := 0;
          server_additions := 0;
          impact_matched := None |})
    else if String.eqb mode SYNC_MODE_REPLACE_SERVER then
      let would_noop := local_count =? 0 in
      (would_noop,
       if would_noop then Some "local_empty"%string else None,
       {| local_deletions := 0;
          local_additions := 0;
          server_deletions := if would_noop then 0 else server_count;
          server_additions := if would_noop then 0 else local_count;
          impact_matched := None |})
    else
      let merge_counts :=
        _estimate_two_way_merge_counts local_bookmarks server_bookmarks in
      (false, None,
       {| local_deletions := 0;
          local_additions := server_add_to_local merge_counts;
          server_deletions := 0;
          server_additions := local_add_to_server merge_counts;
          impact_matched := Some (matched_ merge_counts) |}) in
  match SYNC_CONFIRM_PHRASES mode with
  | None => Raise KeyError
  | Some phrase =>
      Ok {| pf_mode := mode;
            warning := _preflight_warning mode;
            required_phrase := phrase;
            local_bookmark_count := local_count;
            server_bookmark_count := server_count;
            pf_impact := impact;
            would_noop := would_noop;
            no_op_reason := no_op_reason |}
  end.

(** The local variables of [_ensure_server_folders_from_local] that its
    loops update, with the store. *)
Record folder_state := {
  mapping : gmap string Z;
  cache : gmap (option Z * string) Z;
  store : db }.

(** The local variables of the loop of [_two_way_merge_snapshot], with the
    store. *)
Record merge_state := {
  used_server_ids : gset Z;
  bookmark_map : gmap string Z;
  created_count : Z;
  merge_store : db }.

(** [pending = {row["id"]: row for row in local_folders}]: a later row of
    the same id takes the place of the earlier one. *)
Fixpoint dict_set_row (row : LocalFolder.t) (pending : list LocalFolder.t)
  : list LocalFolder.t :=
  match pending with
  | [] => [row]
  | r :: pending' =>
      if String.eqb (LocalFolder.id r) (LocalFolder.id row)
      then row :: pending'
      else r :: dict_set_row row pending'
  end.

Definition dict_of_rows (local_folders : list LocalFolder.t)
  : list LocalFolder.t :=
  foldl (fun pending row => dict_set_row row pending) [] local_folders.

Section Routes.
Context `{External}.

(** The walk of [_delete_server_folder_tree] over the rows [rows], one
    level of [depth] per Python frame. *)
Fixpoint walk (depth : nat) (rows : list Folder.t) (folder : Folder.t)
    (st : gset Z * list Folder.t) : result (gset Z * list Folder.t) :=
  match depth with
  | O => Raise RecursionError
  | S depth' =>
      if bool_decide (Folder.id folder ∈ st.1) then Ok st
      else
        st1 ← rfold (fun st child => walk depth' rows child st)
                ({[Folder.id folder]} ∪ st.1, st.2)
                (List.filter
                   (fun c => opt_eqb (Folder.parent_id c)
                                     (Some (Folder.id folder))) rows);
        Ok (st1.1, st1.2 ++ [folder])
  end.

Definition _delete_server_folder_tree (clock : Z) (user_id : Z) (d : db)
  : result (Z * db) :=
  let rows := List.filter (fun f => Folder.user_id f =? user_id) (folders d) in
  match rows with
  | [] => Ok (0, d)
  | _ =>
      st1 ← rfold (fun st root => walk recursion_limit rows root st)
              (∅, [])
              (List.filter (fun c => is_none (Folder.parent_id c)) rows);
      st2 ← rfold (fun st folder => walk recursion_limit rows folder st)
              st1 rows;
      let ordered := st2.2 in
      Ok (Z.of_nat (length ordered),
          foldl (fun d folder =>
                   delete_folder folder
                     (log_sync_event clock user_id "folder"
                        (Some (Folder.id folder)) "delete"
                        (serialize_folder_for_sync folder) d))
                d ordered)
  end.

(** [Folder.query.filter_by(...).first()] and, when there is none, a new
    folder with its create event. *)
Definition find_or_create_folder (clock : Z) (user_id : Z) (name : string)
    (parent_id : option Z) (d : db) : Folder.t * db :=
  match find_folder_by_name user_id name parent_id d with
  | Some folder => (folder, d)
  | None =>
      let '(folder, d1) := add_folder clock user_id name parent_id d in
      (folder,
       log_sync_event clock user_id "folder" (Some (Folder.id folder))
         "create" (serialize_folder_for_sync folder) d1)
  end.

Fixpoint ensure_path (clock : Z) (user_id : Z) (path_parts : list string)
    (parent_id : option Z) (st : folder_state) : option Z * folder_state :=
  match path_parts with
  | [] => (parent_id, st)
  | part :: path_parts' =>
      let name := Py.strip part in
      if negb (Py.truthy name)
      then ensure_path clock user_id path_parts' parent_id st
      else
        let key := (parent_id, name) in
        match cache st !! key with
        | Some cached =>
            ensure_path clock user_id path_parts' (Some cached) st
        | None =>
            let '(folder, d1) :=
              find_or_create_folder clock user_id name parent_id (store st) in
            ensure_path clock user_id path_parts' (Some (Folder.id folder))
              {| mapping := mapping st;
                 cache := <[key := Folder.id folder]> (cache st);
                 store := d1 |}
        end
  end.

(** [mapping.get(parent_local_id)]. *)
Definition mapping_get (m : gmap string Z) (k : option string) : option Z :=
  k ≫= fun k => m !! k.

(** One round of the [for] loop over [list(pending.items())]: the state
    after it, the rows left in [pending], and [progressed]. *)
Fixpoint materialize_pass (clock : Z) (user_id : Z)
    (items : list LocalFolder.t) (st : folder_state)
  : folder_state * list LocalFolder.t * bool :=
  match items with
  | [] => (st, [], false)
  | row :: items' =>
      let parent_local_id := LocalFolder.parent_id row in
      if match parent_local_id with
         | Some p => Py.truthy p && negb (bool_decide (is_Some (mapping st !! p)))
         | None => false
         end
      then
        let '(st', pending', progressed) :=
          materialize_pass clock user_id items' st in
        (st', row :: pending', progressed)
      else
        let parent_server_id := mapping_get (mapping st) parent_local_id in
        let '(folder, d1) :=
          find_or_create_folder clock user_id (LocalFolder.title row)
            parent_server_id (store st) in
        let st1 :=
          {| mapping := <[LocalFolder.id row := Folder.id folder]> (mapping st);
             cache := <[(parent_server_id, LocalFolder.title row)
                        := Folder.id folder]> (cache st);
             store := d1 |} in
        let '(st', pending', _) :=
          materialize_pass clock user_id items' st1 in
        (st', pending', true)
  end.

(** The [for] loop of the [if not progressed] branch: every row left is
    attached at the root. *)
Definition attach_at_root (clock : Z) (user_id : Z)
    (items : list LocalFolder.t) (st : folder_state) : folder_state :=
  foldl (fun st row =>
           let '(folder, d1) :=
             find_or_create_folder clock user_id (LocalFolder.title row)
               None (store st) in
           {| mapping := <[LocalFolder.id row := Folder.id folder]> (mapping st);
              cache := <[(None, LocalFolder.title row) := Folder.id folder]>
                         (cache st);
              store := d1 |})
        st items.

(** [while pending: ...], at most [steps] rounds. *)
Fixpoint materialize_loop (steps : nat) (clock : Z) (user_id : Z)
    (pending : list LocalFolder.t) (st : folder_state) : result folder_state :=
  match pending with
  | [] => Ok st
  | _ :: _ =>
      match steps with
      | O => Raise Diverged
      | S steps' =>
          let '(st1, pending1, progressed) :=
            materialize_pass clock user_id pending st in
          if (progressed : bool)
          then materialize_loop steps' clock user_id pending1 st1
          else Ok (attach_at_root clock user_id pending1 st1)
      end
  end.

Definition ensure_bookmark_paths (clock : Z) (user_id : Z)
    (local_bookmarks : list LocalBookmark.t) (st : folder_state)
  : folder_state :=
  foldl (fun st bookmark =>
           let local_folder_id := LocalBookmark.folder_local_id bookmark in
           if match local_folder_id with
              | Some l => Py.truthy l && bool_decide (is_Some (mapping st !! l))
              | None => false
              end
           then st
           else
             match LocalBookmark.folder_path bookmark with
             | [] => st
             | folder_path =>
                 let '(ensured, st1) :=
                   ensure_path clock user_id folder_path None st in
                 match local_folder_id, ensured with
                 | Some l, Some e =>
                     if Py.truthy l && negb (e =? 0)
                     then {| mapping := <[l := e]> (mapping st1);
                             cache := cache st1;
                             store := store st1 |}
                     else st1
                 | _, _ => st1
                 end
             end)
        st local_bookmarks.

Definition _ensure_server_folders_from_local (clock : Z) (user_id : Z)
    (local_folders : list LocalFolder.t)
    (local_bookmarks : list LocalBookmark.t) (d : db)
  : result (gmap string Z * db) :=
  let pending := dict_of_rows local_folders in
  st ← materialize_loop (length pending) clock user_id pending
         {| mapping := ∅; cache := ∅; store := d |};
  let st' := ensure_bookmark_paths clock user_id local_bookmarks st in
  Ok (mapping st', store st').

(** [_assign_tags] for a list of tag names. *)
Definition _assign_tags (user_id : Z) (tags_input : list string) (d : db)
  : list string * db :=
  _apply_tags user_id tags_input d.

(** [routes._normalize_notes_value] has the text of
    [sync._normalize_notes_value]; the model uses the one definition. *)
Definition _create_server_bookmark_from_local (clock : Z) (user_id : Z)
    (item : LocalBookmark.t) (folder_map : gmap string Z)
    (populate_content : bool) (d : db) : option Bookmark.t * db :=
  let url := Py.strip (LocalBookmark.url item) in
  let normalized := normalize_url url in
  if negb (Py.truthy normalized) then (None, d)
  else
    let folder_id :=
      match LocalBookmark.folder_local_id item with
      | Some l => if Py.truthy l then folder_map !! l else None
      | None => None
      end in
    let bookmark :=
      Bookmark.mk (next_id (map Bookmark.id (bookmarks d))) user_id folder_id
        None url normalized (LocalBookmark.title item)
        (LocalBookmark.notes item) None None (utcnow clock) (utcnow clock)
        None [] in
    let '(names, d1) := _assign_tags user_id (LocalBookmark.tags item) d in
    let bookmark := Bookmark.set_tags names bookmark in
    let '(bookmark, contents) :=
      if populate_content then
        let extracted := fetch_and_extract (Bookmark.url bookmark) in
        let content :=
          BookmarkContent.mk (Bookmark.id bookmark)
            (Some (extracted_text_ extracted)) (Some (utcnow clock))
            (Some (sha256_hexdigest (extracted_text_ extracted)))
            (Some (extracted_status extracted)) (extracted_error extracted) in
        let bookmark :=
          Bookmark.set_link_status (Some (extracted_status extracted))
            (Some (utcnow clock)) bookmark in
        let bookmark :=
          match _normalize_notes_value (Some (extracted_text_ extracted)) with
          | Some extracted_notes =>
              Bookmark.set_notes (Some extracted_notes) bookmark
          | None =>
              if is_none (_normalize_notes_value (Bookmark.notes bookmark))
              then Bookmark.set_notes None bookmark
              else bookmark
          end in
        (bookmark, bookmark_content d1 ++ [content])
      else (bookmark, bookmark_content d1) in
    (Some bookmark,
     log_sync_event clock user_id "bookmark" (Some (Bookmark.id bookmark))
       "create" (serialize_bookmark_for_sync bookmark)
       (with_bookmark_content contents
          (with_bookmarks (bookmarks d1 ++ [bookmark]) d1))).

(** [if local_id: bookmark_map[local_id] = server_id]. *)
Definition map_local_id (local_id : option string) (server_id : Z)
    (m : gmap string Z) : gmap string Z :=
  match local_id with
  | Some l => if Py.truthy l then <[l := server_id]> m else m
  | None => m
  end.

Record replace_counts := {
  server_deleted : Z;
  folders_deleted : Z;
  server_created : Z }.

Definition _replace_server_with_local_snapshot (clock : Z) (user_id : Z)
    (local_folders : list LocalFolder.t)
    (local_bookmarks : list LocalBookmark.t) (d : db)
  : result (gmap string Z * gmap string Z * replace_counts * list Z * db) :=
  let active_server_bookmarks := _active_server_bookmarks user_id d in
  let d1 :=
    foldl (fun d bookmark =>
             let bookmark :=
               Bookmark.set_deleted (Some (utcnow clock)) (Some user_id)
                                    bookmark in
             log_sync_event clock user_id "bookmark"
               (Some (Bookmark.id bookmark)) "delete"
               (serialize_bookmark_for_sync bookmark)
               (flush_bookmark clock bookmark d))
          d active_server_bookmarks in
  let d2 :=
    foldl (fun d bookmark =>
             flush_bookmark clock (Bookmark.set_folder_id None bookmark) d)
          d1
          (List.filter (fun b => Bookmark.user_id b =? user_id)
                       (bookmarks d1)) in
  '(deleted_folders, d3) ← _delete_server_folder_tree clock user_id d2;
  '(folder_map, d4) ←
    _ensure_server_folders_from_local clock user_id local_folders
      local_bookmarks d3;
  let '(bookmark_map, created_bookmark_ids, created_count, d5) :=
    foldl (fun '(bookmark_map, ids, created_count, d) item =>
             match _create_server_bookmark_from_local clock user_id item
                     folder_map false d with
             | (None, d') => (bookmark_map, ids, created_count, d')
             | (Some created, d') =>
                 (map_local_id (LocalBookmark.id item) (Bookmark.id created)
                    bookmark_map,
                  ids ++ [Bookmark.id created], created_count + 1, d')
             end)
          (∅, [], 0, d4) local_bookmarks in
  Ok (folder_map, bookmark_map,
      {| server_deleted := Z.of_nat (length active_server_bookmarks);
         folders_deleted := deleted_folders;
         server_created := created_count |},
      created_bookmark_ids, d5).

(** [by_normalized.setdefault(url, []).append(bookmark)]. *)
Definition by_normalized_add (bookmark : Bookmark.t)
    (m : gmap string (list Bookmark.t)) : gmap string (list Bookmark.t) :=
  <[Bookmark.normalized_url bookmark :=
      default [] (m !! Bookmark.normalized_url bookmark) ++ [bookmark]]> m.

(** The first candidate whose id is not used yet. *)
Definition first_unused (used : gset Z) (matches : list Bookmark.t)
  : option Bookmark.t :=
  first (fun candidate => negb (bool_decide (Bookmark.id candidate ∈ used)))
        matches.

(** The body of the loop of [_two_way_merge_snapshot] for one local
    bookmark. *)
Definition merge_step (clock : Z) (user_id : Z) (folder_map : gmap string Z)
    (by_normalized : gmap string (list Bookmark.t))
    (st : merge_state) (item : LocalBookmark.t) : merge_state :=
  let normalized := LocalBookmark.normalized_url item in
  let matches := default [] (by_normalized !! normalized) in
  match first_unused (used_server_ids st) matches with
  | Some matched =>
      {| used_server_ids := {[Bookmark.id matched]} ∪ used_server_ids st;
         bookmark_map :=
           map_local_id (LocalBookmark.id item) (Bookmark.id matched)
                        (bookmark_map st);
         created_count := created_count st;
         merge_store := merge_store st |}
  | None =>
      match _create_server_bookmark_from_local clock user_id item folder_map
              true (merge_store st) with
      | (None, d') =>
          {| used_server_ids := used_server_ids st;
             bookmark_map := bookmark_map st;
             created_count := created_count st;
             merge_store := d' |}
      | (Some created, d') =>
          {| used_server_ids := used_server_ids st;
             bookmark_map :=
               map_local_id (LocalBookmark.id item) (Bookmark.id created)
                            (bookmark_map st);
             created_count := created_count st + 1;
             merge_store := d' |}
      end
  end.

Definition merge_loop (clock : Z) (user_id : Z) (folder_map : gmap string Z)
    (server_bookmarks : list Bookmark.t)
    (local_bookmarks : list LocalBookmark.t) (d : db) : merge_state :=
  let by_normalized :=
    foldl (fun m bookmark => by_normalized_add bookmark m)
          (∅ : gmap string (list Bookmark.t)) server_bookmarks in
  foldl (merge_step clock user_id folder_map by_normalized)
        {| used_server_ids := ∅; bookmark_map := ∅; created_count := 0;
           merge_store := d |}
        local_bookmarks.

Record two_way_counts := { tw_server_created : Z; tw_server_updated : Z }.

Definition _two_way_merge_snapshot (clock : Z) (user_id : Z)
    (local_folders : list LocalFolder.t)
    (local_bookmarks : list LocalBookmark.t) (d : db)
  : result (gmap string Z * gmap string Z * two_way_counts * db) :=
  '(folder_map, d1) ←
    _ensure_server_folders_from_local clock user_id local_folders
      local_bookmarks d;
  let server_bookmarks := _active_server_bookmarks user_id d1 in
  let st :=
    merge_loop clock user_id folder_map server_bookmarks local_bookmarks d1 in
  Ok (folder_map, bookmark_map st,
      {| tw_server_created := created_count st; tw_server_updated := 0 |},
      merge_store st).

(** [str(v)] on a JSON value. *)
Definition py_str (v : Py.value) : string :=
  match v with
  | Py.VNone => "None"
  | Py.VBool true => "True"
  | Py.VBool false => "False"
  | Py.VInt z => pretty z
  | Py.VStr s => s
  | Py.VStrs l => repr_list l
  end.

(** [str(v).strip() if v is not None else None], and [""] read as
    [None]. *)
Definition local_ref (v : Py.value) : option string :=
  match v with
  | Py.VNone => None
  | _ => let r := Py.strip (py_str v) in
         if Py.truthy r then Some r else None
  end.

(** The loop of [_parse_local_folders] over the rows of the body, with the
    ids seen so far. *)
Fixpoint parse_local_folder_rows (rows : list Py.dict) (seen_ids : gset string)
  : list LocalFolder.t :=
  match rows with
  | [] => []
  | item :: rows' =>
      let local_id :=
        Py.strip (py_str (Py.or_ (Py.get item "id") (Py.VStr ""))) in
      if negb (Py.truthy local_id) || bool_decide (local_id ∈ seen_ids)
      then parse_local_folder_rows rows' seen_ids
      else
        let parent_id := local_ref (Py.get item "parent_id") in
        let parent_id :=
          if bool_decide (parent_id = Some local_id) then None
          else parent_id in
        let title :=
          Py.str_or
            (Py.strip
               (Py.or_empty
                  (Py.as_str (Py.or_ (Py.get item "title")
                                     (Py.get item "name")))))
            "Untitled Folder" in
        LocalFolder.mk local_id parent_id title
        :: parse_local_folder_rows rows' ({[local_id]} ∪ seen_ids)
  end.

Definition _parse_local_folders (rows : list Py.dict) : list LocalFolder.t :=
  parse_local_folder_rows rows ∅.

(** One round of the loop of [_parse_local_bookmarks]: [None] where the
    source says [continue]. *)
Definition parse_local_bookmark (item : Py.dict) : option LocalBookmark.t :=
  let url := Py.strip (Py.or_empty (Py.as_str (Py.get item "url"))) in
  if negb (Py.truthy url) then None
  else
    let normalized := normalize_url url in
    if negb (Py.truthy normalized) then None
    else
      let tags_input := Py.get item "tags" in
      let tags :=
        match tags_input with
        | Py.VStrs l => parse_tags (Py.join "," l)
        | _ => parse_tags (py_str (Py.or_ tags_input (Py.VStr "")))
        end in
      let parent_raw :=
        match Py.get item "folder_local_id" with
        | Py.VNone => Py.get item "parent_id"
        | v => v
        end in
      let parent_id := local_ref parent_raw in
      let clean_folder_path :=
        List.filter Py.truthy
          (map Py.strip (Py.as_strs (Py.get item "folder_path"))) in
      let id :=
        let i := Py.strip (py_str (Py.or_ (Py.get item "id") (Py.VStr ""))) in
        if Py.truthy i then Some i else None in
      let title :=
        let t := Py.strip (Py.or_empty (Py.as_str (Py.get item "title"))) in
        if Py.truthy t then Some t else None in
      Some (LocalBookmark.mk id url normalized title
              (_normalize_notes_value (Py.as_str (Py.get item "notes")))
              tags parent_id clean_folder_path (Py.get item "updated_at")).

Definition _parse_local_bookmarks (rows : list Py.dict)
  : list LocalBookmark.t :=
  omap parse_local_bookmark rows.

(** The JSON body of [PATCH /folders/<id>], and the answer. *)
Inductive folder_response :=
| FolderError (status_code : Z) (error : string)
| FolderJson (folder : Folder.t).

Definition folders_update (clock : Z) (user_id : Z) (folder_id : Z)
    (payload : Py.dict) (d : db) : folder_response * db :=
  match find_folder user_id folder_id d with
  | None => (FolderError 404 "folder not found", d)
  | Some folder =>
      let folder :=
        if Py.contains payload "name"
        then Folder.set_name
               (Py.str_or
                  (Py.strip (Py.or_empty (Py.as_str (Py.get payload "name"))))
                  (Folder.name folder)) folder
        else folder in
      let folder :=
        if Py.contains payload "parent_id"
        then Folder.set_parent_id (Py.as_int (Py.get payload "parent_id"))
                                  folder
        else folder in
      (FolderJson folder,
       log_sync_event clock user_id "folder" (Some (Folder.id folder))
         "update" (serialize_folder_for_sync folder)
         (flush_folder clock folder d))
  end.

(** The configuration values the handlers read. *)
Record config := { SECRET_KEY : string; SYNC_CONFIRM_TTL_SECONDS : Z }.

(** The JSON body of [POST /sync/first/apply]. *)
Record apply_request := {
  rq_client_id : option string;
  rq_mode : option string;
  rq_confirmation_token : option string;
  rq_typed_phrase : option string;
  rq_confirm_checked : Py.value;
  rq_local_bookmarks : list Py.dict;
  rq_local_folders : list Py.dict }.

Inductive apply_response :=
| ApplyError (status_code : Z) (error : string)
| ApplyNoOp (mode reason : string)
    (local_bookmark_count server_bookmark_count : Z)
| ApplyDone (status mode : string) (reason : option string)
    (bookmarks folders : list payload) (cursor : Z)
    (local_folder_id_to_server_id local_bookmark_id_to_server_id
       : gmap string Z)
    (counts : list (string * Z))
    (token_local_count token_server_count : Py.value)
    (confirmed_at : datetime).

(** [db.session.query(db.func.max(SyncEvent.id)).filter_by(user_id).scalar()
    or 0]. *)
Definition latest_cursor_of (user_id : Z) (d : db) : Z :=
  foldr Z.max 0
    (map SyncEvent.id
       (List.filter (fun e => SyncEvent.user_id e =? user_id)
                    (sync_events d))).

Definition set_last_cursor (client : SyncClient.t) (cursor : Z) (d : db)
  : db :=
  with_sync_clients
    (map (fun r => if SyncClient.id r =? SyncClient.id client
                   then SyncClient.set_last_cursor cursor r else r)
         (sync_clients d)) d.

(** The handler up to its commit; the enrichment worker it starts after the
    commit runs on a thread of its own and is not part of it. *)
Definition sync_first_apply (cfg : config) (clock : Z) (user_id : Z)
    (rq : apply_request) (d : db) : result (apply_response * db) :=
  let client_id := Py.strip (Py.or_empty (rq_client_id rq)) in
  let mode := _normalize_sync_mode (rq_mode rq) in
  let confirmation_token := Py.or_empty (rq_confirmation_token rq) in
  let typed_phrase := Py.strip (Py.or_empty (rq_typed_phrase rq)) in
  let confirm_checked := _to_bool (rq_confirm_checked rq) false in
  let local_bookmarks := _parse_local_bookmarks (rq_local_bookmarks rq) in
  let local_folders := _parse_local_folders (rq_local_folders rq) in
  if negb (Py.truthy client_id) || negb (Py.truthy confirmation_token)
     || negb (Py.truthy mode)
  then Ok (ApplyError 400
             "client_id, mode, and confirmation_token are required", d)
  else
    let required_phrase := default CONFIRM_PHRASE (SYNC_CONFIRM_PHRASES mode) in
    if negb (String.eqb typed_phrase required_phrase) || negb confirm_checked
    then Ok (ApplyError 400 "destructive confirmation failed", d)
    else
      match verify_confirmation_token (SECRET_KEY cfg) confirmation_token
              (SYNC_CONFIRM_TTL_SECONDS cfg) user_id client_id (Some mode)
              clock with
      | None => Ok (ApplyError 400 "invalid or expired confirmation token", d)
      | Some token_payload =>
          if bool_decide (token_payload = ∅)
          then Ok (ApplyError 400 "invalid or expired confirmation token", d)
          else
          let '(client, d0) := ensure_sync_client user_id client_id None d in
          let server_count_now :=
            Z.of_nat (length (_active_server_bookmarks user_id d0)) in
          let local_count_now := Z.of_nat (length local_bookmarks) in
          if String.eqb mode SYNC_MODE_REPLACE_LOCAL && (server_count_now =? 0)
          then Ok (ApplyNoOp mode "server_empty" local_count_now 0, d0)
          else if String.eqb mode SYNC_MODE_REPLACE_SERVER
                  && (local_count_now =? 0)
          then Ok (ApplyNoOp mode "local_empty" 0 server_count_now, d0)
          else
            '(response_status, reason, folder_map, bookmark_map, counts, d1) ←
              (if String.eqb mode SYNC_MODE_REPLACE_SERVER then
                 '(folder_map, bookmark_map, counts, _, d1) ←
                   _replace_server_with_local_snapshot clock user_id
                     local_folders local_bookmarks d0;
                 Ok ("snapshot"%string, None, folder_map, bookmark_map,
                     [("server_deleted"%string, server_deleted counts);
                      ("folders_deleted"%string, folders_deleted counts);
                      ("server_created"%string, server_created counts)], d1)
               else if String.eqb mode SYNC_MODE_TWO_WAY then
                 '(folder_map, bookmark_map, counts, d1) ←
                   _two_way_merge_snapshot clock user_id local_folders
                     local_bookmarks d0;
                 Ok ("merged"%string, None, folder_map, bookmark_map,
                     [("server_created"%string, tw_server_created counts);
                      ("server_updated"%string, tw_server_updated counts)], d1)
               else
                 Ok ("snapshot"%string,
                     Some "replace_local_with_server"%string,
                     (∅ : gmap string Z), (∅ : gmap string Z), [], d0));
            let latest_cursor := latest_cursor_of user_id d1 in
            Ok (ApplyDone response_status mode reason
                  (map serialize_bookmark_for_sync
                       (_sync_snapshot_server_bookmarks user_id d1))
                  (map serialize_folder_for_sync
                       (_active_server_folders user_id d1))
                  latest_cursor folder_map bookmark_map counts
                  (Py.get token_payload "local_count")
                  (Py.get token_payload "server_count")
                  (utcnow clock),
                set_last_cursor client latest_cursor d1)
      end.

(** The route: [sync_first_apply] behind [api_auth_required(token_only=True)]. *)
Definition sync_first_apply_route (cfg : config) (clock : Z)
    (auth_header : string) (rq : apply_request) (d : db)
  : result (apply_response * db) :=
  match _user_from_bearer_token clock auth_header d with
  | (None, d') => Ok (ApplyError 401 "authentication required", d')
  | (Some user_id, d') => sync_first_apply cfg clock user_id rq d'
  end.

Record pull_response := {
  events : list SyncEvent.t;
  cursor : Z;
  has_more : bool }.

Definition sync_pull (user_id : Z) (since limit : Z) (d : db)
  : pull_response :=
  let events :=
    sql_limit limit
      (order_by (fun a b => SyncEvent.id a <=? SyncEvent.id b)
         (List.filter
            (fun e => (SyncEvent.user_id e =? user_id)
                      && (since <? SyncEvent.id e))
            (sync_events d))) in
  let latest_cursor :=
    match last events with
    | Some e => SyncEvent.id e
    | None => since
    end in
  {| events := events;
     cursor := latest_cursor;
     has_more := Z.of_nat (length events) =? limit |}.

End Routes.

(** ** app/services/dead_link_jobs.py *)

Inductive runtime_value :=
| RStr (s : string)
| RTime (t : datetime)
| RInt (z : Z).

(** The job table and the two module-level globals.  Each region the source
    runs under [_RUNTIME_LOCK] is one step of the model. *)
Record job_world := {
  dead_link_jobs : list DeadLinkJob.t;
  _RUNTIME_STATE : gmap Z (gmap string runtime_value);
  _STOP_REQUESTED : gset Z }.

(** [state = _RUNTIME_STATE.get(job_id, {}).copy(); state.update(updates);
    _RUNTIME_STATE[job_id] = state]. *)
Definition _runtime_update (job_id : Z) (updates : gmap string runtime_value)
    (w : job_world) : job_world :=
  let state := default ∅ (_RUNTIME_STATE w !! job_id) in
  {| dead_link_jobs := dead_link_jobs w;
     _RUNTIME_STATE := <[job_id := updates ∪ state]> (_RUNTIME_STATE w);
     _STOP_REQUESTED := _STOP_REQUESTED w |}.

Definition _stop_requested (job_id : Z) (w : job_world) : bool :=
  bool_decide (job_id ∈ _STOP_REQUESTED w).

Definition request_dead_link_job_stop (job_id user_id : Z) (w : job_world)
  : bool * job_world :=
  match first (fun j => (DeadLinkJob.id j =? job_id)
                        && (DeadLinkJob.user_id j =? user_id))
              (dead_link_jobs w) with
  | None => (false, w)
  | Some job =>
      if negb (bool_decide
                 (DeadLinkJob.status job ∈ ["pending"; "running"]%string))
      then (false, w)
      else
        let w1 :=
          {| dead_link_jobs := dead_link_jobs w;
             _RUNTIME_STATE := _RUNTIME_STATE w;
             _STOP_REQUESTED := {[job_id]} ∪ _STOP_REQUESTED w |} in
        (true,
         _runtime_update job_id
           {[ "status_message"%string :=
                RStr "Stop requested. Finishing active checks..." ]} w1)
  end.

Definition clear_dead_link_job_runtime (job_id : Z) (w : job_world)
  : job_world :=
  {| dead_link_jobs := dead_link_jobs w;
     _RUNTIME_STATE := delete job_id (_RUNTIME_STATE w);
     _STOP_REQUESTED := _STOP_REQUESTED w ∖ {[job_id]} |}.

(** ** app/api/routes.py: [POST /sync/push] *)

(** [uq_folder_user_name_parent]: no two folders of one user have the same
    name under the same parent.  Two rows without a parent do not collide
    (a NULL is distinct from every value in a unique index). *)
Definition same_folder_key (f g : Folder.t) : bool :=
  (Folder.user_id f =? Folder.user_id g)
  && String.eqb (Folder.name f) (Folder.name g)
  && match Folder.parent_id f, Folder.parent_id g with
     | Some a, Some b => a =? b
     | _, _ => false
     end.

Fixpoint uq_folder_user_name_parent (rows : list Folder.t) : bool :=
  match rows with
  | [] => true
  | f :: rows' =>
      negb (existsb (same_folder_key f) rows')
      && uq_folder_user_name_parent rows'
  end.

(** What a request that writes ends in: its answer with the store
    committed, or a rollback, on an exception of the handler or on the
    [IntegrityError] of a flush that breaks a unique constraint. *)
Inductive committed (A : Type) :=
| Commit (a : A)
| Rollback (e : exn)
| RollbackIntegrity.

Arguments Commit {A} a.
Arguments Rollback {A} e.
Arguments RollbackIntegrity {A}.

(** The JSON body of the request, and the answer. *)
Record push_request := {
  pr_client_id : option string;
  pr_operations : list push_op }.

Inductive push_response :=
| PushError (status_code : Z) (error : string)
| PushOk (results : list push_result) (cursor : Z).

Section Push.
Context `{External}.

(** The loop over the operations.  The session flushes what an operation
    wrote before the next query and at the commit, so the constraint is
    checked after every operation. *)
Fixpoint push_operations (clock : Z) (user_id : Z) (operations : list push_op)
    (results : list push_result) (d : db)
  : committed (list push_result * db) :=
  match operations with
  | [] => Commit (results, d)
  | operation :: operations' =>
      match apply_push_operation clock user_id operation d with
      | Raise e => Rollback e
      | Ok (r, d') =>
          if uq_folder_user_name_parent (folders d')
          then push_operations clock user_id operations' (results ++ [r]) d'
          else RollbackIntegrity
      end
  end.

Definition sync_push (clock : Z) (user_id : Z) (rq : push_request) (d : db)
  : committed (push_response * db) :=
  let operations := pr_operations rq in
  let client_id := Py.strip (Py.or_empty (pr_client_id rq)) in
  if negb (Py.truthy client_id)
  then Commit (PushError 400 "client_id is required", d)
  else
    let '(client, d0) := ensure_sync_client user_id client_id None d in
    match push_operations clock user_id operations [] d0 with
    | Commit (results, d1) =>
        let latest_cursor := latest_cursor_of user_id d1 in
        Commit (PushOk results latest_cursor,
                set_last_cursor client
                  (Z.max (SyncClient.last_cursor client) latest_cursor) d1)
    | Rollback e => Rollback e
    | RollbackIntegrity => RollbackIntegrity
    end.

End Push.

(** ** app/api/routes.py: [DELETE /folders/<id>] *)

Inductive folder_delete_response :=
| FolderDeleteError (status_code : Z) (error : string)
| FolderDeleted.

(** [folder.bookmarks] and [folder.children] are the rows that name the
    folder; the commit cannot break the unique constraint of the folder
    table, since the children it writes get no parent. *)
Definition folders_delete (clock : Z) (user_id : Z) (folder_id : Z) (d : db)
  : folder_delete_response * db :=
  match find_folder user_id folder_id d with
  | None => (FolderDeleteError 404 "folder not found", d)
  | Some folder =>
      let d1 :=
        foldl (fun d bookmark =>
                 let bookmark := Bookmark.set_folder_id None bookmark in
                 log_sync_event clock user_id "bookmark"
                   (Some (Bookmark.id bookmark)) "update"
                   (serialize_bookmark_for_sync bookmark)
                   (flush_bookmark clock bookmark d))
              d
              (List.filter
                 (fun b => opt_eqb (Bookmark.folder_id b)
                                   (Some (Folder.id folder)))
                 (bookmarks d)) in
      let d2 :=
        foldl (fun d child =>
                 let child := Folder.set_parent_id None child in
                 log_sync_event clock user_id "folder"
                   (Some (Folder.id child)) "update"
                   (serialize_folder_for_sync child)
                   (flush_folder clock child d))
              d1 (children folder d1) in
      (FolderDeleted,
       delete_folder folder
         (log_sync_event clock user_id "folder" (Some (Folder.id folder))
            "delete" (serialize_folder_for_sync folder) d2))
  end.

(** ** app/web/routes.py: the folder handlers of the web interface *)

(** [int(s)] for a text in base ten, on ASCII: an optional sign, then
    digits, with single underscores allowed between digits.  [None] where
    Python raises [ValueError]. *)
Definition digit_of (c : ascii) : option Z :=
  let n := Ascii.nat_of_ascii c in
  if ((48 <=? n)%nat && (n <=? 57)%nat)%bool
  then Some (Z.of_nat (n - 48)) else None.

Fixpoint parse_digits (s : string) (acc : Z) (after_digit : bool)
  : option Z :=
  match s with
  | EmptyString => if after_digit then Some acc else None
  | String c s' =>
      if Ascii.eqb c "_"
      then if after_digit then parse_digits s' acc false else None
      else match digit_of c with
           | Some v => parse_digits s' (10 * acc + v) true
           | None => None
           end
  end.

Definition int_of_str (s : string) : option Z :=
  match s with
  | String "+" s' => parse_digits s' 0 false
  | String "-" s' => Z.opp <$> parse_digits s' 0 false
  | _ => parse_digits s 0 false
  end.

(** What the two handlers answer: an error with its status, the folder
    created, or the folder with the [moved] flag. *)
Inductive web_folder_response :=
| WebError (status_code : Z) (error : string)
| WebCreated (folder : Folder.t)
| WebMoved (folder : Folder.t) (moved : bool).

(** [by_id = {row.id: row for row in all_folders}]. *)
Definition by_id_of (all_folders : list Folder.t) : gmap Z Folder.t :=
  foldl (fun m row => <[Folder.id row := row]> m) ∅ all_folders.

(** The [while cursor] loop of [folders_move_web], at most [steps] rounds:
    whether the walk up from [cursor] meets the folder [folder_id]. *)
Fixpoint walk_up (steps : nat) (by_id : gmap Z Folder.t) (folder_id : Z)
    (cursor : option Folder.t) : result bool :=
  match cursor with
  | None => Ok false
  | Some c =>
      match steps with
      | O => Raise Diverged
      | S steps' =>
          if Folder.id c =? folder_id then Ok true
          else walk_up steps' by_id folder_id
                 (Folder.parent_id c ≫= fun p => by_id !! p)
      end
  end.

Section Web.
Context `{External}.

(** [_request_optional_parent_id]: the value of the form, or of the JSON
    body when the form has none; [None] where the source raises
    [ValueError].  A JSON [true] is an [int] of Python, equal to 1. *)
Definition _request_optional_parent_id (form_value : option string)
    (payload : Py.dict) : option (option Z) :=
  let raw :=
    match form_value with
    | Some s => Py.VStr s
    | None => Py.get payload "parent_id"
    end in
  match raw with
  | Py.VNone => Some None
  | Py.VInt z => if z <=? 0 then None else Some (Some z)
  | Py.VBool b => if b then Some (Some 1) else None
  | _ =>
      let value := Py.strip (py_str raw) in
      if negb (Py.truthy value) then Some None
      else match int_of_str value with
           | None => None
           | Some parent_id =>
               if parent_id <=? 0 then None else Some (Some parent_id)
           end
  end.

(** [POST /folders/create].  The flush of the new row raises
    [IntegrityError] when the row breaks the unique constraint; the handler
    rolls back and answers 409. *)
Definition folders_create_web (clock : Z) (user_id : Z)
    (form_name form_parent_id : option string) (payload : Py.dict) (d : db)
  : web_folder_response * db :=
  let name :=
    Py.strip
      (Py.str_or (Py.or_empty form_name)
                 (Py.or_empty (Py.as_str (Py.get payload "name")))) in
  if negb (Py.truthy name) then (WebError 400 "Folder name is required.", d)
  else
    match _request_optional_parent_id form_parent_id payload with
    | None => (WebError 400 "Parent folder is invalid.", d)
    | Some parent_id =>
        if match parent_id with
           | Some p => is_none (find_folder user_id p d)
           | None => false
           end
        then (WebError 404 "Parent folder was not found.", d)
        else
          let '(folder, d1) := add_folder clock user_id name parent_id d in
          if uq_folder_user_name_parent (folders d1)
          then (WebCreated folder,
                log_sync_event clock user_id "folder" (Some (Folder.id folder))
                  "create" (serialize_folder_for_sync folder) d1)
          else (WebError 409
                  "A folder with that name already exists in the selected location.",
                d)
    end.

(** [POST /folders/<id>/move]. *)
Definition folders_move_web (steps : nat) (clock : Z) (user_id : Z)
    (folder_id : Z) (form_parent_id : option string) (payload : Py.dict)
    (d : db) : result (web_folder_response * db) :=
  match find_folder user_id folder_id d with
  | None => Ok (WebError 404 "Folder not found.", d)
  | Some folder =>
      match _request_optional_parent_id form_parent_id payload with
      | None => Ok (WebError 400 "Target folder is invalid.", d)
      | Some parent_id =>
          if opt_eqb parent_id (Some (Folder.id folder))
          then Ok (WebError 400 "A folder cannot be moved into itself.", d)
          else
            let all_folders :=
              List.filter (fun f => Folder.user_id f =? user_id) (folders d) in
            let by_id := by_id_of all_folders in
            if match parent_id with
               | Some p => is_none (by_id !! p)
               | None => false
               end
            then Ok (WebError 404 "Target folder was not found.", d)
            else
              inside ← walk_up steps by_id (Folder.id folder)
                         (parent_id ≫= fun p => by_id !! p);
              if (inside : bool)
              then Ok (WebError 400
                         "A folder cannot be moved inside its own subtree.", d)
              else if opt_eqb (Folder.parent_id folder) parent_id
              then Ok (WebMoved folder false, d)
              else
                let folder := Folder.set_parent_id parent_id folder in
                let d1 :=
                  log_sync_event clock user_id "folder"
                    (Some (Folder.id folder)) "update"
                    (serialize_folder_for_sync folder)
                    (flush_folder clock folder d) in
                if uq_folder_user_name_parent (folders d1)
                then Ok (WebMoved
                           (Folder.set_updated_at (utcnow clock) folder) true,
                         d1)
                else Ok (WebError 409
                           "A sibling folder already uses that name in the destination.",
                         d)
      end
  end.

End Web.

(** ** The recycle bin (api/routes.py) *)

(** [_get_user_bookmark_or_404]: the bookmark, or the error with its status
    code. *)
Definition _get_user_bookmark_or_404 (user_id bookmark_id : Z) (d : db)
  : Bookmark.t + Z * string :=
  match find_bookmark user_id bookmark_id d with
  | Some bookmark => inl bookmark
  | None => inr (404, "bookmark not found"%string)
  end.

(** The answer of a handler of one bookmark: an error, or a status with the
    bookmark as the commit left it. *)
Inductive bookmark_response :=
| BookmarkError (status_code : Z) (error : string)
| BookmarkDone (status : string) (bookmark : Bookmark.t).

(** The object of the session read again after the commit. *)
Definition refreshed (bookmark : Bookmark.t) (d : db) : Bookmark.t :=
  default bookmark
    (first (fun r => Bookmark.id r =? Bookmark.id bookmark) (bookmarks d)).

(** [DELETE /bookmarks/<id>]. *)
Definition bookmarks_delete_api (clock user_id bookmark_id : Z) (d : db)
  : bookmark_response * db :=
  match _get_user_bookmark_or_404 user_id bookmark_id d with
  | inr (status_code, error) => (BookmarkError status_code error, d)
  | inl bookmark =>
      let bookmark :=
        Bookmark.set_deleted (Some (utcnow clock)) (Some user_id) bookmark in
      let d' :=
        log_sync_event clock user_id "bookmark" (Some (Bookmark.id bookmark))
          "delete" (serialize_bookmark_for_sync bookmark)
          (flush_bookmark clock bookmark d) in
      (BookmarkDone "recycled" (refreshed bookmark d'), d')
  end.

(** [GET /recycle]: the rows in descending order of [deleted_at]. *)
Definition recycle_list_api (user_id : Z) (d : db) : list Bookmark.t :=
  order_by (fun a b =>
              match Bookmark.deleted_at a, Bookmark.deleted_at b with
              | Some x, Some y => instant y <=? instant x
              | _, _ => true
              end)
    (List.filter (fun b => (Bookmark.user_id b =? user_id)
                           && negb (is_none (Bookmark.deleted_at b)))
                 (bookmarks d)).

(** [POST /recycle/<id>/restore]. *)
Definition recycle_restore_api (clock user_id bookmark_id : Z) (d : db)
  : bookmark_response * db :=
  match _get_user_bookmark_or_404 user_id bookmark_id d with
  | inr (status_code, error) => (BookmarkError status_code error, d)
  | inl bookmark =>
      let bookmark := Bookmark.set_deleted None None bookmark in
      let d' :=
        log_sync_event clock user_id "bookmark" (Some (Bookmark.id bookmark))
          "restore" (serialize_bookmark_for_sync bookmark)
          (flush_bookmark clock bookmark d) in
      (BookmarkDone "restored" (refreshed bookmark d'), d')
  end.

(** ** A concrete environment

    An instance of [External] to run the model on: three timestamps are
    parsed, a URL is taken whole as its path, one token is accepted, and a
    fetch returns an empty page. *)

Definition T0 : datetime := {| wall := 1714557600000000; tzinfo := Some 0 |}.
Definition T1 : datetime := {| wall := 1714557601000000; tzinfo := Some 0 |}.
Definition T0_naive : datetime :=
  {| wall := 1714557600000000; tzinfo := None |}.

Definition demo_isoparse (s : string) : option datetime :=
  if String.eqb s "2024-05-01T10:00:00+00:00" then Some T0
  else if String.eqb s "2024-05-01T10:00:01+00:00" then Some T1
  else if String.eqb s "2024-05-01T10:00:00" then Some T0_naive
  else None.

Definition demo_urlparse (s : string) : ParseResult :=
  {| scheme := EmptyString; netloc := EmptyString; path := s;
     params := EmptyString; query := EmptyString; fragment := EmptyString |}.

Definition demo_urlunparse (p : ParseResult) : string :=
  (scheme p +:+ "://" +:+ netloc p +:+ path p)%string.

Definition demo_token_payload : Py.dict :=
  {[ "user_id"%string := Py.VInt 1;
     "client_id"%string := Py.VStr "firefox-1";
     "mode"%string := Py.VStr SYNC_MODE_TWO_WAY;
     "local_count"%string := Py.VInt 3;
     "server_count"%string := Py.VInt 1 ]}.

Definition demo_loads (secret_key salt token : string) (max_age clock : Z)
  : option Py.dict :=
  if String.eqb token "signed-token" && (clock <=? max_age)
  then Some demo_token_payload else None.

#[local] Instance demo : External := {|
  isoparse := demo_isoparse;
  urlparse := demo_urlparse;
  parse_qsl := fun _ => [];
  urlencode := fun _ => EmptyString;
  urlunparse := demo_urlunparse;
  serializer_loads := demo_loads;
  fetch_and_extract := fun _ =>
    {| extracted_title := None; extracted_text_ := EmptyString;
       extracted_status := "alive"; extracted_error := None |};
  sha256_hexdigest := fun _ => EmptyString;
  repr_list := fun l => ("[" +:+ Py.join ", " l +:+ "]")%string;
  recursion_limit := 1000 |}.

Definition demo_config : config :=
  {| SECRET_KEY := "default-secret-key"; SYNC_CONFIRM_TTL_SECONDS := 900 |}.

Definition empty_db : db := mkdb [] [] [] [] [] [] [].

Definition demo_bookmark (id user_id : Z) (url : string)
    (updated_at : datetime) (deleted_at : option datetime) : Bookmark.t :=
  Bookmark.mk id user_id None (deleted_at ≫= fun _ => Some user_id) url
    (normalize_url url) None None None None T0 updated_at deleted_at [].

Definition demo_folder (id user_id : Z) (name : string)
    (parent_id : option Z) : Folder.t :=
  Folder.mk id user_id name parent_id T0 T0.

Definition demo_event (id user_id : Z) : SyncEvent.t :=
  SyncEvent.mk id user_id "folder" (Some 1) "create"
    (FolderPayload 1 "Work" None T0) T0.

Definition demo_job (id user_id : Z) (status : string) : DeadLinkJob.t :=
  DeadLinkJob.mk id user_id status 100 0 0 0 0 0 None.

(** A store with one API token, of user 1. *)
Definition demo_authenticated_db : db :=
  with_api_tokens [ApiToken.mk 1 1 "cli" (sha256_hexdigest "ll_demo") None
                               None] empty_db.

Definition demo_request (phrase token : string) (checked : bool)
  : apply_request :=
  {| rq_client_id := Some "firefox-1"%string;
     rq_mode := Some SYNC_MODE_TWO_WAY;
     rq_confirmation_token := Some token;
     rq_typed_phrase := Some phrase;
     rq_confirm_checked := Py.VBool checked;
     rq_local_bookmarks := [];
     rq_local_folders := [] |}.

(** Local bookmarks [{A, A, B}] by normalized URL, and a store that holds
    one active bookmark [A]. *)
Definition demo_local (id url : string) : LocalBookmark.t :=
  LocalBookmark.mk (Some id) url (normalize_url url) None None [] None []
                   Py.VNone.

Definition demo_locals_AAB : list LocalBookmark.t :=
  [demo_local "l1" "a"; demo_local "l2" "a"; demo_local "l3" "b"].

Definition demo_server_A : db :=
  with_bookmarks [demo_bookmark 1 1 "a" T0 None] empty_db.

(** Two local folders that name each other as parent. *)
Definition demo_cyclic_folders : list LocalFolder.t :=
  [LocalFolder.mk "1" (Some "2"%string) "One";
   LocalFolder.mk "2" (Some "1"%string) "Two"].

(** ** Vocabulary of the statements *)

(** The events of [user_id] after the cursor [since]: what a pull is asked
    for. *)
Definition matching_events (user_id since : Z) (d : db) : list SyncEvent.t :=
  List.filter (fun e => (SyncEvent.user_id e =? user_id)
                        && (since <? SyncEvent.id e))
              (sync_events d).

(** What a pushed operation names: its action, the client time it carries
    and the row it is aimed at, as the two handlers compute them. *)
Definition op_action (op : push_op) : string :=
  Py.lower (Py.or_empty (op_op op)).

Definition bookmark_op_time `{External} (op : push_op) : option datetime :=
  _parse_client_time
    (Py.or_ (Py.get (op_bookmark op) "updated_at") (op_updated_at op)).

Definition folder_op_time `{External} (op : push_op) : option datetime :=
  _parse_client_time
    (Py.or_ (Py.get (op_folder op) "updated_at") (op_updated_at op)).

Definition bookmark_op_target (user_id : Z) (op : push_op) (d : db)
  : option Bookmark.t :=
  let bookmark_id := Py.or_ (Py.get (op_bookmark op) "id") (op_id op) in
  if Py.value_truthy bookmark_id
  then Py.as_int bookmark_id ≫= fun i => find_bookmark user_id i d
  else None.

Definition folder_op_target (user_id : Z) (op : push_op) (d : db)
  : option Folder.t :=
  Py.as_int (Py.or_ (Py.get (op_folder op) "id") (op_id op)) ≫= fun i =>
  find_folder user_id i d.

(** The value an operation carries as its client time, and what makes it
    unusable: a string that [isoparse] rejects, or no string at all. *)
Definition bookmark_op_time_value (op : push_op) : Py.value :=
  Py.or_ (Py.get (op_bookmark op) "updated_at") (op_updated_at op).

Definition folder_op_time_value (op : push_op) : Py.value :=
  Py.or_ (Py.get (op_folder op) "updated_at") (op_updated_at op).

Definition unparseable `{External} (v : Py.value) : Prop :=
  match v with
  | Py.VStr s => isoparse s = None
  | _ => True
  end.

(** What a pushed bookmark create is matched on: the URL it carries, and the
    two queries of the handler for rows of the user with the normalized
    URL [n]. *)
Definition create_url (op : push_op) : string :=
  Py.strip (Py.or_empty (Py.as_str (Py.get (op_bookmark op) "url"))).

Definition same_url (user_id : Z) (n : string) (b : Bookmark.t) : bool :=
  (Bookmark.user_id b =? user_id) && String.eqb (Bookmark.normalized_url b) n.

Definition active_match (user_id : Z) (n : string) (d : db)
  : option Bookmark.t :=
  first (fun b => same_url user_id n b && is_none (Bookmark.deleted_at b))
        (bookmarks d).

Definition deleted_match (user_id : Z) (n : string) (d : db)
  : option Bookmark.t :=
  first_by_desc (fun b => instant (Bookmark.updated_at b))
    (List.filter
       (fun b => same_url user_id n b && negb (is_none (Bookmark.deleted_at b)))
       (bookmarks d)).

(** Two stores hold the same bookmarks, folders, tags, contents, sync
    clients and events: they differ in the table of API tokens at most. *)
Definition same_sync_tables (d d' : db) : Prop :=
  folders d' = folders d /\ bookmarks d' = bookmarks d
  /\ bookmark_content d' = bookmark_content d /\ tags d' = tags d
  /\ sync_clients d' = sync_clients d /\ sync_events d' = sync_events d.

(** The fields of an apply request as the handler reads them. *)
Definition rq_client (rq : apply_request) : string :=
  Py.strip (Py.or_empty (rq_client_id rq)).

Definition rq_sync_mode (rq : apply_request) : string :=
  _normalize_sync_mode (rq_mode rq).

Definition rq_token (rq : apply_request) : string :=
  Py.or_empty (rq_confirmation_token rq).

(** The request passes the validation of its required fields. *)
Definition has_required_fields (rq : apply_request) : Prop :=
  Py.truthy (rq_client rq) = true /\ Py.truthy (rq_token rq) = true
  /\ Py.truthy (rq_sync_mode rq) = true.

(** The first two gates: the typed phrase is the phrase of the mode, and the
    box is checked. *)
Definition phrase_matches (rq : apply_request) : bool :=
  String.eqb (Py.strip (Py.or_empty (rq_typed_phrase rq)))
             (default CONFIRM_PHRASE (SYNC_CONFIRM_PHRASES (rq_sync_mode rq))).

Definition box_checked (rq : apply_request) : bool :=
  _to_bool (rq_confirm_checked rq) false.

(** The third gate fails: the token does not load (bad signature, expired),
    or it was issued for another user, another client or another mode. *)
Definition token_fails `{External} (cfg : config) (clock user_id : Z)
    (rq : apply_request) : Prop :=
  match serializer_loads (SECRET_KEY cfg) "sync-first-overwrite"
          (rq_token rq) (SYNC_CONFIRM_TTL_SECONDS cfg) clock with
  | None => True
  | Some payload =>
      Py.get payload "user_id" <> Py.VInt user_id
      \/ Py.get payload "client_id" <> Py.VStr (rq_client rq)
      \/ Py.get payload "mode" <> Py.VStr (rq_sync_mode rq)
  end.

(** What [_parse_local_bookmarks] guarantees of each row it keeps: the
    normalized URL is the one of the URL, and it is not empty. *)
Definition parsed_local_bookmark `{External} (item : LocalBookmark.t) : Prop :=
  normalize_url (Py.strip (LocalBookmark.url item))
  = LocalBookmark.normalized_url item
  /\ LocalBookmark.normalized_url item <> EmptyString.

(** No two local ids are mapped to the same server id. *)
Definition one_to_one (m : gmap string Z) : Prop :=
  forall l1 l2 s, m !! l1 = Some s -> m !! l2 = Some s -> l1 = l2.

(** The state of the merge loop after the local bookmarks [processed],
    started on the store [d0] with the server bookmarks [server]: every
    local bookmark was paired with a server bookmark not used before or
    created; the rows created are the new rows of the store; the local ids
    are mapped one to one, each to a row of its normalized URL. *)
Definition merge_inv (user_id : Z) (server : list Bookmark.t) (d0 : db)
    (processed : list LocalBookmark.t) (st : merge_state) : Prop :=
  created_count st + Z.of_nat (size (used_server_ids st))
  = Z.of_nat (length processed)
  /\ (forall i, i ∈ used_server_ids st ->
        exists b, b ∈ server /\ Bookmark.id b = i)
  /\ (exists created,
        bookmarks (merge_store st) = bookmarks d0 ++ created
        /\ Z.of_nat (length created) = created_count st
        /\ (forall c, c ∈ created ->
              Bookmark.user_id c = user_id
              /\ next_id (map Bookmark.id (bookmarks d0)) <= Bookmark.id c)
        /\ (forall l s, bookmark_map st !! l = Some s ->
              s ∈ used_server_ids st
              \/ exists c, c ∈ created /\ Bookmark.id c = s))
  /\ one_to_one (bookmark_map st)
  /\ (forall l s, bookmark_map st !! l = Some s ->
        exists item b,
          item ∈ processed /\ LocalBookmark.id item = Some l
          /\ b ∈ bookmarks (merge_store st) /\ Bookmark.id b = s
          /\ Bookmark.normalized_url b = LocalBookmark.normalized_url item).

(** An operation has been applied to the entity [entity_id]: the store has
    one more event, of that action on that entity. *)
Definition logged (action entity_type : string) (entity_id : Z) (d d' : db)
  : Prop :=
  exists e, sync_events d' = sync_events d ++ [e]
            /\ SyncEvent.action e = action
            /\ SyncEvent.entity_type e = entity_type
            /\ SyncEvent.entity_id e = Some entity_id.

(** The parent relation of a folder table: [parent_edge rows a b] when a row
    of id [a] has the parent [b]; a folder is an ancestor of another along
    one or more edges. *)
Definition parent_edge (rows : list Folder.t) (a b : Z) : Prop :=
  exists f, f ∈ rows /\ Folder.id f = a /\ Folder.parent_id f = Some b.

Definition ancestor (rows : list Folder.t) : Z -> Z -> Prop :=
  tc (parent_edge rows).

Definition acyclic (rows : list Folder.t) : Prop :=
  forall a, ~ ancestor rows a a.

(** Every parent of a folder table is the id of one of its rows, and the
    table is a forest when moreover no folder is its own ancestor. *)
Definition parents_exist (rows : list Folder.t) : Prop :=
  forall f p, f ∈ rows -> Folder.parent_id f = Some p ->
              p ∈ map Folder.id rows.

Definition forest (rows : list Folder.t) : Prop :=
  parents_exist rows /\ acyclic rows.

(** A local folder resolves when it has no parent, or its parent is the id
    of a local folder that resolves: its chain of parents ends.  A chain
    that runs into a missing id or into a cycle never resolves. *)
Inductive resolves (rows : list LocalFolder.t) : string -> Prop :=
| resolves_root row :
    row ∈ rows ->
    match LocalFolder.parent_id row with
    | Some p => Py.truthy p = false
    | None => True
    end ->
    resolves rows (LocalFolder.id row)
| resolves_child row p :
    row ∈ rows ->
    LocalFolder.parent_id row = Some p ->
    resolves rows p ->
    resolves rows (LocalFolder.id row).

(** The state of the folder reconciler, started on the store [d0]: the rows
    of [d0] are still there, unchanged and in place; a forest is still a
    forest; the local ids and the cached paths are mapped to ids of rows. *)
Definition folder_inv (d0 : db) (st : folder_state) : Prop :=
  (exists added, folders (store st) = folders d0 ++ added)
  /\ (forest (folders d0) -> forest (folders (store st)))
  /\ (forall k s, mapping st !! k = Some s ->
        s ∈ map Folder.id (folders (store st)))
  /\ (forall k s, cache st !! k = Some s ->
        s ∈ map Folder.id (folders (store st))).

(** A row of the table that sits at the root. *)
Definition root_folder (rows : list Folder.t) (s : Z) : Prop :=
  exists f, f ∈ rows /\ Folder.id f = s /\ Folder.parent_id f = None.

(** [c in s] for a character. *)
Fixpoint char_in (c : ascii) (s : string) : bool :=
  match s with
  | EmptyString => false
  | String x s' => Ascii.eqb x c || char_in c s'
  end.

Definition demo_query_urlparse (s : string) : ParseResult :=
  match Py.split "?" s with
  | p :: q :: _ =>
      {| scheme := EmptyString; netloc := EmptyString; path := p;
         params := EmptyString; query := q; fragment := EmptyString |}
  | _ =>
      {| scheme := EmptyString; netloc := EmptyString; path := s;
         params := EmptyString; query := EmptyString;
         fragment := EmptyString |}
  end.

Definition demo_parse_qsl (q : string) : list (string * string) :=
  omap (fun item => match Py.split "=" item with
                    | k :: v :: _ => Some (k, v)
                    | _ => None
                    end)
       (Py.split "&" q).

Definition demo_urlencode (items : list (string * string)) : string :=
  Py.join "&" (map (fun kv => (kv.1 +:+ "=" +:+ kv.2)%string) items).

Definition demo_query_urlunparse (p : ParseResult) : string :=
  (scheme p +:+ "://" +:+ netloc p +:+ path p
   +:+ (if Py.truthy (query p) then "?" +:+ query p else ""))%string.

Definition demo_query : External := {|
  isoparse := demo_isoparse;
  urlparse := demo_query_urlparse;
  parse_qsl := demo_parse_qsl;
  urlencode := demo_urlencode;
  urlunparse := demo_query_urlunparse;
  serializer_loads := demo_loads;
  fetch_and_extract := fun _ =>
    {| extracted_title := None; extracted_text_ := EmptyString;
       extracted_status := "alive"; extracted_error := None |};
  sha256_hexdigest := fun _ => EmptyString;
  repr_list := fun l => ("[" +:+ Py.join ", " l +:+ "]")%string;
  recursion_limit := 1000 |}.

(** A sync client of the user is registered under the client id. *)
Definition known_client (user_id : Z) (client_id : string) (d : db) : Prop :=
  exists r, r ∈ sync_clients d /\ SyncClient.user_id r = user_id
            /\ SyncClient.client_id r = client_id.

(** The event log of [d'] continues the one of [d]: it is the old log
    followed by events of the user, in ascending order of id, each with an
    id above every id of the old log. *)
Definition log_extends (user_id : Z) (d d' : db) : Prop :=
  exists added,
    sync_events d' = sync_events d ++ added
    /\ Forall (fun e => SyncEvent.user_id e = user_id) added
    /\ Forall (fun e => forall e0, e0 ∈ sync_events d ->
                                   SyncEvent.id e0 < SyncEvent.id e) added
    /\ StronglySorted (fun a b => SyncEvent.id a < SyncEvent.id b) added.

(** What the removal of folders does to a store: the log is continued, the
    bookmark table keeps its rows (by id, in place), the folder table loses
    rows and gets none, and the other tables stay as they are. *)
Definition folders_removed (user_id : Z) (d d' : db) : Prop :=
  log_extends user_id d d'
  /\ map Bookmark.id (bookmarks d') = map Bookmark.id (bookmarks d)
  /\ (forall f, f ∈ folders d' -> f ∈ folders d)
  /\ tags d' = tags d /\ bookmark_content d' = bookmark_content d
  /\ sync_clients d' = sync_clients d /\ api_tokens d' = api_tokens d.

(** What a push does to the log and to the tables of clients and tokens:
    the log is continued, the two tables are not touched. *)
Definition pushed (user_id : Z) (d d' : db) : Prop :=
  log_extends user_id d d'
  /\ sync_clients d' = sync_clients d /\ api_tokens d' = api_tokens d.

(** The row [b'] is the row [b] taken out of its folder, at most: it has
    the folder of [b] or none, and every other column but [updated_at] is
    the one of [b]. *)
Definition unfiled_at_most (b b' : Bookmark.t) : Prop :=
  Bookmark.id b' = Bookmark.id b
  /\ Bookmark.user_id b' = Bookmark.user_id b
  /\ (Bookmark.folder_id b' = Bookmark.folder_id b
      \/ Bookmark.folder_id b' = None)
  /\ Bookmark.deleted_by b' = Bookmark.deleted_by b
  /\ Bookmark.url b' = Bookmark.url b
  /\ Bookmark.normalized_url b' = Bookmark.normalized_url b
  /\ Bookmark.title b' = Bookmark.title b
  /\ Bookmark.notes b' = Bookmark.notes b
  /\ Bookmark.link_status b' = Bookmark.link_status b
  /\ Bookmark.last_checked_at b' = Bookmark.last_checked_at b
  /\ Bookmark.created_at b' = Bookmark.created_at b
  /\ Bookmark.deleted_at b' = Bookmark.deleted_at b
  /\ Bookmark.tags b' = Bookmark.tags b.

(** The bookmark table of [d'] is the one of [d], row by row, with some
    rows taken out of their folder. *)
Definition bookmarks_kept (d d' : db) : Prop :=
  NoDup (map Bookmark.id (bookmarks d)) ->
  Forall2 unfiled_at_most (bookmarks d) (bookmarks d').

(** The parent a pushed folder create asks for. *)
Definition create_parent (op : push_op) : option Z :=
  Py.as_int (Py.get (op_folder op) "parent_id").

(** The row [f'] is the row [f] moved to the root, at most: it has the id
    of [f], and the parent of [f] or none. *)
Definition rooted_at_most (f f' : Folder.t) : Prop :=
  Folder.id f' = Folder.id f
  /\ (Folder.parent_id f' = Folder.parent_id f \/ Folder.parent_id f' = None).

(** The folders of a user. *)
Definition folders_of (user_id : Z) (d : db) : list Folder.t :=
  List.filter (fun f => Folder.user_id f =? user_id) (folders d).

(** What a number of calls of [walk] do to the set of visited ids and the
    list of folders in order of deletion: folders of [rows] that were not
    visited are appended, each once, and their ids are marked. *)
Definition walked (rows : list Folder.t) (st st' : gset Z * list Folder.t)
  : Prop :=
  exists added,
    st'.2 = st.2 ++ added
    /\ st'.1 = st.1 ∪ list_to_set (map Folder.id added)
    /\ NoDup (map Folder.id added)
    /\ Forall (fun x => (Folder.id x ∉ st.1) /\ x ∈ rows) added.

(** An environment whose serializer accepts one token, issued to the client
    [firefox-1] of user 1 for the mode [replace_local_with_server]. *)
Definition demo_replace_local : External := {|
  isoparse := demo_isoparse;
  urlparse := demo_urlparse;
  parse_qsl := fun _ => [];
  urlencode := fun _ => EmptyString;
  urlunparse := demo_urlunparse;
  serializer_loads := fun _ _ token max_age clock =>
    if String.eqb token "signed-token" && (clock <=? max_age)
    then Some (<["mode"%string := Py.VStr SYNC_MODE_REPLACE_LOCAL]>
                 demo_token_payload)
    else None;
  fetch_and_extract := fun _ =>
    {| extracted_title := None; extracted_text_ := EmptyString;
       extracted_status := "alive"; extracted_error := None |};
  sha256_hexdigest := fun _ => EmptyString;
  repr_list := fun l => ("[" +:+ Py.join ", " l +:+ "]")%string;
  recursion_limit := 1000 |}.

(** What the deletion of the folders and the folder reconciler do to a
    store: the bookmark table is not touched and the log is continued. *)
Definition bookmarks_untouched (user_id : Z) (d d' : db) : Prop :=
  bookmarks d' = bookmarks d /\ log_extends user_id d d'.

(** The row that a flush leaves for the object [b'] of the session, where
    the stored row was [r]. *)
Definition flushed (clock : Z) (r b' : Bookmark.t) : Bookmark.t :=
  if bool_decide (r = b') then r
  else Bookmark.set_updated_at (utcnow clock) b'.

(** * Properties *)

(** Membership in a list that ends with one more element. *)
Ltac in_app :=
  rewrite ?elem_of_app, ?list_elem_of_singleton; auto.


(** ** Cooperative cancellation (dead_link_jobs.py) *)

(** C9. Asking to stop a job whose stored status is [done], [failed] or
    [stopped] answers [False], adds nothing to the set of stop requests and
    leaves the job table and the runtime state as they were. *)
Theorem stop_on_terminal_job_is_noop :
  forall (job_id user_id : Z) (w : job_world) (job : DeadLinkJob.t),
    first (fun j => (DeadLinkJob.id j =? job_id)
                    && (DeadLinkJob.user_id j =? user_id))
          (dead_link_jobs w) = Some job ->
    DeadLinkJob.status job ∈ ["done"; "failed"; "stopped"]%string ->
    request_dead_link_job_stop job_id user_id w = (false, w)
    /\ _stop_requested job_id (request_dead_link_job_stop job_id user_id w).2
       = _stop_requested job_id w.
Proof.
  intros job_id user_id w job Hjob Hst.
  assert (Hgoal : request_dead_link_job_stop job_id user_id w = (false, w)).
  { unfold request_dead_link_job_stop. rewrite Hjob.
    rewrite !elem_of_cons, elem_of_nil in Hst.
    destruct Hst as [-> | [-> | [-> | []]]]; reflexivity. }
  split; [exact Hgoal | by rewrite Hgoal].
Qed.

Lemma stop_on_terminal_job_is_noop_witness :
  let w := {| dead_link_jobs := [demo_job 7 1 "done"];
              _RUNTIME_STATE := ∅; _STOP_REQUESTED := ∅ |} in
  request_dead_link_job_stop 7 1 w = (false, w)
  /\ _stop_requested 7 (request_dead_link_job_stop 7 1 w).2
     = _stop_requested 7 w.
Proof.
  intros w.
  apply (stop_on_terminal_job_is_noop 7 1 w (demo_job 7 1 "done")).
  - reflexivity.
  - apply elem_of_cons. left. reflexivity.
Defined.

(** A job that is still [pending] or [running] is stopped: the request is
    recorded. *)
Lemma stop_on_running_job :
  forall (job_id user_id : Z) (w : job_world) (job : DeadLinkJob.t),
    first (fun j => (DeadLinkJob.id j =? job_id)
                    && (DeadLinkJob.user_id j =? user_id))
          (dead_link_jobs w) = Some job ->
    DeadLinkJob.status job ∈ ["pending"; "running"]%string ->
    (request_dead_link_job_stop job_id user_id w).1 = true
    /\ _stop_requested job_id (request_dead_link_job_stop job_id user_id w).2
       = true.
Proof.
  intros job_id user_id w job Hjob Hst.
  unfold request_dead_link_job_stop. rewrite Hjob.
  rewrite bool_decide_eq_true_2 by exact Hst. simpl.
  split; [reflexivity|].
  unfold _stop_requested. simpl.
  apply bool_decide_eq_true_2.
  apply elem_of_union_l, elem_of_singleton. reflexivity.
Qed.

(** ** Ordering and paging of queries *)

Section OrderBy.
Context {A : Type} (leb : A -> A -> bool).

Lemma insert_by_perm (x : A) (l : list A) : insert_by leb x l ≡ₚ x :: l.
Proof.
  induction l as [|y l IH]; simpl; [reflexivity|].
  destruct (leb x y); [reflexivity|].
  rewrite IH. apply Permutation_swap.
Qed.

Lemma order_by_perm (l : list A) : order_by leb l ≡ₚ l.
Proof.
  induction l as [|x l IH]; simpl; [reflexivity|].
  unfold order_by in *. simpl. rewrite insert_by_perm. by rewrite IH.
Qed.

Lemma order_by_elem (x : A) (l : list A) : x ∈ order_by leb l <-> x ∈ l.
Proof. by rewrite order_by_perm. Qed.

Lemma order_by_length (l : list A) : length (order_by leb l) = length l.
Proof. by rewrite order_by_perm. Qed.

Hypothesis leb_total : forall a b, leb a b = false -> leb b a = true.
Hypothesis leb_trans :
  forall a b c, leb a b = true -> leb b c = true -> leb a c = true.

Lemma insert_by_sorted (x : A) (l : list A) :
  StronglySorted (fun a b => leb a b = true) l ->
  StronglySorted (fun a b => leb a b = true) (insert_by leb x l).
Proof.
  induction 1 as [|y l Hs IH Hy]; simpl.
  - constructor; constructor.
  - destruct (leb x y) eqn:Hxy.
    + constructor; [by constructor|].
      constructor; [exact Hxy|].
      eapply Forall_impl; [exact Hy|]. intros z Hz. by eapply leb_trans.
    + constructor; [exact IH|].
      rewrite insert_by_perm. constructor; [by apply leb_total | exact Hy].
Qed.

Lemma order_by_sorted (l : list A) :
  StronglySorted (fun a b => leb a b = true) (order_by leb l).
Proof.
  induction l as [|x l IH]; [constructor|].
  unfold order_by in *. simpl. by apply insert_by_sorted.
Qed.

End OrderBy.

Lemma StronglySorted_mono {A} (R S : A -> A -> Prop) (l : list A) :
  (forall a b, R a b -> S a b) -> StronglySorted R l -> StronglySorted S l.
Proof.
  intros HRS. induction 1 as [|x l Hs IH Hx]; constructor; [exact IH|].
  eapply Forall_impl; [exact Hx|]. intros y. apply HRS.
Qed.

Lemma filter_elem {A} (p : A -> bool) (x : A) (l : list A) :
  x ∈ List.filter p l <-> x ∈ l /\ p x = true.
Proof. rewrite !list_elem_of_In. apply filter_In. Qed.

Lemma sql_limit_prefix {A} (n : Z) (l : list A) :
  exists rest, l = sql_limit n l ++ rest
               /\ (0 <= n -> rest <> [] -> Z.of_nat (length (sql_limit n l)) = n)
               /\ (0 <= n ->
                   length (sql_limit n l) = Nat.min (Z.to_nat n) (length l)).
Proof.
  unfold sql_limit. destruct (n <? 0) eqn:Hn.
  - exists []. rewrite app_nil_r. apply Z.ltb_lt in Hn.
    split; [reflexivity|]. split; intros; lia.
  - apply Z.ltb_ge in Hn. exists (drop (Z.to_nat n) l).
    split; [by rewrite take_drop|]. split.
    + intros _ Hrest. rewrite length_take.
      destruct (decide (length l <= Z.to_nat n)%nat) as [Hle|Hgt].
      * rewrite drop_ge in Hrest by exact Hle. congruence.
      * lia.
    + intros _. by rewrite length_take.
Qed.

(** ** Pull (routes.py, [sync_pull]) *)

(** C4, as the code has it. A pull returns events of the user with an id
    above [since], in ascending id order, and they are the lowest such ids:
    the page followed by the events left out is the whole ascending list of
    matches.  For a limit that is not negative the page has [limit] events
    or all matches, whichever is fewer.  The cursor is the id of the last
    event of the page, or [since] for an empty page.  [has_more] is set
    exactly when the page holds [limit] events; it is set whenever matches
    are left out. *)
Theorem sync_pull_contract :
  forall (user_id since limit : Z) (d : db),
    let r := sync_pull user_id since limit d in
    (forall e, e ∈ events r ->
       e ∈ sync_events d /\ SyncEvent.user_id e = user_id
       /\ since < SyncEvent.id e)
    /\ StronglySorted (fun a b => SyncEvent.id a <= SyncEvent.id b) (events r)
    /\ (exists rest,
          events r ++ rest ≡ₚ matching_events user_id since d
          /\ StronglySorted (fun a b => SyncEvent.id a <= SyncEvent.id b)
               (events r ++ rest)
          /\ (0 <= limit -> rest <> [] -> has_more r = true))
    /\ (0 <= limit ->
        length (events r)
        = Nat.min (Z.to_nat limit)
                  (length (matching_events user_id since d)))
    /\ cursor r = match last (events r) with
                  | Some e => SyncEvent.id e
                  | None => since
                  end
    /\ (events r = [] -> cursor r = since)
    /\ (has_more r = true <-> Z.of_nat (length (events r)) = limit).
Proof.
  intros user_id since limit d r.
  set (leb := fun a b => SyncEvent.id a <=? SyncEvent.id b).
  assert (Hsorted : StronglySorted
            (fun a b => SyncEvent.id a <= SyncEvent.id b)
            (order_by leb (matching_events user_id since d))).
  { eapply StronglySorted_mono;
      [| apply (order_by_sorted leb)].
    - intros a b Hab. by apply Z.leb_le.
    - intros a b Hab. apply Z.leb_le. apply Z.leb_gt in Hab. lia.
    - intros a b c Hab Hbc. apply Z.leb_le. apply Z.leb_le in Hab, Hbc. lia. }
  destruct (sql_limit_prefix limit
              (order_by leb (matching_events user_id since d)))
    as (rest & Hsplit & Hfull & Hlen).
  assert (Hev : events r
                = sql_limit limit
                    (order_by leb (matching_events user_id since d)))
    by reflexivity.
  repeat split.
  - assert (He : e ∈ matching_events user_id since d).
    { apply (order_by_elem leb). rewrite Hsplit, <- Hev.
      apply elem_of_app. by left. }
    apply filter_elem in He. tauto.
  - assert (He : e ∈ matching_events user_id since d).
    { apply (order_by_elem leb). rewrite Hsplit, <- Hev.
      apply elem_of_app. by left. }
    apply filter_elem in He as [_ He].
    apply andb_true_iff in He as [He _]. by apply Z.eqb_eq in He.
  - assert (He : e ∈ matching_events user_id since d).
    { apply (order_by_elem leb). rewrite Hsplit, <- Hev.
      apply elem_of_app. by left. }
    apply filter_elem in He as [_ He].
    apply andb_true_iff in He as [_ He]. by apply Z.ltb_lt in He.
  - rewrite Hev. rewrite Hsplit in Hsorted.
    by apply StronglySorted_app_1_l in Hsorted.
  - exists rest. rewrite Hev, <- Hsplit. split; [apply order_by_perm|].
    split; [exact Hsorted|].
    intros Hlim Hrest. simpl. apply Z.eqb_eq. rewrite <- Hev in Hfull.
    by apply Hfull.
  - intros Hlim. rewrite Hev. rewrite Hlen by exact Hlim.
    by rewrite order_by_length.
  - intros Hnil.
    change (cursor r) with (match last (events r) with
                            | Some e => SyncEvent.id e
                            | None => since
                            end).
    by rewrite Hnil.
  - simpl. intros Hm. by apply Z.eqb_eq in Hm.
  - simpl. intros Hm. by apply Z.eqb_eq.
Qed.

(** C4, as it is stated, fails where exactly [limit] events match: the page
    holds every match, nothing is left out, and [has_more] is set. *)
Lemma sync_pull_has_more_counterexample :
  ~ (forall (user_id since limit : Z) (d : db),
       has_more (sync_pull user_id since limit d) = true
       <-> (length (events (sync_pull user_id since limit d))
            < length (matching_events user_id since d))%nat).
Proof.
  intros Hclaim.
  specialize (Hclaim 1 0 2
                (with_sync_events [demo_event 1 1; demo_event 2 1] empty_db)).
  destruct Hclaim as [Hclaim _].
  specialize (Hclaim eq_refl). vm_compute in Hclaim. lia.
Qed.

(** ** Preflight (routes.py, [_build_sync_preflight_payload]) *)

(** C6. In mode [replace_local_with_server] the preflight is computed for
    every list of local bookmarks and every store, and it reports
    [would_noop] with the reason [server_empty] exactly when the user has no
    active server bookmark; the local list plays no part. *)
Theorem preflight_replace_local_noop_iff :
  forall (local_bookmarks : list LocalBookmark.t) (user_id : Z) (d : db),
    exists pf,
      _build_sync_preflight_payload SYNC_MODE_REPLACE_LOCAL local_bookmarks
        user_id d = Ok pf
      /\ ((would_noop pf = true /\ no_op_reason pf = Some "server_empty"%string)
          <-> length (_active_server_bookmarks user_id d) = 0%nat)
      /\ (would_noop pf = false -> no_op_reason pf = None)
      /\ (forall local_bookmarks' pf',
            _build_sync_preflight_payload SYNC_MODE_REPLACE_LOCAL
              local_bookmarks' user_id d = Ok pf' ->
            would_noop pf' = would_noop pf
            /\ no_op_reason pf' = no_op_reason pf).
Proof.
  intros local_bookmarks user_id d.
  unfold _build_sync_preflight_payload.
  change (String.eqb SYNC_MODE_REPLACE_LOCAL SYNC_MODE_REPLACE_LOCAL)
    with true.
  change (SYNC_CONFIRM_PHRASES SYNC_MODE_REPLACE_LOCAL)
    with (Some "DELETE ALL LOCAL BOOKMARKS"%string).
  cbv beta iota zeta.
  eexists. split; [reflexivity|]. cbn [would_noop no_op_reason].
  destruct (Z.of_nat (length (_active_server_bookmarks user_id d)) =? 0)
    eqn:Hz.
  - apply Z.eqb_eq in Hz. split; [|split].
    + split; [lia | done].
    + discriminate.
    + by intros ? ? [= <-].
  - apply Z.eqb_neq in Hz. split; [|split].
    + split; [intros [? _]; discriminate | lia].
    + done.
    + by intros ? ? [= <-].
Qed.

(** The reason [server_empty] belongs to that mode alone. *)
Lemma preflight_server_empty_only_replace_local :
  forall (mode : string) (local_bookmarks : list LocalBookmark.t)
         (user_id : Z) (d : db) (pf : preflight),
    _build_sync_preflight_payload mode local_bookmarks user_id d = Ok pf ->
    no_op_reason pf = Some "server_empty"%string ->
    mode = SYNC_MODE_REPLACE_LOCAL.
Proof.
  intros mode local_bookmarks user_id d pf.
  unfold _build_sync_preflight_payload.
  destruct (String.eqb mode SYNC_MODE_REPLACE_LOCAL) eqn:Hm.
  - intros _ _. by apply String.eqb_eq.
  - destruct (String.eqb mode SYNC_MODE_REPLACE_SERVER);
      destruct (SYNC_CONFIRM_PHRASES mode); try discriminate;
      intros [= <-]; cbn [no_op_reason];
      repeat match goal with |- context [if ?b then _ else _] =>
               destruct b end; discriminate.
Qed.

(** ** Last write wins (sync.py) *)

Section LastWriteWins.
Context `{External}.

Lemma apply_tags_tables (user_id : Z) (names : list string) (d : db) :
  let d' := (_apply_tags user_id names d).2 in
  sync_events d' = sync_events d /\ bookmarks d' = bookmarks d
  /\ folders d' = folders d.
Proof.
  unfold _apply_tags. cbn [snd].
  generalize (parse_tags (Py.join "," names)). intros clean.
  revert d. induction clean as [|name clean IH]; intros d; [done|].
  cbn [foldl].
  destruct (first _ (tags d)); [apply IH|].
  destruct (IH (with_tags (tags d ++ [Tag.mk (next_id (map Tag.id (tags d)))
                                        user_id name]) d)) as (-> & -> & ->).
  done.
Qed.

Lemma log_sync_event_logged (clock user_id : Z) (entity_type action : string)
    (entity_id : Z) (p : payload) (d0 d : db) :
  sync_events d = sync_events d0 ->
  logged action entity_type entity_id d0
    (log_sync_event clock user_id entity_type (Some entity_id) action p d).
Proof.
  intros Hev. unfold logged, log_sync_event. eexists. cbn.
  rewrite Hev. split; [reflexivity|]. done.
Qed.

(** The comparison at the boundary: for a client time with an offset the
    server time is "newer or equal" exactly when its instant is not below
    the client's. *)
Lemma server_time_is_newer_or_equal_aware (server_time c : datetime) :
  is_Some (tzinfo c) ->
  _server_time_is_newer_or_equal (Some server_time) (Some c)
  = Ok (instant c <=? instant server_time).
Proof.
  intros [oc Hoc]. unfold _server_time_is_newer_or_equal, datetime_ge, instant.
  destruct (tzinfo server_time) as [os|] eqn:Hos; cbn; rewrite ?Hos, Hoc; cbn.
  - reflexivity.
  - by rewrite Z.sub_0_r.
Qed.

(** A client time without an offset cannot be compared with the server
    time: the handler raises. *)
Lemma server_time_is_newer_or_equal_naive (server_time c : datetime) :
  tzinfo c = None ->
  _server_time_is_newer_or_equal (Some server_time) (Some c) = Raise TypeError.
Proof.
  intros Hc. unfold _server_time_is_newer_or_equal, datetime_ge.
  destruct (tzinfo server_time) eqn:Hs; cbn; rewrite ?Hs, Hc; reflexivity.
Qed.

Lemma server_time_is_newer_or_equal_missing (server_time : option datetime) :
  _server_time_is_newer_or_equal server_time None = Ok false.
Proof. by destruct server_time. Qed.

(** What the bookmark handler does once the row is found and the time
    comparison says the client wins. *)
Lemma bookmark_op_applied (clock user_id : Z) (op : push_op) (d : db)
    (b : Bookmark.t) :
  bookmark_op_target user_id op d = Some b ->
  _server_time_is_newer_or_equal (Some (Bookmark.updated_at b))
    (bookmark_op_time op) = Ok false ->
  (op_action op = "update"%string ->
   exists d', _apply_bookmark_push_operation clock user_id op d
              = Ok (BookmarkStatus "updated" (Bookmark.id b), d')
              /\ logged "update" "bookmark" (Bookmark.id b) d d')
  /\ (op_action op = "delete"%string ->
      exists d', _apply_bookmark_push_operation clock user_id op d
                 = Ok (BookmarkStatus "deleted" (Bookmark.id b), d')
                 /\ logged "delete" "bookmark" (Bookmark.id b) d d')
  /\ (op_action op = "restore"%string ->
      exists d', _apply_bookmark_push_operation clock user_id op d
                 = Ok (BookmarkStatus "restored" (Bookmark.id b), d')
                 /\ logged "restore" "bookmark" (Bookmark.id b) d d').
Proof.
  intros Htarget Hcmp.
  unfold bookmark_op_target in Htarget. unfold bookmark_op_time in Hcmp.
  unfold op_action.
  split; [|split]; intros Hact; unfold _apply_bookmark_push_operation;
    rewrite Hact; cbn [String.eqb Ascii.eqb Bool.eqb];
    cbv zeta; rewrite Htarget; rewrite Hcmp; cbn [mbind result_bind].
  - destruct (Py.contains (op_bookmark op) "tags").
    + destruct (_apply_tags user_id _ d) as [clean d1] eqn:Htags.
      eexists. split; [reflexivity|].
      apply log_sync_event_logged. cbn.
      pose proof (apply_tags_tables user_id
                    (Py.as_strs (Py.get (op_bookmark op) "tags")) d) as Ht.
      rewrite Htags in Ht. cbn in Ht. tauto.
    + eexists. split; [reflexivity|]. by apply log_sync_event_logged.
  - eexists. split; [reflexivity|]. by apply log_sync_event_logged.
  - eexists. split; [reflexivity|]. by apply log_sync_event_logged.
Qed.

Lemma bookmark_op_skipped (clock user_id : Z) (op : push_op) (d : db)
    (b : Bookmark.t) :
  bookmark_op_target user_id op d = Some b ->
  op_action op <> "create"%string ->
  _server_time_is_newer_or_equal (Some (Bookmark.updated_at b))
    (bookmark_op_time op) = Ok true ->
  _apply_bookmark_push_operation clock user_id op d
  = Ok (Skipped "server_newer_or_equal", d).
Proof.
  intros Htarget Hact Hcmp.
  unfold bookmark_op_target in Htarget. unfold bookmark_op_time in Hcmp.
  unfold op_action in Hact. unfold _apply_bookmark_push_operation.
  apply String.eqb_neq in Hact. rewrite Hact. cbv zeta.
  rewrite Htarget, Hcmp. reflexivity.
Qed.

Lemma folder_op_skipped (clock user_id : Z) (op : push_op) (d : db)
    (f : Folder.t) :
  folder_op_target user_id op d = Some f ->
  op_action op <> "create"%string ->
  _server_time_is_newer_or_equal (Some (Folder.updated_at f))
    (folder_op_time op) = Ok true ->
  _apply_folder_push_operation clock user_id op d
  = Ok (Skipped "server_newer_or_equal", d).
Proof.
  intros Htarget Hact Hcmp.
  unfold folder_op_target in Htarget. unfold folder_op_time in Hcmp.
  unfold op_action in Hact. unfold _apply_folder_push_operation.
  apply String.eqb_neq in Hact. rewrite Hact. cbv zeta.
  rewrite Htarget, Hcmp. reflexivity.
Qed.

Lemma folder_op_applied (clock user_id : Z) (op : push_op) (d : db)
    (f : Folder.t) :
  folder_op_target user_id op d = Some f ->
  _server_time_is_newer_or_equal (Some (Folder.updated_at f))
    (folder_op_time op) = Ok false ->
  (op_action op = "update"%string \/ op_action op = "move"%string ->
   (exists d', _apply_folder_push_operation clock user_id op d
               = Ok (FolderStatus "updated" (Folder.id f), d')
               /\ logged "update" "folder" (Folder.id f) d d')
   \/ _apply_folder_push_operation clock user_id op d
      = Ok (Skipped "no_changes", d))
  /\ (op_action op = "delete"%string ->
      _apply_folder_push_operation clock user_id op d
      = (d' ← _delete_folder_tree_for_sync recursion_limit clock user_id f d;
         Ok (FolderStatus "deleted" (Folder.id f), d'))).
Proof.
  intros Htarget Hcmp.
  unfold folder_op_target in Htarget. unfold folder_op_time in Hcmp.
  unfold op_action.
  split.
  - intros Hact. unfold _apply_folder_push_operation.
    assert (Hc : String.eqb (Py.lower (Py.or_empty (op_op op))) "create"
                 = false)
      by (destruct Hact as [-> | ->]; reflexivity).
    assert (Hu : String.eqb (Py.lower (Py.or_empty (op_op op))) "update"
                 || String.eqb (Py.lower (Py.or_empty (op_op op))) "move"
                 = true)
      by (destruct Hact as [-> | ->]; reflexivity).
    rewrite Hc, Hu. cbv zeta. rewrite Htarget, Hcmp.
    cbn [mbind result_bind].
    match goal with
    | |- context [let '(_, _) := ?a in let '(_, _) := _ in _] =>
        destruct a as [folder1 changed1]
    end.
    match goal with
    | |- context [let '(_, _) := ?a in _] => destruct a as [folder2 changed]
    end.
    destruct changed.
    + left. eexists. split; [reflexivity|]. by apply log_sync_event_logged.
    + right. reflexivity.
  - intros Hact. unfold _apply_folder_push_operation.
    rewrite Hact. cbn [String.eqb Ascii.eqb Bool.eqb orb]. cbv zeta.
    rewrite Htarget, Hcmp. reflexivity.
Qed.

Lemma parse_client_time_none (v : Py.value) :
  Py.value_truthy v = false \/ unparseable v -> _parse_client_time v = None.
Proof.
  unfold _parse_client_time, unparseable.
  intros [-> | Hv]; [reflexivity|].
  destruct (Py.value_truthy v); [|reflexivity]. by destruct v.
Qed.

End LastWriteWins.




(** A client time written without an offset makes the handler raise. *)
Example naive_client_time_raises :
  _apply_bookmark_push_operation 5 1
    {| op_entity_type := None; op_op := Some "update"%string;
       op_id := Py.VInt 1; op_updated_at := Py.VStr "2024-05-01T10:00:00";
       op_bookmark := ∅; op_folder := ∅ |}
    (with_bookmarks [demo_bookmark 1 1 "a" T0 None] empty_db)
  = Raise TypeError.
Proof. vm_compute. reflexivity. Qed.



(** ** Deduplication of pushed creates (sync.py) *)

Lemma next_id_fresh (ids : list Z) (x : Z) : x ∈ ids -> x < next_id ids.
Proof.
  unfold next_id. induction ids as [|y ids IH]; intros Hx.
  - by apply elem_of_nil in Hx.
  - apply elem_of_cons in Hx as [-> | Hx]; cbn [foldr]; [lia|].
    specialize (IH Hx). lia.
Qed.

Lemma first_None {A} (p : A -> bool) (l : list A) :
  first p l = None -> forall x, x ∈ l -> p x = false.
Proof.
  intros Hf x Hx. apply list_elem_of_In in Hx.
  exact (find_none p l Hf x Hx).
Qed.

Lemma first_Some {A} (p : A -> bool) (l : list A) (x : A) :
  first p l = Some x -> x ∈ l /\ p x = true.
Proof.
  intros Hf. apply find_some in Hf as [Hx Hp]. by apply list_elem_of_In in Hx.
Qed.

Lemma first_by_desc_Some {A} (key : A -> Z) (l : list A) (x : A) :
  first_by_desc key l = Some x -> x ∈ l.
Proof.
  revert x. induction l as [|y l IH]; intros x; cbn; [discriminate|].
  destruct (first_by_desc key l) as [r|].
  - destruct (key y <? key r); intros [= <-].
    + apply elem_of_cons. right. by apply IH.
    + apply elem_of_cons. by left.
  - intros [= <-]. apply elem_of_cons. by left.
Qed.

Lemma first_by_desc_None {A} (key : A -> Z) (l : list A) :
  first_by_desc key l = None -> l = [].
Proof.
  destruct l as [|y l]; [done|]. cbn.
  destruct (first_by_desc key l) as [r|]; [|discriminate].
  destruct (key y <? key r); discriminate.
Qed.

Lemma flush_bookmark_ids (clock : Z) (b : Bookmark.t) (d : db) :
  map Bookmark.id (bookmarks (flush_bookmark clock b d))
  = map Bookmark.id (bookmarks d).
Proof.
  unfold flush_bookmark. cbn. induction (bookmarks d) as [|r l IH]; [done|].
  cbn. rewrite IH. f_equal.
  destruct (Bookmark.id r =? Bookmark.id b) eqn:Hid; [|done].
  apply Z.eqb_eq in Hid. by destruct (bool_decide (r = b)).
Qed.

Lemma flush_bookmark_row (clock : Z) (b : Bookmark.t) (d : db)
    (r : Bookmark.t) :
  r ∈ bookmarks (flush_bookmark clock b d) ->
  Bookmark.id r = Bookmark.id b ->
  r = b \/ r = Bookmark.set_updated_at (utcnow clock) b.
Proof.
  unfold flush_bookmark. cbn. intros Hr Hid.
  apply list_elem_of_In, in_map_iff in Hr as (r0 & Hr0 & _).
  destruct (Bookmark.id r0 =? Bookmark.id b) eqn:Hid0.
  - destruct (bool_decide_reflect (r0 = b)); subst; tauto.
  - subst r0. apply Z.eqb_neq in Hid0. contradiction.
Qed.




(** ** The folder tree (sync.py, routes.py) *)

(** C2 fails on the code. With folder 2 inside folder 1, a pushed move of
    folder 1 into folder 2 is answered [updated], and the PATCH endpoint
    accepts a folder as its own parent: in both stores folder 1 is its own
    ancestor, where the table before was acyclic. *)
Theorem folder_moves_can_close_a_cycle :
  let d := with_folders [demo_folder 1 1 "A" None;
                         demo_folder 2 1 "B" (Some 1)] empty_db in
  let op :=
    {| op_entity_type := Some "folder"%string; op_op := Some "move"%string;
       op_id := Py.VNone; op_updated_at := Py.VNone; op_bookmark := ∅;
       op_folder := {[ "id"%string := Py.VInt 1;
                       "parent_id"%string := Py.VInt 2 ]} |} in
  acyclic (folders d)
  /\ (exists d', apply_push_operation 5 1 op d
                 = Ok (FolderStatus "updated" 1, d')
                 /\ ancestor (folders d') 1 1)
  /\ (exists f d', folders_update 5 1 1 {[ "parent_id"%string := Py.VInt 1 ]} d
                   = (FolderJson f, d')
                   /\ ancestor (folders d') 1 1).
Proof.
  intros d op. split; [|split].
  - intros a Ha.
    assert (Hedge : forall x y, parent_edge (folders d) x y -> x = 2 /\ y = 1).
    { intros x y (f & Hf & <- & Hp). cbn in Hf.
      rewrite !elem_of_cons, elem_of_nil in Hf.
      destruct Hf as [-> | [-> | []]]; cbn in Hp; [discriminate|].
      by injection Hp as <-. }
    assert (Hto : forall x y, ancestor (folders d) x y -> x = 2 /\ y = 1).
    { intros x y Hxy. induction Hxy as [x y Hxy | x y z Hxy _ IH].
      - by apply Hedge.
      - apply Hedge in Hxy. lia. }
    apply Hto in Ha. lia.
  - eexists. split; [vm_compute; reflexivity|].
    eapply tc_l; [|apply tc_once].
    + eexists. split; [apply elem_of_cons; left; reflexivity|]. done.
    + eexists. split; [apply elem_of_cons; right; apply elem_of_cons; left;
                       reflexivity|]. done.
  - eexists. eexists. split; [vm_compute; reflexivity|].
    apply tc_once.
    eexists. split; [apply elem_of_cons; left; reflexivity|]. done.
Qed.

(** ** Confirmation gates (routes.py, [sync_first_apply]) *)

Lemma verify_confirmation_token_fails `{External} (cfg : config)
    (clock user_id : Z) (rq : apply_request) :
  Py.truthy (rq_sync_mode rq) = true ->
  token_fails cfg clock user_id rq <->
  verify_confirmation_token (SECRET_KEY cfg) (rq_token rq)
    (SYNC_CONFIRM_TTL_SECONDS cfg) user_id (rq_client rq)
    (Some (rq_sync_mode rq)) clock = None.
Proof.
  intros Hmode. unfold token_fails, verify_confirmation_token.
  destruct (serializer_loads _ _ _ _ _) as [payload|]; [|done].
  rewrite Hmode. cbn [andb].
  destruct (bool_decide_reflect (Py.get payload "user_id" = Py.VInt user_id));
    cbn [negb orb]; [|split; [done | intros _; by left]].
  destruct (bool_decide_reflect
              (Py.get payload "client_id" = Py.VStr (rq_client rq)));
    cbn [negb orb]; [|split; [done | intros _; right; by left]].
  destruct (bool_decide_reflect
              (Py.get payload "mode" = Py.VStr (rq_sync_mode rq)));
    cbn [negb].
  - split; [|done]. intros [? | [? | ?]]; contradiction.
  - split; [done|]. intros _. right. by right.
Qed.

(** The handler rejects at the gates and leaves the store as it was. *)
Lemma sync_first_apply_rejects `{External} :
  forall (cfg : config) (clock user_id : Z) (rq : apply_request) (d : db),
    has_required_fields rq ->
    (phrase_matches rq = false \/ box_checked rq = false ->
     sync_first_apply cfg clock user_id rq d
     = Ok (ApplyError 400 "destructive confirmation failed", d))
    /\ (phrase_matches rq = true -> box_checked rq = true ->
        token_fails cfg clock user_id rq ->
        sync_first_apply cfg clock user_id rq d
        = Ok (ApplyError 400 "invalid or expired confirmation token", d)).
Proof.
  intros cfg clock user_id rq d (Hc & Ht & Hm).
  unfold sync_first_apply. cbv zeta.
  fold (rq_client rq) (rq_sync_mode rq) (rq_token rq).
  fold (phrase_matches rq) (box_checked rq).
  rewrite Hc, Ht, Hm. cbn [negb orb].
  split.
  - intros [-> | ->]; [reflexivity|].
    by destruct (phrase_matches rq).
  - intros -> -> Hfail. cbn [negb orb].
    apply (verify_confirmation_token_fails cfg clock user_id rq Hm) in Hfail.
    by rewrite Hfail.
Qed.

Lemma user_from_bearer_token_tables `{External} (clock : Z)
    (auth_header : string) (d : db) :
  same_sync_tables d (_user_from_bearer_token clock auth_header d).2.
Proof.
  unfold _user_from_bearer_token, same_sync_tables.
  repeat case_match; done.
Qed.




(** ** Two-way merge (routes.py, [_two_way_merge_snapshot]) *)

Section TwoWayMerge.
Context `{External}.

Lemma by_normalized_lookup (server : list Bookmark.t) (n : string) :
  default [] (foldl (fun m bookmark => by_normalized_add bookmark m)
                    (∅ : gmap string (list Bookmark.t)) server !! n)
  = List.filter (fun b => String.eqb (Bookmark.normalized_url b) n) server.
Proof.
  enough (Hgen : forall (m : gmap string (list Bookmark.t)) pre,
             default [] (m !! n)
             = List.filter (fun b => String.eqb (Bookmark.normalized_url b) n)
                           pre ->
             default [] (foldl (fun m bookmark => by_normalized_add bookmark m)
                               m server !! n)
             = List.filter (fun b => String.eqb (Bookmark.normalized_url b) n)
                           (pre ++ server)).
  { apply (Hgen ∅ []). by rewrite lookup_empty. }
  induction server as [|b server IH]; intros m pre Hm.
  - by rewrite app_nil_r.
  - cbn [foldl].
    replace (pre ++ b :: server) with ((pre ++ [b]) ++ server)
      by (by rewrite <- app_assoc).
    apply IH.
    unfold by_normalized_add. rewrite List.filter_app. cbn [List.filter].
    destruct (String.eqb (Bookmark.normalized_url b) n) eqn:Hb.
    + apply String.eqb_eq in Hb. subst n.
      rewrite lookup_insert_eq. cbn. by rewrite Hm.
    + apply String.eqb_neq in Hb.
      rewrite lookup_insert_ne by done. by rewrite Hm, app_nil_r.
Qed.

Lemma first_unused_Some (used : gset Z) (server : list Bookmark.t)
    (n : string) (m : Bookmark.t) :
  first_unused used
    (default [] (foldl (fun m bookmark => by_normalized_add bookmark m)
                       (∅ : gmap string (list Bookmark.t)) server !! n))
  = Some m ->
  m ∈ server /\ Bookmark.normalized_url m = n /\ Bookmark.id m ∉ used.
Proof.
  rewrite by_normalized_lookup. unfold first_unused. intros Hf.
  apply first_Some in Hf as [Hin Hp].
  apply filter_elem in Hin as [Hin Hn]. apply String.eqb_eq in Hn.
  apply negb_true_iff, bool_decide_eq_false in Hp. done.
Qed.

Lemma create_server_bookmark_spec (clock user_id : Z)
    (item : LocalBookmark.t) (folder_map : gmap string Z)
    (populate_content : bool) (d : db) :
  parsed_local_bookmark item ->
  exists b d',
    _create_server_bookmark_from_local clock user_id item folder_map
      populate_content d = (Some b, d')
    /\ bookmarks d' = bookmarks d ++ [b]
    /\ folders d' = folders d
    /\ Bookmark.id b = next_id (map Bookmark.id (bookmarks d))
    /\ Bookmark.user_id b = user_id
    /\ Bookmark.normalized_url b = LocalBookmark.normalized_url item
    /\ Bookmark.deleted_at b = None.
Proof.
  intros [Hnorm Hne]. unfold _create_server_bookmark_from_local.
  rewrite Hnorm.
  assert (Ht : Py.truthy (LocalBookmark.normalized_url item) = true)
    by (by destruct (LocalBookmark.normalized_url item)).
  rewrite Ht. cbn [negb]. unfold _assign_tags.
  destruct (_apply_tags user_id (LocalBookmark.tags item) d)
    as [names d1] eqn:Htags.
  pose proof (apply_tags_tables user_id (LocalBookmark.tags item) d) as Hd1.
  rewrite Htags in Hd1. cbn [snd] in Hd1. destruct Hd1 as (_ & Hbm & Hfo).
  destruct populate_content.
  - destruct (_normalize_notes_value (Some (extracted_text_ _))).
    + eexists. eexists. split; [reflexivity|]. cbn. rewrite Hbm, Hfo. done.
    + destruct (is_none _);
        (eexists; eexists; split; [reflexivity|]); cbn; rewrite Hbm, Hfo; done.
  - eexists. eexists. split; [reflexivity|]. cbn. rewrite Hbm, Hfo. done.
Qed.

Lemma next_id_app_le (l l' : list Z) : next_id l <= next_id (l ++ l').
Proof.
  unfold next_id. induction l as [|x l IH]; cbn [app foldr].
  - induction l' as [|y l' IH']; cbn [foldr]; lia.
  - lia.
Qed.

Lemma map_local_id_lookup (local_id : option string) (server_id : Z)
    (m : gmap string Z) (l : string) (s : Z) :
  map_local_id local_id server_id m !! l = Some s ->
  (local_id = Some l /\ s = server_id) \/ m !! l = Some s.
Proof.
  unfold map_local_id. destruct local_id as [k|]; [|by right].
  destruct (Py.truthy k); [|by right].
  destruct (decide (k = l)) as [->|Hne].
  - rewrite lookup_insert_eq. intros [= <-]. by left.
  - rewrite lookup_insert_ne by done. by right.
Qed.

Lemma map_local_id_one_to_one (local_id : option string) (server_id : Z)
    (m : gmap string Z) :
  one_to_one m ->
  (forall l, m !! l <> Some server_id) ->
  one_to_one (map_local_id local_id server_id m).
Proof.
  intros Hinj Hfresh l1 l2 s H1 H2.
  apply map_local_id_lookup in H1 as [[H1 ->] | H1];
    apply map_local_id_lookup in H2 as [[H2 H2'] | H2].
  - congruence.
  - by apply Hfresh in H2.
  - subst s. by apply Hfresh in H1.
  - by eapply Hinj.
Qed.

Lemma merge_step_inv (clock user_id : Z) (folder_map : gmap string Z)
    (server : list Bookmark.t) (d0 : db) (processed : list LocalBookmark.t)
    (st : merge_state) (item : LocalBookmark.t) :
  (forall b, b ∈ server -> b ∈ bookmarks d0) ->
  merge_inv user_id server d0 processed st ->
  parsed_local_bookmark item ->
  merge_inv user_id server d0 (processed ++ [item])
    (merge_step clock user_id folder_map
       (foldl (fun m bookmark => by_normalized_add bookmark m)
              (∅ : gmap string (list Bookmark.t)) server) st item).
Proof.
  intros Hserver (Hcount & Hused & (created & Hstore & Hlen & Hcreated & Hrange)
                  & Hinj & Hurl) Hparsed.
  assert (Hold : forall b, b ∈ bookmarks d0 ->
                   Bookmark.id b < next_id (map Bookmark.id (bookmarks d0))).
  { intros b Hb. apply next_id_fresh, list_elem_of_In, in_map.
    by apply list_elem_of_In. }
  unfold merge_step.
  destruct (first_unused _ _) as [m|] eqn:Hfirst.
  - apply first_unused_Some in Hfirst as (Hm & Hmn & Hmu).
    assert (Hfresh : forall l, bookmark_map st !! l <> Some (Bookmark.id m)).
    { intros l Hl. apply Hrange in Hl as [Hl | (c & Hc & Hcid)]; [done|].
      apply Hcreated in Hc as [_ Hc]. specialize (Hold m (Hserver m Hm)). lia. }
    unfold merge_inv. cbn [used_server_ids bookmark_map created_count
                             merge_store].
    split; [|split; [|split; [|split]]].
    + rewrite length_app. cbn [length].
      rewrite size_union by (by apply disjoint_singleton_l).
      rewrite size_singleton. lia.
    + intros i Hi. apply elem_of_union in Hi as [Hi | Hi]; [|by apply Hused].
      apply elem_of_singleton in Hi as ->. by exists m.
    + exists created. split; [done|]. split; [done|]. split; [done|].
      intros l s Hl. apply map_local_id_lookup in Hl as [[_ ->] | Hl].
      * left. apply elem_of_union_l. by apply elem_of_singleton.
      * apply Hrange in Hl as [Hl | Hl]; [left | by right].
        by apply elem_of_union_r.
    + by apply map_local_id_one_to_one.
    + intros l s Hl. apply map_local_id_lookup in Hl as [[Hid ->] | Hl].
      * exists item, m. split; [in_app|]. split; [done|].
        split; [|done]. rewrite Hstore. apply elem_of_app. left.
        by apply Hserver.
      * destruct (Hurl l s Hl) as (item' & b & Hi & ?).
        exists item', b. split; [in_app | done].
  - destruct (create_server_bookmark_spec clock user_id item folder_map true
                (merge_store st) Hparsed)
      as (c & d' & -> & Hbm & _ & Hid & Hu & Hn & _).
    assert (Hge : next_id (map Bookmark.id (bookmarks d0)) <= Bookmark.id c).
    { rewrite Hid, Hstore, map_app. apply next_id_app_le. }
    assert (Hnew : forall b, b ∈ bookmarks (merge_store st) ->
                     Bookmark.id b < Bookmark.id c).
    { intros b Hb. rewrite Hid. apply next_id_fresh, list_elem_of_In, in_map.
      by apply list_elem_of_In. }
    assert (Hfresh : forall l, bookmark_map st !! l <> Some (Bookmark.id c)).
    { intros l Hl. apply Hrange in Hl as [Hl | (c' & Hc' & Hcid)].
      - apply Hused in Hl as (b & Hb & Hbid).
        assert (Hb' : b ∈ bookmarks (merge_store st)).
        { rewrite Hstore. apply elem_of_app. left. by apply Hserver. }
        apply Hnew in Hb'. lia.
      - assert (Hc'' : c' ∈ bookmarks (merge_store st)).
        { rewrite Hstore. apply elem_of_app. by right. }
        apply Hnew in Hc''. lia. }
    unfold merge_inv. cbn [used_server_ids bookmark_map created_count
                             merge_store].
    split; [|split; [|split; [|split]]].
    + rewrite length_app. cbn [length]. lia.
    + done.
    + exists (created ++ [c]). split; [by rewrite Hbm, Hstore, app_assoc|].
      split; [rewrite length_app; cbn [length]; lia|]. split.
      * intros c' Hc'. apply elem_of_app in Hc' as [Hc' | Hc'].
        -- by apply Hcreated.
        -- apply list_elem_of_singleton in Hc' as ->. done.
      * intros l s Hl. apply map_local_id_lookup in Hl as [[_ ->] | Hl].
        -- right. exists c. split; [in_app | done].
        -- apply Hrange in Hl as [Hl | (c' & Hc' & ?)]; [by left|].
           right. exists c'. split; [in_app | done].
    + by apply map_local_id_one_to_one.
    + intros l s Hl. apply map_local_id_lookup in Hl as [[Hlid ->] | Hl].
      * exists item, c. split; [in_app|]. split; [done|].
        split; [rewrite Hbm; in_app | done].
      * destruct (Hurl l s Hl) as (item' & b & Hi & Hli & Hb & ?).
        exists item', b. split; [in_app|]. split; [done|].
        split; [rewrite Hbm; in_app | done].
Qed.

Lemma merge_loop_inv (clock user_id : Z) (folder_map : gmap string Z)
    (server : list Bookmark.t) (local_bookmarks : list LocalBookmark.t)
    (d : db) :
  (forall b, b ∈ server -> b ∈ bookmarks d) ->
  Forall parsed_local_bookmark local_bookmarks ->
  merge_inv user_id server d local_bookmarks
    (merge_loop clock user_id folder_map server local_bookmarks d).
Proof.
  intros Hserver Hparsed. unfold merge_loop.
  enough (Hgen : forall processed st,
             merge_inv user_id server d processed st ->
             merge_inv user_id server d (processed ++ local_bookmarks)
               (foldl (merge_step clock user_id folder_map
                         (foldl (fun m bookmark => by_normalized_add bookmark m)
                                (∅ : gmap string (list Bookmark.t)) server))
                      st local_bookmarks)).
  { apply (Hgen []). unfold merge_inv. cbn.
    split; [by rewrite size_empty|].
    split; [intros i Hi; by apply elem_of_empty in Hi|].
    split.
    { exists []. rewrite app_nil_r. split; [done|]. split; [done|].
      split; [intros c Hc; by apply elem_of_nil in Hc|].
      intros l s Hl. by rewrite lookup_empty in Hl. }
    split; [intros l1 l2 s Hl; by rewrite lookup_empty in Hl|].
    intros l s Hl. by rewrite lookup_empty in Hl. }
  induction Hparsed as [|item items Hitem _ IH]; intros processed st Hinv.
  - by rewrite app_nil_r.
  - cbn [foldl].
    replace (processed ++ item :: items) with ((processed ++ [item]) ++ items)
      by (by rewrite <- app_assoc).
    apply IH. by apply merge_step_inv.
Qed.

Lemma active_server_bookmarks_elem (user_id : Z) (d : db) (b : Bookmark.t) :
  b ∈ _active_server_bookmarks user_id d ->
  b ∈ bookmarks d /\ Bookmark.user_id b = user_id
  /\ Bookmark.deleted_at b = None.
Proof.
  unfold _active_server_bookmarks. rewrite order_by_elem, filter_elem.
  intros [Hb Hp]. apply andb_true_iff in Hp as [Hu Hd].
  apply Z.eqb_eq in Hu. split; [done|]. split; [done|].
  by destruct (Bookmark.deleted_at b).
Qed.

End TwoWayMerge.



(** ** Folder reconciliation (routes.py,
       [_ensure_server_folders_from_local]) *)

Lemma ancestor_extend (rows : list Folder.t) (f : Folder.t) :
  parents_exist rows ->
  (Folder.id f ∉ map Folder.id rows) ->
  (forall p, Folder.parent_id f = Some p -> p ∈ map Folder.id rows) ->
  forall a b, ancestor (rows ++ [f]) a b ->
    b <> Folder.id f /\ (a <> Folder.id f -> ancestor rows a b).
Proof.
  intros Hfk Hfresh Hparent.
  assert (Hedge : forall a b, parent_edge (rows ++ [f]) a b ->
            b <> Folder.id f
            /\ (a <> Folder.id f -> parent_edge rows a b)).
  { intros a b (g & Hg & <- & Hp).
    apply elem_of_app in Hg as [Hg | Hg].
    - split.
      + intros ->. apply Hfresh. by eapply Hfk.
      + intros _. by exists g.
    - apply list_elem_of_singleton in Hg as ->. split.
      + intros ->. apply Hfresh. by apply Hparent.
      + intros Hne. contradiction. }
  intros a b Hab. induction Hab as [a b Hab | a y b Hay _ IH].
  - apply Hedge in Hab as [Hb Ha]. split; [exact Hb|].
    intros Hne. apply tc_once. by apply Ha.
  - apply Hedge in Hay as [Hy Ha]. destruct IH as [Hb IH].
    split; [exact Hb|]. intros Hne.
    eapply tc_l; [by apply Ha | by apply IH].
Qed.

Lemma forest_extend (rows : list Folder.t) (f : Folder.t) :
  forest rows ->
  (Folder.id f ∉ map Folder.id rows) ->
  (forall p, Folder.parent_id f = Some p -> p ∈ map Folder.id rows) ->
  forest (rows ++ [f]).
Proof.
  intros [Hfk Hacyc] Hfresh Hparent. split.
  - intros g p Hg Hp. rewrite map_app. apply elem_of_app.
    apply elem_of_app in Hg as [Hg | Hg].
    + left. by eapply Hfk.
    + apply list_elem_of_singleton in Hg as ->. left. by apply Hparent.
  - intros a Ha.
    destruct (ancestor_extend rows f Hfk Hfresh Hparent a a Ha) as [Hne Hold].
    by apply (Hacyc a), Hold.
Qed.

Section FolderReconciler.
Context `{External}.

Lemma find_folder_by_name_Some (user_id : Z) (name : string)
    (parent_id : option Z) (d : db) (f : Folder.t) :
  find_folder_by_name user_id name parent_id d = Some f ->
  f ∈ folders d /\ Folder.user_id f = user_id /\ Folder.name f = name
  /\ Folder.parent_id f = parent_id.
Proof.
  unfold find_folder_by_name. intros Hf.
  apply first_Some in Hf as [Hin Hp].
  apply andb_true_iff in Hp as [Hp Hpar].
  apply andb_true_iff in Hp as [Hu Hn].
  apply Z.eqb_eq in Hu. apply String.eqb_eq in Hn.
  unfold opt_eqb in Hpar. apply bool_decide_eq_true in Hpar. done.
Qed.

(** Looking a folder up or creating it: the rows before stay in place, the
    folder returned is a row of the table with the parent asked for, and a
    forest stays a forest when that parent is the id of a row. *)
Lemma find_or_create_folder_spec (clock user_id : Z) (name : string)
    (parent_id : option Z) (d : db) :
  (forall p, parent_id = Some p -> p ∈ map Folder.id (folders d)) ->
  exists f d' added,
    find_or_create_folder clock user_id name parent_id d = (f, d')
    /\ folders d' = folders d ++ added
    /\ (forest (folders d) -> forest (folders d'))
    /\ f ∈ folders d'
    /\ Folder.parent_id f = parent_id
    /\ Folder.name f = name
    /\ Folder.user_id f = user_id.
Proof.
  intros Hparent. unfold find_or_create_folder.
  destruct (find_folder_by_name user_id name parent_id d) as [f|] eqn:Hfind.
  - apply find_folder_by_name_Some in Hfind as (Hin & Hu & Hn & Hp).
    exists f, d, []. rewrite app_nil_r. done.
  - unfold add_folder.
    set (f := Folder.mk (next_id (map Folder.id (folders d))) user_id name
                parent_id (utcnow clock) (utcnow clock)).
    eexists f, _, [f]. split; [reflexivity|].
    cbn. split; [reflexivity|]. split; [|split; [in_app | done]].
    intros Hforest. apply forest_extend; [exact Hforest| |exact Hparent].
    cbn. intros Hin. apply next_id_fresh in Hin. lia.
Qed.

Lemma elem_ids_app (rows added : list Folder.t) (s : Z) :
  s ∈ map Folder.id rows -> s ∈ map Folder.id (rows ++ added).
Proof. intros Hs. rewrite map_app. apply elem_of_app. by left. Qed.

Lemma elem_id (rows : list Folder.t) (f : Folder.t) :
  f ∈ rows -> Folder.id f ∈ map Folder.id rows.
Proof. intros Hf. apply list_elem_of_In, in_map. by apply list_elem_of_In. Qed.

Lemma root_folder_app (rows added : list Folder.t) (s : Z) :
  root_folder rows s -> root_folder (rows ++ added) s.
Proof.
  intros (f & Hf & Hid & Hp). exists f. split; [|done].
  apply elem_of_app. by left.
Qed.

(** A write of one local id after a lookup-or-create keeps the invariant of
    the reconciler. *)
Lemma folder_inv_step (d0 : db) (st : folder_state) (d1 : db)
    (added : list Folder.t) (f : Folder.t) (k : string)
    (key : option Z * string) :
  folder_inv d0 st ->
  folders d1 = folders (store st) ++ added ->
  (forest (folders (store st)) -> forest (folders d1)) ->
  f ∈ folders d1 ->
  folder_inv d0 {| mapping := <[k := Folder.id f]> (mapping st);
                   cache := <[key := Folder.id f]> (cache st);
                   store := d1 |}.
Proof.
  intros ((added0 & Hext) & Hforest & Hmap & Hcache) Hd1 Hf1 Hf.
  unfold folder_inv. cbn [mapping cache store].
  split; [|split; [|split]].
  - exists (added0 ++ added). by rewrite Hd1, Hext, app_assoc.
  - intros H0. by apply Hf1, Hforest.
  - intros k' s. destruct (decide (k = k')) as [->|Hne].
    + rewrite lookup_insert_eq. intros [= <-]. by apply elem_id.
    + rewrite lookup_insert_ne by done. intros Hl. rewrite Hd1.
      apply elem_ids_app. by eapply Hmap.
  - intros k' s. destruct (decide (key = k')) as [->|Hne].
    + rewrite lookup_insert_eq. intros [= <-]. by apply elem_id.
    + rewrite lookup_insert_ne by done. intros Hl. rewrite Hd1.
      apply elem_ids_app. by eapply Hcache.
Qed.

Lemma mapping_get_range (d0 : db) (st : folder_state) (k : option string)
    (p : Z) :
  folder_inv d0 st ->
  mapping_get (mapping st) k = Some p ->
  p ∈ map Folder.id (folders (store st)).
Proof.
  intros (_ & _ & Hmap & _). destruct k as [k|]; [|discriminate].
  cbn. apply Hmap.
Qed.

Lemma materialize_pass_spec (clock user_id : Z) (d0 : db)
    (rows0 items : list LocalFolder.t) :
  (forall row, row ∈ items -> row ∈ rows0) ->
  forall st,
    folder_inv d0 st ->
    (forall k, is_Some (mapping st !! k) -> resolves rows0 k) ->
    exists st' rest progressed,
      materialize_pass clock user_id items st = (st', rest, progressed)
      /\ folder_inv d0 st'
      /\ (forall k, is_Some (mapping st' !! k) -> resolves rows0 k)
      /\ (forall k, is_Some (mapping st !! k) -> is_Some (mapping st' !! k))
      /\ (forall row, row ∈ items ->
            row ∈ rest \/ is_Some (mapping st' !! LocalFolder.id row))
      /\ (forall row, row ∈ rest -> row ∈ items)
      /\ (length rest <= length items)%nat
      /\ (progressed = true -> (length rest < length items)%nat)
      /\ (progressed = false -> rest = items /\ st' = st).
Proof.
  induction items as [|row items IH]; intros Hrows st Hinv Hres.
  - exists st, [], false. split; [reflexivity|]. split; [exact Hinv|].
    split; [exact Hres|]. split; [done|].
    split; [intros row Hrow; by apply elem_of_nil in Hrow|].
    split; [done|]. split; [done|]. split; [discriminate | done].
  - assert (Hrows' : forall r, r ∈ items -> r ∈ rows0).
    { intros r Hr. apply Hrows. apply elem_of_cons. by right. }
    assert (Hrow0 : row ∈ rows0) by (apply Hrows; apply elem_of_cons; by left).
    cbn [materialize_pass].
    destruct (match LocalFolder.parent_id row with
              | Some p => Py.truthy p
                          && negb (bool_decide (is_Some (mapping st !! p)))
              | None => false
              end) eqn:Hskip.
    + destruct (IH Hrows' st Hinv Hres)
        as (st' & rest & progressed & -> & Hinv' & Hres' & Hmono & Hcov
            & Hsub & Hlen & Hprog & Hstay).
      exists st', (row :: rest), progressed. split; [reflexivity|].
      split; [exact Hinv'|]. split; [exact Hres'|]. split; [exact Hmono|].
      split; [|split; [|split; [|split]]].
      * intros r Hr. apply elem_of_cons in Hr as [-> | Hr].
        -- left. apply elem_of_cons. by left.
        -- destruct (Hcov r Hr) as [Hin | Hm]; [left | by right].
           apply elem_of_cons. by right.
      * intros r Hr. apply elem_of_cons in Hr as [-> | Hr];
          apply elem_of_cons; [by left | right; by apply Hsub].
      * cbn [length]. lia.
      * intros Hp. specialize (Hprog Hp). cbn [length]. lia.
      * intros Hp. destruct (Hstay Hp) as [-> ->]. done.
    + destruct (find_or_create_folder_spec clock user_id
                  (LocalFolder.title row)
                  (mapping_get (mapping st) (LocalFolder.parent_id row))
                  (store st))
        as (f & d1 & added & -> & Hd1 & Hforest1 & Hf & Hfp & _).
      { intros p Hp. by eapply mapping_get_range. }
      set (st1 := {| mapping := <[LocalFolder.id row := Folder.id f]>
                                   (mapping st);
                     cache := <[(mapping_get (mapping st)
                                   (LocalFolder.parent_id row),
                                 LocalFolder.title row) := Folder.id f]>
                                (cache st);
                     store := d1 |}).
      assert (Hinv1 : folder_inv d0 st1) by (by eapply folder_inv_step).
      assert (Hres1 : forall k, is_Some (mapping st1 !! k) -> resolves rows0 k).
      { intros k. subst st1. cbn [mapping].
        destruct (decide (LocalFolder.id row = k)) as [<-|Hne].
        - intros _.
          destruct (LocalFolder.parent_id row) as [p|] eqn:Hp.
          + destruct (Py.truthy p) eqn:Htp.
            * cbn [andb] in Hskip.
              apply negb_false_iff, bool_decide_eq_true in Hskip.
              eapply resolves_child; [exact Hrow0 | exact Hp |].
              by apply Hres.
            * apply resolves_root; [exact Hrow0|]. by rewrite Hp.
          + apply resolves_root; [exact Hrow0|]. by rewrite Hp.
        - rewrite lookup_insert_ne by done. apply Hres. }
      destruct (IH Hrows' st1 Hinv1 Hres1)
        as (st' & rest & progressed & -> & Hinv' & Hres' & Hmono & Hcov
            & Hsub & Hlen & _ & _).
      assert (Hmono1 : forall k, is_Some (mapping st !! k) ->
                         is_Some (mapping st' !! k)).
      { intros k Hk. apply Hmono. subst st1. cbn [mapping].
        destruct (decide (LocalFolder.id row = k)) as [<-|Hne].
        - rewrite lookup_insert_eq. by eexists.
        - by rewrite lookup_insert_ne. }
      exists st', rest, true. split; [reflexivity|].
      split; [exact Hinv'|]. split; [exact Hres'|]. split; [exact Hmono1|].
      split; [|split; [|split; [|split]]].
      * intros r Hr. apply elem_of_cons in Hr as [-> | Hr].
        -- right. apply Hmono. subst st1. cbn [mapping].
           rewrite lookup_insert_eq. by eexists.
        -- by apply Hcov.
      * intros r Hr. apply elem_of_cons. right. by apply Hsub.
      * cbn [length]. lia.
      * intros _. cbn [length]. lia.
      * discriminate.
Qed.

Lemma attach_at_root_spec (clock user_id : Z) (d0 : db)
    (rows0 items : list LocalFolder.t) :
  forall st,
    folder_inv d0 st ->
    (forall k s, mapping st !! k = Some s ->
       resolves rows0 k \/ root_folder (folders (store st)) s) ->
    let st' := attach_at_root clock user_id items st in
    folder_inv d0 st'
    /\ (forall k, is_Some (mapping st !! k) -> is_Some (mapping st' !! k))
    /\ (forall row, row ∈ items ->
          is_Some (mapping st' !! LocalFolder.id row))
    /\ (forall k s, mapping st' !! k = Some s ->
          resolves rows0 k \/ root_folder (folders (store st')) s).
Proof.
  unfold attach_at_root.
  induction items as [|row items IH]; intros st Hinv Hroot.
  - cbn. split; [exact Hinv|]. split; [done|].
    split; [intros row Hrow; by apply elem_of_nil in Hrow | exact Hroot].
  - cbn [foldl].
    destruct (find_or_create_folder_spec clock user_id
                (LocalFolder.title row) None (store st))
      as (f & d1 & added & -> & Hd1 & Hforest1 & Hf & Hfp & _);
      [discriminate|].
    set (st1 := {| mapping := <[LocalFolder.id row := Folder.id f]>
                                 (mapping st);
                   cache := <[(None, LocalFolder.title row) := Folder.id f]>
                              (cache st);
                   store := d1 |}).
    assert (Hinv1 : folder_inv d0 st1) by (by eapply folder_inv_step).
    assert (Hroot1 : forall k s, mapping st1 !! k = Some s ->
                       resolves rows0 k \/ root_folder (folders (store st1)) s).
    { intros k s. subst st1. cbn [mapping store].
      destruct (decide (LocalFolder.id row = k)) as [<-|Hne].
      - rewrite lookup_insert_eq. intros [= <-]. right. by exists f.
      - rewrite lookup_insert_ne by done. intros Hl.
        destruct (Hroot k s Hl) as [Hr | Hr]; [by left|].
        right. rewrite Hd1. by apply root_folder_app. }
    destruct (IH st1 Hinv1 Hroot1) as (Hinv' & Hmono & Hcov & Hroot').
    split; [exact Hinv'|]. split; [|split; [|exact Hroot']].
    + intros k Hk. apply Hmono. subst st1. cbn [mapping].
      destruct (decide (LocalFolder.id row = k)) as [<-|Hne].
      * rewrite lookup_insert_eq. by eexists.
      * by rewrite lookup_insert_ne.
    + intros r Hr. apply elem_of_cons in Hr as [-> | Hr]; [|by apply Hcov].
      apply Hmono. subst st1. cbn [mapping].
      rewrite lookup_insert_eq. by eexists.
Qed.

(** The [while] loop ends within as many rounds as rows are pending. *)
Lemma materialize_loop_spec (clock user_id : Z) (d0 : db)
    (rows0 : list LocalFolder.t) :
  forall (steps : nat) (pending : list LocalFolder.t) (st : folder_state),
    (length pending <= steps)%nat ->
    (forall row, row ∈ pending -> row ∈ rows0) ->
    folder_inv d0 st ->
    (forall k, is_Some (mapping st !! k) -> resolves rows0 k) ->
    exists st',
      materialize_loop steps clock user_id pending st = Ok st'
      /\ folder_inv d0 st'
      /\ (forall k, is_Some (mapping st !! k) -> is_Some (mapping st' !! k))
      /\ (forall row, row ∈ pending ->
            is_Some (mapping st' !! LocalFolder.id row))
      /\ (forall k s, mapping st' !! k = Some s ->
            resolves rows0 k \/ root_folder (folders (store st')) s).
Proof.
  induction steps as [|steps IH]; intros pending st Hlen Hrows Hinv Hres.
  - destruct pending as [|row pending]; [|cbn in Hlen; lia].
    exists st. split; [reflexivity|]. split; [exact Hinv|]. split; [done|].
    split; [intros row Hrow; by apply elem_of_nil in Hrow|].
    intros k s Hl. left. apply Hres. by eexists.
  - destruct pending as [|row pending].
    + exists st. split; [reflexivity|]. split; [exact Hinv|]. split; [done|].
      split; [intros row Hrow; by apply elem_of_nil in Hrow|].
      intros k s Hl. left. apply Hres. by eexists.
    + cbn [materialize_loop].
      destruct (materialize_pass_spec clock user_id d0 rows0 (row :: pending)
                  Hrows st Hinv Hres)
        as (st1 & pending1 & progressed & -> & Hinv1 & Hres1 & Hmono1 & Hcov1
            & Hsub1 & Hlen1 & Hprog1 & _).
      destruct progressed.
      * specialize (Hprog1 eq_refl).
        destruct (IH pending1 st1) as (st' & Hloop & Hinv' & Hmono' & Hcov'
                                       & Hroot'); try done.
        { lia. }
        { intros r Hr. by apply Hrows, Hsub1. }
        exists st'. split; [exact Hloop|]. split; [exact Hinv'|].
        split; [|split; [|exact Hroot']].
        -- intros k Hk. by apply Hmono', Hmono1.
        -- intros r Hr. destruct (Hcov1 r Hr) as [Hin | Hm].
           ++ by apply Hcov'.
           ++ by apply Hmono'.
      * destruct (attach_at_root_spec clock user_id d0 rows0 pending1 st1
                    Hinv1)
          as (Hinv' & Hmono' & Hcov' & Hroot').
        { intros k s Hl. left. apply Hres1. by eexists. }
        eexists. split; [reflexivity|]. split; [exact Hinv'|].
        split; [|split; [|exact Hroot']].
        -- intros k Hk. by apply Hmono', Hmono1.
        -- intros r Hr. destruct (Hcov1 r Hr) as [Hin | Hm].
           ++ by apply Hcov'.
           ++ by apply Hmono'.
Qed.

Lemma ensure_path_spec (clock user_id : Z) (d0 : db)
    (path_parts : list string) :
  forall (parent_id : option Z) (st : folder_state),
    folder_inv d0 st ->
    (forall p, parent_id = Some p ->
       p ∈ map Folder.id (folders (store st))) ->
    exists r st' added,
      ensure_path clock user_id path_parts parent_id st = (r, st')
      /\ folder_inv d0 st'
      /\ mapping st' = mapping st
      /\ folders (store st') = folders (store st) ++ added
      /\ (forall p, r = Some p -> p ∈ map Folder.id (folders (store st'))).
Proof.
  induction path_parts as [|part parts IH]; intros parent_id st Hinv Hparent.
  - exists parent_id, st, []. rewrite app_nil_r. done.
  - cbn [ensure_path]. destruct (negb (Py.truthy (Py.strip part))).
    + by apply IH.
    + destruct (cache st !! (parent_id, Py.strip part)) as [cached|] eqn:Hc.
      * apply IH; [exact Hinv|]. intros p [= <-].
        destruct Hinv as (_ & _ & _ & Hcache). by eapply Hcache.
      * destruct (find_or_create_folder_spec clock user_id (Py.strip part)
                    parent_id (store st) Hparent)
          as (f & d1 & added & -> & Hd1 & Hforest1 & Hf & _).
        set (st1 := {| mapping := mapping st;
                       cache := <[(parent_id, Py.strip part) := Folder.id f]>
                                  (cache st);
                       store := d1 |}).
        assert (Hinv1 : folder_inv d0 st1).
        { destruct Hinv as ((added0 & Hext) & Hforest & Hmap & Hcache).
          unfold folder_inv. subst st1. cbn [mapping cache store].
          split; [|split; [|split]].
          - exists (added0 ++ added). by rewrite Hd1, Hext, app_assoc.
          - intros H0. by apply Hforest1, Hforest.
          - intros k s Hl. rewrite Hd1. apply elem_ids_app. by eapply Hmap.
          - intros k s.
            destruct (decide ((parent_id, Py.strip part) = k)) as [<-|Hne].
            + rewrite lookup_insert_eq. intros [= <-]. by apply elem_id.
            + rewrite lookup_insert_ne by done. intros Hl. rewrite Hd1.
              apply elem_ids_app. by eapply Hcache. }
        destruct (IH (Some (Folder.id f)) st1 Hinv1)
          as (r & st' & added' & -> & Hinv' & Hm' & Hext' & Hr').
        { intros p [= <-]. by apply elem_id. }
        exists r, st', (added ++ added'). split; [reflexivity|].
        split; [exact Hinv'|]. split; [exact Hm'|]. split; [|exact Hr'].
        rewrite Hext'. subst st1. cbn [store]. by rewrite Hd1, app_assoc.
Qed.

Lemma ensure_bookmark_paths_spec (clock user_id : Z) (d0 : db)
    (local_bookmarks : list LocalBookmark.t) :
  forall st,
    folder_inv d0 st ->
    let st' := ensure_bookmark_paths clock user_id local_bookmarks st in
    folder_inv d0 st'
    /\ (forall k s, mapping st !! k = Some s -> mapping st' !! k = Some s)
    /\ (exists added, folders (store st') = folders (store st) ++ added).
Proof.
  unfold ensure_bookmark_paths.
  induction local_bookmarks as [|bookmark items IH]; intros st Hinv.
  - cbn. split; [exact Hinv|]. split; [done|]. exists []. by rewrite app_nil_r.
  - cbn [foldl].
    match goal with
    | |- context [foldl ?step ?s1 items] =>
        assert (Hstep : folder_inv d0 s1
                        /\ (forall k s, mapping st !! k = Some s ->
                              mapping s1 !! k = Some s)
                        /\ (exists added,
                              folders (store s1) = folders (store st) ++ added))
    end.
    { destruct (match LocalBookmark.folder_local_id bookmark with
                | Some l => Py.truthy l
                            && bool_decide (is_Some (mapping st !! l))
                | None => false
                end) eqn:Hknown.
      { split; [exact Hinv|]. split; [done|]. exists []. by rewrite app_nil_r. }
      destruct (LocalBookmark.folder_path bookmark) as [|part parts] eqn:Hpath.
      { split; [exact Hinv|]. split; [done|]. exists []. by rewrite app_nil_r. }
      destruct (ensure_path_spec clock user_id d0 (part :: parts) None st Hinv)
        as (r & st1 & added & -> & Hinv1 & Hm1 & Hext1 & Hr1); [discriminate|].
      destruct (LocalBookmark.folder_local_id bookmark) as [l|];
        [|split; [exact Hinv1|]; split; [by rewrite Hm1 | by exists added]].
      destruct r as [e|];
        [|split; [exact Hinv1|]; split; [by rewrite Hm1 | by exists added]].
      destruct (Py.truthy l) eqn:Hl; cbn [andb] in *;
        [|split; [exact Hinv1|]; split; [by rewrite Hm1 | by exists added]].
      destruct (negb (e =? 0));
        [|split; [exact Hinv1|]; split; [by rewrite Hm1 | by exists added]].
      apply bool_decide_eq_false in Hknown.
      destruct Hinv1 as (Hext & Hforest & Hmap & Hcache).
      split; [|split; [|by exists added]].
      - unfold folder_inv. cbn [mapping cache store].
        split; [exact Hext|]. split; [exact Hforest|]. split; [|exact Hcache].
        intros k s. destruct (decide (l = k)) as [<-|Hne].
        + rewrite lookup_insert_eq. intros [= <-]. by apply Hr1.
        + rewrite lookup_insert_ne by done. apply Hmap.
      - intros k s Hk. cbn [mapping].
        destruct (decide (l = k)) as [<-|Hne].
        + exfalso. apply Hknown. by eexists.
        + rewrite lookup_insert_ne by done. by rewrite Hm1. }
    destruct Hstep as (Hinv1 & Hkeep1 & (added1 & Hext1)).
    match goal with
    | |- context [foldl ?step ?s1 items] =>
        destruct (IH s1 Hinv1) as (Hinv' & Hkeep' & (added' & Hext'))
    end.
    split; [exact Hinv'|]. split.
    + intros k s Hk. by apply Hkeep', Hkeep1.
    + exists (added1 ++ added'). by rewrite Hext', Hext1, app_assoc.
Qed.

Lemma dict_set_row_elem (row r : LocalFolder.t) (pending : list LocalFolder.t) :
  r ∈ dict_set_row row pending ->
  r = row \/ r ∈ pending.
Proof.
  induction pending as [|x pending IH]; cbn.
  - intros Hr. apply list_elem_of_singleton in Hr. by left.
  - destruct (String.eqb (LocalFolder.id x) (LocalFolder.id row)).
    + intros Hr. apply elem_of_cons in Hr as [-> | Hr]; [by left|].
      right. apply elem_of_cons. by right.
    + intros Hr. apply elem_of_cons in Hr as [-> | Hr].
      * right. apply elem_of_cons. by left.
      * destruct (IH Hr) as [-> | Hin]; [by left|].
        right. apply elem_of_cons. by right.
Qed.

Lemma dict_set_row_keys (row : LocalFolder.t) (pending : list LocalFolder.t)
    (k : string) :
  k = LocalFolder.id row \/ k ∈ map LocalFolder.id pending ->
  k ∈ map LocalFolder.id (dict_set_row row pending).
Proof.
  induction pending as [|x pending IH]; cbn.
  - intros [-> | Hk]; [apply elem_of_cons; by left|].
    by apply elem_of_nil in Hk.
  - destruct (String.eqb (LocalFolder.id x) (LocalFolder.id row)) eqn:Hx.
    + apply String.eqb_eq in Hx. cbn. rewrite !elem_of_cons.
      intros [-> | [-> | Hk]]; [by left | left; by rewrite Hx | by right].
    + cbn. rewrite !elem_of_cons.
      intros [-> | [-> | Hk]]; [right | by left | right]; apply IH; tauto.
Qed.

Lemma dict_of_rows_spec (local_folders : list LocalFolder.t) :
  (forall row, row ∈ local_folders ->
     LocalFolder.id row ∈ map LocalFolder.id (dict_of_rows local_folders))
  /\ (forall row, row ∈ dict_of_rows local_folders -> row ∈ local_folders).
Proof.
  unfold dict_of_rows.
  enough (Hgen : forall pending,
             (forall k, k ∈ map LocalFolder.id local_folders
                        \/ k ∈ map LocalFolder.id pending ->
                k ∈ map LocalFolder.id
                      (foldl (fun pending row => dict_set_row row pending)
                             pending local_folders))
             /\ (forall row,
                   row ∈ foldl (fun pending row => dict_set_row row pending)
                               pending local_folders ->
                   row ∈ local_folders \/ row ∈ pending)).
  { destruct (Hgen []) as [H1 H2]. split.
    - intros row Hrow. apply H1. left.
      apply list_elem_of_In, in_map. by apply list_elem_of_In.
    - intros row Hrow. destruct (H2 row Hrow) as [Hin | Hin]; [done|].
      by apply elem_of_nil in Hin. }
  induction local_folders as [|x rows IH]; intros pending.
  - cbn. split.
    + intros k [Hk | Hk]; [by apply elem_of_nil in Hk | done].
    + intros row Hrow. by right.
  - cbn [foldl map]. destruct (IH (dict_set_row x pending)) as [H1 H2]. split.
    + intros k Hk. apply H1. rewrite elem_of_cons in Hk.
      destruct Hk as [[-> | Hk] | Hk].
      * right. apply dict_set_row_keys. by left.
      * by left.
      * right. apply dict_set_row_keys. by right.
    + intros row Hrow. destruct (H2 row Hrow) as [Hin | Hin].
      * left. apply elem_of_cons. by right.
      * apply dict_set_row_elem in Hin as [-> | Hin]; [left | by right].
        apply elem_of_cons. by left.
Qed.

End FolderReconciler.

(** C7. Folder reconciliation from local id / parent id edges ends on every
    input, within as many rounds as there are local folders, and it gives a
    result: every local folder is mapped to a row of the folder table; the
    rows that were there stay in place, unchanged; a table that was a forest
    is a forest afterwards, so no cycle is produced; and a local folder
    whose chain of parents never resolves (it runs into a missing id or into
    a cycle) is mapped to a folder at the root. *)
Theorem folder_reconciliation_terminates_acyclic `{External} :
  forall (clock user_id : Z) (local_folders : list LocalFolder.t)
         (local_bookmarks : list LocalBookmark.t) (d : db),
    exists (m : gmap string Z) (d' : db),
      _ensure_server_folders_from_local clock user_id local_folders
        local_bookmarks d = Ok (m, d')
      /\ (exists added, folders d' = folders d ++ added)
      /\ (forest (folders d) -> forest (folders d'))
      /\ (forall row, row ∈ local_folders ->
            exists s, m !! LocalFolder.id row = Some s
                      /\ s ∈ map Folder.id (folders d'))
      /\ (forall row, row ∈ local_folders ->
            ~ resolves (dict_of_rows local_folders) (LocalFolder.id row) ->
            exists s, m !! LocalFolder.id row = Some s
                      /\ root_folder (folders d') s).
Proof.
  intros clock user_id local_folders local_bookmarks d.
  unfold _ensure_server_folders_from_local.
  set (pending := dict_of_rows local_folders).
  set (st0 := {| mapping := ∅; cache := ∅; store := d |}).
  assert (Hinv0 : folder_inv d st0).
  { unfold folder_inv, st0. cbn.
    split; [exists []; by rewrite app_nil_r|]. split; [done|].
    split; intros k s Hl; by rewrite lookup_empty in Hl. }
  destruct (materialize_loop_spec clock user_id d pending (length pending)
              pending st0)
    as (st1 & -> & Hinv1 & _ & Hcov1 & Hroot1); try done.
  { intros k [s Hs]. unfold st0 in Hs. cbn in Hs.
    by rewrite lookup_empty in Hs. }
  cbn [mbind result_bind].
  destruct (ensure_bookmark_paths_spec clock user_id d local_bookmarks st1
              Hinv1) as (Hinv2 & Hkeep & (added2 & Hext2)).
  eexists. eexists. split; [reflexivity|].
  destruct Hinv2 as (Hext & Hforest & Hmap & _).
  split; [exact Hext|]. split; [exact Hforest|].
  assert (Hmapped : forall row, row ∈ local_folders ->
            exists s, mapping st1 !! LocalFolder.id row = Some s).
  { intros row Hrow.
    apply (proj1 (dict_of_rows_spec local_folders)) in Hrow.
    apply list_elem_of_In, in_map_iff in Hrow as (r & Hid & Hr).
    apply list_elem_of_In in Hr.
    destruct (Hcov1 r Hr) as [s Hs]. exists s. by rewrite <- Hid. }
  split.
  - intros row Hrow. destruct (Hmapped row Hrow) as [s Hs].
    exists s. apply Hkeep in Hs. split; [exact Hs|]. by eapply Hmap.
  - intros row Hrow Hnores. destruct (Hmapped row Hrow) as [s Hs].
    exists s. split; [by apply Hkeep|].
    destruct (Hroot1 _ _ Hs) as [Hres | Hroot]; [contradiction|].
    rewrite Hext2. by apply root_folder_app.
Qed.

(** On local folders of distinct ids the dictionary of pending rows is the
    list itself. *)
Lemma dict_of_rows_NoDup (local_folders : list LocalFolder.t) :
  NoDup (map LocalFolder.id local_folders) ->
  dict_of_rows local_folders = local_folders.
Proof.
  unfold dict_of_rows.
  enough (Hgen : forall pending,
             NoDup (map LocalFolder.id (pending ++ local_folders)) ->
             foldl (fun pending row => dict_set_row row pending) pending
                   local_folders = pending ++ local_folders).
  { intros Hnd. by apply (Hgen []). }
  induction local_folders as [|x rows IH]; intros pending Hnd.
  - by rewrite app_nil_r.
  - cbn [foldl].
    assert (Hset : dict_set_row x pending = pending ++ [x]).
    { clear IH. induction pending as [|y pending IHp]; [done|].
      cbn in *. apply NoDup_cons in Hnd as [Hy Hnd].
      destruct (String.eqb (LocalFolder.id y) (LocalFolder.id x)) eqn:Hyx.
      - apply String.eqb_eq in Hyx. exfalso. apply Hy. rewrite Hyx.
        rewrite map_app. apply elem_of_app. right. apply elem_of_cons.
        by left.
      - by rewrite IHp. }
    rewrite Hset. rewrite IH; rewrite <- app_assoc; done.
Qed.

(** The two folders that name each other as parent both end at the root. *)
Lemma folder_reconciliation_cycle_witness :
  exists (m : gmap string Z) (d' : db),
    _ensure_server_folders_from_local 5 1 demo_cyclic_folders [] empty_db
    = Ok (m, d')
    /\ m = {[ "1"%string := 1; "2"%string := 2 ]}
    /\ map Folder.parent_id (folders d') = [None; None]
    /\ (exists s, m !! "1"%string = Some s /\ root_folder (folders d') s)
    /\ (exists s, m !! "2"%string = Some s /\ root_folder (folders d') s)
    /\ forest (folders d').
Proof.
  assert (Hnores : forall k,
            ~ resolves (dict_of_rows demo_cyclic_folders) k).
  { intros k Hk. induction Hk as [row Hrow Hp | row p Hrow Hp _ IH]; [|done].
    change (dict_of_rows demo_cyclic_folders) with demo_cyclic_folders in Hrow.
    unfold demo_cyclic_folders in Hrow.
    rewrite !elem_of_cons, elem_of_nil in Hrow.
    destruct Hrow as [-> | [-> | []]]; cbn in Hp; discriminate. }
  destruct (folder_reconciliation_terminates_acyclic 5 1 demo_cyclic_folders
              [] empty_db) as (m & d' & Hres & _ & Hforest & _ & Hroot).
  exists m, d'. split; [exact Hres|].
  assert (Hval : _ensure_server_folders_from_local 5 1 demo_cyclic_folders []
                   empty_db
                 = Ok ({[ "1"%string := 1; "2"%string := 2 ]},
                       snd (match _ensure_server_folders_from_local 5 1
                                    demo_cyclic_folders [] empty_db with
                            | Ok r => r
                            | Raise _ => (∅, empty_db)
                            end)))
    by (vm_compute; reflexivity).
  rewrite Hres in Hval. cbn [snd] in Hval. injection Hval as Hm.
  split; [exact Hm|].
  split.
  { assert (Hp : map Folder.parent_id
                   (folders (snd (match _ensure_server_folders_from_local 5 1
                                          demo_cyclic_folders [] empty_db with
                                  | Ok r => r
                                  | Raise _ => (∅, empty_db)
                                  end))) = [None; None])
      by (vm_compute; reflexivity).
    by rewrite Hres in Hp. }
  split; [|split].
  - apply (Hroot (LocalFolder.mk "1" (Some "2"%string) "One")).
    + apply elem_of_cons. by left.
    + apply Hnores.
  - apply (Hroot (LocalFolder.mk "2" (Some "1"%string) "Two")).
    + apply elem_of_cons. right. apply elem_of_cons. by left.
    + apply Hnores.
  - apply Hforest. split.
    + intros f p Hf. by apply elem_of_nil in Hf.
    + intros a Ha. induction Ha as [a b (f & Hf & _) | a y b (f & Hf & _) _ _];
        by apply elem_of_nil in Hf.
Defined.

(** ** The parsers of the local snapshot (routes.py) *)

Lemma rstrip_cons (c : ascii) (s : string) :
  Py.rstrip (String c s)
  = match Py.rstrip s with
    | EmptyString =>
        if Py.isspace c then EmptyString else String c EmptyString
    | r => String c r
    end.
Proof. reflexivity. Qed.

Lemma rstrip_idemp (s : string) : Py.rstrip (Py.rstrip s) = Py.rstrip s.
Proof.
  induction s as [|c s IH]; [done|]. rewrite rstrip_cons.
  destruct (Py.rstrip s) as [|c' r] eqn:Hr.
  - destruct (Py.isspace c) eqn:Hc; [done|].
    rewrite rstrip_cons. cbn [Py.rstrip]. by rewrite Hc.
  - rewrite rstrip_cons, IH. done.
Qed.

Lemma strip_idemp (s : string) : Py.strip (Py.strip s) = Py.strip s.
Proof.
  unfold Py.strip.
  assert (Hstart : forall t,
            match t with
            | String c _ => Py.isspace c = false
            | EmptyString => True
            end -> Py.lstrip t = t).
  { intros [|c t]; [done|]. cbn. by intros ->. }
  assert (Hl : match Py.lstrip s with
               | String c _ => Py.isspace c = false
               | EmptyString => True
               end).
  { induction s as [|c s IH]; [done|]. cbn.
    destruct (Py.isspace c) eqn:Hc; [exact IH | exact Hc]. }
  rewrite Hstart; [apply rstrip_idemp|].
  destruct (Py.lstrip s) as [|c t]; [done|]. rewrite rstrip_cons.
  destruct (Py.rstrip t).
  - by rewrite Hl.
  - exact Hl.
Qed.

(** What [_parse_local_bookmarks] keeps is a parsed local bookmark. *)
Lemma parse_local_bookmarks_parsed `{External} (rows : list Py.dict) :
  Forall parsed_local_bookmark (_parse_local_bookmarks rows).
Proof.
  apply Forall_forall. intros item Hitem.
  apply list_elem_of_omap in Hitem as (raw & _ & Hparse).
  unfold parse_local_bookmark in Hparse.
  destruct (Py.truthy (Py.strip (Py.or_empty (Py.as_str (Py.get raw "url")))))
    eqn:Hurl; [|discriminate].
  destruct (Py.truthy (normalize_url _)) eqn:Hnorm; [|discriminate].
  cbn [negb] in Hparse. injection Hparse as <-.
  unfold parsed_local_bookmark. cbn [LocalBookmark.url
                                       LocalBookmark.normalized_url].
  split; [by rewrite strip_idemp|].
  intros Hempty. by rewrite Hempty in Hnorm.
Qed.

Lemma local_ref_not_empty `{External} (v : Py.value) :
  local_ref v <> Some EmptyString.
Proof.
  unfold local_ref.
  destruct v; try discriminate; cbv zeta;
    match goal with
    | |- context [Py.truthy ?t] => generalize t
    end; intros [|c r]; cbn; discriminate.
Qed.

(** What [_parse_local_folders] keeps: ids that are not empty and differ
    from one another, and no folder that names itself or the empty id as
    its parent. *)
Lemma parse_local_folders_spec `{External} (rows : list Py.dict) :
  NoDup (map LocalFolder.id (_parse_local_folders rows))
  /\ Forall (fun row =>
               Py.truthy (LocalFolder.id row) = true
               /\ LocalFolder.parent_id row <> Some (LocalFolder.id row)
               /\ LocalFolder.parent_id row <> Some EmptyString)
            (_parse_local_folders rows).
Proof.
  unfold _parse_local_folders.
  enough (Hgen : forall seen,
             NoDup (map LocalFolder.id (parse_local_folder_rows rows seen))
             /\ Forall (fun row =>
                          (LocalFolder.id row ∉ seen)
                          /\ Py.truthy (LocalFolder.id row) = true
                          /\ LocalFolder.parent_id row
                             <> Some (LocalFolder.id row)
                          /\ LocalFolder.parent_id row <> Some EmptyString)
                       (parse_local_folder_rows rows seen)).
  { destruct (Hgen ∅) as [Hnd Hall]. split; [exact Hnd|].
    eapply Forall_impl; [exact Hall|]. by intros row (_ & Hrest). }
  induction rows as [|item rows IH]; intros seen.
  - cbn. split; constructor.
  - cbn [parse_local_folder_rows].
    set (local_id := Py.strip (py_str (Py.or_ (Py.get item "id")
                                              (Py.VStr "")))).
    destruct (Py.truthy local_id) eqn:Hid; cbn [negb orb]; [|apply IH].
    destruct (bool_decide_reflect (local_id ∈ seen)) as [Hseen|Hseen];
      [apply IH|].
    destruct (IH ({[local_id]} ∪ seen)) as [Hnd Hall]. split.
    + cbn [map LocalFolder.id]. apply NoDup_cons. split; [|exact Hnd].
      intros Hin. apply list_elem_of_In, in_map_iff in Hin as (r & Hr & Hin).
      apply list_elem_of_In in Hin.
      rewrite Forall_forall in Hall. destruct (Hall r Hin) as [Hfresh _].
      apply Hfresh. rewrite Hr. apply elem_of_union_l.
      by apply elem_of_singleton.
    + constructor.
      * cbn [LocalFolder.id LocalFolder.parent_id].
        split; [exact Hseen|]. split; [exact Hid|]. split.
        -- destruct (bool_decide_reflect
                       (local_ref (Py.get item "parent_id") = Some local_id));
             [discriminate | done].
        -- destruct (bool_decide (local_ref (Py.get item "parent_id")
                                  = Some local_id)); [discriminate|].
           apply local_ref_not_empty.
      * eapply Forall_impl; [exact Hall|]. intros row (Hfresh & Hrest).
        split; [|exact Hrest]. intros Hin. apply Hfresh.
        by apply elem_of_union_r.
Qed.

(** On the rows the parser keeps, the pending dictionary of the reconciler
    is the list of the rows. *)
Lemma dict_of_parsed_rows `{External} (rows : list Py.dict) :
  dict_of_rows (_parse_local_folders rows) = _parse_local_folders rows.
Proof. apply dict_of_rows_NoDup, parse_local_folders_spec. Qed.

(** ** The order of strings *)

Lemma ascii_compare_trans (a b c : ascii) :
  Ascii.compare a b = Lt -> Ascii.compare b c = Lt -> Ascii.compare a c = Lt.
Proof.
  unfold Ascii.compare. rewrite !N.compare_lt_iff. lia.
Qed.

Lemma string_compare_refl (s : string) : String.compare s s = Eq.
Proof.
  induction s as [|c s IH]; cbn; [done|].
  unfold Ascii.compare. by rewrite N.compare_refl.
Qed.

Lemma string_compare_trans (a b c : string) :
  String.compare a b = Lt -> String.compare b c = Lt -> String.compare a c = Lt.
Proof.
  revert b c. induction a as [|x a IH]; intros [|y b] [|z c]; cbn; try done.
  destruct (Ascii.compare x y) eqn:Hxy; try done.
  - apply Ascii.compare_eq_iff in Hxy as ->.
    destruct (Ascii.compare y z); try done. apply IH.
  - intros _. destruct (Ascii.compare y z) eqn:Hyz; try done.
    + apply Ascii.compare_eq_iff in Hyz as <-. by rewrite Hxy.
    + by rewrite (ascii_compare_trans _ _ _ Hxy Hyz).
Qed.

Lemma string_compare_gt_lt (a b : string) :
  String.compare a b = Gt <-> String.compare b a = Lt.
Proof.
  rewrite (String.compare_antisym b a).
  destruct (String.compare a b); cbn; split; congruence.
Qed.

Lemma string_leb_trans (a b c : string) :
  String.leb a b = true -> String.leb b c = true -> String.leb a c = true.
Proof.
  unfold String.leb.
  destruct (String.compare a b) eqn:Hab; try done;
    destruct (String.compare b c) eqn:Hbc; try done; intros _ _.
  - apply String.compare_eq_iff in Hab as ->. by rewrite Hbc.
  - apply String.compare_eq_iff in Hab as ->. by rewrite Hbc.
  - apply String.compare_eq_iff in Hbc as <-. by rewrite Hab.
  - by rewrite (string_compare_trans _ _ _ Hab Hbc).
Qed.

(** ** Tags (common.py, [parse_tags]) *)

Lemma insert_sorted_elem (x y : string) (l : list string) :
  y ∈ Py.insert_sorted x l <-> y = x \/ y ∈ l.
Proof.
  induction l as [|a l IH]; cbn.
  - rewrite list_elem_of_singleton, elem_of_nil. tauto.
  - destruct (String.compare x a) eqn:Hc.
    + apply String.compare_eq_iff in Hc as ->. rewrite elem_of_cons. tauto.
    + rewrite !elem_of_cons. tauto.
    + rewrite !elem_of_cons, IH. tauto.
Qed.

Lemma sorted_set_elem (x : string) (l : list string) :
  x ∈ Py.sorted_set l <-> x ∈ l.
Proof.
  induction l as [|a l IH]; [done|].
  unfold Py.sorted_set in *. cbn. rewrite insert_sorted_elem, IH, elem_of_cons.
  tauto.
Qed.

Lemma insert_sorted_sorted (x : string) (l : list string) :
  StronglySorted (fun a b => String.compare a b = Lt) l ->
  StronglySorted (fun a b => String.compare a b = Lt) (Py.insert_sorted x l).
Proof.
  induction 1 as [|y l Hs IH Hy]; cbn.
  - constructor; constructor.
  - destruct (String.compare x y) eqn:Hxy.
    + by constructor.
    + constructor; [by constructor|]. constructor; [exact Hxy|].
      eapply Forall_impl; [exact Hy|]. intros z Hz.
      by eapply string_compare_trans.
    + constructor; [exact IH|]. apply Forall_forall. intros z Hz.
      apply insert_sorted_elem in Hz as [->|Hz].
      * by apply string_compare_gt_lt.
      * rewrite Forall_forall in Hy. by apply Hy.
Qed.

Lemma sorted_set_sorted (l : list string) :
  StronglySorted (fun a b => String.compare a b = Lt) (Py.sorted_set l).
Proof.
  induction l as [|x l IH]; [constructor|].
  unfold Py.sorted_set in *. cbn. by apply insert_sorted_sorted.
Qed.

Lemma strictly_sorted_NoDup (l : list string) :
  StronglySorted (fun a b => String.compare a b = Lt) l -> NoDup l.
Proof.
  induction 1 as [|x l Hs IH Hx]; constructor; [|exact IH].
  intros Hin. rewrite Forall_forall in Hx. specialize (Hx x Hin).
  by rewrite string_compare_refl in Hx.
Qed.

Lemma sorted_set_ext (l1 l2 : list string) :
  (forall x, x ∈ l1 <-> x ∈ l2) -> Py.sorted_set l1 = Py.sorted_set l2.
Proof.
  intros Hext.
  apply (StronglySorted_unique_strong (fun a b => String.compare a b = Lt)).
  - intros a b _ _ Hab Hba.
    pose proof (string_compare_trans _ _ _ Hab Hba) as Haa.
    by rewrite string_compare_refl in Haa.
  - apply sorted_set_sorted.
  - apply sorted_set_sorted.
  - apply NoDup_Permutation.
    + apply strictly_sorted_NoDup, sorted_set_sorted.
    + apply strictly_sorted_NoDup, sorted_set_sorted.
    + intros x. by rewrite !sorted_set_elem.
Qed.

Lemma isspace_lower_char (c : ascii) :
  Py.isspace (Py.lower_char c) = Py.isspace c.
Proof. by destruct c as [[] [] [] [] [] [] [] []]. Qed.

Lemma lower_char_idemp (c : ascii) :
  Py.lower_char (Py.lower_char c) = Py.lower_char c.
Proof. by destruct c as [[] [] [] [] [] [] [] []]. Qed.

Lemma lower_idemp (s : string) : Py.lower (Py.lower s) = Py.lower s.
Proof.
  induction s as [|c s IH]; [done|]. cbn. by rewrite lower_char_idemp, IH.
Qed.

Lemma lstrip_lower (s : string) :
  Py.lstrip (Py.lower s) = Py.lower (Py.lstrip s).
Proof.
  induction s as [|c s IH]; [done|]. cbn. rewrite isspace_lower_char.
  by destruct (Py.isspace c).
Qed.

Lemma rstrip_lower (s : string) :
  Py.rstrip (Py.lower s) = Py.lower (Py.rstrip s).
Proof.
  induction s as [|c s IH]; [done|].
  cbn [Py.lower]. rewrite !rstrip_cons, IH, isspace_lower_char.
  destruct (Py.rstrip s); cbn; [by destruct (Py.isspace c)|done].
Qed.

Lemma strip_lower (s : string) : Py.strip (Py.lower s) = Py.lower (Py.strip s).
Proof. unfold Py.strip. by rewrite lstrip_lower, rstrip_lower. Qed.

Lemma char_in_lstrip (c : ascii) (s : string) :
  char_in c (Py.lstrip s) = true -> char_in c s = true.
Proof.
  induction s as [|x s IH]; [done|]. cbn.
  destruct (Py.isspace x); [|done]. intros Hc. rewrite (IH Hc).
  apply orb_true_r.
Qed.

Lemma char_in_rstrip (c : ascii) (s : string) :
  char_in c (Py.rstrip s) = true -> char_in c s = true.
Proof.
  induction s as [|x s IH]; [done|]. rewrite rstrip_cons.
  destruct (Py.rstrip s) as [|y r].
  - destruct (Py.isspace x); [done|]. cbn. rewrite orb_false_r.
    by intros ->.
  - cbn [char_in]. intros [->|Hc]%orb_true_iff; [done|].
    rewrite (IH Hc). apply orb_true_r.
Qed.

Lemma char_in_lower (c : ascii) (s : string) :
  (forall x, Py.lower_char x = c -> x = c) ->
  char_in c (Py.lower s) = true -> char_in c s = true.
Proof.
  intros Hinj. induction s as [|x s IH]; [done|]. cbn.
  intros [Hx|Hc]%orb_true_iff.
  - apply Ascii.eqb_eq, Hinj in Hx as ->. by rewrite Ascii.eqb_refl.
  - rewrite (IH Hc). apply orb_true_r.
Qed.

Lemma char_in_split (sep c : ascii) (s w : string) :
  w ∈ Py.split sep s -> char_in c w = true ->
  char_in c s = true /\ c <> sep.
Proof.
  revert w. induction s as [|x s IH]; intros w; cbn.
  - rewrite list_elem_of_singleton. by intros ->.
  - destruct (Ascii.eqb x sep) eqn:Hx.
    + rewrite elem_of_cons. intros [->|Hw]; [done|]. intros Hc.
      destruct (IH w Hw Hc) as [-> Hne]. by rewrite orb_true_r.
    + destruct (Py.split sep s) as [|w0 ws] eqn:Hsp.
      * rewrite list_elem_of_singleton. intros ->. cbn.
        rewrite orb_false_r. intros Hc. rewrite Hc. split; [done|].
        apply Ascii.eqb_eq in Hc as <-. by apply Ascii.eqb_neq.
      * rewrite elem_of_cons. intros [->|Hw].
        -- cbn. intros [Hc|Hc]%orb_true_iff.
           ++ rewrite Hc. split; [done|].
              apply Ascii.eqb_eq in Hc as <-. by apply Ascii.eqb_neq.
           ++ destruct (IH w0) as [-> Hne]; [by left|done|].
              by rewrite orb_true_r.
        -- intros Hc. destruct (IH w) as [-> Hne]; [by right|done|].
           by rewrite orb_true_r.
Qed.

Lemma char_in_replace (a b c : ascii) (s : string) :
  a <> b -> char_in c (Py.replace_char a b s) = true -> c <> a.
Proof.
  intros Hab. induction s as [|x s IH]; [done|]. cbn.
  intros [Hc|Hc]%orb_true_iff; [|by apply IH].
  apply Ascii.eqb_eq in Hc as <-.
  destruct (Ascii.eqb x a) eqn:Hx; [congruence|]. by apply Ascii.eqb_neq.
Qed.

Section Tags.
Context `{External}.

Lemma parse_tags_elem (raw t : string) :
  t ∈ parse_tags raw <->
  t <> EmptyString
  /\ exists tok, tok ∈ Py.split "," (Py.replace_char ";" "," raw)
                 /\ t = Py.lower (Py.strip tok).
Proof.
  unfold parse_tags. destruct raw as [|c raw]; cbn [Py.truthy negb].
  - rewrite elem_of_nil. split; [done|]. intros (Ht & tok & Htok & ->).
    cbn in Htok. apply list_elem_of_singleton in Htok as ->. by apply Ht.
  - rewrite sorted_set_elem, filter_elem, list_elem_of_fmap. split.
    + intros ((tok & -> & Htok) & Ht). split; [|by exists tok].
      intros Hempty. by rewrite Hempty in Ht.
    + intros (Ht & tok & Htok & ->). split; [by exists tok|].
      by destruct (Py.lower (Py.strip tok)).
Qed.

End Tags.

(** X1. A parsed tag list is in strictly ascending order, so it holds no tag
    twice; every tag in it is non-empty, in lower case, without white space
    around it, and contains neither a comma nor a semicolon. *)
Theorem parse_tags_canonical `{External} :
  forall raw : string,
    StronglySorted (fun a b => String.compare a b = Lt) (parse_tags raw)
    /\ NoDup (parse_tags raw)
    /\ Forall (fun t => t <> EmptyString
                        /\ Py.lower t = t /\ Py.strip t = t
                        /\ char_in "," t = false /\ char_in ";" t = false)
              (parse_tags raw).
Proof.
  intros raw.
  assert (Hs : StronglySorted (fun a b => String.compare a b = Lt)
                 (parse_tags raw)).
  { unfold parse_tags. destruct (negb (Py.truthy raw)); [constructor|].
    apply sorted_set_sorted. }
  split; [exact Hs|]. split; [by apply strictly_sorted_NoDup|].
  apply Forall_forall. intros t (Ht & tok & Htok & ->)%parse_tags_elem.
  split; [exact Ht|]. split; [apply lower_idemp|].
  split; [by rewrite strip_lower, strip_idemp|].
  assert (Hno : forall c, (forall x, Py.lower_char x = c -> x = c) ->
                  char_in c (Py.lower (Py.strip tok)) = true ->
                  char_in c (Py.replace_char ";" "," raw) = true
                  /\ c <> ","%char).
  { intros c Hinj Hc. apply char_in_lower in Hc; [|exact Hinj].
    apply char_in_rstrip, char_in_lstrip in Hc.
    by apply (char_in_split _ _ _ _ Htok). }
  split.
  - destruct (char_in "," (Py.lower (Py.strip tok))) eqn:Hc; [|done].
    apply Hno in Hc as [_ Hne]; [done|].
    by intros [[] [] [] [] [] [] [] []].
  - destruct (char_in ";" (Py.lower (Py.strip tok))) eqn:Hc; [|done].
    apply Hno in Hc as [Hc _].
    + by apply char_in_replace in Hc.
    + by intros [[] [] [] [] [] [] [] []].
Qed.

Lemma strictly_sorted_ext (l1 l2 : list string) :
  StronglySorted (fun a b => String.compare a b = Lt) l1 ->
  StronglySorted (fun a b => String.compare a b = Lt) l2 ->
  (forall x, x ∈ l1 <-> x ∈ l2) -> l1 = l2.
Proof.
  intros H1 H2 Hext.
  apply (StronglySorted_unique_strong (fun a b => String.compare a b = Lt));
    [|exact H1|exact H2|].
  - intros a b _ _ Hab Hba.
    pose proof (string_compare_trans _ _ _ Hab Hba) as Haa.
    by rewrite string_compare_refl in Haa.
  - apply NoDup_Permutation; [by apply strictly_sorted_NoDup..|exact Hext].
Qed.

Lemma split_not_nil (sep : ascii) (s : string) : Py.split sep s <> [].
Proof.
  induction s as [|c s IH]; cbn; [done|].
  destruct (Ascii.eqb c sep); [done|]. by destruct (Py.split sep s).
Qed.

Lemma string_app_cons (c : ascii) (a b : string) :
  String c a +:+ b = String c (a +:+ b).
Proof. reflexivity. Qed.

Lemma string_app_nil (b : string) : EmptyString +:+ b = b.
Proof. reflexivity. Qed.

Lemma split_app (sep : ascii) (a b : string) :
  Py.split sep (a +:+ String sep b) = Py.split sep a ++ Py.split sep b.
Proof.
  induction a as [|c a IH];
    rewrite ?string_app_nil, ?string_app_cons; cbn.
  - by rewrite Ascii.eqb_refl.
  - destruct (Ascii.eqb c sep); [by rewrite IH|].
    rewrite IH. pose proof (split_not_nil sep a).
    by destruct (Py.split sep a).
Qed.

Lemma replace_char_app (x y : ascii) (a b : string) :
  Py.replace_char x y (a +:+ b)
  = Py.replace_char x y a +:+ Py.replace_char x y b.
Proof.
  induction a as [|c a IH];
    rewrite ?string_app_nil, ?string_app_cons; cbn; [done|].
  by rewrite string_app_cons, IH.
Qed.

Lemma replace_char_twice (x y : ascii) (s : string) :
  Py.replace_char x y (Py.replace_char x y s) = Py.replace_char x y s.
Proof.
  induction s as [|c s IH]; cbn; [done|]. rewrite IH. f_equal.
  destruct (Ascii.eqb c x) eqn:Hc; [|by rewrite Hc].
  by destruct (Ascii.eqb y x).
Qed.

Lemma replace_char_back (x y : ascii) (s : string) :
  Py.replace_char x y (Py.replace_char y x s) = Py.replace_char x y s.
Proof.
  induction s as [|c s IH]; cbn; [done|]. rewrite IH. f_equal.
  destruct (Ascii.eqb c y) eqn:Hcy.
  - rewrite Ascii.eqb_refl. apply Ascii.eqb_eq in Hcy as ->.
    by destruct (Ascii.eqb y x) eqn:Hyx; [apply Ascii.eqb_eq in Hyx|].
  - done.
Qed.

Lemma replace_char_lower (x y : ascii) (s : string) :
  (forall c, Py.lower_char c = x <-> c = x) -> Py.lower_char y = y ->
  Py.replace_char x y (Py.lower s) = Py.lower (Py.replace_char x y s).
Proof.
  intros Hx Hy. induction s as [|c s IH]; cbn; [done|]. rewrite IH. f_equal.
  destruct (Ascii.eqb c x) eqn:Hc.
  - apply Ascii.eqb_eq in Hc as ->.
    rewrite (proj2 (Hx x) eq_refl), Ascii.eqb_refl. by rewrite Hy.
  - destruct (Ascii.eqb (Py.lower_char c) x) eqn:Hl; [|done].
    apply Ascii.eqb_eq, Hx in Hl as ->. by rewrite Ascii.eqb_refl in Hc.
Qed.

Lemma split_lower (sep : ascii) (s : string) :
  (forall c, Py.lower_char c = sep <-> c = sep) ->
  Py.split sep (Py.lower s) = map Py.lower (Py.split sep s).
Proof.
  intros Hsep. induction s as [|c s IH]; cbn; [done|]. rewrite IH.
  destruct (Ascii.eqb c sep) eqn:Hc.
  - apply Ascii.eqb_eq in Hc as ->.
    by rewrite (proj2 (Hsep sep) eq_refl), Ascii.eqb_refl.
  - destruct (Ascii.eqb (Py.lower_char c) sep) eqn:Hl.
    + apply Ascii.eqb_eq, Hsep in Hl as ->. by rewrite Ascii.eqb_refl in Hc.
    + by destruct (Py.split sep s).
Qed.

Lemma parse_tags_ext `{External} (r1 r2 : string) :
  (forall t, t ∈ parse_tags r1 <-> t ∈ parse_tags r2) ->
  parse_tags r1 = parse_tags r2.
Proof.
  intros Hext. apply strictly_sorted_ext; [| |exact Hext].
  - unfold parse_tags. destruct (negb (Py.truthy r1)); [constructor|].
    apply sorted_set_sorted.
  - unfold parse_tags. destruct (negb (Py.truthy r2)); [constructor|].
    apply sorted_set_sorted.
Qed.

(** X2. The tags read from a text do not depend on the order of its parts,
    on a part given twice, on which of the two separators is used, or on
    the case of the letters. *)
Theorem parse_tags_insensitive `{External} :
  forall a b : string,
    parse_tags (a +:+ "," +:+ b) = parse_tags (b +:+ "," +:+ a)
    /\ parse_tags (a +:+ "," +:+ a) = parse_tags a
    /\ parse_tags (a +:+ ";" +:+ b) = parse_tags (a +:+ "," +:+ b)
    /\ parse_tags (Py.lower a) = parse_tags a.
Proof.
  intros a b.
  assert (Hjoin : forall (sep : ascii) x y t,
            sep = ","%char \/ sep = ";"%char ->
            t ∈ parse_tags (x +:+ String sep y)
            <-> t ∈ parse_tags x \/ t ∈ parse_tags y).
  { intros sep x y t Hsep. rewrite !parse_tags_elem.
    assert (Hsp : Py.split "," (Py.replace_char ";" "," (x +:+ String sep y))
                  = Py.split "," (Py.replace_char ";" "," x)
                    ++ Py.split "," (Py.replace_char ";" "," y)).
    { rewrite replace_char_app. cbn [Py.replace_char].
      destruct Hsep as [-> | ->]; cbn; apply split_app. }
    rewrite Hsp. split.
    - intros (Ht & tok & Htok & ->). apply elem_of_app in Htok as [Htok|Htok];
        [left|right]; (split; [exact Ht|by exists tok]).
    - intros [(Ht & tok & Htok & ->)|(Ht & tok & Htok & ->)];
        (split; [exact Ht|]); exists tok; (split; [|done]);
        apply elem_of_app; [by left|by right]. }
  rewrite !(string_app_cons _ EmptyString), !string_app_nil.
  split; [|split; [|split]].
  - apply parse_tags_ext. intros t.
    rewrite !(Hjoin ","%char) by (by left). tauto.
  - apply parse_tags_ext. intros t.
    rewrite !(Hjoin ","%char) by (by left). tauto.
  - apply parse_tags_ext. intros t.
    rewrite (Hjoin ","%char) by (by left).
    rewrite (Hjoin ";"%char) by (by right). tauto.
  - apply parse_tags_ext. intros t. rewrite !parse_tags_elem.
    rewrite replace_char_lower, split_lower;
      [| by intros [[] [] [] [] [] [] [] []]
       | by intros [[] [] [] [] [] [] [] []] | done].
    split.
    + intros (Ht & tok & (tok0 & -> & Htok)%list_elem_of_fmap & ->).
      split; [exact Ht|]. exists tok0. split; [exact Htok|].
      by rewrite strip_lower, lower_idemp.
    + intros (Ht & tok & Htok & ->). split; [exact Ht|].
      exists (Py.lower tok). split; [apply list_elem_of_fmap; by exists tok|].
      by rewrite strip_lower, lower_idemp.
Qed.

(** ** URLs (common.py, [normalize_url]) *)

Lemma pair_leb_total (a b : string * string) :
  pair_leb a b = false -> pair_leb b a = true.
Proof.
  unfold pair_leb. rewrite (String.compare_antisym (fst b) (fst a)).
  destruct (String.compare (fst a) (fst b)); cbn; try done.
  intros Hab. destruct (String.leb_total (snd a) (snd b)); congruence.
Qed.

Lemma pair_leb_trans (a b c : string * string) :
  pair_leb a b = true -> pair_leb b c = true -> pair_leb a c = true.
Proof.
  unfold pair_leb.
  destruct (String.compare (fst a) (fst b)) eqn:Hab; try done;
    destruct (String.compare (fst b) (fst c)) eqn:Hbc; try done.
  - apply String.compare_eq_iff in Hab. rewrite Hab, Hbc.
    apply string_leb_trans.
  - apply String.compare_eq_iff in Hab. by rewrite Hab, Hbc.
  - apply String.compare_eq_iff in Hbc. by rewrite <- Hbc, Hab.
  - by rewrite (string_compare_trans _ _ _ Hab Hbc).
Qed.

Lemma pair_leb_antisym (a b : string * string) :
  pair_leb a b = true -> pair_leb b a = true -> a = b.
Proof.
  unfold pair_leb. rewrite (String.compare_antisym (fst b) (fst a)).
  destruct a as [a1 a2], b as [b1 b2]. cbn.
  destruct (String.compare a1 b1) eqn:Hab; cbn; try done.
  apply String.compare_eq_iff in Hab as ->. intros H1 H2.
  by rewrite (String.leb_antisym _ _ H1 H2).
Qed.

Lemma sorted_pairs_order_by (l : list (string * string)) :
  sorted_pairs l = order_by pair_leb l.
Proof.
  unfold sorted_pairs, order_by. induction l as [|x l IH]; [done|].
  cbn. rewrite IH. generalize (foldr (insert_by pair_leb) [] l).
  intros k. induction k as [|y k IHk]; [done|]. cbn. by rewrite IHk.
Qed.

(** [sorted] gives one list for all orders of the same items. *)
Lemma sorted_pairs_perm (l1 l2 : list (string * string)) :
  l1 ≡ₚ l2 -> sorted_pairs l1 = sorted_pairs l2.
Proof.
  intros Hperm. rewrite !sorted_pairs_order_by.
  apply (StronglySorted_unique_strong (fun a b => pair_leb a b = true)).
  - intros a b _ _. apply pair_leb_antisym.
  - apply order_by_sorted; [apply pair_leb_total | apply pair_leb_trans].
  - apply order_by_sorted; [apply pair_leb_total | apply pair_leb_trans].
  - by rewrite !order_by_perm.
Qed.

(** X3. Two URLs have the same normalized form when, once the white space
    around them is removed, they parse to the same scheme and host up to
    the case of the letters and to the default scheme, to the same path up
    to the default path, and to the same query items in any order; the
    fragment and the parameters play no part. *)
Theorem normalize_url_query_order `{External} :
  forall u1 u2 : string,
    Py.truthy u1 = true -> Py.truthy u2 = true ->
    Py.lower (Py.str_or (scheme (urlparse (Py.strip u1))) "https")
    = Py.lower (Py.str_or (scheme (urlparse (Py.strip u2))) "https") ->
    Py.lower (netloc (urlparse (Py.strip u1)))
    = Py.lower (netloc (urlparse (Py.strip u2))) ->
    Py.str_or (path (urlparse (Py.strip u1))) "/"
    = Py.str_or (path (urlparse (Py.strip u2))) "/" ->
    parse_qsl (query (urlparse (Py.strip u1)))
    ≡ₚ parse_qsl (query (urlparse (Py.strip u2))) ->
    normalize_url u1 = normalize_url u2.
Proof.
  intros u1 u2 H1 H2 Hscheme Hnetloc Hpath Hquery.
  unfold normalize_url. rewrite H1, H2. cbn [negb].
  by rewrite Hscheme, Hnetloc, Hpath, (sorted_pairs_perm _ _ Hquery).
Qed.

Lemma normalize_url_query_order_witness :
  @normalize_url demo_query "x?b=2&a=1" = @normalize_url demo_query "x?a=1&b=2".
Proof.
  apply (@normalize_url_query_order demo_query);
    try (vm_compute; reflexivity).
  vm_compute. apply perm_swap.
Defined.

(** X4. The empty URL normalizes to the empty string without being parsed,
    and white space around a URL that has other characters does not change
    its normalized form. *)
Theorem normalize_url_whitespace `{External} :
  normalize_url EmptyString = EmptyString
  /\ forall url : string,
       Py.truthy (Py.strip url) = true ->
       normalize_url (Py.strip url) = normalize_url url.
Proof.
  split; [done|]. intros url Hurl. unfold normalize_url.
  rewrite Hurl, strip_idemp. destruct url; [done|]. done.
Qed.

Lemma normalize_url_whitespace_witness :
  normalize_url EmptyString = EmptyString
  /\ normalize_url (Py.strip "  a ") = normalize_url "  a ".
Proof.
  destruct (@normalize_url_whitespace demo) as [Hempty Hstrip].
  split; [exact Hempty|]. apply Hstrip. reflexivity.
Defined.

(** ** Notes (sync.py, [_normalize_notes_value]) *)

Lemma normalize_notes_value_cases (value : option string) :
  _normalize_notes_value value = None
  \/ exists text,
       _normalize_notes_value value = Some text
       /\ text = Py.strip (Py.or_empty value)
       /\ Py.truthy text = true
       /\ String.eqb (Py.lower text) "none" = false.
Proof.
  unfold _normalize_notes_value.
  set (text := Py.strip (Py.or_empty value)).
  destruct (Py.truthy text) eqn:Ht; cbn [negb]; [|by left].
  destruct (String.eqb (Py.lower text) "none") eqn:Hn; [by left|].
  right. by exists text.
Qed.

Lemma normalize_notes_value_fixed (value : option string) :
  _normalize_notes_value (_normalize_notes_value value)
  = _normalize_notes_value value.
Proof.
  destruct (normalize_notes_value_cases value)
    as [->|(text & -> & Htext & Ht & Hn)]; [done|].
  unfold _normalize_notes_value.
  change (Py.or_empty (Some text)) with text.
  assert (Hs : Py.strip text = text) by (rewrite Htext; apply strip_idemp).
  by rewrite Hs, Ht, Hn.
Qed.

(** X5. Normalizing a note a second time changes nothing, and a normalized
    note is never empty, never the word [none] in any case of letters, and
    has no white space around it. *)
Theorem normalize_notes_value_idempotent :
  forall value : option string,
    _normalize_notes_value (_normalize_notes_value value)
    = _normalize_notes_value value
    /\ match _normalize_notes_value value with
       | Some text =>
           text <> EmptyString /\ Py.strip text = text
           /\ Py.lower text <> "none"%string
       | None => True
       end.
Proof.
  intros value. split; [apply normalize_notes_value_fixed|].
  destruct (normalize_notes_value_cases value)
    as [->|(text & -> & Htext & Ht & Hn)]; [done|].
  split; [by destruct text|].
  split; [rewrite Htext; apply strip_idemp|]. by apply String.eqb_neq.
Qed.

(** ** Tag rows (sync.py, [_apply_tags]) *)

Lemma next_id_not_in (ids : list Z) : next_id ids ∉ ids.
Proof. intros Hin. apply next_id_fresh in Hin. lia. Qed.

Lemma apply_tags_rows `{External} (user_id : Z) (clean : list string) (d : db) :
  let d' :=
    foldl (fun d name =>
             match first (fun t => (Tag.user_id t =? user_id)
                                   && String.eqb (Tag.name t) name) (tags d)
             with
             | Some _ => d
             | None =>
                 with_tags
                   (tags d ++ [Tag.mk (next_id (map Tag.id (tags d)))
                                 user_id name]) d
             end) d clean in
  (exists added,
     tags d' = tags d ++ added
     /\ Forall (fun t => Tag.user_id t = user_id /\ Tag.name t ∈ clean) added)
  /\ (forall name, name ∈ clean ->
        exists t, t ∈ tags d' /\ Tag.user_id t = user_id /\ Tag.name t = name)
  /\ (NoDup (map (fun t => (Tag.user_id t, Tag.name t)) (tags d)) ->
      NoDup (map (fun t => (Tag.user_id t, Tag.name t)) (tags d')))
  /\ (NoDup (map Tag.id (tags d)) -> NoDup (map Tag.id (tags d'))).
Proof.
  revert d. induction clean as [|name clean IH]; intros d; cbn [foldl].
  - split; [exists []; by rewrite app_nil_r|].
    split; [intros name Hn; by apply elem_of_nil in Hn|]. done.
  - set (p := fun t => (Tag.user_id t =? user_id)
                       && String.eqb (Tag.name t) name).
    destruct (first p (tags d)) as [t|] eqn:Hfirst.
    + destruct (IH d) as ((added & Hadd & Hall) & Hrows & Hkeys & Hids).
      split; [|split; [|split]]; [| |exact Hkeys|exact Hids].
      * exists added. split; [exact Hadd|].
        eapply Forall_impl; [exact Hall|]. intros x [? ?].
        split; [done|]. apply elem_of_cons. by right.
      * intros n [->|Hn]%elem_of_cons; [|by apply Hrows].
        apply first_Some in Hfirst as [Ht Hp]. unfold p in Hp.
        apply andb_true_iff in Hp as [Hu Hname].
        apply Z.eqb_eq in Hu. apply String.eqb_eq in Hname.
        exists t. split; [|done]. rewrite Hadd. apply elem_of_app. by left.
    + set (new := Tag.mk (next_id (map Tag.id (tags d))) user_id name).
      destruct (IH (with_tags (tags d ++ [new]) d))
        as ((added & Hadd & Hall) & Hrows & Hkeys & Hids).
      cbn [tags with_tags] in Hadd, Hkeys, Hids.
      split; [|split; [|split]].
      * exists (new :: added). split.
        -- rewrite Hadd. by rewrite <- app_assoc.
        -- constructor.
           ++ split; [done|]. apply elem_of_cons. by left.
           ++ eapply Forall_impl; [exact Hall|]. intros x [? ?].
              split; [done|]. apply elem_of_cons. by right.
      * intros n [->|Hn]%elem_of_cons; [|by apply Hrows].
        exists new. split; [|done]. rewrite Hadd.
        apply elem_of_app. left. apply elem_of_app. right.
        by apply list_elem_of_singleton.
      * intros Hnd. apply Hkeys. rewrite map_app. apply NoDup_app.
        split; [exact Hnd|]. split; [|apply NoDup_singleton].
        intros k Hk Hnew. apply list_elem_of_singleton in Hnew. subst k.
        apply list_elem_of_fmap in Hk as (t & Hkey & Ht).
        pose proof (first_None _ _ Hfirst t Ht) as Hp. unfold p in Hp.
        injection Hkey as Hu Hn. cbn in Hu, Hn.
        rewrite <- Hu, <- Hn, Z.eqb_refl, String.eqb_refl in Hp. done.
      * intros Hnd. apply Hids. rewrite map_app. apply NoDup_app.
        split; [exact Hnd|]. split; [|apply NoDup_singleton].
        intros k Hk Hnew. apply list_elem_of_singleton in Hnew. subst k.
        by apply next_id_not_in in Hk.
Qed.


(** ** Sync clients (sync.py, [ensure_sync_client]) *)

Lemma first_app {A} (p : A -> bool) (l k : list A) :
  first p (l ++ k)
  = match first p l with Some x => Some x | None => first p k end.
Proof.
  unfold first. induction l as [|x l IH]; [done|]. cbn.
  by destruct (p x).
Qed.

Lemma ensure_sync_client_cases (user_id : Z) (client_id : string)
    (platform : option string) (d : db) :
  let p := fun c => (SyncClient.user_id c =? user_id)
                    && String.eqb (SyncClient.client_id c) client_id in
  (first p (sync_clients d) = None
   /\ ensure_sync_client user_id client_id platform d
      = (SyncClient.mk (next_id (map SyncClient.id (sync_clients d)))
           user_id client_id platform 0,
         with_sync_clients
           (sync_clients d
            ++ [SyncClient.mk (next_id (map SyncClient.id (sync_clients d)))
                  user_id client_id platform 0]) d))
  \/ (exists c,
        first p (sync_clients d) = Some c
        /\ (forall pl, platform = Some pl -> Py.truthy pl = true ->
                       SyncClient.platform c = Some pl)
        /\ ensure_sync_client user_id client_id platform d = (c, d))
  \/ (exists c pl,
        first p (sync_clients d) = Some c
        /\ platform = Some pl /\ Py.truthy pl = true
        /\ ensure_sync_client user_id client_id platform d
           = (SyncClient.set_platform (Some pl) c,
              with_sync_clients
                (map (fun r => if SyncClient.id r =? SyncClient.id c
                               then SyncClient.set_platform (Some pl) c
                               else r) (sync_clients d)) d)).
Proof.
  intros p. unfold ensure_sync_client. fold p.
  destruct (first p (sync_clients d)) as [c|]; [|by left].
  right. destruct platform as [pl|].
  - destruct (Py.truthy pl) eqn:Hpl; cbn [andb].
    + destruct (bool_decide_reflect (SyncClient.platform c = Some pl))
        as [Heq|Hne]; cbn [negb].
      * left. exists c. split; [done|]. split; [|done].
        by intros ? [= <-] _.
      * right. by exists c, pl.
    + left. exists c. split; [done|]. split; [|done].
      intros ? [= <-] Ht. congruence.
  - left. exists c. split; [done|]. split; [|done]. by intros.
Qed.

Lemma ensure_sync_client_row (user_id : Z) (client_id : string)
    (platform : option string) (d : db) :
  let c := (ensure_sync_client user_id client_id platform d).1 in
  let d' := (ensure_sync_client user_id client_id platform d).2 in
  c ∈ sync_clients d'
  /\ SyncClient.user_id c = user_id /\ SyncClient.client_id c = client_id
  /\ sync_events d' = sync_events d /\ bookmarks d' = bookmarks d
  /\ folders d' = folders d /\ tags d' = tags d
  /\ bookmark_content d' = bookmark_content d
  /\ api_tokens d' = api_tokens d.
Proof.
  cbv zeta.
  assert (Hp : forall r,
            (SyncClient.user_id r =? user_id)
            && String.eqb (SyncClient.client_id r) client_id = true ->
            SyncClient.user_id r = user_id
            /\ SyncClient.client_id r = client_id).
  { intros r. rewrite andb_true_iff, Z.eqb_eq, String.eqb_eq. done. }
  destruct (ensure_sync_client_cases user_id client_id platform d)
    as [(Hfirst & ->) | [(c & Hfirst & Hpl & ->)
                        | (c & pl & Hfirst & -> & Hpl & ->)]];
    cbn [fst snd sync_clients with_sync_clients].
  - split; [|done]. apply elem_of_app. right.
    by apply list_elem_of_singleton.
  - apply first_Some in Hfirst as [Hc Hpc]. apply Hp in Hpc as [? ?]. done.
  - apply first_Some in Hfirst as [Hc Hpc]. apply Hp in Hpc as [? ?].
    split; [|done]. apply list_elem_of_fmap. exists c.
    split; [|exact Hc]. by rewrite Z.eqb_refl.
Qed.

(** X7. Registering a sync client returns a row of the table for that user
    and client id, and registering it again returns the same row and leaves
    the store as it is.  A client that was known keeps its id and its
    cursor, and the table keeps its ids; a client that was not known gets
    one new row at the end of the table, with cursor 0.  The bookmarks, the
    folders and the events are not touched. *)
Theorem ensure_sync_client_idempotent :
  forall (user_id : Z) (client_id : string) (platform : option string)
         (d : db),
    let c := (ensure_sync_client user_id client_id platform d).1 in
    let d' := (ensure_sync_client user_id client_id platform d).2 in
    c ∈ sync_clients d'
    /\ SyncClient.user_id c = user_id /\ SyncClient.client_id c = client_id
    /\ ensure_sync_client user_id client_id platform d' = (c, d')
    /\ (known_client user_id client_id d ->
        map SyncClient.id (sync_clients d') = map SyncClient.id (sync_clients d)
        /\ exists c0, c0 ∈ sync_clients d
                      /\ SyncClient.id c = SyncClient.id c0
                      /\ SyncClient.user_id c0 = user_id
                      /\ SyncClient.client_id c0 = client_id
                      /\ SyncClient.last_cursor c = SyncClient.last_cursor c0)
    /\ (~ known_client user_id client_id d ->
        sync_clients d' = sync_clients d ++ [c]
        /\ SyncClient.last_cursor c = 0
        /\ SyncClient.id c ∉ map SyncClient.id (sync_clients d))
    /\ bookmarks d' = bookmarks d /\ folders d' = folders d
    /\ sync_events d' = sync_events d.
Proof.
  intros user_id client_id platform d. cbv zeta.
  set (p := fun c => (SyncClient.user_id c =? user_id)
                     && String.eqb (SyncClient.client_id c) client_id).
  assert (Hp : forall r, p r = true <->
                 SyncClient.user_id r = user_id
                 /\ SyncClient.client_id r = client_id).
  { intros r. unfold p. rewrite andb_true_iff, Z.eqb_eq, String.eqb_eq.
    done. }
  destruct (ensure_sync_client_cases user_id client_id platform d)
    as [(Hfirst & ->) | [(c & Hfirst & Hpl & ->)
                        | (c & pl & Hfirst & -> & Hpl & ->)]];
    fold p in Hfirst; cbn [fst snd sync_clients with_sync_clients bookmarks
                           folders sync_events].
  - set (c := SyncClient.mk _ user_id client_id platform 0).
    split; [apply elem_of_app; right; by apply list_elem_of_singleton|].
    split; [done|]. split; [done|]. split; [|split; [|split]]; [| | |done].
    + unfold ensure_sync_client. fold p. cbn [sync_clients with_sync_clients].
      assert (Hf : first p (sync_clients d ++ [c]) = Some c).
      { rewrite first_app, Hfirst. cbn. replace (p c) with true; [done|].
        symmetry. by apply Hp. }
      rewrite Hf. destruct platform as [pl|]; [|done].
      replace (bool_decide (SyncClient.platform c = Some pl)) with true.
      * by rewrite andb_false_r.
      * symmetry. by apply bool_decide_eq_true_2.
    + intros (r & Hr & Hu & Hcl).
      pose proof (first_None _ _ Hfirst r Hr) as Hpr.
      assert (p r = true) by (by apply Hp). congruence.
    + intros _. split; [done|]. split; [done|]. apply next_id_not_in.
  - apply first_Some in Hfirst as Hc. destruct Hc as [Hc Hpc].
    apply Hp in Hpc as [Hu Hcl].
    split; [exact Hc|]. split; [exact Hu|]. split; [exact Hcl|].
    split; [|split; [|split]]; [| | |done].
    + unfold ensure_sync_client. fold p. rewrite Hfirst.
      destruct platform as [pl|]; [|done].
      destruct (Py.truthy pl) eqn:Ht; [|done].
      rewrite (bool_decide_eq_true_2 _ (Hpl pl eq_refl Ht)). done.
    + intros _. split; [done|]. by exists c.
    + intros Hunknown. destruct Hunknown. by exists c.
  - apply first_Some in Hfirst as Hc. destruct Hc as [Hc Hpc].
    pose proof Hpc as Hpc'. apply Hp in Hpc' as [Hu Hcl].
    set (c' := SyncClient.set_platform (Some pl) c).
    set (upd := fun r => if SyncClient.id r =? SyncClient.id c then c' else r).
    assert (Hids : map SyncClient.id (map upd (sync_clients d))
                   = map SyncClient.id (sync_clients d)).
    { rewrite <- list_fmap_compose. apply list_fmap_ext.
      intros i r _. cbn. unfold upd.
      destruct (SyncClient.id r =? SyncClient.id c) eqn:Hid; [|done].
      by apply Z.eqb_eq in Hid. }
    split.
    { apply list_elem_of_fmap. exists c. split; [|exact Hc].
      unfold upd. by rewrite Z.eqb_refl. }
    split; [exact Hu|]. split; [exact Hcl|].
    split; [|split; [|split]]; [| | |done].
    + unfold ensure_sync_client. fold p.
      cbn [sync_clients with_sync_clients].
      assert (Hfirst' : first p (map upd (sync_clients d)) = Some c').
      { assert (Hpc'' : p c' = true) by (by apply Hp).
        clear Hc Hids. revert Hfirst. unfold first.
        induction (sync_clients d) as [|r l IH]; [done|].
        cbn [map fmap list_fmap find].
        destruct (SyncClient.id r =? SyncClient.id c) eqn:Hid.
        - intros _. unfold upd at 1 2. by rewrite Hid, Hpc''.
        - unfold upd at 1 2. rewrite Hid. destruct (p r) eqn:Hr.
          + intros [= ->]. by rewrite Z.eqb_refl in Hid.
          + exact IH. }
      rewrite Hfirst'.
      assert (Hsame : bool_decide (SyncClient.platform c' = Some pl) = true)
        by (by apply bool_decide_eq_true_2).
      by rewrite Hsame, andb_false_r.
    + intros _. split; [exact Hids|]. by exists c.
    + intros Hunknown. destruct Hunknown. by exists c.
Qed.

(** ** The event log (sync.py, [log_sync_event], [apply_push_operation]) *)

Lemma log_extends_refl (user_id : Z) (d : db) : log_extends user_id d d.
Proof.
  exists []. rewrite app_nil_r. split; [done|]. split; [constructor|].
  split; constructor.
Qed.

Lemma log_extends_same (user_id : Z) (d0 d d' : db) :
  sync_events d' = sync_events d -> log_extends user_id d0 d ->
  log_extends user_id d0 d'.
Proof. intros Hev (added & Hadd & Hrest). exists added. by rewrite Hev. Qed.

Lemma log_extends_trans (user_id : Z) (d1 d2 d3 : db) :
  log_extends user_id d1 d2 -> log_extends user_id d2 d3 ->
  log_extends user_id d1 d3.
Proof.
  intros (a1 & H1 & Hu1 & Hab1 & Hs1) (a2 & H2 & Hu2 & Hab2 & Hs2).
  exists (a1 ++ a2). split; [by rewrite H2, H1, app_assoc|].
  split; [by apply Forall_app|]. split.
  - apply Forall_app. split; [exact Hab1|].
    eapply Forall_impl; [exact Hab2|]. intros e He e0 He0.
    apply He. rewrite H1. apply elem_of_app. by left.
  - apply StronglySorted_app_2; [|exact Hs1|exact Hs2].
    intros x1 x2 Hx1 Hx2. rewrite Forall_forall in Hab2.
    apply (Hab2 x2 Hx2). rewrite H1. apply elem_of_app. by right.
Qed.

Lemma log_extends_log (clock user_id : Z) (entity_type : string)
    (entity_id : option Z) (action : string) (p : payload) (d0 d : db) :
  log_extends user_id d0 d ->
  log_extends user_id d0
    (log_sync_event clock user_id entity_type entity_id action p d).
Proof.
  intros Hd. eapply log_extends_trans; [exact Hd|].
  unfold log_sync_event. eexists [_]. cbn [sync_events with_sync_events].
  split; [reflexivity|]. split; [by repeat constructor|]. split.
  - constructor; [|constructor]. intros e0 He0. cbn.
    apply next_id_fresh. apply list_elem_of_fmap. by exists e0.
  - repeat constructor.
Qed.

Lemma folders_removed_refl (user_id : Z) (d : db) : folders_removed user_id d d.
Proof. split; [apply log_extends_refl|]. done. Qed.

Lemma folders_removed_trans (user_id : Z) (d1 d2 d3 : db) :
  folders_removed user_id d1 d2 -> folders_removed user_id d2 d3 ->
  folders_removed user_id d1 d3.
Proof.
  intros (Hl1 & Hb1 & Hf1 & Ht1 & Hc1 & Hs1 & Ha1)
         (Hl2 & Hb2 & Hf2 & Ht2 & Hc2 & Hs2 & Ha2).
  split; [by eapply log_extends_trans|]. split; [congruence|].
  split; [auto|]. repeat split; congruence.
Qed.

Lemma rfold_inv {A S} (f : S -> A -> result S) (P : S -> S -> Prop)
    (l : list A) :
  (forall s, P s s) ->
  (forall s1 s2 s3, P s1 s2 -> P s2 s3 -> P s1 s3) ->
  (forall x s1 s2, x ∈ l -> f s1 x = Ok s2 -> P s1 s2) ->
  forall s s', rfold f s l = Ok s' -> P s s'.
Proof.
  intros Hrefl Htrans. induction l as [|x l IH]; intros Hstep s s'; cbn.
  - by intros [= <-].
  - destruct (f s x) as [s1|e] eqn:Hf; cbn; [|discriminate].
    intros Hrest. apply (Htrans _ s1).
    + apply (Hstep x); [by left|done].
    + apply IH; [|done]. intros y t1 t2 Hy. apply Hstep. by right.
Qed.

Lemma foldl_inv {A S} (f : S -> A -> S) (P : S -> S -> Prop) (l : list A) :
  (forall s, P s s) ->
  (forall s1 s2 s3, P s1 s2 -> P s2 s3 -> P s1 s3) ->
  (forall x s, x ∈ l -> P s (f s x)) ->
  forall s, P s (foldl f s l).
Proof.
  intros Hrefl Htrans. induction l as [|x l IH]; intros Hstep s; cbn.
  - apply Hrefl.
  - apply (Htrans _ (f s x)).
    + apply Hstep. by left.
    + apply IH. intros y t Hy. apply Hstep. by right.
Qed.

(** One round of the loop that takes the bookmarks out of a folder. *)
Lemma clear_bookmark_removed (clock user_id : Z) (b : Bookmark.t) (d : db) :
  folders_removed user_id d
    (log_sync_event clock user_id "bookmark" (Some (Bookmark.id b)) "update"
       (serialize_bookmark_for_sync b) (flush_bookmark clock b d)).
Proof.
  split.
  - apply log_extends_log. apply (log_extends_same _ _ d); [done|].
    apply log_extends_refl.
  - split; [|done]. apply (flush_bookmark_ids clock b d).
Qed.

Lemma delete_folder_removed (clock user_id : Z) (f : Folder.t) (d : db) :
  folders_removed user_id d
    (delete_folder f
       (log_sync_event clock user_id "folder" (Some (Folder.id f)) "delete"
          (serialize_folder_for_sync f) d)).
Proof.
  split.
  - apply (log_extends_same _ _
             (log_sync_event clock user_id "folder" (Some (Folder.id f))
                "delete" (serialize_folder_for_sync f) d)); [done|].
    apply log_extends_log, log_extends_refl.
  - split; [done|]. split; [|done]. intros r Hr. cbn in Hr.
    by apply filter_elem in Hr as [Hr _].
Qed.

(** The loop that takes the bookmarks out of the folder [fid]: afterwards
    no bookmark is in that folder. *)
Lemma clear_bookmarks_spec (clock user_id : Z) (fid : Z) (l : list Bookmark.t)
    (d : db) :
  (forall r, r ∈ bookmarks d -> Bookmark.folder_id r = Some fid -> r ∈ l) ->
  let d' :=
    foldl (fun d bookmark =>
             let bookmark := Bookmark.set_folder_id None bookmark in
             log_sync_event clock user_id "bookmark"
               (Some (Bookmark.id bookmark)) "update"
               (serialize_bookmark_for_sync bookmark)
               (flush_bookmark clock bookmark d)) d l in
  (forall r, r ∈ bookmarks d' -> Bookmark.folder_id r <> Some fid)
  /\ folders d' = folders d /\ folders_removed user_id d d'.
Proof.
  revert d. induction l as [|b l IH]; intros d Hl; cbn [foldl].
  - split; [|split; [done|apply folders_removed_refl]].
    intros r Hr Hf. by apply Hl, elem_of_nil in Hf.
  - cbv zeta.
    set (b' := Bookmark.set_folder_id None b).
    set (d1 := log_sync_event clock user_id "bookmark" (Some (Bookmark.id b'))
                 "update" (serialize_bookmark_for_sync b')
                 (flush_bookmark clock b' d)).
    destruct (IH d1) as (Hclear & Hfold & Hrem).
    + intros r Hr Hf. cbn in Hr.
      apply list_elem_of_fmap in Hr as (r0 & -> & Hr0). revert Hf.
      destruct (Bookmark.id r0 =? Bookmark.id b) eqn:Hid.
      * destruct (bool_decide_reflect (r0 = b')) as [->|_]; done.
      * intros Hf. specialize (Hl r0 Hr0 Hf).
        apply elem_of_cons in Hl as [->|Hl]; [|done].
        by rewrite Z.eqb_refl in Hid.
    + split; [exact Hclear|]. split; [by etrans; [exact Hfold|]|].
      eapply folders_removed_trans; [|exact Hrem].
      apply clear_bookmark_removed.
Qed.

Section DeleteTree.
Context `{External}.

Lemma delete_folder_tree_spec (depth : nat) (clock user_id : Z) :
  forall (folder : Folder.t) (d d' : db),
    _delete_folder_tree_for_sync depth clock user_id folder d = Ok d' ->
    folders_removed user_id d d'
    /\ (Folder.id folder ∉ map Folder.id (folders d'))
    /\ (forall r, r ∈ bookmarks d' ->
          Bookmark.folder_id r <> Some (Folder.id folder))
    /\ exists e, last (sync_events d') = Some e
                 /\ SyncEvent.action e = "delete"%string
                 /\ SyncEvent.entity_type e = "folder"%string
                 /\ SyncEvent.entity_id e = Some (Folder.id folder).
Proof.
  induction depth as [|depth IH]; intros folder d d'; cbn; [discriminate|].
  destruct (rfold _ d (children folder d)) as [d1|e] eqn:Hchildren; cbn;
    [|discriminate].
  intros [= <-].
  assert (H1 : folders_removed user_id d d1).
  { eapply (rfold_inv _ (folders_removed user_id)); [| | |exact Hchildren].
    - apply folders_removed_refl.
    - apply folders_removed_trans.
    - intros child s1 s2 _ Hchild. by apply IH in Hchild as [? _]. }
  match goal with
  | |- context [foldl ?f d1 ?l] =>
      destruct (clear_bookmarks_spec clock user_id (Folder.id folder) l d1)
        as (Hclear & Hfold & Hrem)
  end.
  { intros r Hr Hf. apply filter_elem. split; [done|].
    unfold opt_eqb. by apply bool_decide_eq_true_2. }
  split; [|split; [|split]].
  - eapply folders_removed_trans; [exact H1|].
    eapply folders_removed_trans; [exact Hrem|].
    apply delete_folder_removed.
  - cbn. intros Hin. apply list_elem_of_fmap in Hin as (r & Hid & Hr).
    apply filter_elem in Hr as [_ Hr]. rewrite Hid, Z.eqb_refl in Hr. done.
  - exact Hclear.
  - cbn. rewrite last_snoc. eexists. split; [reflexivity|]. done.
Qed.

End DeleteTree.

Lemma pushed_refl (user_id : Z) (d : db) : pushed user_id d d.
Proof. split; [apply log_extends_refl|done]. Qed.

Lemma pushed_trans (user_id : Z) (d1 d2 d3 : db) :
  pushed user_id d1 d2 -> pushed user_id d2 d3 -> pushed user_id d1 d3.
Proof.
  intros (Hl1 & Hc1 & Ht1) (Hl2 & Hc2 & Ht2).
  split; [by eapply log_extends_trans|]. split; congruence.
Qed.

Lemma pushed_same (user_id : Z) (d0 d d' : db) :
  sync_events d' = sync_events d -> sync_clients d' = sync_clients d ->
  api_tokens d' = api_tokens d ->
  pushed user_id d0 d -> pushed user_id d0 d'.
Proof.
  intros Hev Hc Ht (Hl & Hc0 & Ht0).
  split; [by eapply log_extends_same|]. split; congruence.
Qed.

Lemma pushed_log (clock user_id : Z) (entity_type : string)
    (entity_id : option Z) (action : string) (p : payload) (d0 d : db) :
  pushed user_id d0 d ->
  pushed user_id d0
    (log_sync_event clock user_id entity_type entity_id action p d).
Proof.
  intros (Hl & Hc & Ht). split; [by apply log_extends_log|]. done.
Qed.

Section PushLog.
Context `{External}.

Lemma apply_tags_clients (user_id : Z) (names : list string) (d : db) :
  let d' := (_apply_tags user_id names d).2 in
  sync_clients d' = sync_clients d /\ api_tokens d' = api_tokens d
  /\ bookmark_content d' = bookmark_content d.
Proof.
  unfold _apply_tags. cbn [snd].
  generalize (parse_tags (Py.join "," names)). intros clean.
  revert d. induction clean as [|name clean IH]; intros d; [done|].
  cbn [foldl].
  destruct (first _ (tags d)); [apply IH|].
  destruct (IH (with_tags (tags d ++ [Tag.mk (next_id (map Tag.id (tags d)))
                                        user_id name]) d)) as (-> & -> & ->).
  done.
Qed.

Lemma apply_tags_pushed (user_id : Z) (names : list string) (d0 d : db) :
  pushed user_id d0 d ->
  pushed user_id d0 (_apply_tags user_id names d).2.
Proof.
  intros Hd.
  destruct (apply_tags_tables user_id names d) as (Hev & _).
  destruct (apply_tags_clients user_id names d) as (Hc & Ht & _).
  by eapply pushed_same.
Qed.

Lemma folder_push_log (clock user_id : Z) (op : push_op) (d : db)
    (r : push_result) (d' : db) :
  _apply_folder_push_operation clock user_id op d = Ok (r, d') ->
  pushed user_id d d'.
Proof.
  unfold _apply_folder_push_operation. cbv zeta.
  destruct (String.eqb _ "create").
  { destruct (find_folder_by_name _ _ _ d); intros [= <- <-].
    - apply pushed_refl.
    - apply pushed_log. apply (pushed_same _ _ d); [done..|].
      apply pushed_refl. }
  destruct (_ ≫= _) as [folder|]; [|intros [= <- <-]; apply pushed_refl].
  destruct (_server_time_is_newer_or_equal _ _) as [[]|];
    cbn [mbind result_bind];
    [intros [= <- <-]; apply pushed_refl| |discriminate].
  destruct (_ || _).
  { match goal with
    | |- context [let '(_, _) := ?a in let '(_, _) := _ in _] =>
        destruct a as [folder1 changed1]
    end.
    match goal with
    | |- context [let '(_, _) := ?a in _] => destruct a as [folder2 changed]
    end.
    destruct changed; intros [= <- <-]; [|apply pushed_refl].
    apply pushed_log. apply (pushed_same _ _ d); [done..|].
    apply pushed_refl. }
  destruct (String.eqb _ "delete");
    [|intros [= <- <-]; apply pushed_refl].
  destruct (_delete_folder_tree_for_sync _ _ _ _ _) as [d1|] eqn:Hdel;
    cbn [mbind result_bind];
    [|discriminate].
  intros [= <- <-].
  apply delete_folder_tree_spec in Hdel
    as ((Hl & _ & _ & _ & _ & Hc & Ht) & _).
  by split.
Qed.

Lemma bookmark_push_log (clock user_id : Z) (op : push_op) (d : db)
    (r : push_result) (d' : db) :
  _apply_bookmark_push_operation clock user_id op d = Ok (r, d') ->
  pushed user_id d d'.
Proof.
  assert (Hflush : forall b d1,
            pushed user_id d d1 ->
            pushed user_id d (flush_bookmark clock b d1)).
  { intros b d1. by apply pushed_same. }
  assert (Htags : forall names clean d1,
            _apply_tags user_id names d = (clean, d1) ->
            pushed user_id d d1).
  { intros names clean d1 Ht.
    pose proof (apply_tags_pushed user_id names d d (pushed_refl _ _)) as Hl.
    by rewrite Ht in Hl. }
  unfold _apply_bookmark_push_operation. cbv zeta.
  destruct (String.eqb _ "create").
  { destruct (negb _); [intros [= <- <-]; apply pushed_refl|].
    destruct (first _ (bookmarks d));
      [intros [= <- <-]; apply pushed_refl|].
    destruct (first_by_desc _ _).
    - destruct (Py.contains (op_bookmark op) "tags").
      + destruct (_apply_tags _ _ d) as [clean d1] eqn:Ht.
        intros [= <- <-]. eapply pushed_log, Hflush, Htags, Ht.
      + intros [= <- <-]. apply pushed_log, Hflush, pushed_refl.
    - destruct (_apply_tags _ _ d) as [clean d1] eqn:Ht.
      intros [= <- <-]. apply pushed_log.
      apply (pushed_same _ _ d1); [done..|]. eapply Htags, Ht. }
  destruct (if Py.value_truthy _ then _ else _) as [bookmark|];
    [|intros [= <- <-]; apply pushed_refl].
  destruct (_server_time_is_newer_or_equal _ _) as [[]|];
    cbn [mbind result_bind];
    [intros [= <- <-]; apply pushed_refl| |discriminate].
  destruct (String.eqb _ "update").
  { destruct (Py.contains (op_bookmark op) "tags").
    - destruct (_apply_tags _ _ d) as [clean d1] eqn:Ht.
      intros [= <- <-]. eapply pushed_log, Hflush, Htags, Ht.
    - intros [= <- <-]. apply pushed_log, Hflush, pushed_refl. }
  destruct (String.eqb _ "delete").
  { intros [= <- <-]. apply pushed_log, Hflush, pushed_refl. }
  destruct (String.eqb _ "restore"); intros [= <- <-].
  - apply pushed_log, Hflush, pushed_refl.
  - apply pushed_refl.
Qed.

End PushLog.

(** X8. A pushed operation never rewrites the event log.  When it returns,
    the log is the one before followed by new events, all of the pushing
    user, in ascending order of id, and each with an id above every id that
    was in the log: a client that has pulled up to some cursor finds every
    event of the operation above it. *)
Theorem push_operation_appends_events `{External} :
  forall (clock user_id : Z) (op : push_op) (d : db) (r : push_result)
         (d' : db),
    apply_push_operation clock user_id op d = Ok (r, d') ->
    exists added,
      sync_events d' = sync_events d ++ added
      /\ Forall (fun e => SyncEvent.user_id e = user_id) added
      /\ Forall (fun e => forall e0, e0 ∈ sync_events d ->
                                     SyncEvent.id e0 < SyncEvent.id e) added
      /\ StronglySorted (fun a b => SyncEvent.id a < SyncEvent.id b) added.
Proof.
  intros clock user_id op d r d'. unfold apply_push_operation. cbv zeta.
  destruct (String.eqb _ "folder"); intros Hop.
  - by apply folder_push_log in Hop as [? _].
  - by apply bookmark_push_log in Hop as [? _].
Qed.

Lemma push_operation_appends_events_witness :
  let d := with_bookmarks [demo_bookmark 1 1 "a" T0 None] empty_db in
  let op := {| op_entity_type := None; op_op := Some "delete"%string;
               op_id := Py.VInt 1; op_updated_at := Py.VNone;
               op_bookmark := ∅; op_folder := ∅ |} in
  let d' := match apply_push_operation 5 1 op d with
            | Ok (_, d') => d'
            | Raise _ => d
            end in
  exists added,
    sync_events d' = sync_events d ++ added
    /\ Forall (fun e => SyncEvent.user_id e = 1) added
    /\ Forall (fun e => forall e0, e0 ∈ sync_events d ->
                                   SyncEvent.id e0 < SyncEvent.id e) added
    /\ StronglySorted (fun a b => SyncEvent.id a < SyncEvent.id b) added.
Proof.
  intros d op d'.
  apply (push_operation_appends_events 5 1 op d (BookmarkStatus "deleted" 1)).
  vm_compute. reflexivity.
Defined.

(** ** Deleting a folder tree (sync.py, [_delete_folder_tree_for_sync]) *)

Lemma unfiled_at_most_refl (b : Bookmark.t) : unfiled_at_most b b.
Proof. unfold unfiled_at_most. tauto. Qed.

Lemma unfiled_at_most_trans (b1 b2 b3 : Bookmark.t) :
  unfiled_at_most b1 b2 -> unfiled_at_most b2 b3 -> unfiled_at_most b1 b3.
Proof.
  unfold unfiled_at_most.
  intros (? & ? & Hf1 & ? & ? & ? & ? & ? & ? & ? & ? & ? & ?)
         (? & ? & Hf2 & ? & ? & ? & ? & ? & ? & ? & ? & ? & ?).
  repeat (split; [congruence|]). split; [|repeat split; congruence].
  destruct Hf2 as [Hf2|Hf2]; [|by right].
  destruct Hf1 as [Hf1|Hf1]; [left|right]; congruence.
Qed.

Lemma Forall2_unfiled_ids (l k : list Bookmark.t) :
  Forall2 unfiled_at_most l k -> map Bookmark.id k = map Bookmark.id l.
Proof.
  induction 1 as [|x y l k Hxy _ IH]; [done|]. cbn. rewrite IH.
  by destruct Hxy as [-> _].
Qed.

Lemma bookmarks_kept_refl (d : db) : bookmarks_kept d d.
Proof.
  intros _. induction (bookmarks d); constructor; [|done].
  apply unfiled_at_most_refl.
Qed.

Lemma bookmarks_kept_same (d d' : db) :
  bookmarks d' = bookmarks d -> bookmarks_kept d d'.
Proof. intros Hb Hnd. rewrite Hb. by apply bookmarks_kept_refl. Qed.

Lemma bookmarks_kept_trans (d1 d2 d3 : db) :
  bookmarks_kept d1 d2 -> bookmarks_kept d2 d3 -> bookmarks_kept d1 d3.
Proof.
  intros H12 H23 Hnd. specialize (H12 Hnd).
  assert (Hnd2 : NoDup (map Bookmark.id (bookmarks d2)))
    by (by rewrite (Forall2_unfiled_ids _ _ H12)).
  specialize (H23 Hnd2). revert H12 H23.
  generalize (bookmarks d1) (bookmarks d2) (bookmarks d3).
  intros l1 l2 l3 H12. revert l3.
  induction H12 as [|x y l k Hxy _ IH]; intros l3 H23.
  - by inversion H23.
  - inversion H23 as [|? z ? k3 Hyz Hrest]; subst. constructor.
    + by eapply unfiled_at_most_trans.
    + by apply IH.
Qed.

Lemma NoDup_fmap_inj {A B} (f : A -> B) (l : list A) (x y : A) :
  NoDup (map f l) -> x ∈ l -> y ∈ l -> f x = f y -> x = y.
Proof.
  induction l as [|a l IH]; cbn; intros Hnd Hx Hy Hf.
  - by apply elem_of_nil in Hx.
  - apply NoDup_cons in Hnd as [Ha Hnd].
    apply elem_of_cons in Hx as [->|Hx]; apply elem_of_cons in Hy as [->|Hy].
    + done.
    + destruct Ha. rewrite Hf. apply list_elem_of_fmap. by exists y.
    + destruct Ha. rewrite <- Hf. apply list_elem_of_fmap. by exists x.
    + by apply IH.
Qed.

Lemma Forall2_map_r_elem {A} (R : A -> A -> Prop) (g : A -> A)
    (l k : list A) :
  Forall2 R l k ->
  (forall x y, x ∈ l -> R x y -> R x (g y)) ->
  Forall2 R l (map g k).
Proof.
  induction 1 as [|x y l k Hxy _ IH]; intros Hg; cbn; constructor.
  - apply Hg; [by left|done].
  - apply IH. intros a b Ha. apply Hg. by right.
Qed.

Lemma clear_bookmarks_kept (clock user_id : Z) (d1 : db)
    (l : list Bookmark.t) (d : db) :
  NoDup (map Bookmark.id (bookmarks d1)) ->
  (forall b, b ∈ l -> b ∈ bookmarks d1) ->
  Forall2 unfiled_at_most (bookmarks d1) (bookmarks d) ->
  Forall2 unfiled_at_most (bookmarks d1)
    (bookmarks
       (foldl (fun d bookmark =>
                 let bookmark := Bookmark.set_folder_id None bookmark in
                 log_sync_event clock user_id "bookmark"
                   (Some (Bookmark.id bookmark)) "update"
                   (serialize_bookmark_for_sync bookmark)
                   (flush_bookmark clock bookmark d)) d l)).
Proof.
  intros Hnd. revert d. induction l as [|b l IH]; intros d Hl Hd; [done|].
  cbn [foldl]. apply IH; [intros b0 Hb0; apply Hl; by right|].
  cbn. apply Forall2_map_r_elem; [exact Hd|].
  intros x y Hx Hxy.
  destruct (Bookmark.id y =? Bookmark.id b) eqn:Hid; [|done].
  destruct (bool_decide (y = Bookmark.set_folder_id None b)); [done|].
  apply Z.eqb_eq in Hid.
  assert (x = b) as ->.
  { apply (NoDup_fmap_inj Bookmark.id (bookmarks d1)); [done|done| |].
    - apply Hl. by left.
    - destruct Hxy as [Hxy _]. congruence. }
  unfold unfiled_at_most. cbn. tauto.
Qed.

Section DeleteTreeRows.
Context `{External}.

Lemma delete_folder_tree_kept (depth : nat) (clock user_id : Z) :
  forall (folder : Folder.t) (d d' : db),
    _delete_folder_tree_for_sync depth clock user_id folder d = Ok d' ->
    bookmarks_kept d d'.
Proof.
  induction depth as [|depth IH]; intros folder d d'; cbn; [discriminate|].
  destruct (rfold _ d (children folder d)) as [d1|e] eqn:Hchildren; cbn;
    [|discriminate].
  intros [= <-].
  assert (H1 : bookmarks_kept d d1).
  { eapply (rfold_inv _ bookmarks_kept); [| | |exact Hchildren].
    - apply bookmarks_kept_refl.
    - apply bookmarks_kept_trans.
    - intros child s1 s2 _ Hchild. by apply IH in Hchild. }
  eapply bookmarks_kept_trans; [exact H1|].
  intros Hnd. apply clear_bookmarks_kept; [exact Hnd| |].
  - intros b Hb. by apply filter_elem in Hb as [Hb _].
  - by apply bookmarks_kept_refl.
Qed.

End DeleteTreeRows.

Lemma ancestor_subset (rows rows' : list Folder.t) (a b : Z) :
  (forall f, f ∈ rows' -> f ∈ rows) ->
  ancestor rows' a b -> ancestor rows a b.
Proof.
  intros Hsub Hab. induction Hab as [a b (f & Hf & Hid & Hp)
                                    | a c b (f & Hf & Hid & Hp) _ IH].
  - apply tc_once. exists f. auto.
  - eapply tc_l; [|exact IH]. exists f. auto.
Qed.

Lemma acyclic_subset (rows rows' : list Folder.t) :
  (forall f, f ∈ rows' -> f ∈ rows) -> acyclic rows -> acyclic rows'.
Proof.
  intros Hsub Hac a Ha. apply (Hac a). by eapply ancestor_subset.
Qed.

(** X9. Deleting a folder tree deletes no bookmark.  When the deletion
    returns, the bookmark table has the rows it had, each with the columns
    it had except that some were taken out of their folder, and no bookmark
    is left in the deleted folder; the folder is gone from the folder table,
    which got no new row, so a table without cycles stays without them; the
    last event logged is the deletion of the folder. *)
Theorem delete_folder_tree_keeps_bookmarks `{External} :
  forall (depth : nat) (clock user_id : Z) (folder : Folder.t) (d d' : db),
    NoDup (map Bookmark.id (bookmarks d)) ->
    _delete_folder_tree_for_sync depth clock user_id folder d = Ok d' ->
    Forall2 unfiled_at_most (bookmarks d) (bookmarks d')
    /\ (forall b, b ∈ bookmarks d' ->
          Bookmark.folder_id b <> Some (Folder.id folder))
    /\ (Folder.id folder ∉ map Folder.id (folders d'))
    /\ (forall f, f ∈ folders d' -> f ∈ folders d)
    /\ (acyclic (folders d) -> acyclic (folders d'))
    /\ exists e, last (sync_events d') = Some e
                 /\ SyncEvent.action e = "delete"%string
                 /\ SyncEvent.entity_type e = "folder"%string
                 /\ SyncEvent.entity_id e = Some (Folder.id folder).
Proof.
  intros depth clock user_id folder d d' Hnd Hdel.
  pose proof (delete_folder_tree_kept _ _ _ _ _ _ Hdel Hnd) as Hkept.
  apply delete_folder_tree_spec in Hdel
    as ((_ & _ & Hsub & _) & Hgone & Hclear & Hlast).
  split; [exact Hkept|]. split; [exact Hclear|]. split; [exact Hgone|].
  split; [exact Hsub|]. split; [by apply acyclic_subset|exact Hlast].
Qed.

Lemma delete_folder_tree_keeps_bookmarks_witness :
  let folder := demo_folder 1 1 "Work" None in
  let d := with_folders [folder; demo_folder 2 1 "Sub" (Some 1)]
             (with_bookmarks
                [Bookmark.set_folder_id (Some 2)
                   (demo_bookmark 1 1 "a" T0 None)] empty_db) in
  let d' := match _delete_folder_tree_for_sync 3 5 1 folder d with
            | Ok d' => d'
            | Raise _ => d
            end in
  Forall2 unfiled_at_most (bookmarks d) (bookmarks d')
  /\ (forall b, b ∈ bookmarks d' ->
        Bookmark.folder_id b <> Some (Folder.id folder))
  /\ (Folder.id folder ∉ map Folder.id (folders d'))
  /\ (forall f, f ∈ folders d' -> f ∈ folders d)
  /\ (acyclic (folders d) -> acyclic (folders d'))
  /\ exists e, last (sync_events d') = Some e
               /\ SyncEvent.action e = "delete"%string
               /\ SyncEvent.entity_type e = "folder"%string
               /\ SyncEvent.entity_id e = Some (Folder.id folder).
Proof.
  intros folder d d'.
  apply (delete_folder_tree_keeps_bookmarks 3 5 1 folder d d').
  - vm_compute. apply NoDup_singleton.
  - vm_compute. reflexivity.
Defined.

(** A folder table in which every parent has a smaller id than its child
    has no cycle. *)
Lemma acyclic_by_rank (rows : list Folder.t) :
  (forall f p, f ∈ rows -> Folder.parent_id f = Some p -> p < Folder.id f) ->
  acyclic rows.
Proof.
  intros Hrank a Ha.
  assert (Hlt : forall x y, ancestor rows x y -> y < x).
  { intros x y Hxy. induction Hxy as [x y (f & Hf & <- & Hp)
                                     | x z y (f & Hf & <- & Hp) _ IH].
    - by apply Hrank.
    - specialize (Hrank f z Hf Hp). lia. }
  specialize (Hlt a a Ha). lia.
Qed.

Section DeleteTreeTerminates.
Context `{External}.

Lemma delete_folder_tree_fuel (rows0 : list Folder.t) (clock user_id : Z) :
  acyclic rows0 ->
  forall (depth : nat) (folder : Folder.t) (d : db) (path : list Z),
    folder ∈ rows0 ->
    (forall f, f ∈ folders d -> f ∈ rows0) ->
    NoDup path -> Folder.id folder ∉ path ->
    (forall a, a ∈ path -> a ∈ map Folder.id rows0) ->
    (forall a, a ∈ path -> ancestor rows0 (Folder.id folder) a) ->
    (length rows0 < depth + length path + 1)%nat ->
    exists d', _delete_folder_tree_for_sync depth clock user_id folder d
               = Ok d'.
Proof.
  intros Hacyclic. induction depth as [|depth IH];
    intros folder d path Hfolder Hsub Hnd Hfresh Hids Hanc Hlen.
  - exfalso.
    assert (Hle : (length (Folder.id folder :: path)
                   <= length (map Folder.id rows0))%nat).
    { apply submseteq_length, NoDup_submseteq.
      - by apply NoDup_cons.
      - intros a [->|Ha]%elem_of_cons; [|by apply Hids].
        apply list_elem_of_fmap. by exists folder. }
    rewrite length_map in Hle. cbn in Hle. lia.
  - cbn.
    assert (Hchildren :
              forall (cs : list Folder.t) (dc : db),
                (forall c, c ∈ cs ->
                   c ∈ rows0
                   /\ Folder.parent_id c = Some (Folder.id folder)) ->
                (forall f, f ∈ folders dc -> f ∈ rows0) ->
                exists d1,
                  rfold (fun d child =>
                           _delete_folder_tree_for_sync depth clock user_id
                             child d) dc cs = Ok d1).
    { induction cs as [|c cs IHcs]; intros dc Hcs Hdc; cbn; [by eexists|].
      destruct (Hcs c) as [Hc Hparent]; [by left|].
      assert (Hedge : parent_edge rows0 (Folder.id c) (Folder.id folder))
        by (by exists c).
      destruct (IH c dc (Folder.id folder :: path)) as [d2 Hd2];
        [exact Hc|exact Hdc|by apply NoDup_cons| | | |cbn; lia|].
      + intros [Heq|Hin]%elem_of_cons.
        * apply (Hacyclic (Folder.id c)). apply tc_once.
          by rewrite Heq at 2.
        * apply (Hacyclic (Folder.id c)).
          eapply tc_l; [exact Hedge|]. by apply Hanc.
      + intros a [->|Ha]%elem_of_cons; [|by apply Hids].
        apply list_elem_of_fmap. by exists folder.
      + intros a [->|Ha]%elem_of_cons; [by apply tc_once|].
        eapply tc_l; [exact Hedge|]. by apply Hanc.
      + rewrite Hd2. cbn. apply IHcs.
        * intros c' Hc'. apply Hcs. by right.
        * apply delete_folder_tree_spec in Hd2 as ((_ & _ & Hs & _) & _).
          auto. }
    destruct (Hchildren (children folder d) d) as [d1 Hd1]; [|exact Hsub|].
    + intros c Hc. apply filter_elem in Hc as [Hc Hp]. split; [auto|].
      unfold opt_eqb in Hp. by apply bool_decide_eq_true_1 in Hp.
    + rewrite Hd1. cbn. by eexists.
Qed.

End DeleteTreeTerminates.

(** X10. Deleting a folder tree returns, without exhausting the stack,
    whenever the folder table has no cycle and no more rows than the stack
    has frames. *)
Theorem delete_folder_tree_terminates `{External} :
  forall (depth : nat) (clock user_id : Z) (folder : Folder.t) (d : db),
    acyclic (folders d) -> folder ∈ folders d ->
    (length (folders d) <= depth)%nat ->
    exists d', _delete_folder_tree_for_sync depth clock user_id folder d
               = Ok d'.
Proof.
  intros depth clock user_id folder d Hacyclic Hfolder Hlen.
  apply (delete_folder_tree_fuel (folders d) clock user_id Hacyclic depth
           folder d []); try done.
  - constructor.
  - apply not_elem_of_nil.
  - intros a Ha. by apply elem_of_nil in Ha.
  - intros a Ha. by apply elem_of_nil in Ha.
  - cbn. lia.
Qed.

Lemma delete_folder_tree_terminates_witness :
  let folder := demo_folder 1 1 "Work" None in
  let d := with_folders [folder; demo_folder 2 1 "Sub" (Some 1)] empty_db in
  exists d', _delete_folder_tree_for_sync 2 5 1 folder d = Ok d'.
Proof.
  intros folder d.
  apply (delete_folder_tree_terminates 2 5 1 folder d).
  - apply acyclic_by_rank. intros f p Hf Hp.
    cbn in Hf. rewrite !elem_of_cons, elem_of_nil in Hf.
    destruct Hf as [-> | [-> | []]]; cbn in Hp; [discriminate|].
    injection Hp as <-. reflexivity.
  - apply elem_of_cons. by left.
  - cbn. lia.
Defined.

(** ** Creates pushed twice (sync.py) *)

Section CreateTwice.
Context `{External}.

Lemma bookmark_create_again (clock user_id : Z) (op : push_op) (d : db)
    (a : Bookmark.t) :
  op_action op = "create"%string ->
  Py.truthy (normalize_url (create_url op)) = true ->
  active_match user_id (normalize_url (create_url op)) d = Some a ->
  _apply_bookmark_push_operation clock user_id op d
  = Ok (BookmarkStatus "exists" (Bookmark.id a), d).
Proof.
  intros Hact Hn Ha. unfold op_action in Hact.
  unfold _apply_bookmark_push_operation. rewrite Hact.
  cbn [String.eqb Ascii.eqb Bool.eqb]. cbv zeta.
  fold (create_url op). rewrite Hn. cbn [negb].
  change (first _ (bookmarks d))
    with (active_match user_id (normalize_url (create_url op)) d).
  by rewrite Ha.
Qed.

Lemma first_after_flush (p : Bookmark.t -> bool) (clock : Z) (b : Bookmark.t)
    (d : db) :
  first p (bookmarks d) = None ->
  p b = true -> p (Bookmark.set_updated_at (utcnow clock) b) = true ->
  Bookmark.id b ∈ map Bookmark.id (bookmarks d) ->
  exists r, first p (bookmarks (flush_bookmark clock b d)) = Some r
            /\ Bookmark.id r = Bookmark.id b.
Proof.
  intros Hnone Hb Hb' Hin. unfold flush_bookmark. cbn [bookmarks with_bookmarks].
  unfold first in *. induction (bookmarks d) as [|r l IH].
  - by apply elem_of_nil in Hin.
  - cbn in Hnone. destruct (p r) eqn:Hr; [discriminate|].
    cbn [map find].
    destruct (Bookmark.id r =? Bookmark.id b) eqn:Hid.
    + destruct (bool_decide_reflect (r = b)) as [->|_].
      * congruence.
      * rewrite Hb'. eexists. split; [reflexivity|done].
    + rewrite Hr. apply IH; [exact Hnone|].
      cbn in Hin. apply elem_of_cons in Hin as [Hin|Hin]; [|done].
      apply Z.eqb_neq in Hid. congruence.
Qed.

End CreateTwice.

(** X11. A bookmark create that is pushed a second time changes nothing.
    Whatever the first push answered ([created], [restored] or [exists]),
    the second is answered [exists] with the id the first one gave and
    leaves the store as the first one left it, at any later time; a create
    that was skipped is skipped again. *)
Theorem push_bookmark_create_idempotent `{External} :
  forall (clock clock' user_id : Z) (op : push_op) (d : db)
         (r : push_result) (d' : db),
    op_action op = "create"%string ->
    _apply_bookmark_push_operation clock user_id op d = Ok (r, d') ->
    match r with
    | BookmarkStatus _ i =>
        _apply_bookmark_push_operation clock' user_id op d'
        = Ok (BookmarkStatus "exists" i, d')
    | Skipped reason =>
        d' = d
        /\ _apply_bookmark_push_operation clock' user_id op d'
           = Ok (Skipped reason, d')
    | FolderStatus _ _ => False
    end.
Proof.
  intros clock clock' user_id op d r d' Hact.
  set (n := normalize_url (create_url op)).
  destruct (Py.truthy n) eqn:Hn; cycle 1.
  { assert (Hskip : forall c, _apply_bookmark_push_operation c user_id op d
                              = Ok (Skipped "invalid_url", d)).
    { intros c. unfold op_action in Hact.
      unfold _apply_bookmark_push_operation. rewrite Hact.
      cbn [String.eqb Ascii.eqb Bool.eqb]. cbv zeta.
      fold (create_url op). fold n. by rewrite Hn. }
    rewrite Hskip. intros [= <- <-]. split; [done|apply Hskip]. }
  assert (Hagain : forall d' a,
            active_match user_id n d' = Some a ->
            _apply_bookmark_push_operation clock' user_id op d'
            = Ok (BookmarkStatus "exists" (Bookmark.id a), d')).
  { intros d1 a. by apply bookmark_create_again. }
  pose proof Hact as Hact'. unfold op_action in Hact'.
  unfold _apply_bookmark_push_operation at 1. rewrite Hact'.
  cbn [String.eqb Ascii.eqb Bool.eqb]. cbv zeta.
  fold (create_url op). fold n. rewrite Hn. cbn [negb].
  change (first _ (bookmarks d)) with (active_match user_id n d).
  change (first_by_desc _ _) with (deleted_match user_id n d).
  destruct (active_match user_id n d) as [a|] eqn:Hactive.
  { intros [= <- <-]. by apply Hagain. }
  destruct (deleted_match user_id n d) as [x|] eqn:Hdeleted.
  - pose proof (first_by_desc_Some _ _ _ Hdeleted) as Hin.
    apply filter_elem in Hin as [Hin Hp].
    apply andb_true_iff in Hp as [Hsame _].
    pose proof Hsame as Hsame'.
    apply andb_true_iff in Hsame' as [Hu Hnorm].
    apply Z.eqb_eq in Hu. apply String.eqb_eq in Hnorm.
    set (b1 := match Py.as_str (Py.get (op_bookmark op) "title") with
               | Some t => _ | None => _ end).
    set (b2 := match _normalize_notes_value _ with
               | Some t => _ | None => _ end).
    set (b3 := if Py.contains (op_bookmark op) "folder_id" then _ else b2).
    set (bd := if Py.contains (op_bookmark op) "tags" then _ else (b3, d)).
    assert (Hbd : exists b4 d1,
              bd = (b4, d1)
              /\ bookmarks d1 = bookmarks d
              /\ Bookmark.id b4 = Bookmark.id x
              /\ Bookmark.user_id b4 = user_id
              /\ Bookmark.deleted_at b4 = None
              /\ Bookmark.normalized_url b4 = n).
    { subst bd b3 b2 b1.
      pose proof (apply_tags_tables user_id
                    (Py.as_strs (Py.get (op_bookmark op) "tags")) d) as Ht.
      unfold _apply_tags in *. cbn [fst snd] in *.
      destruct Ht as (_ & Ht2 & _).
      destruct (Py.contains (op_bookmark op) "tags");
        destruct (Py.contains (op_bookmark op) "folder_id");
        destruct (_normalize_notes_value
                    (Py.as_str (Py.get (op_bookmark op) "notes")));
        destruct (Py.as_str (Py.get (op_bookmark op) "title")) as [t|];
        try destruct (Py.truthy t) eqn:Htt;
        (eexists; eexists; split; [reflexivity|]);
        cbn; repeat split; done. }
    destruct Hbd as (b4 & d1 & -> & Hbm & Hid & Hu4 & Hda & Hnu).
    intros [= <- <-].
    assert (Hp4 : forall b, Bookmark.user_id b = user_id ->
                    Bookmark.normalized_url b = n ->
                    Bookmark.deleted_at b = None ->
                    same_url user_id n b && is_none (Bookmark.deleted_at b)
                    = true).
    { intros b Hbu Hbn Hbd. unfold same_url.
      by rewrite Hbu, Hbn, Hbd, Z.eqb_refl, String.eqb_refl. }
    destruct (first_after_flush
                (fun b => same_url user_id n b
                          && is_none (Bookmark.deleted_at b))
                clock b4 d1) as (r' & Hr' & Hidr').
    + by rewrite Hbm.
    + by apply Hp4.
    + by apply Hp4.
    + rewrite Hid, Hbm. apply list_elem_of_fmap. by exists x.
    + rewrite <- Hid, <- Hidr'. apply Hagain. exact Hr'.
  - destruct (_apply_tags user_id _ d) as [clean d1] eqn:Htags.
    pose proof (apply_tags_tables user_id
                  (Py.as_strs (Py.get (op_bookmark op) "tags")) d) as Ht.
    rewrite Htags in Ht. cbn [snd] in Ht. destruct Ht as (_ & Hbm & _).
    intros [= <- <-].
    match goal with
    | |- context [bookmarks d1 ++ [?b]] => set (b0 := b)
    end.
    apply (Hagain _ b0). unfold active_match.
    cbn [log_sync_event bookmarks with_sync_events with_bookmarks].
    rewrite Hbm, first_app. fold (active_match user_id n d).
    rewrite Hactive. cbn. unfold same_url. cbn.
    by rewrite Z.eqb_refl, String.eqb_refl.
Qed.

Lemma push_bookmark_create_idempotent_witness :
  let op :=
    {| op_entity_type := None; op_op := Some "create"%string;
       op_id := Py.VNone; op_updated_at := Py.VNone;
       op_bookmark := {[ "url"%string := Py.VStr " a " ]}; op_folder := ∅ |} in
  let d' := match _apply_bookmark_push_operation 5 1 op empty_db with
            | Ok (_, d') => d'
            | Raise _ => empty_db
            end in
  _apply_bookmark_push_operation 9 1 op d'
  = Ok (BookmarkStatus "exists" 1, d').
Proof.
  intros op d'.
  apply (push_bookmark_create_idempotent 5 9 1 op empty_db
           (BookmarkStatus "created" 1) d').
  - reflexivity.
  - vm_compute. reflexivity.
Defined.

(** X12. A folder create that is pushed a second time changes nothing, when
    the parent it names (if it names one) is a folder of the user: whatever
    the first push answered ([created] or [exists]), the second is answered
    [exists] with the id the first one gave and leaves the store as the
    first one left it. *)
Theorem push_folder_create_idempotent `{External} :
  forall (clock clock' user_id : Z) (op : push_op) (d : db)
         (r : push_result) (d' : db),
    op_action op = "create"%string ->
    (forall p, create_parent op = Some p ->
               is_Some (find_folder user_id p d)) ->
    _apply_folder_push_operation clock user_id op d = Ok (r, d') ->
    exists i,
      (r = FolderStatus "created" i \/ r = FolderStatus "exists" i)
      /\ _apply_folder_push_operation clock' user_id op d'
         = Ok (FolderStatus "exists" i, d').
Proof.
  intros clock clock' user_id op d r d' Hact Hparent.
  unfold op_action in Hact. unfold create_parent in Hparent.
  unfold _apply_folder_push_operation. rewrite Hact.
  cbn [String.eqb Ascii.eqb Bool.eqb]. cbv zeta.
  set (name := folder_name_of (op_folder op)).
  set (parent_id := Py.as_int (Py.get (op_folder op) "parent_id")) in *.
  assert (Hp : forall d1,
            (forall p, parent_id = Some p ->
                       is_Some (find_folder user_id p d1)) ->
            (parent_id ≫= fun p =>
             match find_folder user_id p d1 with
             | Some _ => Some p
             | None => None
             end)
            = parent_id).
  { intros d1 Hd1. destruct parent_id as [p|]; [|done]. cbn.
    by destruct (Hd1 p eq_refl) as [f ->]. }
  rewrite (Hp d Hparent).
  destruct (find_folder_by_name user_id name parent_id d) as [existing|]
    eqn:Hexisting.
  - intros [= <- <-]. exists (Folder.id existing).
    split; [by right|]. by rewrite (Hp d Hparent), Hexisting.
  - intros [= <- <-]. eexists. split; [by left|].
    cbn [add_folder fst snd].
    set (f := Folder.mk _ user_id name parent_id _ _).
    set (d1 := log_sync_event _ _ _ _ _ _ _).
    assert (Hfolders : folders d1 = folders d ++ [f]) by done.
    rewrite (Hp d1).
    + unfold find_folder_by_name. rewrite Hfolders, first_app.
      unfold find_folder_by_name in Hexisting. rewrite Hexisting. cbn.
      rewrite Z.eqb_refl, String.eqb_refl. unfold opt_eqb.
      by rewrite bool_decide_eq_true_2.
    + intros p Hpp. destruct (Hparent p Hpp) as [g Hg].
      unfold find_folder in *. rewrite Hfolders, first_app, Hg. by eexists.
Qed.

Lemma push_folder_create_idempotent_witness :
  let op :=
    {| op_entity_type := Some "folder"%string; op_op := Some "create"%string;
       op_id := Py.VNone; op_updated_at := Py.VNone; op_bookmark := ∅;
       op_folder := {[ "name"%string := Py.VStr "Work" ]} |} in
  let d' := match _apply_folder_push_operation 5 1 op empty_db with
            | Ok (_, d') => d'
            | Raise _ => empty_db
            end in
  exists i,
    (FolderStatus "created" 1 = FolderStatus "created" i
     \/ FolderStatus "created" 1 = FolderStatus "exists" i)
    /\ _apply_folder_push_operation 9 1 op d'
       = Ok (FolderStatus "exists" i, d').
Proof.
  intros op d'.
  apply (push_folder_create_idempotent 5 9 1 op empty_db
           (FolderStatus "created" 1) d').
  - reflexivity.
  - intros p Hp. vm_compute in Hp. discriminate.
  - vm_compute. reflexivity.
Defined.

(** A create that names a parent which does not exist is not covered: the
    folder is created at the root, and when it takes the id that was named
    as parent, the same create pushed again finds that parent and makes a
    second folder below the first. *)
Example push_folder_create_dangling_parent :
  let op :=
    {| op_entity_type := Some "folder"%string; op_op := Some "create"%string;
       op_id := Py.VNone; op_updated_at := Py.VNone; op_bookmark := ∅;
       op_folder := {[ "name"%string := Py.VStr "Work";
                       "parent_id"%string := Py.VInt 1 ]} |} in
  exists d1 d2,
    _apply_folder_push_operation 5 1 op empty_db
    = Ok (FolderStatus "created" 1, d1)
    /\ _apply_folder_push_operation 9 1 op d1
       = Ok (FolderStatus "created" 2, d2)
    /\ map Folder.parent_id (folders d2) = [None; Some 1].
Proof. intros op. eexists. eexists. vm_compute. done. Qed.

(** ** The preflight (routes.py) *)

(** X13. The mode of a request is read as one of the three sync modes or as
    the empty string, a missing or blank mode being read as
    [replace_local_with_server].  For every mode that is not read as empty
    the preflight is computed, for that mode and with the phrase of that
    mode; for a mode outside the three the preflight raises [KeyError]. *)
Theorem normalize_sync_mode_preflight :
  forall (raw_mode : option string) (local_bookmarks : list LocalBookmark.t)
         (user_id : Z) (d : db),
    let mode := _normalize_sync_mode raw_mode in
    (mode = EmptyString \/ mode ∈ SYNC_FIRST_MODES)
    /\ (mode = EmptyString ->
        (Py.lower (Py.strip (Py.or_empty raw_mode)) ∉ SYNC_FIRST_MODES)
        /\ Py.strip (Py.or_empty raw_mode) <> EmptyString)
    /\ (Py.strip (Py.or_empty raw_mode) = EmptyString ->
        mode = SYNC_MODE_REPLACE_LOCAL)
    /\ (mode <> EmptyString ->
        exists pf,
          _build_sync_preflight_payload mode local_bookmarks user_id d = Ok pf
          /\ pf_mode pf = mode
          /\ SYNC_CONFIRM_PHRASES mode = Some (required_phrase pf)
          /\ local_bookmark_count pf = Z.of_nat (length local_bookmarks)
          /\ server_bookmark_count pf
             = Z.of_nat (length (_active_server_bookmarks user_id d)))
    /\ (forall other : string,
          other ∉ SYNC_FIRST_MODES ->
          _build_sync_preflight_payload other local_bookmarks user_id d
          = Raise KeyError).
Proof.
  intros raw_mode local_bookmarks user_id d mode.
  assert (Hphrase : forall m, m ∈ SYNC_FIRST_MODES ->
                      is_Some (SYNC_CONFIRM_PHRASES m)).
  { intros m Hm. unfold SYNC_FIRST_MODES in Hm.
    rewrite !elem_of_cons, elem_of_nil in Hm.
    destruct Hm as [-> | [-> | [-> | []]]]; by eexists. }
  assert (Hpf : forall m, is_Some (SYNC_CONFIRM_PHRASES m) ->
            exists pf,
              _build_sync_preflight_payload m local_bookmarks user_id d = Ok pf
              /\ pf_mode pf = m
              /\ SYNC_CONFIRM_PHRASES m = Some (required_phrase pf)
              /\ local_bookmark_count pf = Z.of_nat (length local_bookmarks)
              /\ server_bookmark_count pf
                 = Z.of_nat (length (_active_server_bookmarks user_id d))).
  { intros m [phrase Hm]. unfold _build_sync_preflight_payload. rewrite Hm.
    destruct (String.eqb m SYNC_MODE_REPLACE_LOCAL);
      [|destruct (String.eqb m SYNC_MODE_REPLACE_SERVER)];
      eexists; (split; [reflexivity|]); done. }
  unfold _normalize_sync_mode in mode.
  set (text := Py.lower (Py.strip (Py.or_empty raw_mode))) in *.
  assert (Hblank : Py.strip (Py.or_empty raw_mode) = EmptyString ->
                   text = EmptyString).
  { unfold text. by intros ->. }
  assert (Htext : text = EmptyString ->
                  Py.strip (Py.or_empty raw_mode) = EmptyString).
  { unfold text. by destruct (Py.strip (Py.or_empty raw_mode)). }
  split; [|split; [|split; [|split]]].
  - subst mode. destruct (bool_decide_reflect
                            (Py.str_or text SYNC_MODE_REPLACE_LOCAL
                             ∈ SYNC_FIRST_MODES)); cbn [negb]; auto.
  - subst mode. destruct (bool_decide_reflect
                            (Py.str_or text SYNC_MODE_REPLACE_LOCAL
                             ∈ SYNC_FIRST_MODES)) as [Hin|Hout]; cbn [negb].
    + intros Hempty. rewrite Hempty in Hin. unfold SYNC_FIRST_MODES in Hin.
      rewrite !elem_of_cons, elem_of_nil in Hin.
      by destruct Hin as [? | [? | [? | []]]].
    + intros _. destruct text as [|c t] eqn:Ht.
      * destruct Hout. cbn. apply elem_of_cons. by left.
      * split; [exact Hout|]. intros Hs. specialize (Hblank Hs). done.
  - intros Hs. subst mode. rewrite (Hblank Hs). reflexivity.
  - intros Hmode. apply Hpf, Hphrase. subst mode.
    destruct (bool_decide_reflect
                (Py.str_or text SYNC_MODE_REPLACE_LOCAL ∈ SYNC_FIRST_MODES));
      cbn [negb] in *; done.
  - intros other Hother. unfold _build_sync_preflight_payload.
    assert (Hnone : SYNC_CONFIRM_PHRASES other = None).
    { unfold SYNC_CONFIRM_PHRASES.
      destruct (String.eqb other SYNC_MODE_REPLACE_LOCAL) eqn:H1.
      { apply String.eqb_eq in H1 as ->. destruct Hother.
        apply elem_of_cons. by left. }
      destruct (String.eqb other SYNC_MODE_REPLACE_SERVER) eqn:H2.
      { apply String.eqb_eq in H2 as ->. destruct Hother.
        apply elem_of_cons. right. apply elem_of_cons. by left. }
      destruct (String.eqb other SYNC_MODE_TWO_WAY) eqn:H3; [|done].
      apply String.eqb_eq in H3 as ->. destruct Hother.
      do 2 (apply elem_of_cons; right). apply elem_of_cons. by left. }
    rewrite Hnone.
    by destruct (String.eqb other SYNC_MODE_REPLACE_LOCAL),
                (String.eqb other SYNC_MODE_REPLACE_SERVER).
Qed.

(** *** The estimate of a two-way merge *)

Lemma bump_lookup (k k' : string) (c : gmap string Z) :
  default 0 (bump k c !! k')
  = default 0 (c !! k') + (if bool_decide (k' = k) then 1 else 0).
Proof.
  unfold bump. destruct (bool_decide_reflect (k' = k)) as [->|Hne].
  - by rewrite lookup_insert_eq.
  - rewrite lookup_insert_ne by done. lia.
Qed.

Lemma count_map_lookup (ks : list string) (c : gmap string Z) (k' : string) :
  default 0 (foldl (fun c k => bump k c) c ks !! k')
  = default 0 (c !! k')
    + Z.of_nat (length (List.filter (fun x => bool_decide (k' = x)) ks)).
Proof.
  revert c. induction ks as [|k ks IH]; intros c; cbn [foldl List.filter].
  - cbn. lia.
  - rewrite IH, bump_lookup.
    destruct (bool_decide (k' = k)); cbn [length]; lia.
Qed.

Lemma count_map_dom (ks : list string) (c : gmap string Z) (k' : string) :
  k' ∈ dom (foldl (fun c k => bump k c) c ks) <-> k' ∈ dom c \/ k' ∈ ks.
Proof.
  revert c. induction ks as [|k ks IH]; intros c; cbn [foldl].
  - rewrite elem_of_nil. tauto.
  - rewrite IH. unfold bump. rewrite dom_insert, elem_of_union,
      elem_of_singleton, elem_of_cons. tauto.
Qed.

Lemma sum_indicator (K : list string) (x : string) :
  NoDup K -> x ∈ K ->
  foldr (fun k s => (if bool_decide (k = x) then 1 else 0) + s) 0 K = 1.
Proof.
  induction 1 as [|k K Hk Hnd IH]; intros Hx; [by apply elem_of_nil in Hx|].
  cbn. destruct (bool_decide_reflect (k = x)) as [->|Hne].
  - assert (Hzero : forall L, x ∉ L ->
              foldr (fun k s => (if bool_decide (k = x) then 1 else 0) + s)
                    0 L = 0).
    { induction L as [|a L IHL]; intros Ha; [done|]. cbn.
      rewrite IHL by (intros ?; apply Ha; by right).
      destruct (bool_decide_reflect (a = x)) as [->|_]; [|done].
      destruct Ha. by left. }
    rewrite Hzero by done. lia.
  - apply elem_of_cons in Hx as [->|Hx]; [done|]. rewrite IH by done. lia.
Qed.

Lemma sum_counts (K ks : list string) :
  NoDup K -> (forall x, x ∈ ks -> x ∈ K) ->
  foldr (fun k s =>
           Z.of_nat (length (List.filter (fun x => bool_decide (k = x)) ks))
           + s) 0 K
  = Z.of_nat (length ks).
Proof.
  intros Hnd. induction ks as [|x ks IH]; intros Hks.
  - clear. induction K as [|k K IHK]; [done|]. cbn in *. by rewrite IHK.
  - assert (Hx : x ∈ K) by (apply Hks; by left).
    assert (Hrest : forall y, y ∈ ks -> y ∈ K)
      by (intros y Hy; apply Hks; by right).
    specialize (IH Hrest).
    pose proof (sum_indicator K x Hnd Hx) as H1. clear Hx Hrest.
    cbn [length]. rewrite Nat2Z.inj_succ, <- Z.add_1_l, <- IH, <- H1.
    clear IH Hks Hnd H1.
    induction K as [|k K IHK]; [done|]. cbn [foldr].
    rewrite IHK. cbn [List.filter].
    destruct (bool_decide (k = x)); cbn [length]; lia.
Qed.

Lemma foldl_map_keys {A} (f : A -> string) (l : list A) (c : gmap string Z) :
  foldl (fun c item => bump (f item) c) c l
  = foldl (fun c k => bump k c) c (map f l).
Proof. revert c. induction l as [|x l IH]; intros c; [done|]. apply IH. Qed.

Lemma foldl_filter_keys (l : list Bookmark.t) (c : gmap string Z) :
  foldl (fun c bookmark =>
           let normalized := Bookmark.normalized_url bookmark in
           if negb (Py.truthy normalized) then c else bump normalized c) c l
  = foldl (fun c k => bump k c) c
      (List.filter Py.truthy (map Bookmark.normalized_url l)).
Proof.
  revert c. induction l as [|x l IH]; intros c; [done|].
  cbn [foldl map List.filter]. cbv zeta.
  destruct (Py.truthy (Bookmark.normalized_url x)); cbn [negb foldl];
    apply IH.
Qed.

Lemma merge_counts_fold (lc sc : string -> Z) (K : list string)
    (acc : merge_counts) :
  (forall k, 0 <= lc k) -> (forall k, 0 <= sc k) ->
  let r :=
    foldl (fun acc normalized =>
             let local_count := lc normalized in
             let server_count := sc normalized in
             let overlap := Z.min local_count server_count in
             {| local_add_to_server :=
                  local_add_to_server acc + (local_count - overlap);
                server_add_to_local :=
                  server_add_to_local acc + (server_count - overlap);
                matched_ := matched_ acc + overlap |}) acc K in
  matched_ r + local_add_to_server r
  = matched_ acc + local_add_to_server acc + foldr (fun k s => lc k + s) 0 K
  /\ matched_ r + server_add_to_local r
     = matched_ acc + server_add_to_local acc
       + foldr (fun k s => sc k + s) 0 K
  /\ matched_ acc <= matched_ r
  /\ local_add_to_server acc <= local_add_to_server r
  /\ server_add_to_local acc <= server_add_to_local r.
Proof.
  intros Hlc Hsc. revert acc. induction K as [|k K IH]; intros acc.
  - cbn. lia.
  - cbn [foldl foldr]. cbv zeta.
    match goal with
    | |- context [foldl _ ?a K] => specialize (IH a)
    end.
    cbv zeta in IH. cbn [matched_ local_add_to_server server_add_to_local]
      in IH.
    destruct IH as (H1 & H2 & H3 & H4 & H5).
    specialize (Hlc k). specialize (Hsc k). lia.
Qed.

(** X14. The estimate of a two-way merge counts every local bookmark once,
    as matched or as one to add to the server, and every active server
    bookmark with a non-empty normalized URL once, as matched or as one to
    add to the browser; none of the three counts is negative. *)
Theorem estimate_two_way_merge_counts_total :
  forall (local_bookmarks : list LocalBookmark.t)
         (server_bookmarks : list Bookmark.t),
    let c := _estimate_two_way_merge_counts local_bookmarks server_bookmarks in
    matched_ c + local_add_to_server c = Z.of_nat (length local_bookmarks)
    /\ matched_ c + server_add_to_local c
       = Z.of_nat (length (List.filter
                             (fun b => Py.truthy (Bookmark.normalized_url b))
                             server_bookmarks))
    /\ 0 <= matched_ c /\ 0 <= local_add_to_server c
    /\ 0 <= server_add_to_local c.
Proof.
  intros local_bookmarks server_bookmarks. cbv zeta.
  unfold _estimate_two_way_merge_counts.
  rewrite foldl_map_keys, foldl_filter_keys.
  set (lks := map LocalBookmark.normalized_url local_bookmarks).
  set (sks := List.filter Py.truthy
                (map Bookmark.normalized_url server_bookmarks)).
  set (lcm := foldl (fun c k => bump k c) ∅ lks).
  set (scm := foldl (fun c k => bump k c) ∅ sks).
  set (K := elements (dom lcm ∪ dom scm)).
  match goal with
  | |- matched_ ?r + _ = _ /\ _ => set (c := r)
  end.
  assert (Hlc : forall k, default 0 (lcm !! k)
                  = Z.of_nat (length (List.filter
                                        (fun x => bool_decide (k = x)) lks))).
  { intros k. unfold lcm. rewrite count_map_lookup, lookup_empty. cbn. lia. }
  assert (Hsc : forall k, default 0 (scm !! k)
                  = Z.of_nat (length (List.filter
                                        (fun x => bool_decide (k = x)) sks))).
  { intros k. unfold scm. rewrite count_map_lookup, lookup_empty. cbn. lia. }
  assert (HK : NoDup K) by apply NoDup_elements.
  assert (Hl : forall x, x ∈ lks -> x ∈ K).
  { intros x Hx. apply elem_of_elements, elem_of_union. left.
    apply count_map_dom. by right. }
  assert (Hs : forall x, x ∈ sks -> x ∈ K).
  { intros x Hx. apply elem_of_elements, elem_of_union. right.
    apply count_map_dom. by right. }
  destruct (merge_counts_fold (fun k => default 0 (lcm !! k))
              (fun k => default 0 (scm !! k)) K
              {| local_add_to_server := 0; server_add_to_local := 0;
                 matched_ := 0 |})
    as (H1 & H2 & H3 & H4 & H5).
  { intros k. rewrite Hlc. lia. }
  { intros k. rewrite Hsc. lia. }
  cbn [matched_ local_add_to_server server_add_to_local] in H1, H2, H3, H4, H5.
  fold c in H1, H2, H3, H4, H5.
  assert (Hsuml : foldr (fun k s => default 0 (lcm !! k) + s) 0 K
                  = Z.of_nat (length lks)).
  { rewrite <- (sum_counts K lks HK Hl). clear -Hlc.
    induction K as [|k K IH]; [done|]. cbn. by rewrite IH, Hlc. }
  assert (Hsums : foldr (fun k s => default 0 (scm !! k) + s) 0 K
                  = Z.of_nat (length sks)).
  { rewrite <- (sum_counts K sks HK Hs). clear -Hsc.
    induction K as [|k K IH]; [done|]. cbn. by rewrite IH, Hsc. }
  assert (Hlen_l : length lks = length local_bookmarks)
    by apply length_map.
  assert (Hlen_s : length sks
                   = length (List.filter
                               (fun b => Py.truthy (Bookmark.normalized_url b))
                               server_bookmarks)).
  { unfold sks. clear. induction server_bookmarks as [|b l IH]; [done|].
    cbn. destruct (Py.truthy (Bookmark.normalized_url b)); cbn; by rewrite IH. }
  rewrite <- Hlen_l, <- Hlen_s. lia.
Qed.

(** ** Paging through the log (routes.py, [sync_pull]) *)

Lemma strictly_sorted_by_key {A} (key : A -> Z) (l : list A) :
  StronglySorted (fun a b => key a <= key b) l -> NoDup (map key l) ->
  StronglySorted (fun a b => key a < key b) l.
Proof.
  induction 1 as [|x l Hs IH Hx]; intros Hnd; [constructor|].
  cbn in Hnd. apply NoDup_cons in Hnd as [Hfresh Hnd].
  constructor; [by apply IH|].
  apply Forall_forall. intros y Hy. rewrite Forall_forall in Hx.
  specialize (Hx y Hy).
  assert (key x <> key y).
  { intros Heq. apply Hfresh. rewrite Heq. apply list_elem_of_fmap.
    by exists y. }
  lia.
Qed.

Lemma sorted_by_key_ext {A} (key : A -> Z) (l k : list A) :
  StronglySorted (fun a b => key a < key b) l ->
  StronglySorted (fun a b => key a < key b) k ->
  (forall x, x ∈ l <-> x ∈ k) -> l = k.
Proof.
  intros Hl Hk Hext.
  assert (Hnd : forall m, StronglySorted (fun a b => key a < key b) m ->
                          NoDup m).
  { induction 1 as [|x m Hs IH Hx]; constructor; [|exact IH].
    intros Hin. rewrite Forall_forall in Hx. specialize (Hx x Hin). lia. }
  apply (StronglySorted_unique_strong (fun a b => key a < key b));
    [|exact Hl|exact Hk|].
  - intros a b _ _ Hab Hba. lia.
  - apply NoDup_Permutation; auto.
Qed.

Lemma NoDup_map_filter {A B} (f : A -> B) (p : A -> bool) (l : list A) :
  NoDup (map f l) -> NoDup (map f (List.filter p l)).
Proof.
  induction l as [|x l IH]; cbn; [done|]. intros Hnd.
  apply NoDup_cons in Hnd as [Hx Hnd]. destruct (p x); [|by apply IH].
  cbn. apply NoDup_cons. split; [|by apply IH].
  intros Hin. apply Hx. apply list_elem_of_fmap in Hin as (y & -> & Hy).
  apply filter_elem in Hy as [Hy _]. apply list_elem_of_fmap. by exists y.
Qed.

Lemma matching_events_sorted (user_id since : Z) (d : db) :
  NoDup (map SyncEvent.id (sync_events d)) ->
  StronglySorted (fun a b => SyncEvent.id a < SyncEvent.id b)
    (order_by (fun a b => SyncEvent.id a <=? SyncEvent.id b)
       (matching_events user_id since d)).
Proof.
  intros Hnd. apply strictly_sorted_by_key.
  - eapply StronglySorted_mono; [|apply order_by_sorted].
    + intros a b Hab. by apply Z.leb_le.
    + intros a b Hab. apply Z.leb_le. apply Z.leb_gt in Hab. lia.
    + intros a b c Hab Hbc. apply Z.leb_le. apply Z.leb_le in Hab, Hbc. lia.
  - rewrite order_by_perm. by apply NoDup_map_filter.
Qed.

(** X15. Paging through the log by the cursor a pull returns neither skips an
    event nor returns one twice, when no two events share an id: a page of
    at most [l1] events followed by the page of at most [l2] events asked
    from the cursor of the first is the one page of at most [l1 + l2]
    events. *)
Theorem sync_pull_paging :
  forall (user_id since l1 l2 : Z) (d : db),
    NoDup (map SyncEvent.id (sync_events d)) ->
    0 <= l1 -> 0 <= l2 ->
    let page1 := sync_pull user_id since l1 d in
    let page2 := sync_pull user_id (cursor page1) l2 d in
    events page1 ++ events page2
    = events (sync_pull user_id since (l1 + l2) d)
    /\ since <= cursor page1 <= cursor page2.
Proof.
  intros user_id since l1 l2 d Hnd Hl1 Hl2. cbv zeta.
  unfold sync_pull. cbn [events cursor].
  fold (matching_events user_id since d).
  set (leb := fun a b => SyncEvent.id a <=? SyncEvent.id b).
  set (L := order_by leb (matching_events user_id since d)).
  assert (HL : StronglySorted (fun a b => SyncEvent.id a < SyncEvent.id b) L)
    by (by apply matching_events_sorted).
  assert (Hlim : forall (n : Z) (l : list SyncEvent.t),
            0 <= n -> sql_limit n l = take (Z.to_nat n) l).
  { intros n l Hn. unfold sql_limit.
    destruct (n <? 0) eqn:Hneg; [|done]. apply Z.ltb_lt in Hneg. lia. }
  rewrite !Hlim by lia.
  set (n1 := Z.to_nat l1). set (n2 := Z.to_nat l2).
  replace (Z.to_nat (l1 + l2)) with (n1 + n2)%nat by lia.
  set (c := match last (take n1 L) with
            | Some e => SyncEvent.id e
            | None => since
            end).
  fold (matching_events user_id c d).
  assert (HinL : forall x, x ∈ L ->
            x ∈ sync_events d /\ SyncEvent.user_id x = user_id
            /\ since < SyncEvent.id x).
  { intros x Hx. apply (order_by_elem leb), filter_elem in Hx as [Hx Hp].
    apply andb_true_iff in Hp as [Hu Hs].
    apply Z.eqb_eq in Hu. apply Z.ltb_lt in Hs. done. }
  assert (Hc : since <= c).
  { unfold c. destruct (last (take n1 L)) as [e|] eqn:Hlast; [|lia].
    apply last_Some in Hlast as [l' Hl'].
    assert (He : e ∈ L).
    { rewrite <- (take_drop n1 L), Hl'. apply elem_of_app. left.
      apply elem_of_app. right. by apply list_elem_of_singleton. }
    apply HinL in He as (_ & _ & He). lia. }
  assert (Hdrop : order_by leb (matching_events user_id c d) = drop n1 L).
  { unfold c. destruct (last (take n1 L)) as [e|] eqn:Hlast.
    - apply last_Some in Hlast as [l' Hl'].
      apply (sorted_by_key_ext SyncEvent.id).
      + by apply matching_events_sorted.
      + rewrite <- (take_drop n1 L) in HL.
        by apply StronglySorted_app_1_r in HL.
      + intros x. rewrite (order_by_elem leb). unfold matching_events.
        rewrite filter_elem, andb_true_iff, Z.eqb_eq, Z.ltb_lt.
        assert (He : e ∈ take n1 L).
        { rewrite Hl'. apply elem_of_app. right.
          by apply list_elem_of_singleton. }
        split.
        * intros (Hx & Hu & Hid).
          assert (HxL : x ∈ L).
          { apply (order_by_elem leb), filter_elem. split; [done|].
            apply andb_true_iff. rewrite Z.eqb_eq, Z.ltb_lt.
            split; [done|].
            assert (HeL : e ∈ L).
            { rewrite <- (take_drop n1 L). apply elem_of_app. by left. }
            apply HinL in HeL as (_ & _ & HeL). lia. }
          rewrite <- (take_drop n1 L) in HxL.
          apply elem_of_app in HxL as [Hxt|Hxd]; [|done].
          exfalso. rewrite Hl' in Hxt.
          apply elem_of_app in Hxt as [Hxl|Hxe].
          -- rewrite <- (take_drop n1 L), Hl' in HL.
             apply StronglySorted_app_1_l in HL.
             pose proof (StronglySorted_app_1_elem_of _ _ _ x e HL Hxl)
               as Hlt.
             specialize (Hlt ltac:(by apply list_elem_of_singleton)).
             cbv beta in Hlt. lia.
          -- apply list_elem_of_singleton in Hxe. subst x. lia.
        * intros Hxd.
          assert (HxL : x ∈ L).
          { rewrite <- (take_drop n1 L). apply elem_of_app. by right. }
          destruct (HinL x HxL) as (Hx & Hu & _).
          split; [done|]. split; [done|].
          rewrite <- (take_drop n1 L) in HL.
          by apply (StronglySorted_app_1_elem_of _ _ _ e x HL).
    - fold L. apply last_None in Hlast.
      destruct n1 as [|n1']; [done|].
      destruct L as [|y L']; [done|]. discriminate. }
  rewrite Hdrop. split; [apply take_take_drop|]. split; [exact Hc|].
  destruct (last (take n2 (drop n1 L))) as [e2|] eqn:Hlast2; [|lia].
  apply last_Some in Hlast2 as [l' Hl'].
  assert (He2 : e2 ∈ order_by leb (matching_events user_id c d)).
  { rewrite Hdrop, <- (take_drop n2 (drop n1 L)), Hl'.
    apply elem_of_app. left. apply elem_of_app. right.
    by apply list_elem_of_singleton. }
  apply (order_by_elem leb), filter_elem in He2 as [_ Hp].
  apply andb_true_iff in Hp as [_ Hs]. apply Z.ltb_lt in Hs. lia.
Qed.

Lemma sync_pull_paging_witness :
  let d := with_sync_events
             [demo_event 1 1; demo_event 2 1; demo_event 3 1] empty_db in
  let page1 := sync_pull 1 0 2 d in
  let page2 := sync_pull 1 (cursor page1) 2 d in
  events page1 ++ events page2 = events (sync_pull 1 0 (2 + 2) d)
  /\ 0 <= cursor page1 <= cursor page2.
Proof.
  intros d.
  apply (sync_pull_paging 1 0 2 2 d); [|lia|lia].
  vm_compute. repeat constructor; rewrite ?elem_of_cons, elem_of_nil;
    intros H; repeat destruct H as [H|H]; try discriminate; done.
Defined.

(** ** Push and the cursor (routes.py, [sync_push]) *)

Lemma foldr_max_ge (l : list Z) (x : Z) : x ∈ l -> x <= foldr Z.max 0 l.
Proof.
  induction l as [|y l IH]; intros Hx; [by apply elem_of_nil in Hx|].
  cbn. apply elem_of_cons in Hx as [->|Hx]; [lia|].
  specialize (IH Hx). lia.
Qed.

Lemma latest_cursor_of_ge (user_id : Z) (d : db) (e : SyncEvent.t) :
  e ∈ sync_events d -> SyncEvent.user_id e = user_id ->
  SyncEvent.id e <= latest_cursor_of user_id d.
Proof.
  intros He Hu. unfold latest_cursor_of. apply foldr_max_ge.
  apply list_elem_of_fmap. exists e. split; [done|].
  apply filter_elem. split; [done|]. by apply Z.eqb_eq.
Qed.

Lemma pull_from_latest_cursor (user_id limit : Z) (d : db) :
  events (sync_pull user_id (latest_cursor_of user_id d) limit d) = [].
Proof.
  unfold sync_pull. cbn [events].
  assert (Hnone : List.filter
                    (fun e => (SyncEvent.user_id e =? user_id)
                              && (latest_cursor_of user_id d <? SyncEvent.id e))
                    (sync_events d) = []).
  { pose proof (latest_cursor_of_ge user_id d) as Hge.
    induction (sync_events d) as [|e l IH]; [done|]. cbn.
    destruct (SyncEvent.user_id e =? user_id) eqn:Hu; cbn [andb].
    - apply Z.eqb_eq in Hu.
      assert (Hle : SyncEvent.id e <= latest_cursor_of user_id d)
        by (apply Hge; [by left|done]).
      apply Z.ltb_ge in Hle. rewrite Hle. apply IH.
      intros e' He'. apply Hge. by right.
    - apply IH. intros e' He'. apply Hge. by right. }
  rewrite Hnone. unfold sql_limit. by destruct (limit <? 0), (Z.to_nat limit).
Qed.

Section PushCursor.
Context `{External}.

Lemma push_operations_pushed (clock user_id : Z) (ops : list push_op) :
  forall (results : list push_result) (d : db)
         (results' : list push_result) (d' : db),
    push_operations clock user_id ops results d = Commit (results', d') ->
    pushed user_id d d'
    /\ length results' = (length results + length ops)%nat
    /\ (ops <> [] -> uq_folder_user_name_parent (folders d') = true).
Proof.
  induction ops as [|op ops IH]; intros results d results' d'; cbn.
  - intros [= <- <-]. split; [apply pushed_refl|]. split; [lia|done].
  - destruct (apply_push_operation clock user_id op d) as [[r d1]|] eqn:Hop;
      [|discriminate].
    destruct (uq_folder_user_name_parent (folders d1)) eqn:Huq;
      [|discriminate].
    intros Hrest. pose proof Hrest as Hrest'.
    apply IH in Hrest as (Hp & Hlen & Hu). split; [|split].
    + eapply pushed_trans; [|exact Hp].
      unfold apply_push_operation in Hop. cbv zeta in Hop.
      destruct (String.eqb _ "folder").
      * by apply folder_push_log in Hop.
      * by apply bookmark_push_log in Hop.
    + rewrite Hlen, length_app. cbn. lia.
    + intros _. destruct ops as [|op' ops']; [|by apply Hu].
      cbn in Hrest'. by injection Hrest' as _ <-.
Qed.

End PushCursor.



(** ** Deleting one folder ([DELETE /folders/<id>]) *)

Lemma rooted_at_most_refl (f : Folder.t) : rooted_at_most f f.
Proof. unfold rooted_at_most. tauto. Qed.

Lemma Forall2_refl_list {A} (R : A -> A -> Prop) (l : list A) :
  (forall x, R x x) -> Forall2 R l l.
Proof. intros HR. induction l; constructor; auto. Qed.

Lemma Forall2_elem_r {A} (R : A -> A -> Prop) (l k : list A) (y : A) :
  Forall2 R l k -> y ∈ k -> exists x, x ∈ l /\ R x y.
Proof.
  induction 1 as [|x0 y0 l k Hxy _ IH]; intros Hy.
  - by apply elem_of_nil in Hy.
  - apply elem_of_cons in Hy as [->|Hy].
    + exists x0. split; [by left|done].
    + destruct (IH Hy) as (x & Hx & Hr). exists x. split; [by right|done].
Qed.

Lemma Forall2_rooted_ids (l k : list Folder.t) :
  Forall2 rooted_at_most l k -> map Folder.id k = map Folder.id l.
Proof.
  induction 1 as [|x y l k Hxy _ IH]; [done|]. cbn. rewrite IH.
  by destruct Hxy as [-> _].
Qed.

(** The loop that moves the children of the folder [fid] to the root. *)
Lemma reparent_children_spec (clock user_id fid : Z) (rows0 : list Folder.t)
    (l : list Folder.t) (d : db) :
  Forall2 rooted_at_most rows0 (folders d) ->
  (forall r, r ∈ folders d -> Folder.parent_id r = Some fid -> r ∈ l) ->
  let d' :=
    foldl (fun d child =>
             let child := Folder.set_parent_id None child in
             log_sync_event clock user_id "folder"
               (Some (Folder.id child)) "update"
               (serialize_folder_for_sync child)
               (flush_folder clock child d)) d l in
  Forall2 rooted_at_most rows0 (folders d')
  /\ (forall r, r ∈ folders d' -> Folder.parent_id r <> Some fid)
  /\ bookmarks d' = bookmarks d /\ log_extends user_id d d'.
Proof.
  revert d. induction l as [|c l IH]; intros d Hrows Hl; cbn [foldl].
  - split; [exact Hrows|]. split; [|split; [done|apply log_extends_refl]].
    intros r Hr Hp. by apply Hl, elem_of_nil in Hp.
  - cbv zeta.
    set (c' := Folder.set_parent_id None c).
    set (d1 := log_sync_event clock user_id "folder" (Some (Folder.id c'))
                 "update" (serialize_folder_for_sync c')
                 (flush_folder clock c' d)).
    destruct (IH d1) as (Hrows' & Hclear & Hbm & Hlog).
    + cbn. apply Forall2_map_r_elem; [exact Hrows|].
      intros x y Hx Hxy.
      destruct (Folder.id y =? Folder.id c) eqn:Hid; [|done].
      destruct (bool_decide (y = c')); [done|].
      apply Z.eqb_eq in Hid. destruct Hxy as (Hi & Hp).
      unfold rooted_at_most. cbn. split; [congruence|by right].
    + intros r Hr Hp. cbn in Hr.
      apply list_elem_of_fmap in Hr as (r0 & -> & Hr0). revert Hp.
      destruct (Folder.id r0 =? Folder.id c) eqn:Hid.
      * destruct (bool_decide_reflect (r0 = c')) as [->|_]; done.
      * intros Hp. specialize (Hl r0 Hr0 Hp).
        apply elem_of_cons in Hl as [->|Hl]; [|done].
        by rewrite Z.eqb_refl in Hid.
    + split; [exact Hrows'|]. split; [exact Hclear|].
      split; [by etrans; [exact Hbm|]|].
      eapply log_extends_trans; [|exact Hlog].
      apply log_extends_log. apply (log_extends_same _ _ d); [done|].
      apply log_extends_refl.
Qed.

Lemma clear_bookmarks_folders (clock user_id : Z) (l : list Bookmark.t)
    (d : db) :
  folders
    (foldl (fun d bookmark =>
              let bookmark := Bookmark.set_folder_id None bookmark in
              log_sync_event clock user_id "bookmark"
                (Some (Bookmark.id bookmark)) "update"
                (serialize_bookmark_for_sync bookmark)
                (flush_bookmark clock bookmark d)) d l)
  = folders d.
Proof.
  revert d. induction l as [|b l IH]; intros d; [done|].
  cbn [foldl]. by rewrite IH.
Qed.


(** ** The folder handlers of the web interface (web/routes.py) *)

Lemma folders_of_elem (user_id : Z) (d : db) (f : Folder.t) :
  f ∈ folders_of user_id d <-> f ∈ folders d /\ Folder.user_id f = user_id.
Proof. unfold folders_of. by rewrite filter_elem, Z.eqb_eq. Qed.

Lemma find_folder_Some (user_id folder_id : Z) (d : db) (f : Folder.t) :
  find_folder user_id folder_id d = Some f ->
  f ∈ folders_of user_id d /\ Folder.id f = folder_id.
Proof.
  unfold find_folder. intros [Hf Hp]%first_Some.
  apply andb_true_iff in Hp as [Hid Hu].
  apply Z.eqb_eq in Hid, Hu. split; [by apply folders_of_elem|done].
Qed.

(** X18. Creating a folder in the web interface keeps the folders of the user
    a forest.  When the folder is created it is one new row at the end of
    the table, of the user, with an id that was not in use and a parent
    that is a folder of the user or none; no id is used twice if none was,
    and the unique constraint on names holds.  Every other answer leaves
    the store as it was. *)
Theorem folders_create_web_keeps_forest `{External} :
  forall (clock user_id : Z) (form_name form_parent_id : option string)
         (payload : Py.dict) (d : db),
    let resp := (folders_create_web clock user_id form_name form_parent_id
                   payload d).1 in
    let d' := (folders_create_web clock user_id form_name form_parent_id
                 payload d).2 in
    match resp with
    | WebCreated folder =>
        folders d' = folders d ++ [folder]
        /\ Folder.user_id folder = user_id
        /\ Folder.name folder <> EmptyString
        /\ (Folder.id folder ∉ map Folder.id (folders d))
        /\ (forall p, Folder.parent_id folder = Some p ->
              p ∈ map Folder.id (folders_of user_id d))
        /\ (forest (folders_of user_id d) -> forest (folders_of user_id d'))
        /\ (NoDup (map Folder.id (folders d)) ->
            NoDup (map Folder.id (folders d')))
        /\ uq_folder_user_name_parent (folders d') = true
        /\ bookmarks d' = bookmarks d
        /\ log_extends user_id d d'
    | WebError _ _ => d' = d
    | WebMoved _ _ => False
    end.
Proof.
  intros clock user_id form_name form_parent_id payload d. cbv zeta.
  unfold folders_create_web.
  set (name := Py.strip _).
  destruct (Py.truthy name) eqn:Hname; cbn [negb]; [|done].
  destruct (_request_optional_parent_id form_parent_id payload)
    as [parent_id|]; [|done].
  destruct (match parent_id with
            | Some p => is_none (find_folder user_id p d)
            | None => false
            end) eqn:Hparent; [done|].
  cbn [add_folder].
  set (folder := Folder.mk _ user_id name parent_id _ _).
  destruct (uq_folder_user_name_parent (folders (with_folders _ d))) eqn:Huq;
    [|done].
  cbn [fst snd log_sync_event folders with_sync_events with_folders
       bookmarks].
  assert (Hfresh : Folder.id folder ∉ map Folder.id (folders d))
    by apply next_id_not_in.
  assert (Hp : forall p, Folder.parent_id folder = Some p ->
                 p ∈ map Folder.id (folders_of user_id d)).
  { intros p Hpp. cbn in Hpp. subst parent_id.
    destruct (find_folder user_id p d) as [g|] eqn:Hg; [|done].
    apply find_folder_Some in Hg as [Hg <-].
    apply list_elem_of_fmap. by exists g. }
  split; [done|]. split; [done|]. split; [by destruct name|].
  split; [exact Hfresh|]. split; [exact Hp|].
  split; [|split; [|split; [|split]]].
  - intros Hforest.
    assert (Hof : folders_of user_id
                    (with_sync_events
                       (sync_events d ++ [SyncEvent.mk
                          (next_id (map SyncEvent.id (sync_events d)))
                          user_id "folder" (Some (Folder.id folder)) "create"
                          (serialize_folder_for_sync folder) (utcnow clock)])
                       (with_folders (folders d ++ [folder]) d))
                  = folders_of user_id d ++ [folder]).
    { unfold folders_of. cbn [folders with_sync_events with_folders].
      rewrite List.filter_app. cbn. by rewrite Z.eqb_refl. }
    unfold log_sync_event. cbn [sync_events with_folders]. rewrite Hof.
    apply forest_extend; [exact Hforest| |exact Hp].
    intros Hin. apply Hfresh.
    apply list_elem_of_fmap in Hin as (g & -> & Hg).
    apply folders_of_elem in Hg as [Hg _]. apply list_elem_of_fmap.
    by exists g.
  - intros Hnd. rewrite map_app. apply NoDup_app. split; [exact Hnd|].
    split; [|apply NoDup_singleton].
    intros i Hi Hnew. apply list_elem_of_singleton in Hnew. by subst i.
  - exact Huq.
  - done.
  - apply log_extends_log. apply (log_extends_same _ _ d); [done|].
    apply log_extends_refl.
Qed.

Lemma by_id_of_lookup (rows : list Folder.t) (k : Z) (r : Folder.t) :
  NoDup (map Folder.id rows) ->
  by_id_of rows !! k = Some r <-> r ∈ rows /\ Folder.id r = k.
Proof.
  unfold by_id_of.
  enough (Hgen : forall (m : gmap Z Folder.t),
            NoDup (map Folder.id rows) ->
            foldl (fun m row => <[Folder.id row := row]> m) m rows !! k
            = Some r
            <-> (r ∈ rows /\ Folder.id r = k)
                \/ ((k ∉ map Folder.id rows) /\ m !! k = Some r)).
  { intros Hnd. rewrite (Hgen ∅ Hnd), lookup_empty. split; [|by left].
    intros [Hr|[_ Hr]]; [exact Hr|discriminate]. }
  induction rows as [|x rows IH]; intros m Hnd; cbn [foldl map].
  - rewrite elem_of_nil. split.
    + intros Hm. right. split; [apply not_elem_of_nil|done].
    + intros [[[] _]|[_ Hm]]. exact Hm.
  - apply NoDup_cons in Hnd as [Hx Hnd]. rewrite (IH _ Hnd).
    rewrite elem_of_cons, not_elem_of_cons. split.
    + intros [[Hr Hid]|[Hk Hm]]; [left; auto|].
      destruct (decide (Folder.id x = k)) as [<-|Hne].
      * rewrite lookup_insert_eq in Hm. injection Hm as <-. left. auto.
      * rewrite lookup_insert_ne in Hm by done. right. auto.
    + intros [[[->|Hr] Hid]|[[Hne Hk] Hm]].
      * right. split; [by rewrite <- Hid|].
        by rewrite <- Hid, lookup_insert_eq.
      * left. auto.
      * right. split; [done|]. by rewrite lookup_insert_ne.
Qed.

Lemma walk_up_None (steps : nat) (by_id : gmap Z Folder.t) (folder_id : Z) :
  walk_up steps by_id folder_id None = Ok false.
Proof. by destruct steps. Qed.

Lemma ancestor_first (rows : list Folder.t) (a b : Z) :
  ancestor rows a b ->
  exists y, parent_edge rows a y /\ (y = b \/ ancestor rows y b).
Proof.
  intros Hab. destruct Hab as [a b Hab | a y b Hay Hyb].
  - exists b. auto.
  - exists y. auto.
Qed.

(** The walk up from a folder says no only when the folder walked to is
    neither the start nor one of its ancestors. *)
Lemma walk_up_false (rows : list Folder.t) (folder_id : Z) :
  NoDup (map Folder.id rows) ->
  folder_id ∈ map Folder.id rows ->
  forall (steps : nat) (c : Folder.t),
    c ∈ rows ->
    walk_up steps (by_id_of rows) folder_id (Some c) = Ok false ->
    Folder.id c <> folder_id /\ ~ ancestor rows (Folder.id c) folder_id.
Proof.
  intros Hnd Hfid. induction steps as [|steps IH]; intros c Hc; cbn;
    [discriminate|].
  destruct (Folder.id c =? folder_id) eqn:Hid; [discriminate|].
  apply Z.eqb_neq in Hid. intros Hwalk. split; [exact Hid|].
  intros Hanc. apply ancestor_first in Hanc as (y & (r & Hr & Hrid & Hp) & Hy).
  assert (r = c) as -> by (by apply (NoDup_fmap_inj Folder.id rows)).
  rewrite Hp in Hwalk. cbn in Hwalk.
  destruct (by_id_of rows !! y) as [c'|] eqn:Hlookup.
  - apply by_id_of_lookup in Hlookup as [Hc' <-]; [|done].
    destruct (IH c' Hc' Hwalk) as [Hne Hno].
    destruct Hy as [Hy|Hy]; [done|]. by apply Hno.
  - assert (Hout : y ∉ map Folder.id rows).
    { intros Hin. apply list_elem_of_fmap in Hin as (g & -> & Hg).
      assert (Hsome : by_id_of rows !! Folder.id g = Some g)
        by (by apply by_id_of_lookup).
      congruence. }
    destruct Hy as [->|Hy]; [done|].
    apply ancestor_first in Hy as (z & (g & Hg & <- & _) & _).
    apply Hout. apply list_elem_of_fmap. by exists g.
Qed.

(** The walk up ends in a table without cycles that has no more rows than
    the walk has steps. *)
Lemma walk_up_fuel (rows : list Folder.t) (folder_id : Z) :
  NoDup (map Folder.id rows) -> acyclic rows ->
  forall (steps : nat) (c : Folder.t) (path : list Z),
    c ∈ rows -> NoDup path -> Folder.id c ∉ path ->
    (forall a, a ∈ path ->
       a ∈ map Folder.id rows /\ ancestor rows a (Folder.id c)) ->
    (length rows < steps + length path + 1)%nat ->
    exists b, walk_up steps (by_id_of rows) folder_id (Some c) = Ok b.
Proof.
  intros Hnd Hacyclic.
  induction steps as [|steps IH]; intros c path Hc Hpath Hfresh Hanc Hlen.
  - exfalso.
    assert (Hle : (length (Folder.id c :: path)
                   <= length (map Folder.id rows))%nat).
    { apply submseteq_length, NoDup_submseteq.
      - by apply NoDup_cons.
      - intros a [->|Ha]%elem_of_cons; [|by apply Hanc].
        apply list_elem_of_fmap. by exists c. }
    rewrite length_map in Hle. cbn in Hle. lia.
  - cbn. destruct (Folder.id c =? folder_id); [by eexists|].
    destruct (Folder.parent_id c) as [p|] eqn:Hp; cbn;
      [|rewrite walk_up_None; by eexists].
    destruct (by_id_of rows !! p) as [c'|] eqn:Hlookup;
      [|rewrite walk_up_None; by eexists].
    apply by_id_of_lookup in Hlookup as [Hc' <-]; [|done].
    assert (Hedge : parent_edge rows (Folder.id c) (Folder.id c'))
      by (by exists c).
    apply (IH c' (Folder.id c :: path)); [done|by apply NoDup_cons| | |].
    + intros [Heq|Hin]%elem_of_cons.
      * apply (Hacyclic (Folder.id c)). apply tc_once. by rewrite Heq in Hedge.
      * apply (Hacyclic (Folder.id c')).
        destruct (Hanc _ Hin) as [_ Ha]. eapply tc_r; [exact Ha|exact Hedge].
    + intros a [->|Ha]%elem_of_cons.
      * split; [|by apply tc_once]. apply list_elem_of_fmap. by exists c.
      * destruct (Hanc a Ha) as [Hin Hac]. split; [exact Hin|].
        eapply tc_r; [exact Hac|exact Hedge].
    + cbn. lia.
Qed.

(** A table that differs from a forest in the parent of one folder, which
    is no ancestor of the new parent, is a forest. *)
Lemma forest_move (rows rows' : list Folder.t) (folder_id : Z)
    (parent_id : option Z) :
  forest rows ->
  (forall r, r ∈ rows' -> Folder.id r <> folder_id -> r ∈ rows) ->
  (forall r, r ∈ rows' -> Folder.id r = folder_id ->
             Folder.parent_id r = parent_id) ->
  (forall k, k ∈ map Folder.id rows -> k ∈ map Folder.id rows') ->
  (forall p, parent_id = Some p ->
             p ∈ map Folder.id rows /\ p <> folder_id
             /\ ~ ancestor rows p folder_id) ->
  forest rows'.
Proof.
  intros [Hparents Hacyclic] Hother Hmoved Hids Htarget. split.
  - intros r p Hr Hp. apply Hids.
    destruct (decide (Folder.id r = folder_id)) as [Hid|Hid].
    + rewrite (Hmoved r Hr Hid) in Hp. by apply Htarget.
    + by apply (Hparents r p (Hother r Hr Hid)).
  - assert (Hedge : forall x y, parent_edge rows' x y -> x <> folder_id ->
                                parent_edge rows x y).
    { intros x y (r & Hr & <- & Hp) Hx. exists r. auto. }
    assert (Hfrom : forall y, parent_edge rows' folder_id y ->
                              parent_id = Some y).
    { intros y (r & Hr & Hid & Hp). by rewrite <- (Hmoved r Hr Hid). }
    assert (Hpath : forall x z, ancestor rows' x z ->
              ancestor rows x z
              \/ ((x = folder_id \/ ancestor rows' x folder_id)
                  /\ ancestor rows' folder_id z)).
    { intros x z Hxz. induction Hxz as [x z Hxz | x y z Hxy Hyz IH].
      - destruct (decide (x = folder_id)) as [->|Hx].
        + right. split; [by left|by apply tc_once].
        + left. apply tc_once. by apply Hedge.
      - destruct (decide (x = folder_id)) as [->|Hx].
        + right. split; [by left|]. by eapply tc_l.
        + destruct IH as [IH|[Hthrough Hrest]].
          * left. eapply tc_l; [by apply Hedge|exact IH].
          * right. split; [|exact Hrest]. right.
            destruct Hthrough as [->|Hthrough]; [by apply tc_once|].
            by eapply tc_l. }
    assert (Hold : forall x z, ancestor rows' x z -> x <> folder_id ->
              ancestor rows x z \/ ancestor rows x folder_id).
    { intros x z Hxz. induction Hxz as [x z Hxz | x y z Hxy Hyz IH];
        intros Hx.
      - left. apply tc_once. by apply Hedge.
      - destruct (decide (y = folder_id)) as [->|Hy].
        + right. apply tc_once. by apply Hedge.
        + destruct (IH Hy) as [IH'|IH'].
          * left. eapply tc_l; [by apply Hedge|exact IH'].
          * right. eapply tc_l; [by apply Hedge|exact IH']. }
    intros a Ha. destruct (Hpath a a Ha) as [Hin|[Hto Hfrom']].
    { by apply (Hacyclic a). }
    assert (Hcycle : ancestor rows' folder_id folder_id).
    { destruct Hto as [->|Hto]; [done|]. by etrans. }
    apply ancestor_first in Hcycle as (p & Hp & Hback).
    apply Hfrom in Hp. destruct (Htarget p Hp) as (_ & Hne & Hno).
    destruct Hback as [Hback|Hback]; [done|].
    destruct (Hold p folder_id Hback Hne); by apply Hno.
Qed.

Section WebMove.
Context `{External}.

(** The table after the move of [folder] under [parent_id]. *)
Lemma flush_moved_folder (clock user_id : Z) (folder : Folder.t)
    (parent_id : option Z) (d : db) :
  folder ∈ folders_of user_id d ->
  let d1 := flush_folder clock (Folder.set_parent_id parent_id folder) d in
  (forall r, r ∈ folders_of user_id d1 -> Folder.id r <> Folder.id folder ->
             r ∈ folders_of user_id d)
  /\ (forall r, r ∈ folders_of user_id d1 -> Folder.id r = Folder.id folder ->
                Folder.parent_id r = parent_id)
  /\ (forall k, k ∈ map Folder.id (folders_of user_id d) ->
                k ∈ map Folder.id (folders_of user_id d1))
  /\ map Folder.id (folders d1) = map Folder.id (folders d).
Proof.
  intros Hfolder d1. apply folders_of_elem in Hfolder as [Hin Hu].
  set (f' := Folder.set_parent_id parent_id folder).
  set (g := fun r => if Folder.id r =? Folder.id f'
                     then if bool_decide (r = f') then r
                          else Folder.set_updated_at (utcnow clock) f'
                     else r).
  assert (Hrows : folders d1 = map g (folders d)) by done.
  assert (Hg : forall r,
            (Folder.id r <> Folder.id folder /\ g r = r)
            \/ (Folder.id r = Folder.id folder
                /\ Folder.id (g r) = Folder.id folder
                /\ Folder.parent_id (g r) = parent_id
                /\ Folder.user_id (g r) = user_id)).
  { intros r. unfold g. change (Folder.id f') with (Folder.id folder).
    destruct (Folder.id r =? Folder.id folder) eqn:Hid.
    - apply Z.eqb_eq in Hid. right. split; [done|].
      destruct (bool_decide_reflect (r = f')) as [->|_]; done.
    - apply Z.eqb_neq in Hid. by left. }
  split; [|split; [|split]].
  - intros r Hr Hid. apply folders_of_elem in Hr as [Hr Hur].
    rewrite Hrows in Hr. apply list_elem_of_fmap in Hr as (r0 & -> & Hr0).
    destruct (Hg r0) as [[_ Heq]|(_ & Hid' & _)]; [|done].
    rewrite Heq in *. by apply folders_of_elem.
  - intros r Hr Hid. apply folders_of_elem in Hr as [Hr Hur].
    rewrite Hrows in Hr. apply list_elem_of_fmap in Hr as (r0 & -> & Hr0).
    destruct (Hg r0) as [[Hne Heq]|(_ & _ & Hp & _)]; [|done].
    rewrite Heq in Hid. done.
  - intros k Hk. apply list_elem_of_fmap in Hk as (r0 & -> & Hr0).
    apply folders_of_elem in Hr0 as [Hr0 Hu0].
    apply list_elem_of_fmap. exists (g r0).
    destruct (Hg r0) as [[_ Heq]|(Hid & Hid' & _ & Hu')].
    + rewrite Heq. split; [done|]. apply folders_of_elem. split; [|done].
      rewrite Hrows. apply list_elem_of_fmap. exists r0. by rewrite Heq.
    + split; [congruence|]. apply folders_of_elem. split; [|done].
      rewrite Hrows. apply list_elem_of_fmap. by exists r0.
  - rewrite Hrows, <- list_fmap_compose. apply list_fmap_ext.
    intros i r _. cbn. destruct (Hg r) as [[_ ->]|(Hid & Hid' & _)]; congruence.
Qed.

End WebMove.

(** X19. Moving a folder in the web interface keeps the folders of the user a
    forest, when no id is used twice: whatever the handler answers, the
    folders of the user are a forest afterwards and the table has the ids
    it had.  When the folder is moved, its row has the parent that was
    asked for and the unique constraint on names holds; every other answer
    leaves the store as it was. *)
Theorem folders_move_web_keeps_forest `{External} :
  forall (steps : nat) (clock user_id folder_id : Z)
         (form_parent_id : option string) (payload : Py.dict) (d : db)
         (resp : web_folder_response) (d' : db),
    NoDup (map Folder.id (folders d)) ->
    forest (folders_of user_id d) ->
    folders_move_web steps clock user_id folder_id form_parent_id payload d
    = Ok (resp, d') ->
    forest (folders_of user_id d')
    /\ map Folder.id (folders d') = map Folder.id (folders d)
    /\ match resp with
       | WebMoved folder true =>
           Folder.id folder = folder_id
           /\ _request_optional_parent_id form_parent_id payload
              = Some (Folder.parent_id folder)
           /\ (forall r, r ∈ folders d' -> Folder.id r = folder_id ->
                         Folder.parent_id r = Folder.parent_id folder)
           /\ uq_folder_user_name_parent (folders d') = true
           /\ bookmarks d' = bookmarks d
           /\ log_extends user_id d d'
       | _ => d' = d
       end.
Proof.
  intros steps clock user_id folder_id form_parent_id payload d resp d'
         Hnd Hforest.
  unfold folders_move_web.
  destruct (find_folder user_id folder_id d) as [folder|] eqn:Hfind;
    [|by intros [= <- <-]].
  apply find_folder_Some in Hfind as [Hfolder Hfid].
  destruct (_request_optional_parent_id form_parent_id payload)
    as [parent_id|]; [|by intros [= <- <-]].
  unfold opt_eqb at 1.
  destruct (bool_decide_reflect (parent_id = Some (Folder.id folder)))
    as [Hself|Hself]; [by intros [= <- <-]|].
  cbv zeta. fold (folders_of user_id d).
  set (U := folders_of user_id d) in *.
  assert (HndU : NoDup (map Folder.id U)) by (by apply NoDup_map_filter).
  destruct (match parent_id with
            | Some p => is_none (by_id_of U !! p)
            | None => false
            end) eqn:Hfound; [by intros [= <- <-]|].
  destruct (walk_up steps (by_id_of U) (Folder.id folder)
              (parent_id ≫= fun p => by_id_of U !! p)) as [inside|] eqn:Hwalk;
    cbn [mbind result_bind]; [|discriminate].
  destruct inside; [by intros [= <- <-]|].
  destruct (opt_eqb (Folder.parent_id folder) parent_id);
    [by intros [= <- <-]|].
  set (folder' := Folder.set_parent_id parent_id folder).
  set (d1 := log_sync_event clock user_id "folder" (Some (Folder.id folder'))
               "update" (serialize_folder_for_sync folder')
               (flush_folder clock folder' d)).
  destruct (uq_folder_user_name_parent (folders d1)) eqn:Huq;
    [|by intros [= <- <-]].
  intros [= <- <-].
  destruct (flush_moved_folder clock user_id folder parent_id d Hfolder)
    as (Hother & Hmoved & Hids & Hsame).
  assert (Hof : folders_of user_id d1
                = folders_of user_id (flush_folder clock folder' d)) by done.
  split; [|split; [exact Hsame|]].
  - rewrite Hof.
    apply (forest_move U _ (Folder.id folder) parent_id Hforest Hother Hmoved
             Hids).
    intros p ->. cbn in Hfound, Hwalk.
    destruct (by_id_of U !! p) as [c|] eqn:Hlookup; [|done].
    apply by_id_of_lookup in Hlookup as [Hc <-]; [|done].
    split; [apply list_elem_of_fmap; by exists c|].
    apply (walk_up_false U (Folder.id folder) HndU) in Hwalk;
      [|apply list_elem_of_fmap; by exists folder|done].
    destruct Hwalk as [Hne Hno]. done.
  - split; [exact Hfid|]. split; [done|]. split; [|split; [exact Huq|]].
    + intros r Hr Hid. cbn [Folder.parent_id Folder.set_updated_at folder'
                           Folder.set_parent_id].
      change (folders d1) with (folders (flush_folder clock folder' d)) in Hr.
      apply list_elem_of_fmap in Hr as (r0 & -> & Hr0). revert Hid.
      change (Folder.id folder') with (Folder.id folder).
      destruct (Folder.id r0 =? Folder.id folder) eqn:Hid0.
      * destruct (bool_decide_reflect (r0 = folder')) as [->|_]; done.
      * apply Z.eqb_neq in Hid0. intros Hid. congruence.
    + split; [done|]. apply log_extends_log.
      apply (log_extends_same _ _ d); [done|]. apply log_extends_refl.
Qed.

Lemma folders_move_web_keeps_forest_witness :
  let d := with_folders [demo_folder 1 1 "A" None;
                         demo_folder 2 1 "B" (Some 1);
                         demo_folder 3 1 "C" None] empty_db in
  let d' := match folders_move_web 3 5 1 3 (Some "2"%string) ∅ d with
            | Ok (_, d') => d'
            | Raise _ => d
            end in
  let moved := Folder.mk 3 1 "C" (Some 2) T0 (utcnow 5) in
  forest (folders_of 1 d')
  /\ map Folder.id (folders d') = map Folder.id (folders d)
  /\ Folder.id moved = 3
  /\ _request_optional_parent_id (Some "2"%string) ∅
     = Some (Folder.parent_id moved)
  /\ (forall r, r ∈ folders d' -> Folder.id r = 3 ->
                Folder.parent_id r = Folder.parent_id moved)
  /\ uq_folder_user_name_parent (folders d') = true
  /\ bookmarks d' = bookmarks d
  /\ log_extends 1 d d'.
Proof.
  intros d d' moved.
  apply (folders_move_web_keeps_forest 3 5 1 3 (Some "2"%string) ∅ d
           (WebMoved moved true) d').
  - vm_compute. repeat constructor; rewrite ?elem_of_cons, elem_of_nil;
      intros Hin; repeat destruct Hin as [Hin|Hin]; try discriminate; done.
  - assert (Hrows : folders_of 1 d = folders d) by reflexivity.
    rewrite Hrows. split.
    + intros f p Hf Hp. cbn in Hf.
      rewrite !elem_of_cons, elem_of_nil in Hf.
      destruct Hf as [-> | [-> | [-> | []]]]; cbn in Hp; try discriminate.
      injection Hp as <-. cbn. apply elem_of_cons. by left.
    + apply acyclic_by_rank. intros f p Hf Hp. cbn in Hf.
      rewrite !elem_of_cons, elem_of_nil in Hf.
      destruct Hf as [-> | [-> | [-> | []]]]; cbn in Hp; try discriminate.
      injection Hp as <-. reflexivity.
  - vm_compute. reflexivity.
Defined.

(** X20. The walk of the move handler up the tree ends: in a store whose ids
    are used once and in which the folders of the user have no cycle, the
    handler answers within as many steps as the user has folders. *)
Theorem folders_move_web_terminates `{External} :
  forall (steps : nat) (clock user_id folder_id : Z)
         (form_parent_id : option string) (payload : Py.dict) (d : db),
    NoDup (map Folder.id (folders d)) ->
    acyclic (folders_of user_id d) ->
    (length (folders_of user_id d) <= steps)%nat ->
    exists resp d',
      folders_move_web steps clock user_id folder_id form_parent_id payload d
      = Ok (resp, d').
Proof.
  intros steps clock user_id folder_id form_parent_id payload d Hnd Hacyclic
         Hlen.
  unfold folders_move_web.
  destruct (find_folder user_id folder_id d) as [folder|]; [|by eexists _, _].
  destruct (_request_optional_parent_id form_parent_id payload)
    as [parent_id|]; [|by eexists _, _].
  destruct (opt_eqb parent_id (Some (Folder.id folder))); [by eexists _, _|].
  cbv zeta. fold (folders_of user_id d).
  set (U := folders_of user_id d) in *.
  assert (HndU : NoDup (map Folder.id U)) by (by apply NoDup_map_filter).
  destruct (match parent_id with
            | Some p => is_none (by_id_of U !! p)
            | None => false
            end); [by eexists _, _|].
  assert (Hwalk : exists b,
            walk_up steps (by_id_of U) (Folder.id folder)
              (parent_id ≫= fun p => by_id_of U !! p) = Ok b).
  { destruct parent_id as [p|]; cbn; [|rewrite walk_up_None; by eexists].
    destruct (by_id_of U !! p) as [c|] eqn:Hlookup;
      [|rewrite walk_up_None; by eexists].
    apply by_id_of_lookup in Hlookup as [Hc _]; [|done].
    apply (walk_up_fuel U (Folder.id folder) HndU Hacyclic steps c []);
      [done|constructor|apply not_elem_of_nil| |cbn; lia].
    intros a Ha. by apply elem_of_nil in Ha. }
  destruct Hwalk as [b ->]. cbn [mbind result_bind].
  destruct b; [by eexists _, _|].
  destruct (opt_eqb (Folder.parent_id folder) parent_id); [by eexists _, _|].
  destruct (uq_folder_user_name_parent _); by eexists _, _.
Qed.

Lemma folders_move_web_terminates_witness :
  let d := with_folders [demo_folder 1 1 "A" None;
                         demo_folder 2 1 "B" (Some 1)] empty_db in
  exists resp d',
    folders_move_web 2 5 1 1 (Some "2"%string) ∅ d = Ok (resp, d').
Proof.
  intros d. apply (folders_move_web_terminates 2 5 1 1 (Some "2"%string) ∅ d).
  - vm_compute. repeat constructor; rewrite ?elem_of_cons, elem_of_nil;
      intros Hin; repeat destruct Hin as [Hin|Hin]; try discriminate; done.
  - assert (Hrows : folders_of 1 d = folders d) by reflexivity.
    rewrite Hrows. apply acyclic_by_rank. intros f p Hf Hp. cbn in Hf.
    rewrite !elem_of_cons, elem_of_nil in Hf.
    destruct Hf as [-> | [-> | []]]; cbn in Hp; try discriminate.
    injection Hp as <-. reflexivity.
  - cbn. lia.
Defined.

(** The move that the API accepts is refused here: folder 1 cannot be moved
    under folder 2, which it contains. *)
Example folders_move_web_refuses_cycle :
  let d := with_folders [demo_folder 1 1 "A" None;
                         demo_folder 2 1 "B" (Some 1)] empty_db in
  folders_move_web 2 5 1 1 (Some "2"%string) ∅ d
  = Ok (WebError 400 "A folder cannot be moved inside its own subtree.", d).
Proof. vm_compute. reflexivity. Qed.

(** ** What the parsers of the local snapshot keep (routes.py) *)

Lemma parse_tags_sorted `{External} (raw : string) :
  StronglySorted (fun a b => String.compare a b = Lt) (parse_tags raw).
Proof.
  unfold parse_tags. destruct (negb (Py.truthy raw)); [constructor|].
  apply sorted_set_sorted.
Qed.

Lemma truthy_not_empty (s : string) : Py.truthy s = true <-> s <> EmptyString.
Proof. by destruct s. Qed.

(** X21. The parser of local bookmarks keeps rows in the order of the body
    and never more than the body has.  Every row it keeps has a URL that is
    not empty and has no white space around it, the normalized form of that
    URL, which is not empty either, an id, a title and a folder id that are
    absent rather than empty, notes in normalized form, tags in strictly
    ascending order, and a folder path without empty parts. *)
Theorem parse_local_bookmarks_clean `{External} :
  forall rows : list Py.dict,
    (length (_parse_local_bookmarks rows) <= length rows)%nat
    /\ Forall
         (fun item =>
            LocalBookmark.url item <> EmptyString
            /\ Py.strip (LocalBookmark.url item) = LocalBookmark.url item
            /\ LocalBookmark.normalized_url item
               = normalize_url (LocalBookmark.url item)
            /\ LocalBookmark.normalized_url item <> EmptyString
            /\ LocalBookmark.id item <> Some EmptyString
            /\ LocalBookmark.title item <> Some EmptyString
            /\ LocalBookmark.folder_local_id item <> Some EmptyString
            /\ _normalize_notes_value (LocalBookmark.notes item)
               = LocalBookmark.notes item
            /\ StronglySorted (fun a b => String.compare a b = Lt)
                 (LocalBookmark.tags item)
            /\ Forall (fun part => part <> EmptyString
                                   /\ Py.strip part = part)
                      (LocalBookmark.folder_path item))
         (_parse_local_bookmarks rows).
Proof.
  intros rows. split.
  { unfold _parse_local_bookmarks. induction rows as [|raw rows IH]; [done|].
    cbn. destruct (parse_local_bookmark raw); cbn; lia. }
  apply Forall_forall. intros item Hitem.
  apply list_elem_of_omap in Hitem as (raw & _ & Hparse).
  unfold parse_local_bookmark in Hparse.
  set (url := Py.strip (Py.or_empty (Py.as_str (Py.get raw "url")))) in *.
  destruct (Py.truthy url) eqn:Hurl; [|discriminate].
  destruct (Py.truthy (normalize_url url)) eqn:Hnorm; [|discriminate].
  cbn [negb] in Hparse. injection Hparse as <-.
  cbn [LocalBookmark.url LocalBookmark.normalized_url LocalBookmark.id
       LocalBookmark.title LocalBookmark.folder_local_id LocalBookmark.notes
       LocalBookmark.tags LocalBookmark.folder_path].
  split; [by apply truthy_not_empty|]. split; [apply strip_idemp|].
  split; [done|]. split; [by apply truthy_not_empty|].
  split.
  { match goal with |- context [Py.truthy ?t] => destruct t end; done. }
  split.
  { match goal with |- context [Py.truthy ?t] => destruct t end; done. }
  split; [apply local_ref_not_empty|].
  split; [apply normalize_notes_value_fixed|].
  split; [destruct (Py.get raw "tags"); apply parse_tags_sorted|].
  apply Forall_forall. intros part Hpart.
  apply filter_elem in Hpart as [Hpart Ht].
  apply list_elem_of_fmap in Hpart as (p0 & -> & _).
  split; [by apply truthy_not_empty|apply strip_idemp].
Qed.


(** ** Bearer tokens (security.py, [_user_from_bearer_token]) *)

(** X23. A request is authenticated by its bearer token only when the header
    starts with [Bearer ] and the first token row with the hash of the
    token is not revoked; the user is the one of that row.  A request that
    is not authenticated writes nothing; one that is changes nothing but
    the time of last use in the token table.  A token whose rows are all
    revoked never authenticates. *)
Theorem bearer_token_authentication `{External} :
  forall (clock : Z) (auth_header : string) (d : db),
    let token := Py.strip (removeprefix "Bearer " auth_header) in
    let r := _user_from_bearer_token clock auth_header d in
    match r.1 with
    | None => r.2 = d
    | Some user_id =>
        String.prefix "Bearer " auth_header = true
        /\ token <> EmptyString
        /\ (exists row,
              first (fun t => String.eqb (ApiToken.token_hash t)
                                         (sha256_hexdigest token))
                    (api_tokens d) = Some row
              /\ ApiToken.user_id row = user_id
              /\ ApiToken.revoked_at row = None)
        /\ same_sync_tables d r.2
        /\ Forall2 (fun t t' =>
                      ApiToken.id t' = ApiToken.id t
                      /\ ApiToken.user_id t' = ApiToken.user_id t
                      /\ ApiToken.name t' = ApiToken.name t
                      /\ ApiToken.token_hash t' = ApiToken.token_hash t
                      /\ ApiToken.revoked_at t' = ApiToken.revoked_at t)
                   (api_tokens d) (api_tokens r.2)
    end
    /\ ((forall row, row ∈ api_tokens d ->
           ApiToken.token_hash row = sha256_hexdigest token ->
           ApiToken.revoked_at row <> None) ->
        r.1 = None).
Proof.
  intros clock auth_header d token r.
  assert (Hmain :
            match r.1 with
            | None => r.2 = d
            | Some user_id =>
                String.prefix "Bearer " auth_header = true
                /\ token <> EmptyString
                /\ (exists row,
                      first (fun t => String.eqb (ApiToken.token_hash t)
                                                 (sha256_hexdigest token))
                            (api_tokens d) = Some row
                      /\ ApiToken.user_id row = user_id
                      /\ ApiToken.revoked_at row = None)
                /\ same_sync_tables d r.2
                /\ Forall2 (fun t t' =>
                              ApiToken.id t' = ApiToken.id t
                              /\ ApiToken.user_id t' = ApiToken.user_id t
                              /\ ApiToken.name t' = ApiToken.name t
                              /\ ApiToken.token_hash t'
                                 = ApiToken.token_hash t
                              /\ ApiToken.revoked_at t'
                                 = ApiToken.revoked_at t)
                           (api_tokens d) (api_tokens r.2)
            end).
  { subst r. unfold _user_from_bearer_token. fold token.
    destruct (String.prefix "Bearer " auth_header) eqn:Hprefix;
      cbn [negb]; [|done].
    destruct (Py.truthy token) eqn:Htoken; cbn [negb]; [|done].
    destruct (first _ (api_tokens d)) as [row|] eqn:Hrow; [|done].
    destruct (ApiToken.revoked_at row) as [t|] eqn:Hrev; cbn [is_none negb];
      [done|].
    cbn [fst snd]. split; [done|]. split; [by apply truthy_not_empty|].
    split; [by exists row|]. split; [done|].
    cbn [api_tokens with_api_tokens]. clear Hrow.
    induction (api_tokens d) as [|x l IH]; cbn; constructor; [|exact IH].
    by destruct (ApiToken.id x =? ApiToken.id row). }
  split; [exact Hmain|].
  intros Hrevoked. destruct (r.1) as [user_id|]; [|done].
  destruct Hmain as (_ & _ & (row & Hrow & _ & Hrev) & _).
  apply first_Some in Hrow as [Hin Hhash].
  apply String.eqb_eq in Hhash. by destruct (Hrevoked row Hin Hhash).
Qed.

(** ** Stop requests (dead_link_jobs.py) *)

(** X24. A request to stop a job is granted exactly when the job is a job of
    the user that is [pending] or [running]; it is then recorded for that
    job.  It never writes the job table, and it touches neither the stop
    flag nor the runtime state of any other job; a request that is not
    granted changes nothing.  Clearing the runtime of the job removes the
    stop request and the runtime state of that job, and of no other. *)
Theorem stop_request_affects_one_job :
  forall (job_id user_id : Z) (w : job_world),
    let granted := (request_dead_link_job_stop job_id user_id w).1 in
    let w' := (request_dead_link_job_stop job_id user_id w).2 in
    (granted = true <->
     exists job,
       first (fun j => (DeadLinkJob.id j =? job_id)
                       && (DeadLinkJob.user_id j =? user_id))
             (dead_link_jobs w) = Some job
       /\ DeadLinkJob.status job ∈ ["pending"; "running"]%string)
    /\ (granted = true -> _stop_requested job_id w' = true)
    /\ (granted = false -> w' = w)
    /\ dead_link_jobs w' = dead_link_jobs w
    /\ (forall other, other <> job_id ->
          _stop_requested other w' = _stop_requested other w
          /\ _RUNTIME_STATE w' !! other = _RUNTIME_STATE w !! other)
    /\ _stop_requested job_id (clear_dead_link_job_runtime job_id w') = false
    /\ _RUNTIME_STATE (clear_dead_link_job_runtime job_id w') !! job_id = None
    /\ (forall other, other <> job_id ->
          _stop_requested other (clear_dead_link_job_runtime job_id w')
          = _stop_requested other w'
          /\ _RUNTIME_STATE (clear_dead_link_job_runtime job_id w') !! other
             = _RUNTIME_STATE w' !! other).
Proof.
  intros job_id user_id w. cbv zeta.
  assert (Hclear : forall w0,
            _stop_requested job_id (clear_dead_link_job_runtime job_id w0)
            = false
            /\ _RUNTIME_STATE (clear_dead_link_job_runtime job_id w0) !! job_id
               = None
            /\ (forall other, other <> job_id ->
                  _stop_requested other (clear_dead_link_job_runtime job_id w0)
                  = _stop_requested other w0
                  /\ _RUNTIME_STATE (clear_dead_link_job_runtime job_id w0)
                       !! other
                     = _RUNTIME_STATE w0 !! other)).
  { intros w0. unfold _stop_requested, clear_dead_link_job_runtime. cbn.
    split; [|split].
    - apply bool_decide_eq_false_2. intros Hin.
      apply elem_of_difference in Hin as [_ Hin]. apply Hin.
      by apply elem_of_singleton.
    - apply lookup_delete_eq.
    - intros other Hother. split; [|by apply lookup_delete_ne].
      apply bool_decide_ext. rewrite elem_of_difference, elem_of_singleton.
      tauto. }
  destruct (Hclear (request_dead_link_job_stop job_id user_id w).2)
    as (Hc1 & Hc2 & Hc3).
  repeat match goal with |- _ /\ _ => split end;
    try exact Hc1; try exact Hc2; try exact Hc3; clear Hc1 Hc2 Hc3 Hclear.
  - split.
    + unfold request_dead_link_job_stop.
      destruct (first _ (dead_link_jobs w)) as [job|] eqn:Hjob;
        [|cbn; discriminate].
      destruct (bool_decide_reflect
                  (DeadLinkJob.status job ∈ ["pending"; "running"]%string))
        as [Hst|Hst]; cbn; [|discriminate].
      intros _. by exists job.
    + intros (job & Hjob & Hst). unfold request_dead_link_job_stop.
      rewrite Hjob. by rewrite (bool_decide_eq_true_2 _ Hst).
  - unfold request_dead_link_job_stop.
    destruct (first _ (dead_link_jobs w)) as [job|]; [|discriminate].
    destruct (bool_decide _); cbn [negb fst snd]; [|discriminate].
    intros _. unfold _stop_requested. cbn. apply bool_decide_eq_true_2.
    apply elem_of_union_l. by apply elem_of_singleton.
  - unfold request_dead_link_job_stop.
    destruct (first _ (dead_link_jobs w)) as [job|]; [|done].
    destruct (bool_decide _); cbn [negb fst snd]; [discriminate|done].
  - unfold request_dead_link_job_stop.
    destruct (first _ (dead_link_jobs w)) as [job|]; [|done].
    by destruct (bool_decide _).
  - intros other Hother. unfold request_dead_link_job_stop.
    destruct (first _ (dead_link_jobs w)) as [job|]; [|done].
    destruct (bool_decide (DeadLinkJob.status job ∈ _));
      cbn [negb fst snd]; [|done].
    split.
    + unfold _stop_requested. cbn. apply bool_decide_ext.
      rewrite elem_of_union, elem_of_singleton. split; [|auto].
      intros [Heq|Hin]; [congruence|done].
    + cbn. by rewrite lookup_insert_ne.
Qed.

(** ** Deleting every folder of a user (routes.py,
       [_delete_server_folder_tree]) *)

Lemma walked_refl (rows : list Folder.t) (st : gset Z * list Folder.t) :
  walked rows st st.
Proof.
  exists []. rewrite app_nil_r. split; [done|]. split.
  - cbn. by rewrite union_empty_r_L.
  - split; constructor.
Qed.

Lemma walked_trans (rows : list Folder.t) (s1 s2 s3 : gset Z * list Folder.t) :
  walked rows s1 s2 -> walked rows s2 s3 -> walked rows s1 s3.
Proof.
  intros (a1 & Hl1 & Hv1 & Hnd1 & Ha1) (a2 & Hl2 & Hv2 & Hnd2 & Ha2).
  rewrite Forall_forall in Ha1, Ha2.
  exists (a1 ++ a2). split; [by rewrite Hl2, Hl1, app_assoc|]. split.
  - rewrite Hv2, Hv1, map_app, list_to_set_app_L. by rewrite union_assoc_L.
  - split.
    + rewrite map_app. apply NoDup_app. split; [exact Hnd1|].
      split; [|exact Hnd2]. intros i Hi1 Hi2.
      apply list_elem_of_fmap in Hi2 as (x & -> & Hx).
      destruct (Ha2 x Hx) as [Hnot _]. apply Hnot. rewrite Hv1.
      apply elem_of_union_r. by apply elem_of_list_to_set.
    + apply Forall_forall. intros x Hx.
      apply elem_of_app in Hx as [Hx|Hx]; [by apply Ha1|].
      destruct (Ha2 x Hx) as [Hnot Hrow]. split; [|exact Hrow].
      intros Hin. apply Hnot. rewrite Hv1. by apply elem_of_union_l.
Qed.

Lemma walked_subseteq (rows : list Folder.t) (st st' : gset Z * list Folder.t) :
  walked rows st st' -> st.1 ⊆ st'.1.
Proof. intros (a & _ & -> & _). apply union_subseteq_l. Qed.

(** A loop of calls of [walk], given what one call does. *)
Lemma rfold_walked (depth : nat) (rows : list Folder.t) :
  (forall folder st st',
     folder ∈ rows -> walk depth rows folder st = Ok st' ->
     walked rows st st' /\ Folder.id folder ∈ st'.1) ->
  forall l st st',
    (forall x, x ∈ l -> x ∈ rows) ->
    rfold (fun st x => walk depth rows x st) st l = Ok st' ->
    walked rows st st' /\ forall x, x ∈ l -> Folder.id x ∈ st'.1.
Proof.
  intros Hwalk. induction l as [|x l IH]; intros st st' Hrows; cbn.
  - intros [= <-]. split; [apply walked_refl|].
    intros x Hx. by apply elem_of_nil in Hx.
  - destruct (walk depth rows x st) as [s1|e] eqn:Hx; cbn; [|discriminate].
    intros Hrest.
    destruct (Hwalk x st s1) as [Hw1 Hin1]; [apply Hrows; by left|done|].
    destruct (IH s1 st') as [Hw2 Hin2];
      [intros y Hy; apply Hrows; by right|done|].
    split; [by eapply walked_trans|]. intros y Hy.
    apply elem_of_cons in Hy as [->|Hy]; [|by apply Hin2].
    by apply (walked_subseteq _ _ _ Hw2).
Qed.

Lemma children_rows (rows : list Folder.t) (i : Z) (x : Folder.t) :
  x ∈ List.filter (fun c => opt_eqb (Folder.parent_id c) (Some i)) rows ->
  x ∈ rows.
Proof. intros Hx. by apply filter_elem in Hx as [Hx _]. Qed.

Lemma walk_spec (rows : list Folder.t) :
  forall (depth : nat) (folder : Folder.t) (st st' : gset Z * list Folder.t),
    folder ∈ rows -> walk depth rows folder st = Ok st' ->
    walked rows st st' /\ Folder.id folder ∈ st'.1.
Proof.
  induction depth as [|depth IH]; intros folder st st' Hrow; cbn [walk];
    [discriminate|].
  destruct (bool_decide_reflect (Folder.id folder ∈ st.1)) as [Hin|Hnot].
  - intros [= <-]. split; [apply walked_refl|exact Hin].
  - destruct (rfold _ _ _) as [s1|e] eqn:Hloop; cbn [mbind result_bind];
      [|discriminate].
    intros [= <-].
    apply (rfold_walked depth rows IH) in Hloop as [(a & Hl & Hv & Hnd & Ha) _];
      [|intros x; apply children_rows].
    cbn [fst snd] in *. rewrite Forall_forall in Ha. split.
    + exists (a ++ [folder]). cbn [fst snd]. split; [by rewrite Hl, app_assoc|].
      split.
      { rewrite Hv, map_app, list_to_set_app_L. cbn.
        rewrite union_empty_r_L.
        rewrite (union_comm_L {[Folder.id folder]} st.1).
        by rewrite <- !union_assoc_L,
             (union_comm_L {[Folder.id folder]} (list_to_set _)). }
      split.
      { rewrite map_app. apply NoDup_app. split; [exact Hnd|]. split.
        - intros i Hi Hf. apply list_elem_of_singleton in Hf as ->.
          apply list_elem_of_fmap in Hi as (x & Hid & Hx).
          destruct (Ha x Hx) as [Hfresh _]. apply Hfresh. rewrite <- Hid.
          apply elem_of_union_l. by apply elem_of_singleton.
        - cbn. apply NoDup_singleton. }
      apply Forall_forall. intros x Hx. apply elem_of_app in Hx as [Hx|Hx].
      * destruct (Ha x Hx) as [Hfresh Hr]. split; [|exact Hr].
        intros Hin. apply Hfresh. by apply elem_of_union_r.
      * apply list_elem_of_singleton in Hx as ->. done.
    + rewrite Hv. apply elem_of_union_l, elem_of_union_l.
      by apply elem_of_singleton.
Qed.

(** A loop whose every round returns, under an invariant, returns. *)
Lemma rfold_total {A S} (f : S -> A -> result S) (Q : S -> Prop)
    (l : list A) :
  (forall x s, x ∈ l -> Q s -> exists s', f s x = Ok s' /\ Q s') ->
  forall s, Q s -> exists s', rfold f s l = Ok s' /\ Q s'.
Proof.
  induction l as [|x l IH]; intros Hstep s Hs; cbn.
  - by exists s.
  - destruct (Hstep x s) as (s1 & -> & Hs1); [by left|done|]. cbn.
    apply IH; [|done]. intros y t Hy. apply Hstep. by right.
Qed.

(** The walk marks a folder before it descends, so it goes no deeper than
    there are ids left to mark: it returns on any table, cyclic or not. *)
Lemma walk_fuel (rows : list Folder.t) :
  forall (depth : nat) (folder : Folder.t) (st : gset Z * list Folder.t),
    folder ∈ rows ->
    (size (list_to_set (map Folder.id rows) ∖ st.1 : gset Z) < depth)%nat ->
    exists st', walk depth rows folder st = Ok st'.
Proof.
  induction depth as [|depth IH]; intros folder st Hrow Hsize; [lia|].
  cbn [walk].
  destruct (bool_decide_reflect (Folder.id folder ∈ st.1)) as [Hin|Hnot];
    [by eexists|].
  set (ids := list_to_set (map Folder.id rows) : gset Z) in *.
  set (st0 := ({[Folder.id folder]} ∪ st.1, st.2)).
  assert (Hless : (size (ids ∖ st0.1) < depth)%nat).
  { assert (Hsub : ids ∖ st0.1 ⊂ ids ∖ st.1).
    { split.
      - intros i Hi. apply elem_of_difference in Hi as [Hi Hn].
        apply elem_of_difference. split; [exact Hi|]. intros Hs. apply Hn.
        by apply elem_of_union_r.
      - intros Hsub. specialize (Hsub (Folder.id folder)).
        assert (Hf : Folder.id folder ∈ ids ∖ st.1).
        { apply elem_of_difference. split; [|exact Hnot].
          apply elem_of_list_to_set, list_elem_of_fmap. by exists folder. }
        apply Hsub in Hf. apply elem_of_difference in Hf as [_ Hf].
        apply Hf. apply elem_of_union_l. by apply elem_of_singleton. }
    apply subset_size in Hsub. lia. }
  destruct (rfold_total (fun st child => walk depth rows child st)
              (fun s => st0.1 ⊆ s.1)
              (List.filter (fun c => opt_eqb (Folder.parent_id c)
                                             (Some (Folder.id folder))) rows))
    with (s := st0) as (s1 & -> & _); [| done | by eexists].
  intros x s Hx Hs. apply children_rows in Hx.
  destruct (IH x s Hx) as (s' & Hs').
  - assert (Hsub : ids ∖ s.1 ⊆ ids ∖ st0.1).
    { intros i Hi. apply elem_of_difference in Hi as [Hi Hn].
      apply elem_of_difference. split; [exact Hi|]. intros Hin. apply Hn.
      by apply Hs. }
    apply subseteq_size in Hsub. lia.
  - exists s'. split; [exact Hs'|].
    apply walk_spec in Hs' as [Hw _]; [|exact Hx].
    etrans; [exact Hs|]. by apply (walked_subseteq rows).
Qed.

(** The loop that logs and deletes the folders in order. *)
Lemma delete_ordered_spec (clock user_id : Z) (ordered : list Folder.t) :
  forall d : db,
    let d' :=
      foldl (fun d folder =>
               delete_folder folder
                 (log_sync_event clock user_id "folder"
                    (Some (Folder.id folder)) "delete"
                    (serialize_folder_for_sync folder) d))
            d ordered in
    folders d'
    = List.filter (fun f => negb (bool_decide
                                    (Folder.id f ∈ map Folder.id ordered)))
                  (folders d)
    /\ bookmarks d' = bookmarks d /\ tags d' = tags d
    /\ bookmark_content d' = bookmark_content d
    /\ sync_clients d' = sync_clients d /\ api_tokens d' = api_tokens d
    /\ log_extends user_id d d'
    /\ map (fun e => (SyncEvent.entity_type e, SyncEvent.entity_id e,
                      SyncEvent.action e))
           (drop (length (sync_events d)) (sync_events d'))
       = map (fun f => ("folder"%string, Some (Folder.id f), "delete"%string))
             ordered.
Proof.
  induction ordered as [|x l IH]; intros d; cbn [foldl].
  - cbv zeta. split.
    { induction (folders d) as [|f fs IHf]; [done|]. cbn [List.filter].
      rewrite bool_decide_eq_false_2; [|by intros H%elem_of_nil].
      cbn [negb]. by rewrite <- IHf. }
    repeat (split; [done|]). split; [apply log_extends_refl|].
    by rewrite drop_all.
  - set (d1 := delete_folder x _).
    destruct (IH d1) as (Hf & Hb & Ht & Hc & Hs & Ha & Hl & He).
    cbv zeta. split.
    { rewrite Hf. subst d1. unfold delete_folder, log_sync_event. cbn.
      clear. induction (folders d) as [|f fs IHf]; [done|]. cbn.
      destruct (Z.eqb_spec (Folder.id f) (Folder.id x)) as [Heq|Hne]; cbn.
      - rewrite (bool_decide_eq_true_2 (Folder.id f ∈ _ :: _));
          [|rewrite Heq; by left]. cbn. exact IHf.
      - destruct (bool_decide_reflect (Folder.id f ∈ map Folder.id l))
          as [Hin|Hnot].
        + rewrite (bool_decide_eq_true_2 (Folder.id f ∈ _ :: _));
            [|by right]. cbn. exact IHf.
        + rewrite (bool_decide_eq_false_2 (Folder.id f ∈ _ :: _)).
          * cbn. by rewrite IHf.
          * intros Hin. apply elem_of_cons in Hin as [Hin|Hin]; done. }
    repeat (split; [by etrans; [eassumption|]|]). split.
    { eapply log_extends_trans; [|exact Hl]. subst d1.
      eapply log_extends_same; [|apply log_extends_log, log_extends_refl].
      done. }
    assert (Hd1 : sync_events d1
                  = sync_events d
                    ++ [SyncEvent.mk
                          (next_id (map SyncEvent.id (sync_events d)))
                          user_id "folder" (Some (Folder.id x)) "delete"
                          (serialize_folder_for_sync x) (utcnow clock)])
      by reflexivity.
    destruct Hl as (added & Hadd & _).
    rewrite Hadd, Hd1, <- app_assoc, drop_app_length. cbn. f_equal.
    rewrite Hadd, Hd1, drop_app_length in He. exact He.
Qed.

Section DeleteServerTree.
Context `{External}.

(** The two loops over the roots and over all folders put every folder in
    the order of deletion once. *)
Lemma walk_all_spec (rows : list Folder.t) :
  NoDup (map Folder.id rows) ->
  (length rows < recursion_limit)%nat ->
  exists st1 st2,
    rfold (fun st root => walk recursion_limit rows root st) (∅, [])
          (List.filter (fun c => is_none (Folder.parent_id c)) rows) = Ok st1
    /\ rfold (fun st folder => walk recursion_limit rows folder st) st1 rows
       = Ok st2
    /\ st2.2 ≡ₚ rows.
Proof.
  intros Hnd Hlen.
  assert (Hfuel : forall x s, x ∈ rows ->
            exists s', walk recursion_limit rows x s = Ok s').
  { intros x s Hx. apply walk_fuel; [exact Hx|].
    eapply Nat.le_lt_trans; [|exact Hlen].
    etrans; [apply subseteq_size, subseteq_difference_l; reflexivity|].
    rewrite size_list_to_set by exact Hnd. by rewrite length_map. }
  destruct (rfold_total
              (fun st root => walk recursion_limit rows root st)
              (fun _ => True)
              (List.filter (fun c => is_none (Folder.parent_id c)) rows))
    with (s := (∅ : gset Z, [] : list Folder.t)) as (st1 & H1 & _); [|done|].
  { intros x s Hx _. apply filter_elem in Hx as [Hx _].
    destruct (Hfuel x s Hx) as (s' & Hs'). by exists s'. }
  destruct (rfold_total
              (fun st folder => walk recursion_limit rows folder st)
              (fun _ => True) rows) with (s := st1) as (st2 & H2 & _); [|done|].
  { intros x s Hx _. destruct (Hfuel x s Hx) as (s' & Hs'). by exists s'. }
  exists st1, st2. split; [exact H1|]. split; [exact H2|].
  apply (rfold_walked _ _ (walk_spec rows recursion_limit)) in H1 as [Hw1 _];
    [|by intros x Hx; apply filter_elem in Hx as [Hx _]].
  apply (rfold_walked _ _ (walk_spec rows recursion_limit)) in H2
    as [Hw2 Hall]; [|done].
  destruct (walked_trans _ _ _ _ Hw1 Hw2) as (added & Hl & Hv & Hnda & Ha).
  cbn [fst snd app] in Hl, Hv, Ha. rewrite Hl. rewrite Forall_forall in Ha.
  apply NoDup_Permutation.
  - eapply NoDup_fmap_1. exact Hnda.
  - eapply NoDup_fmap_1. exact Hnd.
  - intros x. split; [intros Hx; by apply Ha|]. intros Hx.
    specialize (Hall x Hx). rewrite Hv in Hall.
    apply elem_of_union in Hall as [Hall|Hall];
      [by apply elem_of_empty in Hall|].
    apply elem_of_list_to_set, list_elem_of_fmap in Hall as (y & Hid & Hy).
    destruct (Ha y Hy) as [_ Hyrow].
    by rewrite (NoDup_fmap_inj Folder.id rows x y Hnd Hx Hyrow Hid).
Qed.

(** The function returns, with the folders of the user in some order. *)
Lemma delete_server_folder_tree_returns (clock user_id : Z) (d : db) :
  NoDup (map Folder.id (folders d)) ->
  (length (folders_of user_id d) < recursion_limit)%nat ->
  exists ordered : list Folder.t,
    ordered ≡ₚ folders_of user_id d
    /\ _delete_server_folder_tree clock user_id d
       = Ok (Z.of_nat (length ordered),
             foldl (fun d folder =>
                      delete_folder folder
                        (log_sync_event clock user_id "folder"
                           (Some (Folder.id folder)) "delete"
                           (serialize_folder_for_sync folder) d))
                   d ordered).
Proof.
  intros Hnd Hlen.
  destruct (walk_all_spec (folders_of user_id d))
    as (st1 & st2 & H1 & H2 & Hperm);
    [by apply NoDup_map_filter|exact Hlen|].
  exists st2.2. split; [exact Hperm|].
  unfold _delete_server_folder_tree. cbv zeta.
  change (List.filter (fun f => Folder.user_id f =? user_id) (folders d))
    with (folders_of user_id d).
  destruct (folders_of user_id d) as [|r rows] eqn:Hrows.
  - cbn in H1. injection H1 as <-. cbn in H2. injection H2 as <-. done.
  - rewrite H1. cbn [mbind result_bind]. by rewrite H2.
Qed.


End DeleteServerTree.


(** ** The recycle bin (api/routes.py) *)

Lemma find_bookmark_Some (user_id bookmark_id : Z) (d : db) (b : Bookmark.t) :
  find_bookmark user_id bookmark_id d = Some b ->
  b ∈ bookmarks d /\ Bookmark.id b = bookmark_id
  /\ Bookmark.user_id b = user_id.
Proof.
  intros Hb. apply first_Some in Hb as [Hin Hp].
  apply andb_true_iff in Hp as [Hi Hu].
  apply Z.eqb_eq in Hi. by apply Z.eqb_eq in Hu.
Qed.

Lemma first_replaced (p : Bookmark.t -> bool) (i : Z) (b row : Bookmark.t)
    (l : list Bookmark.t) :
  first p l = Some b -> Bookmark.id b = i -> p row = true ->
  first p (map (fun r => if Bookmark.id r =? i then row else r) l) = Some row.
Proof.
  intros Hb Hi Hrow. unfold first in *.
  induction l as [|r l IH]; [discriminate|]. cbn in *.
  destruct (Z.eqb_spec (Bookmark.id r) i) as [Hr|Hr].
  - by rewrite Hrow.
  - destruct (p r) eqn:Hp; [|by apply IH].
    injection Hb as ->. contradiction.
Qed.

(** What a handler that sets or clears the deletion marks of a bookmark
    does to the store. *)
Lemma set_deleted_spec (clock user_id bookmark_id : Z)
    (at_ : option datetime) (by_ : option Z) (action : string) (d : db)
    (b : Bookmark.t) :
  NoDup (map Bookmark.id (bookmarks d)) ->
  find_bookmark user_id bookmark_id d = Some b ->
  let b' := Bookmark.set_deleted at_ by_ b in
  let row := if bool_decide (b = b') then b
             else Bookmark.set_updated_at (utcnow clock) b' in
  let d' := log_sync_event clock user_id "bookmark" (Some (Bookmark.id b'))
              action (serialize_bookmark_for_sync b')
              (flush_bookmark clock b' d) in
  bookmarks d'
  = map (fun r => if Bookmark.id r =? bookmark_id then row else r)
        (bookmarks d)
  /\ find_bookmark user_id bookmark_id d' = Some row
  /\ refreshed b' d' = row
  /\ NoDup (map Bookmark.id (bookmarks d'))
  /\ Bookmark.deleted_at row = at_ /\ Bookmark.deleted_by row = by_
  /\ logged action "bookmark" bookmark_id d d'
  /\ folders d' = folders d /\ tags d' = tags d
  /\ bookmark_content d' = bookmark_content d
  /\ sync_clients d' = sync_clients d /\ api_tokens d' = api_tokens d.
Proof.
  intros Hnd Hb b' row d'.
  destruct (find_bookmark_Some _ _ _ _ Hb) as (Hin & Hid & Huser).
  assert (Hrow_id : Bookmark.id row = bookmark_id).
  { subst row. by destruct (bool_decide (b = b')). }
  assert (Hrow_user : Bookmark.user_id row = user_id).
  { subst row. by destruct (bool_decide (b = b')). }
  assert (Hrows : bookmarks d'
                  = map (fun r => if Bookmark.id r =? bookmark_id then row
                                  else r) (bookmarks d)).
  { subst d'. unfold log_sync_event, flush_bookmark.
    cbn [bookmarks with_bookmarks with_sync_events].
    apply list_eq_Forall2, Forall2_fmap, Forall_Forall2_diag, Forall_forall.
    intros r Hr. change (Bookmark.id b') with (Bookmark.id b). rewrite Hid.
    destruct (Z.eqb_spec (Bookmark.id r) bookmark_id) as [Hri|Hri]; [|done].
    assert (r = b) as ->
      by (apply (NoDup_fmap_inj Bookmark.id (bookmarks d)); congruence).
    done. }
  split; [exact Hrows|]. split.
  { unfold find_bookmark. rewrite Hrows.
    apply (first_replaced _ bookmark_id b); [exact Hb|exact Hid|].
    rewrite Hrow_id, Hrow_user, !Z.eqb_refl. done. }
  split.
  { unfold refreshed. rewrite Hrows.
    change (Bookmark.id b') with (Bookmark.id b). rewrite Hid.
    erewrite (first_replaced _ bookmark_id b); [done| |exact Hid|].
    - unfold first. apply first_Some in Hb as [_ Hp].
      apply andb_true_iff in Hp as [Hp _].
      clear -Hin Hnd Hid. induction (bookmarks d) as [|r l IH];
        [by apply elem_of_nil in Hin|].
      cbn in *. apply NoDup_cons in Hnd as [Hr Hnd].
      destruct (Z.eqb_spec (Bookmark.id r) bookmark_id) as [Hri|Hri].
      + apply elem_of_cons in Hin as [->|Hin]; [done|].
        destruct Hr. rewrite Hri, <- Hid. apply list_elem_of_fmap.
        by exists b.
      + apply elem_of_cons in Hin as [->|Hin]; [done|]. by apply IH.
    - by rewrite Hrow_id, Z.eqb_refl. }
  split.
  { rewrite Hrows.
    replace (map Bookmark.id (map _ (bookmarks d)))
      with (map Bookmark.id (bookmarks d)); [exact Hnd|].
    rewrite map_map. apply map_ext. intros r.
    destruct (Z.eqb_spec (Bookmark.id r) bookmark_id); congruence. }
  assert (Hmarks : Bookmark.deleted_at row = at_
                   /\ Bookmark.deleted_by row = by_).
  { subst row. destruct (bool_decide_reflect (b = b')) as [Heq|_]; [|done].
    rewrite Heq. done. }
  destruct Hmarks as [Hat Hby]. split; [exact Hat|]. split; [exact Hby|].
  split; [|done]. eexists. split; [reflexivity|]. cbn. by rewrite Hid.
Qed.

Lemma set_deleted_None (b : Bookmark.t) :
  Bookmark.deleted_at b = None -> Bookmark.deleted_by b = None ->
  Bookmark.set_deleted None None b = b.
Proof. destruct b; cbn; by intros -> ->. Qed.

Lemma replaced_elem (i : Z) (row r : Bookmark.t) (l : list Bookmark.t) :
  r ∈ map (fun r => if Bookmark.id r =? i then row else r) l <->
  (r = row /\ i ∈ map Bookmark.id l) \/ (r ∈ l /\ Bookmark.id r <> i).
Proof.
  rewrite list_elem_of_fmap. split.
  - intros (r0 & -> & Hr0).
    destruct (Z.eqb_spec (Bookmark.id r0) i) as [Hi|Hi]; [left|by right].
    split; [done|]. apply list_elem_of_fmap. by exists r0.
  - intros [[-> Hi]|[Hr Hi]].
    + apply list_elem_of_fmap in Hi as (r0 & -> & Hr0). exists r0.
      by rewrite Z.eqb_refl.
    + exists r. split; [|done]. by apply Z.eqb_neq in Hi as ->.
Qed.

(** X26. Deleting a bookmark through the API is a soft delete.  The row
    stays, with the time of deletion and the user as its deletion marks and
    its other columns as they were (the time of update apart); no other row
    changes.  The bookmark leaves the active bookmarks of the user, which
    are otherwise the same, and is listed in the recycle bin; one [delete]
    event is logged.  A bookmark that is not the user's is answered 404 and
    nothing changes. *)
Theorem bookmarks_delete_api_is_soft `{External} :
  forall (clock user_id bookmark_id : Z) (d : db),
    NoDup (map Bookmark.id (bookmarks d)) ->
    match find_bookmark user_id bookmark_id d with
    | None =>
        bookmarks_delete_api clock user_id bookmark_id d
        = (BookmarkError 404 "bookmark not found", d)
    | Some b =>
        exists (row : Bookmark.t) (d' : db),
          bookmarks_delete_api clock user_id bookmark_id d
          = (BookmarkDone "recycled" row, d')
          /\ bookmarks d'
             = map (fun r => if Bookmark.id r =? bookmark_id then row else r)
                   (bookmarks d)
          /\ Bookmark.deleted_at row = Some (utcnow clock)
          /\ Bookmark.deleted_by row = Some user_id
          /\ Bookmark.set_updated_at (Bookmark.updated_at b)
               (Bookmark.set_deleted (Bookmark.deleted_at b)
                  (Bookmark.deleted_by b) row) = b
          /\ (forall r, r ∈ _active_server_bookmarks user_id d' <->
                        r ∈ _active_server_bookmarks user_id d
                        /\ Bookmark.id r <> bookmark_id)
          /\ row ∈ recycle_list_api user_id d'
          /\ logged "delete" "bookmark" bookmark_id d d'
          /\ folders d' = folders d /\ tags d' = tags d
          /\ bookmark_content d' = bookmark_content d
    end.
Proof.
  intros clock user_id bookmark_id d Hnd.
  unfold bookmarks_delete_api, _get_user_bookmark_or_404.
  destruct (find_bookmark user_id bookmark_id d) as [b|] eqn:Hb; [|done].
  destruct (set_deleted_spec clock user_id bookmark_id (Some (utcnow clock))
              (Some user_id) "delete" d b Hnd Hb)
    as (Hrows & Hfind & Hrefresh & _ & Hat & Hby & Hlog & Hf & Ht & Hc & _).
  destruct (find_bookmark_Some _ _ _ _ Hb) as (Hin & Hid & Huser).
  destruct (find_bookmark_Some _ _ _ _ Hfind) as (Hin' & Hid' & Huser').
  cbv zeta in *. eexists. eexists. split; [by rewrite Hrefresh|].
  split; [exact Hrows|]. split; [exact Hat|]. split; [exact Hby|].
  split.
  { destruct (bool_decide_reflect
                (b = Bookmark.set_deleted (Some (utcnow clock))
                       (Some user_id) b)); by destruct b. }
  split.
  { intros r. unfold _active_server_bookmarks.
    rewrite !order_by_elem, !filter_elem, Hrows, replaced_elem. split.
    - intros [[[-> _]|[Hr Hri]] Hp]; [|done].
      rewrite Hat in Hp. by rewrite andb_false_r in Hp.
    - intros [[Hr Hp] Hri]. split; [by right|done]. }
  split.
  { unfold recycle_list_api. rewrite order_by_elem, filter_elem.
    split; [exact Hin'|]. by rewrite Huser', Hat, Z.eqb_refl. }
  done.
Qed.

Lemma bookmarks_delete_api_is_soft_witness :
  let d := with_bookmarks [demo_bookmark 1 1 "a" T0 None;
                           demo_bookmark 2 2 "b" T0 None] empty_db in
  exists (row : Bookmark.t) (d' : db),
    bookmarks_delete_api 5 1 1 d = (BookmarkDone "recycled" row, d')
    /\ bookmarks d'
       = map (fun r => if Bookmark.id r =? 1 then row else r) (bookmarks d)
    /\ Bookmark.deleted_at row = Some (utcnow 5)
    /\ Bookmark.deleted_by row = Some 1
    /\ Bookmark.set_updated_at T0
         (Bookmark.set_deleted None None row) = demo_bookmark 1 1 "a" T0 None
    /\ (forall r, r ∈ _active_server_bookmarks 1 d' <->
                  r ∈ _active_server_bookmarks 1 d /\ Bookmark.id r <> 1)
    /\ row ∈ recycle_list_api 1 d'
    /\ logged "delete" "bookmark" 1 d d'
    /\ folders d' = folders d /\ tags d' = tags d
    /\ bookmark_content d' = bookmark_content d.
Proof.
  intros d. apply (bookmarks_delete_api_is_soft 5 1 1 d).
  vm_compute. repeat constructor; rewrite ?elem_of_cons, elem_of_nil;
    intros Hin; repeat destruct Hin as [Hin|Hin]; try discriminate; done.
Defined.

(** X27. Restoring a bookmark that was deleted through the API undoes the
    deletion.  After the two requests the bookmark is a row without deletion
    marks whose other columns are the ones it had, the time of update
    apart; a bookmark that was active is the row it was, updated at the
    time of the restore.  No other row changes, the bookmark is among the
    active bookmarks of the user and not in the recycle bin, and the log
    has grown by the [delete] and the [restore] event of the bookmark. *)
Theorem bookmark_delete_restore_round_trip `{External} :
  forall (clock clock' user_id bookmark_id : Z) (d : db) (b : Bookmark.t),
    NoDup (map Bookmark.id (bookmarks d)) ->
    find_bookmark user_id bookmark_id d = Some b ->
    let d1 := (bookmarks_delete_api clock user_id bookmark_id d).2 in
    let restored := recycle_restore_api clock' user_id bookmark_id d1 in
    let final :=
      Bookmark.set_updated_at (utcnow clock')
        (Bookmark.set_deleted None None b) in
    restored.1 = BookmarkDone "restored" final
    /\ bookmarks restored.2
       = map (fun r => if Bookmark.id r =? bookmark_id then final else r)
             (bookmarks d)
    /\ (Bookmark.deleted_at b = None -> Bookmark.deleted_by b = None ->
        final = Bookmark.set_updated_at (utcnow clock') b)
    /\ final ∈ _active_server_bookmarks user_id restored.2
    /\ (forall r, r ∈ recycle_list_api user_id restored.2 ->
                  r ∈ recycle_list_api user_id d
                  /\ Bookmark.id r <> bookmark_id)
    /\ map (fun e => (SyncEvent.entity_type e, SyncEvent.entity_id e,
                      SyncEvent.action e))
           (drop (length (sync_events d)) (sync_events restored.2))
       = [("bookmark"%string, Some bookmark_id, "delete"%string);
          ("bookmark"%string, Some bookmark_id, "restore"%string)]
    /\ folders restored.2 = folders d /\ tags restored.2 = tags d
    /\ bookmark_content restored.2 = bookmark_content d.
Proof.
  intros clock clock' user_id bookmark_id d b Hnd Hb. cbv zeta.
  unfold bookmarks_delete_api, recycle_restore_api, _get_user_bookmark_or_404.
  rewrite Hb. cbn [snd].
  destruct (set_deleted_spec clock user_id bookmark_id (Some (utcnow clock))
              (Some user_id) "delete" d b Hnd Hb)
    as (Hrows & Hfind & _ & Hnd1 & Hat & _ & Hlog & Hf & Ht & Hc & _).
  cbv zeta in *.
  set (d1 := log_sync_event clock user_id "bookmark" _ "delete" _ _) in *.
  set (row1 := if bool_decide _ then b else _) in *.
  rewrite Hfind.
  destruct (set_deleted_spec clock' user_id bookmark_id None None "restore"
              d1 row1 Hnd1 Hfind)
    as (Hrows2 & Hfind2 & Hrefresh2 & _ & Hat2 & Hby2 & Hlog2 & Hf2 & Ht2
        & Hc2 & _).
  cbv zeta in *.
  set (d2 := log_sync_event clock' user_id "bookmark" _ "restore" _ _) in *.
  assert (Hfinal :
            (if bool_decide (row1 = Bookmark.set_deleted None None row1)
             then row1
             else Bookmark.set_updated_at (utcnow clock')
                    (Bookmark.set_deleted None None row1))
            = Bookmark.set_updated_at (utcnow clock')
                (Bookmark.set_deleted None None b)).
  { rewrite bool_decide_eq_false_2.
    - subst row1. by destruct (bool_decide _).
    - intros Heq. rewrite Heq in Hat. discriminate. }
  rewrite Hfinal in *. clear Hfinal.
  set (final := Bookmark.set_updated_at (utcnow clock') _) in *.
  destruct (find_bookmark_Some _ _ _ _ Hb) as (Hin & Hid & Huser).
  destruct (find_bookmark_Some _ _ _ _ Hfind2) as (Hin2 & Hid2 & Huser2).
  assert (Hrows' : bookmarks d2
                   = map (fun r => if Bookmark.id r =? bookmark_id then final
                                   else r) (bookmarks d)).
  { rewrite Hrows2, Hrows, map_map. apply map_ext. intros r.
    destruct (Z.eqb_spec (Bookmark.id r) bookmark_id) as [Hr|Hr].
    - assert (Hrow1 : Bookmark.id row1 = bookmark_id)
        by (by apply find_bookmark_Some in Hfind as (_ & ? & _)).
      by rewrite Hrow1, Z.eqb_refl.
    - by apply Z.eqb_neq in Hr as ->. }
  cbn [fst snd]. split; [by rewrite Hrefresh2|]. split; [exact Hrows'|].
  split.
  { intros Hda Hdb. unfold final. by rewrite set_deleted_None. }
  split.
  { unfold _active_server_bookmarks. rewrite order_by_elem, filter_elem.
    split; [exact Hin2|]. by rewrite Huser2, Hat2, Z.eqb_refl. }
  split.
  { intros r. unfold recycle_list_api.
    rewrite !order_by_elem, !filter_elem, Hrows', replaced_elem.
    intros [[[-> _]|[Hr Hri]] Hp]; [|done].
    rewrite Hat2 in Hp. by rewrite andb_false_r in Hp. }
  split; [|by rewrite Hf2, Ht2, Hc2].
  destruct Hlog as (e1 & He1 & Ha1 & Ht1 & Hi1).
  destruct Hlog2 as (e2 & He2 & Ha2 & Ht2' & Hi2).
  rewrite He2, He1, <- app_assoc, drop_app_length. cbn.
  by rewrite Ha1, Ht1, Hi1, Ha2, Ht2', Hi2.
Qed.

Lemma bookmark_delete_restore_round_trip_witness :
  let d := with_bookmarks [demo_bookmark 1 1 "a" T0 None;
                           demo_bookmark 2 2 "b" T0 None] empty_db in
  let d1 := (bookmarks_delete_api 5 1 1 d).2 in
  let restored := recycle_restore_api 6 1 1 d1 in
  let final :=
    Bookmark.set_updated_at (utcnow 6)
      (Bookmark.set_deleted None None (demo_bookmark 1 1 "a" T0 None)) in
  restored.1 = BookmarkDone "restored" final
  /\ bookmarks restored.2
     = map (fun r => if Bookmark.id r =? 1 then final else r) (bookmarks d)
  /\ (Bookmark.deleted_at (demo_bookmark 1 1 "a" T0 None) = None ->
      Bookmark.deleted_by (demo_bookmark 1 1 "a" T0 None) = None ->
      final = Bookmark.set_updated_at (utcnow 6)
                (demo_bookmark 1 1 "a" T0 None))
  /\ final ∈ _active_server_bookmarks 1 restored.2
  /\ (forall r, r ∈ recycle_list_api 1 restored.2 ->
                r ∈ recycle_list_api 1 d /\ Bookmark.id r <> 1)
  /\ map (fun e => (SyncEvent.entity_type e, SyncEvent.entity_id e,
                    SyncEvent.action e))
         (drop (length (sync_events d)) (sync_events restored.2))
     = [("bookmark"%string, Some 1, "delete"%string);
        ("bookmark"%string, Some 1, "restore"%string)]
  /\ folders restored.2 = folders d /\ tags restored.2 = tags d
  /\ bookmark_content restored.2 = bookmark_content d.
Proof.
  intros d.
  apply (bookmark_delete_restore_round_trip 5 6 1 1 d
           (demo_bookmark 1 1 "a" T0 None)).
  - vm_compute. repeat constructor; rewrite ?elem_of_cons, elem_of_nil;
      intros Hin; repeat destruct Hin as [Hin|Hin]; try discriminate; done.
  - reflexivity.
Defined.

(** ** Applying the first sync (api/routes.py, [sync_first_apply]) *)



(** ** Replacing the server by the local snapshot (routes.py,
       [_replace_server_with_local_snapshot]) *)

Lemma bookmarks_untouched_refl (user_id : Z) (d : db) :
  bookmarks_untouched user_id d d.
Proof. split; [done|apply log_extends_refl]. Qed.

Lemma bookmarks_untouched_trans (user_id : Z) (d1 d2 d3 : db) :
  bookmarks_untouched user_id d1 d2 -> bookmarks_untouched user_id d2 d3 ->
  bookmarks_untouched user_id d1 d3.
Proof.
  intros [Hb1 Hl1] [Hb2 Hl2]. split; [congruence|].
  by eapply log_extends_trans.
Qed.

Section ReplaceServer.
Context `{External}.
Variables (clock user_id : Z).

Lemma find_or_create_folder_untouched (name : string) (parent_id : option Z)
    (d : db) :
  bookmarks_untouched user_id d
    (find_or_create_folder clock user_id name parent_id d).2.
Proof.
  unfold find_or_create_folder.
  destruct (find_folder_by_name user_id name parent_id d);
    [apply bookmarks_untouched_refl|].
  cbn. split; [done|].
  apply log_extends_log. apply (log_extends_same _ _ d); [done|].
  apply log_extends_refl.
Qed.

Lemma ensure_path_untouched (path_parts : list string) :
  forall (parent_id : option Z) (st : folder_state),
    bookmarks_untouched user_id (store st)
      (store (ensure_path clock user_id path_parts parent_id st).2).
Proof.
  induction path_parts as [|part parts IH]; intros parent_id st;
    cbn [ensure_path]; [apply bookmarks_untouched_refl|].
  destruct (negb (Py.truthy (Py.strip part))); [apply IH|].
  destruct (cache st !! _); [apply IH|].
  pose proof (find_or_create_folder_untouched (Py.strip part) parent_id
                (store st)) as Hf.
  destruct (find_or_create_folder _ _ _ _ _) as [folder d1].
  eapply bookmarks_untouched_trans; [exact Hf|]. apply IH.
Qed.

Lemma materialize_pass_untouched (items : list LocalFolder.t) :
  forall st : folder_state,
    bookmarks_untouched user_id (store st)
      (store (materialize_pass clock user_id items st).1.1).
Proof.
  induction items as [|row items IH]; intros st; cbn [materialize_pass];
    [apply bookmarks_untouched_refl|].
  destruct (match LocalFolder.parent_id row with Some _ => _ | None => _ end).
  - specialize (IH st).
    by destruct (materialize_pass clock user_id items st) as [[st' p] b].
  - pose proof (find_or_create_folder_untouched (LocalFolder.title row)
                  (mapping_get (mapping st) (LocalFolder.parent_id row))
                  (store st)) as Hf.
    destruct (find_or_create_folder _ _ _ _ _) as [folder d1].
    match goal with
    | |- context [materialize_pass clock user_id items ?s] =>
        specialize (IH s);
        destruct (materialize_pass clock user_id items s) as [[st' p] b]
    end.
    by eapply bookmarks_untouched_trans.
Qed.

Lemma attach_at_root_untouched (items : list LocalFolder.t)
    (st : folder_state) :
  bookmarks_untouched user_id (store st)
    (store (attach_at_root clock user_id items st)).
Proof.
  unfold attach_at_root.
  apply (foldl_inv _ (fun s s' => bookmarks_untouched user_id (store s)
                                    (store s'))).
  - intros s. apply bookmarks_untouched_refl.
  - intros s1 s2 s3. apply bookmarks_untouched_trans.
  - intros row s _.
    pose proof (find_or_create_folder_untouched (LocalFolder.title row) None
                  (store s)) as Hf.
    by destruct (find_or_create_folder _ _ _ _ _) as [folder d1].
Qed.

Lemma materialize_loop_untouched (steps : nat) :
  forall (pending : list LocalFolder.t) (st st' : folder_state),
    materialize_loop steps clock user_id pending st = Ok st' ->
    bookmarks_untouched user_id (store st) (store st').
Proof.
  induction steps as [|steps IH]; intros pending st st';
    destruct pending as [|row pending]; cbn [materialize_loop];
    try (intros [= <-]; apply bookmarks_untouched_refl).
  pose proof (materialize_pass_untouched (row :: pending) st) as Hp.
  destruct (materialize_pass clock user_id (row :: pending) st)
    as [[st1 pending1] progressed].
  cbn [fst] in Hp. destruct progressed.
  - intros Hloop. eapply bookmarks_untouched_trans; [exact Hp|].
    by eapply IH.
  - intros [= <-]. eapply bookmarks_untouched_trans; [exact Hp|].
    apply attach_at_root_untouched.
Qed.

Lemma ensure_bookmark_paths_untouched (local_bookmarks : list LocalBookmark.t)
    (st : folder_state) :
  bookmarks_untouched user_id (store st)
    (store (ensure_bookmark_paths clock user_id local_bookmarks st)).
Proof.
  unfold ensure_bookmark_paths.
  apply (foldl_inv _ (fun s s' => bookmarks_untouched user_id (store s)
                                    (store s'))).
  - intros s. apply bookmarks_untouched_refl.
  - intros s1 s2 s3. apply bookmarks_untouched_trans.
  - intros item s _.
    destruct (match LocalBookmark.folder_local_id item with
              | Some _ => _ | None => _ end);
      [apply bookmarks_untouched_refl|].
    destruct (LocalBookmark.folder_path item) as [|part parts];
      [apply bookmarks_untouched_refl|].
    pose proof (ensure_path_untouched (part :: parts) None s) as Hp.
    destruct (ensure_path clock user_id (part :: parts) None s)
      as [ensured st1].
    cbn [snd] in Hp.
    destruct (LocalBookmark.folder_local_id item) as [l|]; [|exact Hp].
    destruct ensured as [e|]; [|exact Hp].
    by destruct (Py.truthy l && negb (e =? 0)).
Qed.

Lemma ensure_server_folders_untouched (local_folders : list LocalFolder.t)
    (local_bookmarks : list LocalBookmark.t) (d : db) (m : gmap string Z)
    (d' : db) :
  _ensure_server_folders_from_local clock user_id local_folders
    local_bookmarks d = Ok (m, d') ->
  bookmarks_untouched user_id d d'.
Proof.
  unfold _ensure_server_folders_from_local.
  destruct (materialize_loop _ _ _ _ _) as [st|e] eqn:Hloop;
    cbn [mbind result_bind]; [|discriminate].
  intros [= _ <-]. apply materialize_loop_untouched in Hloop.
  eapply bookmarks_untouched_trans; [exact Hloop|].
  apply ensure_bookmark_paths_untouched.
Qed.

Lemma delete_server_folder_tree_untouched (d : db) (n : Z) (d' : db) :
  _delete_server_folder_tree clock user_id d = Ok (n, d') ->
  bookmarks_untouched user_id d d'.
Proof.
  unfold _delete_server_folder_tree.
  destruct (List.filter _ (folders d)) as [|r rows].
  - intros [= <- <-]. apply bookmarks_untouched_refl.
  - destruct (rfold _ _ _) as [st1|e]; cbn [mbind result_bind];
      [|discriminate].
    destruct (rfold _ _ _) as [st2|e]; cbn [mbind result_bind];
      [|discriminate].
    intros [= <- <-].
    destruct (delete_ordered_spec clock user_id st2.2 d)
      as (Hf & Hb & _ & _ & _ & _ & Hl & _).
    by split.
Qed.

Lemma flushed_id (r b' : Bookmark.t) :
  Bookmark.id (flushed clock r b') = Bookmark.id b'.
Proof. unfold flushed. by destruct (bool_decide_reflect (r = b')) as [->|]. Qed.

Lemma flush_one_row (b b' : Bookmark.t) (d : db) :
  NoDup (map Bookmark.id (bookmarks d)) -> b ∈ bookmarks d ->
  Bookmark.id b' = Bookmark.id b ->
  bookmarks (flush_bookmark clock b' d)
  = map (fun r => if Bookmark.id r =? Bookmark.id b then flushed clock b b'
                  else r) (bookmarks d).
Proof.
  intros Hnd Hin Hid. unfold flush_bookmark.
  cbn [bookmarks with_bookmarks]. apply map_ext_in. intros r Hr.
  apply list_elem_of_In in Hr. rewrite Hid.
  destruct (Z.eqb_spec (Bookmark.id r) (Bookmark.id b)) as [Hri|Hri]; [|done].
  by rewrite (NoDup_fmap_inj Bookmark.id (bookmarks d) r b Hnd Hr Hin Hri).
Qed.

(** A loop that changes the rows of a list of bookmarks of the store, one
    after the other, has changed exactly these rows. *)
Lemma flush_each_spec (f : db -> Bookmark.t -> db)
    (g : Bookmark.t -> Bookmark.t) :
  (forall x, Bookmark.id (g x) = Bookmark.id x) ->
  (forall d x, bookmarks (f d x) = bookmarks (flush_bookmark clock (g x) d)) ->
  forall (l : list Bookmark.t) (d : db),
    NoDup (map Bookmark.id (bookmarks d)) -> NoDup l ->
    (forall x, x ∈ l -> x ∈ bookmarks d) ->
    bookmarks (foldl f d l)
    = map (fun r => if bool_decide (r ∈ l) then flushed clock r (g r) else r)
          (bookmarks d).
Proof.
  intros Hg Hf. induction l as [|x l IH]; intros d Hnd Hl Hin; cbn [foldl].
  - rewrite <- (map_id (bookmarks d)) at 1. apply map_ext. intros r.
    rewrite bool_decide_eq_false_2; [done|]. by intros Hr%elem_of_nil.
  - apply NoDup_cons in Hl as [Hx Hl].
    assert (Hxd : x ∈ bookmarks d) by (apply Hin; by left).
    assert (Hd1 : bookmarks (f d x)
                  = map (fun r => if Bookmark.id r =? Bookmark.id x
                                  then flushed clock x (g x) else r)
                        (bookmarks d))
      by (rewrite Hf; by apply flush_one_row).
    assert (Hother : forall y, y ∈ l -> Bookmark.id y <> Bookmark.id x).
    { intros y Hy Hyx. apply Hx.
      assert (Hyd : y ∈ bookmarks d) by (apply Hin; by right).
      by rewrite <- (NoDup_fmap_inj Bookmark.id (bookmarks d) y x Hnd Hyd Hxd
                       Hyx). }
    rewrite IH; [|by rewrite Hf, flush_bookmark_ids|exact Hl|].
    + rewrite Hd1, map_map. apply map_ext_in. intros r Hr.
      apply list_elem_of_In in Hr.
      destruct (Z.eqb_spec (Bookmark.id r) (Bookmark.id x)) as [Hri|Hri].
      * rewrite (NoDup_fmap_inj Bookmark.id (bookmarks d) r x Hnd Hr Hxd Hri).
        rewrite (bool_decide_eq_true_2 (x ∈ x :: l)); [|by left].
        rewrite bool_decide_eq_false_2; [done|]. intros Hfl.
        apply (Hother _ Hfl). by rewrite flushed_id.
      * rewrite (bool_decide_ext (r ∈ l) (r ∈ x :: l)); [done|].
        rewrite elem_of_cons. split; [by right|].
        intros [->|Hr']; [done|exact Hr'].
    + intros y Hy. rewrite Hd1. apply list_elem_of_fmap. exists y.
      split; [|apply Hin; by right].
      by destruct (Z.eqb_spec (Bookmark.id y) (Bookmark.id x)) as [Hyx|_];
        [destruct (Hother y Hy Hyx)|].
Qed.

Lemma create_server_bookmark_any (item : LocalBookmark.t)
    (folder_map : gmap string Z) (d : db) :
  match _create_server_bookmark_from_local clock user_id item folder_map
          false d with
  | (None, d') => d' = d
  | (Some b, d') =>
      bookmarks d' = bookmarks d ++ [b]
      /\ Bookmark.id b = next_id (map Bookmark.id (bookmarks d))
      /\ Bookmark.user_id b = user_id
      /\ Bookmark.deleted_at b = None
      /\ log_extends user_id d d'
  end.
Proof.
  unfold _create_server_bookmark_from_local.
  destruct (negb (Py.truthy _)); [done|]. unfold _assign_tags.
  pose proof (apply_tags_tables user_id (LocalBookmark.tags item) d) as Ht.
  destruct (_apply_tags user_id (LocalBookmark.tags item) d) as [names d1].
  cbn [snd] in Ht. destruct Ht as (Hev & Hb & _).
  split; [cbn; by rewrite Hb|]. split; [done|].
  split; [done|]. split; [done|].
  apply log_extends_log. apply (log_extends_same _ _ d); [exact Hev|].
  apply log_extends_refl.
Qed.

(** The columns that the two loops over the bookmarks leave alone. *)
Lemma replaced_columns (r : Bookmark.t) (deleted : bool) :
  let g1 := Bookmark.set_deleted (Some (utcnow clock)) (Some user_id) in
  let g2 := Bookmark.set_folder_id None in
  let r1 := if deleted then flushed clock r (g1 r) else r in
  Bookmark.set_updated_at (Bookmark.updated_at r)
    (Bookmark.set_folder_id (Bookmark.folder_id r)
       (Bookmark.set_deleted (Bookmark.deleted_at r) (Bookmark.deleted_by r)
          (flushed clock r1 (g2 r1)))) = r.
Proof.
  unfold flushed.
  destruct deleted; repeat (destruct (bool_decide _)); by destruct r.
Qed.

(** The loop that creates the local bookmarks on the server. *)
Lemma create_loop_spec
    (f : gmap string Z * list Z * Z * db -> LocalBookmark.t
         -> gmap string Z * list Z * Z * db)
    (folder_map : gmap string Z) :
  (forall bm ids cnt d item,
     f (bm, ids, cnt, d) item
     = match _create_server_bookmark_from_local clock user_id item
               folder_map false d with
       | (None, d') => (bm, ids, cnt, d')
       | (Some created, d') =>
           (map_local_id (LocalBookmark.id item) (Bookmark.id created) bm,
            ids ++ [Bookmark.id created], cnt + 1, d')
       end) ->
  forall (items : list LocalBookmark.t) (bm : gmap string Z) (ids : list Z)
         (cnt : Z) (d : db),
    exists new,
      bookmarks (foldl f (bm, ids, cnt, d) items).2 = bookmarks d ++ new
      /\ (foldl f (bm, ids, cnt, d) items).1.1.2
         = ids ++ map Bookmark.id new
      /\ (foldl f (bm, ids, cnt, d) items).1.2 = cnt + Z.of_nat (length new)
      /\ Forall (fun b => Bookmark.user_id b = user_id
                          /\ Bookmark.deleted_at b = None) new
      /\ (NoDup (map Bookmark.id (bookmarks d)) ->
          NoDup (map Bookmark.id (bookmarks d ++ new)))
      /\ log_extends user_id d (foldl f (bm, ids, cnt, d) items).2.
Proof.
  intros Hf. induction items as [|item items IH]; intros bm ids cnt d;
    cbn [foldl].
  - exists []. cbn [fst snd map length app]. rewrite !app_nil_r.
    split; [done|]. split; [done|]. split; [lia|]. split; [constructor|].
    split; [done|apply log_extends_refl].
  - rewrite Hf.
    pose proof (create_server_bookmark_any item folder_map d) as Hc.
    destruct (_create_server_bookmark_from_local clock user_id item
                folder_map false d) as [[b|] d1].
    + destruct Hc as (Hb & Hid & Hu & Hda & Hl).
      destruct (IH (map_local_id (LocalBookmark.id item) (Bookmark.id b) bm)
                  (ids ++ [Bookmark.id b]) (cnt + 1) d1)
        as (new & Hnew & Hids & Hcnt & Hall & Hnd & Hlog).
      exists (b :: new). rewrite Hnew, Hids, Hcnt, Hb, <- !app_assoc.
      cbn [app map length]. split; [done|]. split; [done|].
      split; [lia|]. split; [by constructor|]. split.
      * intros Hd. change (b :: new) with ([b] ++ new).
        rewrite (assoc_L app (bookmarks d) [b] new), <- Hb.
        apply Hnd. rewrite Hb, map_app. apply NoDup_app.
        split; [exact Hd|]. split; [|apply NoDup_singleton].
        intros i Hi Hib. apply list_elem_of_singleton in Hib as ->.
        rewrite Hid in Hi. by apply next_id_not_in in Hi.
      * by eapply log_extends_trans.
    + subst d1. apply IH.
Qed.


End ReplaceServer.


Lemma ensure_server_folders_returns `{External} (clock user_id : Z)
    (local_folders : list LocalFolder.t)
    (local_bookmarks : list LocalBookmark.t) (d : db) :
  exists (m : gmap string Z) (d' : db),
    _ensure_server_folders_from_local clock user_id local_folders
      local_bookmarks d = Ok (m, d').
Proof.
  unfold _ensure_server_folders_from_local.
  set (pending := dict_of_rows local_folders).
  set (st0 := {| mapping := ∅; cache := ∅; store := d |}).
  assert (Hinv0 : folder_inv d st0).
  { unfold folder_inv, st0. cbn.
    split; [exists []; by rewrite app_nil_r|]. split; [done|].
    split; intros k s Hl; by rewrite lookup_empty in Hl. }
  destruct (materialize_loop_spec clock user_id d pending (length pending)
              pending st0) as (st1 & -> & _); try done.
  { intros k [s Hs]. unfold st0 in Hs. cbn in Hs.
    by rewrite lookup_empty in Hs. }
  cbn [mbind result_bind]. by eexists; eexists.
Qed.


